(* ===== verification/_CoqProject ===== *)
-Q . S2P
Prelude.v
Lists.v
Kernel.v
Sched.v
VTimer.v
Inherit.v
Sem.v
Semaphore.v
Msg.v
Mailbox.v
Rtproc.v
Irq.v
Dispatch.v
MiniIpc.v
Interrupts.v
Blocking.v
Faults.v
Rendezvous.v
Task.v
SemNames.v
Frame.v
System.v
MmAlloc.v
FsCache.v
FsChains.v
FsCoherence.v
FsSpec.v
FsMap.v
FsBitmap.v
FsInode.v
FsBytes.v
FsFile.v
FsIcopy.v
FsTable.v
