(* ===== verification/Prelude.v ===== *)
(** * MINIX4RT: a verification development

    MINIX4RT is MINIX 2 with a real-time kernel under it.  The kernel runs real-time
    processes by priority, gives them virtual timers, semaphores and messages, and
    lets MINIX run as the process of lowest priority; the memory manager and the file
    server are processes above it that talk by messages.  This library models the
    real-time kernel with MINIX's scheduler and message passing, the memory
    manager's allocator, and the file server from its buffer cache up to the inode
    table, and proves what makes each of them correct.

    ** How code is modelled

    Code is a function in the state and error monad [M] of this file: it ends with
    [Ok] and a new state, with [Panic] (kernel/misc.c, fs/utility.c and mm/utility.c
    stop there), with [Undef] where C leaves the behaviour undefined (a null, wild or
    uninitialised pointer, a division by zero), or with [NoFuel] when a loop has used up its fuel.
    Machine integers are [Z] with the wrap-around written out ([u32], [s32], [u16],
    ...), C structures are records with a functional update notation, tables are
    finite maps from indices, and a pointer into a table is an index.  The links
    that every queued kernel object embeds, and the list headers, are a store of
    their own ([lmem], Lists.v), so that aliasing is visible.  [deref], [notnull] and
    the [bind_ok] family of lemmas run the code in proofs; the hint databases and
    tactics of this file carry the common cases.

    Theorems about loops prove that the code returns, not only what it returns.  The
    fuel chosen is never reached in the states the theorems are about: 64 for walks
    over processes (there are 43), message queues (32 entries) and priority
    inheritance, 32 for the active timers (16), 130 for the hole list (128 slots),
    the number of buffers plus one for the cache's chains, the number of blocks for
    loops over the blocks of a zone or of a file.  Where a loop has no bound in the
    code (the queues of triggered interrupts, the clean-up of [MRT_set2nrt]) the fuel
    is an argument, and the theorems say how much is enough.

    ** The kernel (src/src/kernel)

    - Lists.v: [MRT_list_*] and [MRT_plist_*] of mrtlib.c, and that any sequence of
      them refines operations on plain sequences;
    - Kernel.v: the structures of type.h and proc.h, the global variables of glo.h as
      the record [kstate], the copies between user and kernel memory (kernel.h), and
      the state the tables start in;
    - Sched.v: [ready], [unready], [sched], [pick_proc] of proc.c and the real-time
      ready list; the MINIX queues refine three sequences, and the most urgent
      real-time process is picked;
    - VTimer.v: the delta queue of mrtvt.c; it refines a sorted list of remaining
      times, and a timer fires after exactly its period;
    - Inherit.v: [MRT_inherit] ends on every graph of waiting processes and restores
      the priorities along it; [MRT_disinherit] is undefined behaviour once priority
      inheritance is on, as the pointer it follows is never assigned;
    - Sem.v, Semaphore.v, SemNames.v: mrtsem.c; downs and ups refine counting
      semaphores and mutexes (without priority inheritance), and a semaphore is found by its name from allocation to
      release;
    - Msg.v, Mailbox.v: mrtmsg.c; posting and receiving refine a mailbox ordered by
      priority and arrival, refused calls included, and no message queue entry is
      lost as long as what is posted is mapped;
    - Rtproc.v, Blocking.v: mrtproc.c and [rtk_call]; sleeping and waking up, and a
      receive with a timeout followed through the call, the ticks, the flush and the
      timer's action;
    - Irq.v, Dispatch.v, Interrupts.v: mrtirq.c and the timer actions of mrtvt.c;
      for handlers that keep the contract [Handlers], triggered interrupts are
      served in order and once, [lock] defers MINIX's interrupts to [unlock], and the
      dispatcher serves or queues by priority; a descriptor whose lock is held makes
      the flush hang;
    - MiniIpc.v, Rendezvous.v: [mini_send], [mini_rec], [sys_call], [interrupt] and
      [unhold] of proc.c, the interrupt handlers of the floppy driver and of spurious
      interrupts; as long as nobody sends to itself the graph of waiting senders stays acyclic, the deadlock
      check is exact, senders are served in order;
    - Task.v: mrttask.c, the 28 requests of the real-time system task;
    - Frame.v, System.v: all operations as the steps of one system, and that no
      process is real-time unless the kernel is in real-time mode, with every table
      keeping its slots;
    - Faults.v: runs that end in a panic, undefined behaviour, a loop, a corrupted
      list or a lost entry.

    ** The memory manager (src/src/mm)

    - MmAlloc.v: the hole list of alloc.c refines first-fit allocation on sorted and
      coalesced holes; allocation and release are exact on the set of free clicks.

    ** The file server (src/src/fs)

    - FsCache.v, FsChains.v, FsCoherence.v, FsSpec.v: cache.c and cache2.c.  For every
      client the two cache levels are invisible: a block holds what was last written;
    - FsMap.v, FsBitmap.v: super.c, [alloc_zone] and [free_zone]; bit maps and zones
      refine a set of free numbers.  From here on the proofs use the cache through
      its specification ([acache], [repr]) only;
    - FsInode.v, FsBytes.v, FsFile.v: inode.c, write.c, [read_map], [rd_indir] and
      [truncate]; the map of a file with its indirect blocks refines a function from
      zone indices to zones, on top of the zones' specification ([zone_inv]);
    - FsIcopy.v, FsTable.v: inodes survive the way to the disk and back in both
      layouts and byte orders, and the inode table is an invisible write-back cache as
      long as no file is deleted.

    ** Parameters

    Code that is not part of the sources, or is reached through function pointers or
    messages, is an argument: [run_handler] is what calling an interrupt handler at a
    code address does, and the class [Handlers] (Interrupts.v) states what the kernel
    needs of it, with the handlers of the floppy driver and of spurious interrupts as
    an instance; [Driver] (FsCache.v) is what the file server's messages to the
    device drivers do, and the class [Reliable] states that transfers do not fail and
    that a block read is the block last written, with a RAM disk as an instance.  The
    replies of the system task to [mem_init] are an argument, a failed exchange
    included; so is, as a field of the file server's state, the answer of the clock
    task with its status.

    ** Not modelled

    Interrupts inside handlers and inside kernel code (a step runs to its end), device
    drivers apart from two interrupt handlers, and the timer chip beyond the registers the kernel keeps, start-up code
    and assembly, debugging output, the rest of MINIX's system task, of the memory
    manager and of the file server (reading and writing of file contents, directories,
    system calls on them), the network server, libraries and programs.  These are
    MINIX 2 code that real time did not change, programming of hardware, or exchanges
    of messages.  [truncate], [new_block], [clear_zone] and [alloc_inode] are modelled
    without a theorem of their own. *)

From stdpp Require Import base gmap strings numbers fin_maps functions list.
Local Open Scope Z_scope.

(** ** Outcomes of kernel code

    A piece of kernel code that works on a state [S] and returns an [A] either
    finishes, stops the machine with [panic] (kernel/misc.c does not return),
    runs into behaviour C leaves undefined (a [NULL], wild or uninitialised
    pointer is dereferenced, an object pointer is used at the wrong type, or a
    division by zero), or is still running when the fuel of a loop is used up. *)
Inductive ub :=
  | NullPtr
  | WildPtr
  | Uninit
  | WrongType
  | DivZero.

Inductive res (S A : Type) :=
  | Ok (s : S) (a : A)
  | Panic (msg : string) (n : Z)
  | Undef (u : ub)
  | NoFuel.
Arguments Ok {S A} s a.
Arguments Panic {S A} msg n.
Arguments Undef {S A} u.
Arguments NoFuel {S A}.

Definition M (S A : Type) : Type := S → res S A.

#[export] Instance M_ret {S} : MRet (M S) := λ A a s, Ok s a.

#[export] Instance M_bind {S} : MBind (M S) := λ A B k m s,
  match m s with
  | Ok s' a => k a s'
  | Panic msg n => Panic msg n
  | Undef u => Undef u
  | NoFuel => NoFuel
  end.

Definition gets {S A} (f : S → A) : M S A := λ s, Ok s (f s).
Definition modify {S} (f : S → S) : M S unit := λ s, Ok (f s) ().
Definition panic {S A} (msg : string) (n : Z) : M S A := λ _, Panic msg n.
Definition undef {S A} (u : ub) : M S A := λ _, Undef u.

(** Dereferencing: an absent object is a wild pointer, [None] is [NULL]. *)
Definition deref {S A} (o : option A) : M S A :=
  match o with Some a => mret a | None => undef WildPtr end.

Definition notnull {S A} (o : option A) : M S A :=
  match o with Some a => mret a | None => undef NullPtr end.

(** Running a component's code on its part of a larger state. *)
Definition zoom {S T A} (get : S → T) (put : T → S → S) (m : M T A) : M S A := λ s,
  match m (get s) with
  | Ok t a => Ok (put t s) a
  | Panic msg n => Panic msg n
  | Undef u => Undef u
  | NoFuel => NoFuel
  end.

(** [for (i = a; i < a + n; i++) body(i)] *)
Fixpoint for_ {S} (i : Z) (n : nat) (body : Z → M S unit) : M S unit :=
  match n with
  | O => mret ()
  | Datatypes.S n' => body i;; for_ (i + 1) n' body
  end.

Definition finished {S A} (r : res S A) : Prop :=
  match r with Ok _ _ => True | _ => False end.

(** ** Functional record update

    A record that is updated field by field declares its eta-expansion as an
    [Eta] instance; the updater of a projection is found by abstracting that
    projection in it. *)
Class Eta (R : Type) := eta : R → R.

Class Updater {R T : Type} (p : R → T) := upd : (T → T) → R → R.
Arguments upd {R T} p {_} f r.

Ltac mk_updater :=
  lazymatch goal with
  | |- @Updater ?R ?T ?p =>
      let H := constr:(@eta R _) in
      let b := eval hnf in H in
      let u := constr:(fun (f : T -> T) (r : R) =>
        ltac:(let e := eval cbv beta in (b r) in
              let e' := eval pattern (p r) in e in
              lazymatch e' with
              | ?g _ => let t := eval cbv beta in (g (f (p r))) in exact t
              end)) in
      exact u
  end.

#[export] Hint Extern 1 (Updater _) => mk_updater : typeclass_instances.

Notation "r <| p := v |>" := (upd p (λ _, v) r)
  (at level 1, left associativity, format "r  <| p  :=  v |>").
Notation "r <| p ::= f |>" := (upd p f r)
  (at level 1, left associativity, format "r  <| p  ::=  f |>").

(** ** Bits and machine integers (the macros of include/minix/const.h) *)
Definition SET_BIT (a b : Z) : Z := Z.lor a b.
Definition CLR_BIT (a b : Z) : Z := Z.land a (Z.lnot b).
Definition TEST_BIT (a b : Z) : bool := negb (Z.land a b =? 0).
Definition MAX (a b : Z) : Z := if a >? b then a else b.
Definition MIN (a b : Z) : Z := if a <? b then a else b.

(** The number of a [panic] that has none to print. *)
Definition NO_NUM : Z := 0x8000.

(** [int] and [long] are 32 bits wide on the i386 build. *)
Definition u32 (x : Z) : Z := x mod 2 ^ 32.
Definition s32 (x : Z) : Z := (x + 2 ^ 31) mod 2 ^ 32 - 2 ^ 31.

Lemma u32_s32 x : u32 (s32 x) = u32 x.
Proof. unfold u32, s32. rewrite Zminus_mod_idemp_l. f_equal. lia. Qed.
Lemma s32_u32 x : s32 (u32 x) = s32 x.
Proof. unfold u32, s32. by rewrite Zplus_mod_idemp_l. Qed.
Lemma s32_id x : - 2 ^ 31 ≤ x < 2 ^ 31 → s32 x = x.
Proof. intros Hx. unfold s32. rewrite Z.mod_small; lia. Qed.
Lemma u32_id x : 0 ≤ x < 2 ^ 32 → u32 x = x.
Proof. intros Hx. unfold u32. by apply Z.mod_small. Qed.
Lemma u32_range x : 0 ≤ u32 x < 2 ^ 32.
Proof. unfold u32. by apply Z.mod_pos_bound. Qed.
Lemma s32_range x : - 2 ^ 31 ≤ s32 x < 2 ^ 31.
Proof. unfold s32. pose proof (Z.mod_pos_bound (x + 2 ^ 31) (2 ^ 32) ltac:(lia)). lia. Qed.

(** ** Running monadic code *)

Section run.
Context {S : Type}.

Lemma bind_ok {A B} (m : M S A) (k : A → M S B) s s' a :
  m s = Ok s' a → (m ≫= k) s = k a s'.
Proof. intros H. unfold mbind, M_bind. by rewrite H. Qed.

Lemma bind_inv {A B} (m : M S A) (k : A → M S B) s s' b :
  (m ≫= k) s = Ok s' b → ∃ s1 a, m s = Ok s1 a ∧ k a s1 = Ok s' b.
Proof. unfold mbind, M_bind. destruct (m s); naive_solver. Qed.

Lemma bind_assoc {A B C} (m : M S A) (k : A → M S B) (h : B → M S C) s :
  ((m ≫= k) ≫= h) s = (m ≫= λ a, k a ≫= h) s.
Proof. unfold mbind, M_bind. by destruct (m s). Qed.

Lemma ret_bind {A B} (a : A) (k : A → M S B) s : (mret a ≫= k) s = k a s.
Proof. done. Qed.

Lemma ret_ok {A} (a : A) (s : S) : (mret a : M S A) s = Ok s a.
Proof. done. Qed.

Lemma gets_ok {A} (f : S → A) s : gets f s = Ok s (f s).
Proof. done. Qed.

Lemma modify_ok (f : S → S) s : modify f s = Ok (f s) ().
Proof. done. Qed.

Lemma deref_ok {A} (o : option A) a (s : S) : o = Some a → deref o s = Ok s a.
Proof. by intros ->. Qed.

Lemma notnull_ok {A} (o : option A) a (s : S) : o = Some a → notnull o s = Ok s a.
Proof. by intros ->. Qed.

Lemma zoom_ok {T A} (get : S → T) put (m : M T A) s t a :
  m (get s) = Ok t a → zoom get put m s = Ok (put t s) a.
Proof. intros H. unfold zoom. by rewrite H. Qed.

Lemma zoom_inv {T A} (get : S → T) put (m : M T A) s s' a :
  zoom get put m s = Ok s' a → ∃ t, m (get s) = Ok t a ∧ s' = put t s.
Proof. unfold zoom. destruct (m (get s)); naive_solver. Qed.

(** A counting loop keeps an invariant that its body carries one step. *)
Lemma for_inv (I : Z → S → Prop) (body : Z → M S unit) n i s :
  (∀ j s0, i ≤ j < i + Z.of_nat n → I j s0 → ∃ s1, body j s0 = Ok s1 () ∧ I (j + 1) s1) →
  I i s → ∃ s', for_ i n body s = Ok s' () ∧ I (i + Z.of_nat n) s'.
Proof.
  revert i s. induction n as [|n IH]; intros i s Hb Hi.
  - exists s. split; [done|]. by replace (i + Z.of_nat 0) with i by lia.
  - destruct (Hb i s) as (s1 & Hrun & Hi1); [lia|done|].
    destruct (IH (i + 1) s1) as (s2 & Hrun2 & Hi2); [|done|].
    { intros j s0 Hj. apply Hb. lia. }
    exists s2. cbn [for_]. rewrite (bind_ok _ _ _ _ _ Hrun). split; [done|].
    by replace (i + Z.of_nat (Datatypes.S n)) with (i + 1 + Z.of_nat n) by lia.
Qed.
End run.

(** [mnext lem] runs the first command of a sequence with [lem]. *)
Tactic Notation "mnext" uconstr(lem) := erewrite bind_ok; [| eapply lem; eauto].

(** [minv H] opens [H : (m ≫= k) s = Ok s' b] once. *)
Ltac minv H :=
  let s := fresh "s" in let a := fresh "a" in let H1 := fresh "Hrun" in
  apply bind_inv in H as (s & a & H1 & H).

(** ** Bits *)

Create HintDb bits.

Lemma TEST_BIT_shift a p : 0 ≤ p → TEST_BIT a (Z.shiftl 1 p) = Z.testbit a p.
Proof.
  intros Hp. unfold TEST_BIT. rewrite Z.shiftl_1_l.
  destruct (Z.testbit a p) eqn:E.
  - apply negb_true_iff, Z.eqb_neq. intros H0.
    apply (f_equal (λ z, Z.testbit z p)) in H0.
    rewrite Z.land_spec, Z.pow2_bits_true, E, Z.bits_0 in H0 by done. done.
  - apply negb_false_iff, Z.eqb_eq, Z.bits_inj'. intros q Hq.
    rewrite Z.land_spec, Z.bits_0, Z.pow2_bits_eqb by done.
    destruct (Z.eqb_spec p q) as [->|]; [by rewrite E|by rewrite andb_false_r].
Qed.

Lemma SET_BIT_shift a p q :
  0 ≤ p → 0 ≤ q → Z.testbit (SET_BIT a (Z.shiftl 1 p)) q = (p =? q) || Z.testbit a q.
Proof.
  intros. unfold SET_BIT.
  rewrite Z.shiftl_1_l, Z.lor_spec, Z.pow2_bits_eqb by done. by rewrite orb_comm.
Qed.

Lemma CLR_BIT_shift a p q :
  0 ≤ p → 0 ≤ q → Z.testbit (CLR_BIT a (Z.shiftl 1 p)) q = negb (p =? q) && Z.testbit a q.
Proof.
  intros. unfold CLR_BIT.
  rewrite Z.shiftl_1_l, Z.land_spec, Z.lnot_spec, Z.pow2_bits_eqb by done. by rewrite andb_comm.
Qed.

Lemma SET_BIT_nonneg a b : 0 ≤ a → 0 ≤ b → 0 ≤ SET_BIT a b.
Proof. intros. by apply Z.lor_nonneg. Qed.

Lemma CLR_BIT_nonneg a b : 0 ≤ a → 0 ≤ CLR_BIT a b.
Proof. intros. apply Z.land_nonneg. by left. Qed.

#[export] Hint Resolve SET_BIT_nonneg CLR_BIT_nonneg : bits.

(** Flags: masks without a common bit do not interfere. *)
Lemma CLR_BIT_other f b c : Z.land b c = 0 → TEST_BIT (CLR_BIT f b) c = TEST_BIT f c.
Proof.
  intros H. unfold TEST_BIT, CLR_BIT. do 2 f_equal. rewrite <- Z.land_assoc. f_equal.
  apply Z.bits_inj'. intros n Hn. rewrite Z.land_spec, Z.lnot_spec by done. apply (f_equal (λ z, Z.testbit z n)) in H.
  rewrite Z.land_spec, Z.bits_0 in H. destruct (Z.testbit b n), (Z.testbit c n); done.
Qed.

Lemma SET_BIT_other f b c : Z.land b c = 0 → TEST_BIT (SET_BIT f b) c = TEST_BIT f c.
Proof. intros H. unfold TEST_BIT, SET_BIT. by rewrite Z.land_lor_distr_l, H, Z.lor_0_r. Qed.

Lemma CLR_BIT_same f b : TEST_BIT (CLR_BIT f b) b = false.
Proof. unfold TEST_BIT, CLR_BIT. by rewrite <- Z.land_assoc, (Z.land_comm (Z.lnot b)), Z.land_lnot_diag, Z.land_0_r. Qed.

Lemma SET_BIT_same f b : b ≠ 0 → TEST_BIT (SET_BIT f b) b = true.
Proof.
  intros H. unfold TEST_BIT, SET_BIT. rewrite Z.land_lor_distr_l, Z.land_diag. apply negb_true_iff, Z.eqb_neq.
  intros [_ ?]%Z.lor_eq_0_iff. done.
Qed.
Create Rewrite HintDb bits.
#[export] Hint Rewrite CLR_BIT_same CLR_BIT_other SET_BIT_same SET_BIT_other using (reflexivity || discriminate) : bits.

(** ** Lists *)

Lemma filter_ne_notin `{EqDecision A} (x : A) (xs : list A) : x ∉ xs → filter (λ y, y ≠ x) xs = xs.
Proof.
  induction xs as [|y xs IH]; intros Hx; [done|].
  rewrite filter_cons_True by set_solver. rewrite IH by set_solver. done.
Qed.

Lemma filter_ne_middle `{EqDecision A} (x : A) (l1 l2 : list A) :
  NoDup (l1 ++ x :: l2) → filter (λ y, y ≠ x) (l1 ++ x :: l2) = l1 ++ l2.
Proof.
  intros Hnd. rewrite <- Permutation_middle in Hnd. apply NoDup_cons in Hnd as [Hx _].
  rewrite filter_app, filter_cons_False by tauto. rewrite !filter_ne_notin by set_solver. done.
Qed.

(** Distinct integers of an interval. *)
Lemma NoDup_range_length (a b : Z) (xs : list Z) :
  NoDup xs → (∀ x, x ∈ xs → a ≤ x < b) → (length xs ≤ Z.to_nat (b - a))%nat.
Proof.
  intros Hnd Hr. rewrite <- (length_seqZ a (b - a)). apply submseteq_length, NoDup_submseteq; [done|].
  intros x Hx. apply elem_of_seqZ. specialize (Hr x Hx). lia.
Qed.

Lemma snoc_cases {A} (xs : list A) : xs = [] ∨ ∃ l t, xs = l ++ [t].
Proof. induction xs using rev_ind; eauto. Qed.
