(* ===== verification/Lists.v ===== *)
(** * Intrusive lists and priority lists (kernel/mrtlib.c, kernel/type.h)

    Every kernel object that can be queued embeds a [link_t]; a [list_t] is the
    header of a doubly linked list of such links, and a [plist_t] bundles sixteen
    of them, one per priority, with a bitmap of the non-empty ones.

    Pointers are addresses in a typed store: [laddr] names the embedded links,
    [lhead] the list headers, [phead] the priority lists.  The operations below
    are the functions of mrtlib.c on that store.  The second half of the file
    proves that they refine sequences: [linv m Q] relates a store to the
    sequence [Q L] held by each header, and every operation of mrtlib.c turns
    into the evident operation on [Q]. *)

From stdpp Require Import base gmap strings numbers fin_maps functions list.
From S2P Require Import Prelude.
Local Open Scope Z_scope.

Definition MRT_NR_PRTY : Z := 16.

(** ** Addresses *)

(** A [link_t *]: the link embedded in a virtual timer, a process, a message
    queue, a message queue entry, an interrupt descriptor, or one of the two
    links of a semaphore ([alloclk], [locklk]). *)
Inductive laddr :=
  | LVt (i : Z)
  | LProc (n : Z)
  | LMq (i : Z)
  | LMqe (i : Z)
  | LIrqd (i : Z)
  | LSemA (i : Z)
  | LSemL (i : Z).

(** The [void *this] of a link.  [OIpcvt n] is the address of the field [ipcvt]
    of process [n], which is not the address of an object. *)
Inductive objp :=
  | OVt (i : Z)
  | OProc (n : Z)
  | OMq (i : Z)
  | OMqe (i : Z)
  | OIrqd (i : Z)
  | OSem (i : Z)
  | OIpcvt (n : Z).

(** A [plist_t *]. *)
Inductive phead :=
  | PRdy
  | PExp
  | PIrq
  | PSem (i : Z)
  | PMq (i : Z).

(** A [list_t *]; [HP pl pty] is [&pl->list[pty]]. *)
Inductive lhead :=
  | HP (pl : phead) (pty : Z)
  | HFreeVt
  | HActQ
  | HMqeL
  | HMsgQL
  | HSfreeL
  | HMnxQ
  | HSalloc (n : Z)
  | HSlock (n : Z).

#[export] Instance laddr_eq_dec : EqDecision laddr.
Proof. solve_decision. Defined.
#[export] Instance objp_eq_dec : EqDecision objp.
Proof. solve_decision. Defined.
#[export] Instance phead_eq_dec : EqDecision phead.
Proof. solve_decision. Defined.
#[export] Instance lhead_eq_dec : EqDecision lhead.
Proof. solve_decision. Defined.

#[export] Instance laddr_countable : Countable laddr.
Proof.
  apply (inj_countable'
    (λ a, match a with
          | LVt i => (0%nat, i) | LProc i => (1%nat, i) | LMq i => (2%nat, i)
          | LMqe i => (3%nat, i) | LIrqd i => (4%nat, i) | LSemA i => (5%nat, i)
          | LSemL i => (6%nat, i)
          end)
    (λ c, match c with
          | (0%nat, i) => LVt i | (1%nat, i) => LProc i | (2%nat, i) => LMq i
          | (3%nat, i) => LMqe i | (4%nat, i) => LIrqd i | (5%nat, i) => LSemA i
          | (_, i) => LSemL i
          end)).
  by intros [].
Defined.

#[export] Instance phead_countable : Countable phead.
Proof.
  apply (inj_countable'
    (λ a, match a with
          | PRdy => (0%nat, 0) | PExp => (1%nat, 0) | PIrq => (2%nat, 0)
          | PSem i => (3%nat, i) | PMq i => (4%nat, i)
          end)
    (λ c, match c with
          | (0%nat, _) => PRdy | (1%nat, _) => PExp | (2%nat, _) => PIrq
          | (3%nat, i) => PSem i | (_, i) => PMq i
          end)).
  by intros [].
Defined.

#[export] Instance lhead_countable : Countable lhead.
Proof.
  apply (inj_countable'
    (λ a, match a with
          | HP pl p => inl (pl, p)
          | HFreeVt => inr (0%nat, 0) | HActQ => inr (1%nat, 0)
          | HMqeL => inr (2%nat, 0) | HMsgQL => inr (3%nat, 0)
          | HSfreeL => inr (4%nat, 0) | HMnxQ => inr (5%nat, 0)
          | HSalloc n => inr (6%nat, n) | HSlock n => inr (7%nat, n)
          end)
    (λ c, match c with
          | inl (pl, p) => HP pl p
          | inr (0%nat, _) => HFreeVt | inr (1%nat, _) => HActQ
          | inr (2%nat, _) => HMqeL | inr (3%nat, _) => HMsgQL
          | inr (4%nat, _) => HSfreeL | inr (5%nat, _) => HMnxQ
          | inr (6%nat, n) => HSalloc n | inr (_, n) => HSlock n
          end)).
  by intros [].
Defined.

(** The object a link is embedded in. *)
Definition owner_of (x : laddr) : objp :=
  match x with
  | LVt i => OVt i | LProc n => OProc n | LMq i => OMq i | LMqe i => OMqe i
  | LIrqd i => OIrqd i | LSemA i => OSem i | LSemL i => OSem i
  end.

(** ** Data *)

Record link_t := mk_link {
  next : option laddr;
  prev : option laddr;
  object : Z;
  this : objp;
}.
#[export] Instance link_eta : Eta link_t := λ l,
  mk_link (next l) (prev l) (object l) (this l).

Record list_t := mk_list {
  inQ : Z;
  maxinQ : Z;
  first : option laddr;
  last : option laddr;
}.
#[export] Instance list_eta : Eta list_t := λ l,
  mk_list (inQ l) (maxinQ l) (first l) (last l).

(** The scalar fields of a [plist_t]; its array [list] is the family [HP pl _]. *)
Record plist_t := mk_plist {
  bitmap : Z;
  p_inQ : Z;
  p_maxinQ : Z;
}.
#[export] Instance plist_eta : Eta plist_t := λ l,
  mk_plist (bitmap l) (p_inQ l) (p_maxinQ l).

Record lmem := mk_lmem {
  links : gmap laddr link_t;
  lists : gmap lhead list_t;
  plists : gmap phead plist_t;
}.
#[export] Instance lmem_eta : Eta lmem := λ m,
  mk_lmem (links m) (lists m) (plists m).

(** ** Loads and stores *)

Definition ld_link (x : laddr) : M lmem link_t := m ← gets links; deref (m !! x).
Definition st_link (x : laddr) (f : link_t → link_t) : M lmem unit :=
  l ← ld_link x; modify (λ m, m <| links ::= <[x := f l]> |>).
Definition ld_list (L : lhead) : M lmem list_t := m ← gets lists; deref (m !! L).
Definition st_list (L : lhead) (f : list_t → list_t) : M lmem unit :=
  l ← ld_list L; modify (λ m, m <| lists ::= <[L := f l]> |>).
Definition ld_plist (P : phead) : M lmem plist_t := m ← gets plists; deref (m !! P).
Definition st_plist (P : phead) (f : plist_t → plist_t) : M lmem unit :=
  l ← ld_plist P; modify (λ m, m <| plists ::= <[P := f l]> |>).

(** ** The functions of mrtlib.c *)

Definition MRT_list_rst (pl : lhead) : M lmem unit :=
  st_list pl (λ l, l <| inQ := 0 |> <| maxinQ := 0 |> <| first := None |> <| last := None |>).

Definition MRT_plist_rst (pl : phead) : M lmem unit :=
  for_ 0 (Z.to_nat MRT_NR_PRTY) (λ i, MRT_list_rst (HP pl i));;
  st_plist pl (λ l, l <| bitmap := 0 |> <| p_inQ := 0 |> <| p_maxinQ := 0 |>).

Definition MRT_link_rst (plink : laddr) (this_ : objp) (object_ : Z) : M lmem unit :=
  st_link plink (λ l, l <| next := None |> <| prev := None |>
                        <| this := this_ |> <| object := object_ |>).

Definition MRT_list_app (plist : lhead) (plink : laddr) : M lmem unit :=
  l ← ld_list plist;
  match first l with
  | None =>
      st_link plink (λ k, k <| prev := None |>);;
      st_list plist (λ l, l <| first := Some plink |>)
  | Some _ =>
      st_link plink (λ k, k <| prev := last l |>);;
      lst ← notnull (last l);
      st_link lst (λ k, k <| next := Some plink |>)
  end;;
  st_link plink (λ k, k <| next := None |>);;
  st_list plist (λ l, l <| last := Some plink |>);;
  st_list plist (λ l, l <| inQ ::= Z.succ |>);;
  st_list plist (λ l, l <| maxinQ := MAX (inQ l) (maxinQ l) |>).

Definition MRT_list_ins (plist : lhead) (plink : laddr) : M lmem unit :=
  l ← ld_list plist;
  st_link plink (λ k, k <| next := first l |>);;
  st_link plink (λ k, k <| prev := None |>);;
  match first l with
  | None => st_list plist (λ l, l <| last := Some plink |>)
  | Some f => st_link f (λ k, k <| prev := Some plink |>)
  end;;
  st_list plist (λ l, l <| first := Some plink |>);;
  st_list plist (λ l, l <| inQ ::= Z.succ |>);;
  st_list plist (λ l, l <| maxinQ := MAX (inQ l) (maxinQ l) |>).

Definition MRT_list_rmv (plist : lhead) (plink : laddr) : M lmem unit :=
  k ← ld_link plink;
  match prev k with
  | None => st_list plist (λ l, l <| first := next k |>)
  | Some p => st_link p (λ j, j <| next := next k |>)
  end;;
  k ← ld_link plink;
  match next k with
  | None => st_list plist (λ l, l <| last := prev k |>)
  | Some n => st_link n (λ j, j <| prev := prev k |>)
  end;;
  st_link plink (λ k, k <| next := None |>);;
  st_link plink (λ k, k <| prev := None |>);;
  st_list plist (λ l, l <| inQ ::= Z.pred |>).

Definition MRT_plist_app (plist : phead) (plink : laddr) (pty : Z) : M lmem unit :=
  MRT_list_app (HP plist pty) plink;;
  st_plist plist (λ l, l <| p_inQ ::= Z.succ |>);;
  st_plist plist (λ l, l <| p_maxinQ := MAX (p_inQ l) (p_maxinQ l) |>);;
  st_plist plist (λ l, l <| bitmap := SET_BIT (bitmap l) (Z.shiftl 1 pty) |>).

Definition MRT_plist_ins (plist : phead) (plink : laddr) (pty : Z) : M lmem unit :=
  MRT_list_ins (HP plist pty) plink;;
  st_plist plist (λ l, l <| p_inQ ::= Z.succ |>);;
  st_plist plist (λ l, l <| p_maxinQ := MAX (p_inQ l) (p_maxinQ l) |>);;
  st_plist plist (λ l, l <| bitmap := SET_BIT (bitmap l) (Z.shiftl 1 pty) |>).

Definition MRT_plist_rmv (plist : phead) (plink : laddr) (pty : Z) : M lmem unit :=
  MRT_list_rmv (HP plist pty) plink;;
  l ← ld_list (HP plist pty);
  (if inQ l =? 0
   then st_plist plist (λ l, l <| bitmap := CLR_BIT (bitmap l) (Z.shiftl 1 pty) |>)
   else mret ());;
  st_plist plist (λ l, l <| p_inQ ::= Z.pred |>).

(** The loop of [MRT_plist_get] from priority [p] with [n] priorities left. *)
Fixpoint plist_scan (plist : phead) (bm : Z) (p : Z) (n : nat) : M lmem (option laddr) :=
  match n with
  | O => mret None
  | S n' =>
      if TEST_BIT bm (Z.shiftl 1 p)
      then l ← ld_list (HP plist p); mret (first l)
      else plist_scan plist bm (p + 1) n'
  end.

Definition MRT_plist_get (plist : phead) : M lmem (option laddr) :=
  l ← ld_plist plist;
  if p_inQ l =? 0 then mret None
  else plist_scan plist (bitmap l) 0 (Z.to_nat MRT_NR_PRTY).

(** * Refinement to sequences *)

(** First element of [xs], or [n] when it is empty; last element, or [p]. *)
Definition hd_or (xs : list laddr) (n : option laddr) : option laddr :=
  match xs with [] => n | x :: _ => Some x end.
Fixpoint lst_or (p : option laddr) (xs : list laddr) : option laddr :=
  match xs with [] => p | x :: xs' => lst_or (Some x) xs' end.

Definition list_rep (l : list_t) (xs : list laddr) : Prop :=
  inQ l = Z.of_nat (length xs) ∧ inQ l ≤ maxinQ l ∧
  first l = hd_or xs None ∧ last l = lst_or None xs.

(** [seg h p xs n]: the links [xs] form a doubly linked segment whose first
    element points back to [p] and whose last element points forward to [n]. *)
Fixpoint seg (h : gmap laddr link_t) (p : option laddr) (xs : list laddr)
    (n : option laddr) : Prop :=
  match xs with
  | [] => True
  | x :: xs' =>
      (∃ k, h !! x = Some k ∧ prev k = p ∧ next k = hd_or xs' n) ∧ seg h (Some x) xs' n
  end.

Definition links_rep (h : gmap laddr link_t) (xs : list laddr) : Prop := seg h None xs None.

(** [linv m Q]: every list header [L] of [m] heads a well-formed doubly linked
    list whose links are, in order, [Q L]; no link is in two lists. *)
Record linv (m : lmem) (Q : lhead → list laddr) : Prop := {
  li_list : ∀ L l, lists m !! L = Some l → list_rep l (Q L);
  li_links : ∀ L, links_rep (links m) (Q L);
  li_nodup : ∀ L, NoDup (Q L);
  li_disj : ∀ L L' x, x ∈ Q L → x ∈ Q L' → L = L';
  li_dom : ∀ L, lists m !! L = None → Q L = [];
}.

Lemma hd_or_app xs ys n : hd_or (xs ++ ys) n = hd_or xs (hd_or ys n).
Proof. by destruct xs. Qed.

Lemma lst_or_app xs ys p : lst_or p (xs ++ ys) = lst_or (lst_or p xs) ys.
Proof. revert p. induction xs; intros; cbn; auto. Qed.

Lemma seg_app h p xs ys n :
  seg h p (xs ++ ys) n ↔ seg h p xs (hd_or ys n) ∧ seg h (lst_or p xs) ys n.
Proof.
  revert p. induction xs as [|x xs IH]; intros p; cbn; [tauto|].
  rewrite IH, hd_or_app. tauto.
Qed.

Lemma seg_frame h h' p xs n :
  (∀ y, y ∈ xs → h' !! y = h !! y) → seg h p xs n → seg h' p xs n.
Proof.
  revert p. induction xs as [|x xs IH]; intros p Hfr; cbn; [done|].
  intros [(k & Hk & Hp & Hn) Hs]. split.
  - exists k. rewrite Hfr by set_solver. done.
  - apply IH; [|done]. intros. apply Hfr. set_solver.
Qed.

Lemma seg_lookup h p xs n x : seg h p xs n → x ∈ xs → is_Some (h !! x).
Proof.
  revert p. induction xs as [|y xs IH]; intros p; cbn.
  - intros _ ?%not_elem_of_nil. done.
  - intros [(k & Hk & _) Hs] [->|Hin]%elem_of_cons; eauto.
Qed.

(** What the list operations leave alone: the object every link belongs to,
    which links and headers exist. *)
Definition payload (k : link_t) : objp := this k.

Record lframe (m m' : lmem) : Prop := {
  fr_payload : ∀ x, payload <$> links m' !! x = payload <$> links m !! x;
  fr_lists : ∀ L, is_Some (lists m' !! L) ↔ is_Some (lists m !! L);
  fr_plists : ∀ P, is_Some (plists m' !! P) ↔ is_Some (plists m !! P);
}.

#[export] Instance lframe_preorder : PreOrder lframe.
Proof.
  split.
  - by constructor.
  - intros m1 m2 m3 [A1 A2 A3] [B1 B2 B3].
    constructor; intros; [by rewrite B1|by rewrite B2|by rewrite B3].
Qed.

(** A link in no list. *)
Definition unlinked (Q : lhead → list laddr) (x : laddr) : Prop := ∀ L, x ∉ Q L.

Lemma linv_upd m m' Q L l' ys :
  linv m Q →
  is_Some (lists m !! L) →
  lists m' = <[L := l']> (lists m) →
  list_rep l' ys →
  links_rep (links m') ys →
  (∀ y, y ∉ Q L → y ∉ ys → links m' !! y = links m !! y) →
  NoDup ys →
  (∀ y, y ∈ ys → y ∈ Q L ∨ unlinked Q y) →
  linv m' (<[L := ys]> Q).
Proof.
  intros [Hl Hk Hn Hd Ho] HL Hm' Hrep Hys Hfr Hnd Hnew. constructor.
  - intros L2 l2. rewrite Hm'. intros [[-> ->]|[Hne H2]]%lookup_insert_Some.
    + by rewrite fn_lookup_insert.
    + rewrite fn_lookup_insert_ne by done. by apply Hl.
  - intros L2. destruct (decide (L = L2)) as [<-|Hne].
    { by rewrite fn_lookup_insert. }
    rewrite fn_lookup_insert_ne by done. eapply seg_frame; [|apply Hk]. intros x Hx.
    apply Hfr.
    + intros Hin. apply Hne. by eapply Hd.
    + intros [Hin|Hin]%Hnew; [apply Hne; by eapply Hd|by eapply Hin].
  - intros L2. destruct (decide (L = L2)) as [<-|Hne].
    + by rewrite fn_lookup_insert.
    + by rewrite fn_lookup_insert_ne.
  - intros L1 L2 x. destruct (decide (L = L1)) as [<-|H1], (decide (L = L2)) as [<-|H2];
      rewrite ?fn_lookup_insert, ?fn_lookup_insert_ne by done; [done| | |by apply Hd].
    + intros [H|H]%Hnew ?; [by eapply Hd|by destruct (H L2)].
    + intros ? [H|H]%Hnew; [by eapply Hd|by destruct (H L1)].
  - intros L2. rewrite Hm'. intros [H2 Hne]%lookup_insert_None.
    rewrite fn_lookup_insert_ne by done. by apply Ho.
Qed.

(** ** Running loads and stores *)

Lemma ld_link_ok m x k : links m !! x = Some k → ld_link x m = Ok m k.
Proof. intros H. unfold ld_link. mnext gets_ok. by apply deref_ok. Qed.

Lemma st_link_ok m x k f :
  links m !! x = Some k → st_link x f m = Ok (m <| links ::= <[x := f k]> |>) ().
Proof. intros H. unfold st_link. by mnext ld_link_ok. Qed.

Lemma ld_list_ok m L l : lists m !! L = Some l → ld_list L m = Ok m l.
Proof. intros H. unfold ld_list. mnext gets_ok. by apply deref_ok. Qed.

Lemma st_list_ok m L l f :
  lists m !! L = Some l → st_list L f m = Ok (m <| lists ::= <[L := f l]> |>) ().
Proof. intros H. unfold st_list. by mnext ld_list_ok. Qed.

Lemma ld_plist_ok m P l : plists m !! P = Some l → ld_plist P m = Ok m l.
Proof. intros H. unfold ld_plist. mnext gets_ok. by apply deref_ok. Qed.

Lemma st_plist_ok m P l f :
  plists m !! P = Some l → st_plist P f m = Ok (m <| plists ::= <[P := f l]> |>) ().
Proof. intros H. unfold st_plist. by mnext ld_plist_ok. Qed.

(** [lrun] runs the loads and stores at the head of the goal, reading through
    the updates already made. *)
Ltac lsolve :=
  cbn; repeat first [rewrite lookup_insert_eq | rewrite lookup_insert_ne by congruence];
  try eassumption; eauto.
Ltac lrun1 :=
  first
    [ rewrite bind_assoc
    | rewrite ret_bind
    | erewrite bind_ok; [| first
        [ eapply st_link_ok; lsolve; fail
        | eapply st_list_ok; lsolve; fail
        | eapply st_plist_ok; lsolve; fail
        | eapply ld_link_ok; lsolve; fail
        | eapply ld_list_ok; lsolve; fail
        | eapply ld_plist_ok; lsolve; fail
        | eapply notnull_ok; lsolve; fail ]]
    | first
        [ erewrite st_link_ok; [| lsolve; fail]
        | erewrite st_list_ok; [| lsolve; fail]
        | erewrite st_plist_ok; [| lsolve; fail] ] ].
Ltac lrun := repeat lrun1.

(** ** Inserting and removing one link

    [h'] agrees with [h] except at [x] and its two neighbours. *)
Section splice.
Context (h h' : gmap laddr link_t) (l1 l2 : list laddr) (x : laddr).
Context (Hrest : ∀ y, y ≠ x → lst_or None l1 ≠ Some y → hd_or l2 None ≠ Some y → h' !! y = h !! y).

Lemma seg_left n n' :
  NoDup (l1 ++ l2) → x ∉ l1 →
  seg h None l1 n →
  (∀ y k, lst_or None l1 = Some y → h !! y = Some k →
     ∃ k', h' !! y = Some k' ∧ next k' = n' ∧ prev k' = prev k) →
  seg h' None l1 n'.
Proof.
  intros Hnd Hx Hs Hlast. destruct l1 as [|y ys _] eqn:E1 using rev_ind; [done|].
  rewrite lst_or_app in Hlast, Hrest. cbn in Hlast, Hrest.
  rewrite seg_app in Hs |- *. cbn in Hs |- *. destruct Hs as [Hs [(k & Hk & Hp & _) _]].
  split; [|split; [|done]].
  - eapply seg_frame; [|done]. intros z Hz. apply Hrest; [set_solver|..].
    + intros [= ->]. apply NoDup_app in Hnd as [Hnd _]. apply NoDup_app in Hnd. set_solver.
    + intros Hz2. destruct l2 as [|z2 l2']; [done|]. cbn in Hz2. simplify_eq.
      apply NoDup_app in Hnd. set_solver.
  - destruct (Hlast y k) as (k' & ? & ? & ?); [done|done|]. exists k'. split_and!; congruence.
Qed.

Lemma seg_right p p' :
  NoDup (l1 ++ l2) → x ∉ l2 →
  seg h p l2 None →
  (∀ y k, hd_or l2 None = Some y → h !! y = Some k →
     ∃ k', h' !! y = Some k' ∧ prev k' = p' ∧ next k' = next k) →
  seg h' p' l2 None.
Proof.
  intros Hnd Hx Hs Hfirst. destruct l2 as [|y ys] eqn:E2; [done|]. cbn in *.
  destruct Hs as [(k & Hk & _ & Hn) Hs]. split.
  - destruct (Hfirst y k) as (k' & ? & ? & ?); [done|done|]. exists k'. split_and!; congruence.
  - eapply seg_frame; [|done]. intros z Hz. apply NoDup_app in Hnd as (_ & Hd & Hnd).
    apply NoDup_cons in Hnd as [Hy _]. apply Hrest; [set_solver| |congruence].
    intros Hz1. destruct l1 as [|w ws _] using rev_ind; [done|].
    rewrite lst_or_app in Hz1. cbn in Hz1. simplify_eq. set_solver.
Qed.
End splice.

Lemma links_rep_insert h h' l1 l2 x k :
  links_rep h (l1 ++ l2) → NoDup (l1 ++ l2) → x ∉ l1 ++ l2 →
  h' !! x = Some k → prev k = lst_or None l1 → next k = hd_or l2 None →
  (∀ y k, lst_or None l1 = Some y → h !! y = Some k →
     ∃ k', h' !! y = Some k' ∧ next k' = Some x ∧ prev k' = prev k) →
  (∀ y k, hd_or l2 None = Some y → h !! y = Some k →
     ∃ k', h' !! y = Some k' ∧ prev k' = Some x ∧ next k' = next k) →
  (∀ y, y ≠ x → lst_or None l1 ≠ Some y → hd_or l2 None ≠ Some y → h' !! y = h !! y) →
  links_rep h' (l1 ++ x :: l2).
Proof.
  unfold links_rep. rewrite !seg_app. cbn. intros [Hs1 Hs2] Hnd Hx Hk Hp Hn Hl Hr Hfr.
  split_and!.
  - eapply seg_left; eauto. set_solver.
  - eauto.
  - eapply seg_right; eauto. set_solver.
Qed.

Lemma links_rep_remove h h' l1 l2 x :
  links_rep h (l1 ++ x :: l2) → NoDup (l1 ++ x :: l2) →
  (∀ y k, lst_or None l1 = Some y → h !! y = Some k →
     ∃ k', h' !! y = Some k' ∧ next k' = hd_or l2 None ∧ prev k' = prev k) →
  (∀ y k, hd_or l2 None = Some y → h !! y = Some k →
     ∃ k', h' !! y = Some k' ∧ prev k' = lst_or None l1 ∧ next k' = next k) →
  (∀ y, y ≠ x → lst_or None l1 ≠ Some y → hd_or l2 None ≠ Some y → h' !! y = h !! y) →
  links_rep h' (l1 ++ l2).
Proof.
  unfold links_rep. rewrite !seg_app. cbn. intros (Hs1 & _ & Hs2) Hnd Hl Hr Hfr.
  rewrite <- Permutation_middle in Hnd. apply NoDup_cons in Hnd as [Hx Hnd].
  split.
  - eapply seg_left; eauto. set_solver.
  - eapply seg_right; eauto. set_solver.
Qed.

(** ** The list operations refine sequences *)

Lemma MAX_ge_l a b : a ≤ MAX a b.
Proof. unfold MAX. destruct (Z.gtb_spec a b); lia. Qed.

(** Writing links changes no payload. *)
Lemma payload_insert (h : gmap laddr link_t) x k k' y :
  h !! x = Some k → payload k' = payload k →
  payload <$> <[x := k']> h !! y = payload <$> h !! y.
Proof.
  intros Hx Hk. destruct (decide (x = y)) as [<-|].
  - rewrite lookup_insert_eq, Hx. cbn. by rewrite Hk.
  - by rewrite lookup_insert_ne.
Qed.

Lemma is_Some_insert `{Countable K} {V} (h : gmap K V) x v v' y :
  h !! x = Some v → is_Some (<[x := v']> h !! y) ↔ is_Some (h !! y).
Proof.
  intros Hx. destruct (decide (x = y)) as [<-|].
  - rewrite lookup_insert_eq, Hx. split; eauto.
  - by rewrite lookup_insert_ne.
Qed.

Ltac lframe_tac :=
  constructor; intros; cbn;
  repeat (erewrite payload_insert; [|lsolve; fail|done]);
  repeat (erewrite is_Some_insert; [|lsolve; fail]); try done.

(** Sequence facts a queue of [linv] gives. *)
Lemma linv_split m Q L l1 x l2 :
  linv m Q → Q L = l1 ++ x :: l2 →
  ∃ k, links m !! x = Some k ∧ prev k = lst_or None l1 ∧ next k = hd_or l2 None.
Proof.
  intros Hinv HQ. pose proof (li_links _ _ Hinv L) as Hs. unfold links_rep in Hs.
  rewrite HQ, seg_app in Hs. cbn in Hs. naive_solver.
Qed.

Lemma lst_or_elem p xs y : lst_or p xs = Some y → p = Some y ∨ y ∈ xs.
Proof.
  revert p. induction xs as [|x xs IH]; intros p; cbn; [tauto|].
  intros [[= ->]|H]%IH; right; set_solver.
Qed.

Lemma lst_or_None_elem xs y : lst_or None xs = Some y → y ∈ xs.
Proof. intros [?|?]%lst_or_elem; done. Qed.

Lemma hd_or_None_elem xs y : hd_or xs None = Some y → y ∈ xs.
Proof. destruct xs; cbn; [done|]. intros [= ->]. set_solver. Qed.

Lemma lst_or_None_inv xs : lst_or None xs = None → xs = [].
Proof. destruct xs as [|y ys _] using rev_ind; [done|]. rewrite lst_or_app. done. Qed.

Lemma linv_in_links m Q L x : linv m Q → x ∈ Q L → is_Some (links m !! x).
Proof. intros Hinv Hx. eapply seg_lookup; [apply Hinv|done]. Qed.

(** What one list operation on [L] that turns its sequence into [ys] does. *)
Definition lstep (m m' : lmem) (Q : lhead → list laddr) (L : lhead) (ys : list laddr) : Prop :=
  linv m' (<[L := ys]> Q) ∧ lframe m m' ∧ plists m' = plists m.

(** A store that differs from [m] at header [L], at [x] and at the neighbours
    of [x] only, with [x] spliced in between [l1] and [l2]. *)
Lemma linv_insert m m' Q L l' l1 l2 x k :
  linv m Q → is_Some (lists m !! L) → unlinked Q x → Q L = l1 ++ l2 →
  lists m' = <[L := l']> (lists m) →
  list_rep l' (l1 ++ x :: l2) →
  links m' !! x = Some k → prev k = lst_or None l1 → next k = hd_or l2 None →
  (∀ y k, lst_or None l1 = Some y → links m !! y = Some k →
     ∃ k', links m' !! y = Some k' ∧ next k' = Some x ∧ prev k' = prev k) →
  (∀ y k, hd_or l2 None = Some y → links m !! y = Some k →
     ∃ k', links m' !! y = Some k' ∧ prev k' = Some x ∧ next k' = next k) →
  (∀ y, y ≠ x → lst_or None l1 ≠ Some y → hd_or l2 None ≠ Some y →
     links m' !! y = links m !! y) →
  linv m' (<[L := l1 ++ x :: l2]> Q).
Proof.
  intros Hinv HL Hu HQ Hm' Hrep Hk Hp Hn Hl Hr Hfr.
  pose proof (li_nodup _ _ Hinv L) as Hnd. pose proof (li_links _ _ Hinv L) as Hks.
  pose proof (Hu L) as Hx. rewrite HQ in *.
  eapply linv_upd; eauto.
  - eapply links_rep_insert; eauto.
  - intros y Hy1 Hy2. rewrite HQ in Hy1. apply Hfr.
    + set_solver.
    + intros ?%lst_or_None_elem. set_solver.
    + intros ?%hd_or_None_elem. set_solver.
  - rewrite <- Permutation_middle. by apply NoDup_cons.
  - intros y. rewrite <- Permutation_middle, <- HQ.
    intros [->|Hy]%elem_of_cons; [by right|by left].
Qed.

(** The same with [x] taken out. *)
Lemma linv_remove m m' Q L l' l1 l2 x :
  linv m Q → is_Some (lists m !! L) → Q L = l1 ++ x :: l2 →
  lists m' = <[L := l']> (lists m) →
  list_rep l' (l1 ++ l2) →
  (∀ y k, lst_or None l1 = Some y → links m !! y = Some k →
     ∃ k', links m' !! y = Some k' ∧ next k' = hd_or l2 None ∧ prev k' = prev k) →
  (∀ y k, hd_or l2 None = Some y → links m !! y = Some k →
     ∃ k', links m' !! y = Some k' ∧ prev k' = lst_or None l1 ∧ next k' = next k) →
  (∀ y, y ≠ x → lst_or None l1 ≠ Some y → hd_or l2 None ≠ Some y →
     links m' !! y = links m !! y) →
  linv m' (<[L := l1 ++ l2]> Q).
Proof.
  intros Hinv HL HQ Hm' Hrep Hl Hr Hfr.
  pose proof (li_nodup _ _ Hinv L) as Hnd. pose proof (li_links _ _ Hinv L) as Hks.
  rewrite HQ in *. eapply linv_upd; eauto.
  - eapply links_rep_remove; eauto.
  - intros y Hy1 Hy2. rewrite HQ in Hy1. apply Hfr.
    + set_solver.
    + intros ?%lst_or_None_elem. set_solver.
    + intros ?%hd_or_None_elem. set_solver.
  - rewrite <- Permutation_middle in Hnd. by apply NoDup_cons in Hnd as [_ ?].
  - intros y Hy. left. rewrite HQ. set_solver.
Qed.

Lemma MRT_list_app_spec m Q L x :
  linv m Q → is_Some (lists m !! L) → is_Some (links m !! x) → unlinked Q x →
  ∃ m', MRT_list_app L x m = Ok m' () ∧ lstep m m' Q L (Q L ++ [x]).
Proof.
  intros Hinv [l HL] [k Hx] Hu. unfold MRT_list_app. lrun.
  destruct (li_list _ _ Hinv L l HL) as (Hin & Hmax & Hf & Hl).
  destruct (lst_or None (Q L)) as [y|] eqn:Ey.
  - pose proof (lst_or_None_elem _ _ Ey) as Hy.
    destruct (linv_in_links _ _ _ _ Hinv Hy) as [ky Hky].
    assert (y ≠ x) by (intros ->; by eapply Hu).
    destruct (first l) eqn:Ef; [|destruct (Q L); [set_solver|done]].
    rewrite Hl. lrun. eexists. split; [done|]. split; [|split; [lframe_tac|done]].
    eapply (linv_insert _ _ _ _ _ _ []); cbn; rewrite ?app_nil_r;
      [done|by eexists|done|done|by rewrite !insert_insert_eq| |by rewrite lookup_insert_eq|done|done| |done|].
    + split_and!; cbn; [rewrite length_app; cbn; lia|apply MAX_ge_l| |by rewrite lst_or_app].
      by rewrite hd_or_app, Ef, Hf; destruct (Q L).
    + intros y' k' Hy' Hk'. simplify_eq.
      rewrite lookup_insert_ne, lookup_insert_eq by done. by eexists.
    + intros z ? Hz _. rewrite !lookup_insert_ne; congruence.
  - apply lst_or_None_inv in Ey. rewrite Ey in *. cbn in Hf, Hin. rewrite Hf. lrun.
    eexists. split; [done|]. split; [|split; [lframe_tac|done]].
    eapply (linv_insert _ _ _ _ _ [] []); cbn;
      [done|by eexists|done|done|by rewrite !insert_insert_eq| |by rewrite lookup_insert_eq|done|done|done|done|].
    + split_and!; cbn; [lia|apply MAX_ge_l|done|done].
    + intros z ? _ _. by rewrite !lookup_insert_ne.
Qed.

Lemma MRT_list_ins_spec m Q L x :
  linv m Q → is_Some (lists m !! L) → is_Some (links m !! x) → unlinked Q x →
  ∃ m', MRT_list_ins L x m = Ok m' () ∧ lstep m m' Q L (x :: Q L).
Proof.
  intros Hinv [l HL] [k Hx] Hu. unfold MRT_list_ins. lrun.
  destruct (li_list _ _ Hinv L l HL) as (Hin & Hmax & Hf & Hl).
  destruct (Q L) as [|y ys] eqn:EQ; cbn in Hf, Hin, Hl; rewrite Hf.
  - lrun. eexists. split; [done|]. split; [|split; [lframe_tac|done]].
    eapply (linv_insert _ _ _ _ _ [] []); cbn;
      [done|by eexists|done|done|by rewrite !insert_insert_eq| |by rewrite lookup_insert_eq|done|done|done|done|].
    + split_and!; cbn; [lia|apply MAX_ge_l|done|done].
    + intros z ? _ _. by rewrite !lookup_insert_ne.
  - destruct (linv_in_links _ _ L y Hinv) as [ky Hky]; [rewrite EQ; set_solver|].
    assert (y ≠ x) by (intros ->; eapply (Hu L); rewrite EQ; set_solver).
    lrun. eexists. split; [done|]. split; [|split; [lframe_tac|done]].
    eapply (linv_insert _ _ _ _ _ [] (y :: ys)); cbn;
      [done|by eexists|done|done|by rewrite !insert_insert_eq| |
       by rewrite lookup_insert_ne, lookup_insert_eq|done|done|done| |].
    + split_and!; cbn; [lia|apply MAX_ge_l|done|done].
    + intros y' k' [= <-] Hk'. simplify_eq. rewrite lookup_insert_eq. by eexists.
    + intros z ? _ Hz. rewrite !lookup_insert_ne; congruence.
Qed.

Lemma first_remove (l : list_t) l1 x l2 p :
  first l = hd_or (l1 ++ x :: l2) None → lst_or None l1 = Some p →
  first l = hd_or (l1 ++ l2) None.
Proof. by destruct l1. Qed.

Lemma last_remove (l : list_t) l1 x l2 n :
  last l = lst_or None (l1 ++ x :: l2) → hd_or l2 None = Some n →
  last l = lst_or None (l1 ++ l2).
Proof. rewrite !lst_or_app. by destruct l2. Qed.

Ltac neighbour :=
  let y := fresh "y" in let k := fresh "k" in let Hy := fresh "Hy" in let Hk := fresh "Hk" in
  intros y k Hy Hk; simplify_eq;
  repeat first [rewrite lookup_insert_eq | rewrite lookup_insert_ne by congruence];
  eexists; split; [reflexivity|split; cbn; congruence].
Ltac elsewhere :=
  intros; rewrite !lookup_insert_ne; congruence.

Lemma MRT_list_rmv_spec m Q L l1 x l2 :
  linv m Q → is_Some (lists m !! L) → Q L = l1 ++ x :: l2 →
  ∃ m', MRT_list_rmv L x m = Ok m' () ∧ lstep m m' Q L (l1 ++ l2).
Proof.
  intros Hinv [l HL] HQ.
  destruct (linv_split _ _ _ _ _ _ Hinv HQ) as (k & Hk & Hp & Hn).
  pose proof (li_nodup _ _ Hinv L) as Hnd. rewrite HQ in Hnd.
  destruct (li_list _ _ Hinv L l HL) as (Hin & Hmax & Hf & Hl). rewrite HQ in Hin, Hf, Hl.
  assert (Hlen : Z.pred (inQ l) = Z.of_nat (length (l1 ++ l2))).
  { rewrite Hin, !length_app. cbn. lia. }
  unfold MRT_list_rmv. lrun. rewrite Hp.
  rewrite <- Permutation_middle in Hnd. apply NoDup_cons in Hnd as [Hx Hnd].
  destruct (lst_or None l1) as [p|] eqn:Ep.
  - pose proof (lst_or_None_elem _ _ Ep) as Hpin.
    destruct (linv_in_links _ _ L p Hinv) as [kp Hkp]; [rewrite HQ; set_solver|].
    assert (p ≠ x) by set_solver.
    lrun. rewrite Hn. destruct (hd_or l2 None) as [n|] eqn:En.
    + pose proof (hd_or_None_elem _ _ En) as Hnin.
      destruct (linv_in_links _ _ L n Hinv) as [kn Hkn]; [rewrite HQ; set_solver|].
      assert (n ≠ x) by set_solver.
      assert (n ≠ p) by (intros ->; apply NoDup_app in Hnd; set_solver).
      lrun. eexists. split; [done|]. split; [|split; [lframe_tac|done]].
      eapply linv_remove; cbn; [done|by eexists|done|done| |..].
      * split_and!; cbn; [done|lia|by eapply first_remove|by eapply last_remove].
      * neighbour.
      * neighbour.
      * elsewhere.
    + lrun. eexists. split; [done|]. split; [|split; [lframe_tac|done]].
      assert (l2 = []) as -> by by destruct l2.
      eapply linv_remove; cbn; [done|by eexists|done|by rewrite insert_insert_eq| |..].
      * split_and!; cbn; [done|lia|by eapply first_remove|rewrite app_nil_r; congruence].
      * neighbour.
      * done.
      * elsewhere.
  - apply lst_or_None_inv in Ep as ->. cbn in *.
    lrun. rewrite Hn. destruct (hd_or l2 None) as [n|] eqn:En.
    + pose proof (hd_or_None_elem _ _ En) as Hnin.
      destruct (linv_in_links _ _ L n Hinv) as [kn Hkn]; [rewrite HQ; set_solver|].
      assert (n ≠ x) by set_solver.
      lrun. eexists. split; [done|]. split; [|split; [lframe_tac|done]].
      eapply (linv_remove _ _ _ _ _ []); cbn; [done|by eexists|done|by rewrite insert_insert_eq| |..].
      * split_and!; cbn; [done|lia|done|by destruct l2].
      * done.
      * neighbour.
      * elsewhere.
    + assert (l2 = []) as -> by by destruct l2.
      lrun. eexists. split; [done|]. split; [|split; [lframe_tac|done]].
      eapply (linv_remove _ _ _ _ _ [] []); cbn; [done|by eexists|done|by rewrite !insert_insert_eq| |..].
      * split_and!; cbn; [done|lia|congruence|congruence].
      * done.
      * done.
      * elsewhere.
Qed.

Lemma MRT_list_rst_spec m Q L :
  linv m Q → is_Some (lists m !! L) →
  ∃ m', MRT_list_rst L m = Ok m' () ∧ lstep m m' Q L [] ∧ links m' = links m.
Proof.
  intros Hinv [l HL]. unfold MRT_list_rst. lrun. eexists. split; [done|].
  split_and!; [split; [|split; [lframe_tac|done]]|done].
  eapply linv_upd; [done|by eexists|done|done|done|done|apply NoDup_nil_2|set_solver].
Qed.

(** Resetting a link that is in no list. *)
Lemma MRT_link_rst_spec m Q x o ob :
  linv m Q → is_Some (links m !! x) → unlinked Q x →
  ∃ m', MRT_link_rst x o ob m = Ok m' () ∧ linv m' Q ∧ lists m' = lists m ∧
        plists m' = plists m ∧ (∀ y, y ≠ x → links m' !! y = links m !! y) ∧
        links m' !! x = Some (mk_link None None ob o).
Proof.
  intros Hinv [k Hk] Hu. unfold MRT_link_rst. lrun. eexists. split; [done|]. cbn.
  split_and!; [|done|done|intros; by rewrite lookup_insert_ne|by rewrite lookup_insert_eq].
  destruct Hinv as [Hl Hs Hn Hd Ho]. constructor; [done| |done|done|done].
  intros L. eapply seg_frame; [|apply Hs]. intros y Hy. cbn.
  rewrite lookup_insert_ne; [done|]. intros ->. by eapply Hu.
Qed.

(** ** Priority lists *)

(** Number of links in the priorities [a .. a + c - 1] of a priority list. *)
Fixpoint plen_from (Q : lhead → list laddr) (P : phead) (a c : nat) : nat :=
  match c with
  | O => 0
  | S c' => length (Q (HP P (Z.of_nat a))) + plen_from Q P (S a) c'
  end.
Definition plen (Q : lhead → list laddr) (P : phead) : nat := plen_from Q P 0 16.

(** The array has sixteen headers, the bitmap marks exactly the non-empty ones
    and [inQ] counts the links. *)
Record pl_ok (m : lmem) (Q : lhead → list laddr) (P : phead) (h : plist_t) : Prop := {
  po_dom : ∀ p, is_Some (lists m !! HP P p) ↔ 0 ≤ p < 16;
  po_bits : ∀ p, 0 ≤ p → Z.testbit (bitmap h) p = bool_decide (Q (HP P p) ≠ []);
  po_inQ : p_inQ h = Z.of_nat (plen Q P);
  po_pos : 0 ≤ bitmap h;
}.

Definition pinv (m : lmem) (Q : lhead → list laddr) : Prop :=
  ∀ P h, plists m !! P = Some h → pl_ok m Q P h.

Lemma plen_from_other Q P L ys a c :
  (∀ p, (a ≤ p < a + c)%nat → L ≠ HP P (Z.of_nat p)) →
  plen_from (<[L := ys]> Q) P a c = plen_from Q P a c.
Proof.
  revert a. induction c as [|c IH]; intros a HL; [done|]. cbn.
  rewrite fn_lookup_insert_ne by (apply HL; lia). rewrite IH; [done|].
  intros p Hp. apply HL. lia.
Qed.

Lemma plen_from_insert Q P n ys a c :
  (a ≤ n < a + c)%nat →
  Z.of_nat (plen_from (<[HP P (Z.of_nat n) := ys]> Q) P a c) =
  Z.of_nat (plen_from Q P a c) + Z.of_nat (length ys) - Z.of_nat (length (Q (HP P (Z.of_nat n)))).
Proof.
  revert a. induction c as [|c IH]; intros a Hn; [lia|]. cbn.
  destruct (decide (n = a)) as [->|Hne].
  - rewrite fn_lookup_insert, plen_from_other; [lia|]. intros p Hp [= ?]. lia.
  - rewrite fn_lookup_insert_ne by (intros [= ?]; lia). specialize (IH (S a)). lia.
Qed.

Lemma plen_insert Q P p ys :
  0 ≤ p < 16 →
  Z.of_nat (plen (<[HP P p := ys]> Q) P) =
  Z.of_nat (plen Q P) + Z.of_nat (length ys) - Z.of_nat (length (Q (HP P p))).
Proof.
  intros Hp. replace p with (Z.of_nat (Z.to_nat p)) by lia. apply plen_from_insert. lia.
Qed.

Lemma plen_other Q P L ys : (∀ p, L ≠ HP P p) → plen (<[L := ys]> Q) P = plen Q P.
Proof. intros HL. apply plen_from_other. auto. Qed.

Lemma plen_from_0 Q P a c :
  plen_from Q P a c = 0%nat ↔ ∀ n, (a ≤ n < a + c)%nat → Q (HP P (Z.of_nat n)) = [].
Proof.
  revert a. induction c as [|c IH]; intros a; cbn; [naive_solver lia|].
  rewrite Nat.eq_add_0, length_zero_iff_nil, IH. split.
  - intros [Ha Hc] n Hn. destruct (decide (n = a)) as [->|]; [done|]. apply Hc. lia.
  - intros H. split; [apply H; lia|]. intros n Hn. apply H. lia.
Qed.

Lemma plen_0 Q P : plen Q P = 0%nat ↔ ∀ p, 0 ≤ p < 16 → Q (HP P p) = [].
Proof.
  unfold plen. rewrite plen_from_0. split; intros H p Hp.
  - replace p with (Z.of_nat (Z.to_nat p)) by lia. apply H. lia.
  - apply H. lia.
Qed.

(** Touching a list that belongs to no priority list. *)
Lemma pinv_other m m' Q L ys :
  pinv m Q → lframe m m' → plists m' = plists m → (∀ P p, L ≠ HP P p) →
  pinv m' (<[L := ys]> Q).
Proof.
  intros Hp Hfr Hpl HL P h. rewrite Hpl. intros [Hd Hb Hn H0]%Hp. constructor.
  - intros p. rewrite <- Hd. apply Hfr.
  - intros p. rewrite fn_lookup_insert_ne by done. auto.
  - by rewrite plen_other.
  - done.
Qed.

(** Replacing the sequence of priority [p], with header fields that follow. *)
Lemma pinv_upd m m1 m' Q P p ys h h' :
  pinv m Q → lframe m m1 → plists m1 = plists m → plists m !! P = Some h →
  0 ≤ p < 16 →
  lists m' = lists m1 → plists m' = <[P := h']> (plists m) →
  p_inQ h' = p_inQ h + Z.of_nat (length ys) - Z.of_nat (length (Q (HP P p))) →
  0 ≤ bitmap h' →
  (∀ q, 0 ≤ q → Z.testbit (bitmap h') q =
     if decide (p = q) then bool_decide (ys ≠ []) else Z.testbit (bitmap h) q) →
  pinv m' (<[HP P p := ys]> Q).
Proof.
  intros Hp Hfr Hpl1 HP Hr Hl Hpl Hin Hpos Hbits P2 h2. rewrite Hpl.
  intros [[<- <-]|[Hne HP2]]%lookup_insert_Some.
  - destruct (Hp _ _ HP) as [Hd Hb Hn H0]. constructor; [| | |done].
    + intros q. rewrite <- Hd, Hl. apply Hfr.
    + intros q Hq. rewrite Hbits by done. case_decide as Hpq.
      * subst. by rewrite fn_lookup_insert.
      * rewrite fn_lookup_insert_ne; [by apply Hb|congruence].
    + rewrite plen_insert by done. lia.
  - destruct (Hp _ _ HP2) as [Hd Hb Hn H0]. constructor; [| | |done].
    + intros q. rewrite <- Hd, Hl. apply Hfr.
    + intros q. rewrite fn_lookup_insert_ne by congruence. auto.
    + rewrite plen_other; [done|congruence].
Qed.

(** The two invariants together, and what an operation on the queues does. *)
Definition qinv (m : lmem) (Q : lhead → list laddr) : Prop := linv m Q ∧ pinv m Q.

Definition qstep (m m' : lmem) (Q Q' : lhead → list laddr) : Prop :=
  qinv m' Q' ∧ lframe m m'.

Lemma lstep_q m m' Q L ys :
  pinv m Q → (∀ P p, L ≠ HP P p) → lstep m m' Q L ys → qstep m m' Q (<[L := ys]> Q).
Proof. intros Hp Hno (Hl & Hfr & Hpl). split; [|done]. split; [done|]. by eapply pinv_other. Qed.

(** Resetting a link that is in no queue and already belongs to [o]. *)
Lemma link_rst_q m Q x k o ob :
  qinv m Q → links m !! x = Some k → this k = o → unlinked Q x →
  ∃ m', MRT_link_rst x o ob m = Ok m' () ∧ qstep m m' Q Q.
Proof.
  intros [Hl Hp] Hx Ho Hu.
  destruct (MRT_link_rst_spec m Q x o ob Hl) as (m' & Hrun & Hl' & El & Ep & Ey & Ex); [by eexists|done|].
  exists m'. split; [done|]. assert (Hf : lframe m m').
  { constructor; rewrite ?El, ?Ep; try done. intros y. destruct (decide (y = x)) as [->|Hne].
    - rewrite Ex, Hx. cbn. unfold payload. by rewrite Ho.
    - by rewrite Ey. }
  split; [|done]. split; [done|]. intros P h. rewrite Ep. intros [Hd ? ? ?]%Hp. constructor; try done.
  intros p. by rewrite <- Hd, El.
Qed.

(** The list operations on a header outside every priority list. *)
Lemma list_app_q m Q L x :
  qinv m Q → is_Some (lists m !! L) → (∀ P p, L ≠ HP P p) →
  is_Some (links m !! x) → unlinked Q x →
  ∃ m', MRT_list_app L x m = Ok m' () ∧ qstep m m' Q (<[L := Q L ++ [x]]> Q) ∧ plists m' = plists m.
Proof.
  intros [Hl Hp] HL Hno Hx Hu.
  destruct (MRT_list_app_spec m Q L x) as (m' & Hrun & Hl' & Hfr & Hpl); [done..|].
  exists m'. split_and!; [done| |done]. split; [|done]. split; [done|]. by eapply pinv_other.
Qed.

Lemma list_rmv_q m Q L l1 x l2 :
  qinv m Q → is_Some (lists m !! L) → (∀ P p, L ≠ HP P p) → Q L = l1 ++ x :: l2 →
  ∃ m', MRT_list_rmv L x m = Ok m' () ∧ qstep m m' Q (<[L := l1 ++ l2]> Q) ∧ plists m' = plists m.
Proof.
  intros [Hl Hp] HL Hno HQ.
  destruct (MRT_list_rmv_spec m Q L l1 x l2) as (m' & Hrun & Hl' & Hfr & Hpl); [done..|].
  exists m'. split_and!; [done| |done]. split; [|done]. split; [done|]. by eapply pinv_other.
Qed.

Lemma list_rst_q m Q L :
  qinv m Q → is_Some (lists m !! L) → (∀ P p, L ≠ HP P p) →
  ∃ m', MRT_list_rst L m = Ok m' () ∧ qstep m m' Q (<[L := []]> Q) ∧ plists m' = plists m.
Proof.
  intros [Hl Hp] HL Hno.
  destruct (MRT_list_rst_spec m Q L) as (m' & Hrun & (Hl' & Hfr & Hpl) & _); [done..|].
  exists m'. split_and!; [done| |done]. split; [|done]. split; [done|]. by eapply pinv_other.
Qed.

Lemma linv_plists m m' Q :
  links m' = links m → lists m' = lists m → linv m Q → linv m' Q.
Proof. intros Hk Hl [H1 H2 H3 H4 H5]. constructor; rewrite ?Hk, ?Hl; done. Qed.

Lemma lframe_plists m m' :
  links m' = links m → lists m' = lists m →
  (∀ P, is_Some (plists m' !! P) ↔ is_Some (plists m !! P)) → lframe m m'.
Proof. intros Hk Hl Hp. constructor; intros; rewrite ?Hk, ?Hl; done. Qed.

Lemma MRT_plist_app_spec m Q P x p :
  qinv m Q → is_Some (plists m !! P) → 0 ≤ p < 16 → is_Some (links m !! x) → unlinked Q x →
  ∃ m', MRT_plist_app P x p m = Ok m' () ∧
        qstep m m' Q (<[HP P p := Q (HP P p) ++ [x]]> Q).
Proof.
  intros [Hl Hp] [h Hh] Hr Hx Hu. destruct (Hp _ _ Hh) as [Hd Hb Hn H0].
  destruct (MRT_list_app_spec m Q (HP P p) x) as (m1 & Hrun & Hl1 & Hfr & Hpl); [done|by apply Hd|done..|].
  unfold MRT_plist_app. rewrite (bind_ok _ _ _ _ _ Hrun).
  assert (HP1 : plists m1 !! P = Some h) by by rewrite Hpl.
  lrun. eexists. split; [done|]. split.
  - split.
    + by eapply linv_plists; [..|exact Hl1].
    + eapply (pinv_upd m m1 _ Q P p _ h); cbn; [done..| |rewrite !insert_insert_eq; by rewrite Hpl| | |].
      * done.
      * cbn. rewrite length_app. cbn. lia.
      * cbn. apply SET_BIT_nonneg; [done|]. apply Z.shiftl_nonneg. lia.
      * intros q Hq. cbn. rewrite SET_BIT_shift by lia.
        case_decide; [|by rewrite (proj2 (Z.eqb_neq p q))].
        subst. rewrite Z.eqb_refl. cbn. symmetry. apply bool_decide_eq_true. by destruct (Q _).
  - etrans; [done|]. apply lframe_plists; [done..|]. intros P2. cbn.
    repeat (erewrite is_Some_insert; [|lsolve; fail]). done.
Qed.

Lemma MRT_plist_ins_spec m Q P x p :
  qinv m Q → is_Some (plists m !! P) → 0 ≤ p < 16 → is_Some (links m !! x) → unlinked Q x →
  ∃ m', MRT_plist_ins P x p m = Ok m' () ∧
        qstep m m' Q (<[HP P p := x :: Q (HP P p)]> Q).
Proof.
  intros [Hl Hp] [h Hh] Hr Hx Hu. destruct (Hp _ _ Hh) as [Hd Hb Hn H0].
  destruct (MRT_list_ins_spec m Q (HP P p) x) as (m1 & Hrun & Hl1 & Hfr & Hpl); [done|by apply Hd|done..|].
  unfold MRT_plist_ins. rewrite (bind_ok _ _ _ _ _ Hrun).
  assert (HP1 : plists m1 !! P = Some h) by by rewrite Hpl.
  lrun. eexists. split; [done|]. split.
  - split.
    + by eapply linv_plists; [..|exact Hl1].
    + eapply (pinv_upd m m1 _ Q P p _ h); cbn; [done..| |rewrite !insert_insert_eq; by rewrite Hpl| | |].
      * done.
      * cbn. lia.
      * cbn. apply SET_BIT_nonneg; [done|]. apply Z.shiftl_nonneg. lia.
      * intros q Hq. cbn. rewrite SET_BIT_shift by lia.
        case_decide; [|by rewrite (proj2 (Z.eqb_neq p q))].
        subst. by rewrite Z.eqb_refl.
  - etrans; [done|]. apply lframe_plists; [done..|]. intros P2. cbn.
    repeat (erewrite is_Some_insert; [|lsolve; fail]). done.
Qed.

Lemma MRT_plist_rmv_spec m Q P x p l1 l2 :
  qinv m Q → is_Some (plists m !! P) → 0 ≤ p < 16 → Q (HP P p) = l1 ++ x :: l2 →
  ∃ m', MRT_plist_rmv P x p m = Ok m' () ∧
        qstep m m' Q (<[HP P p := l1 ++ l2]> Q).
Proof.
  intros [Hl Hp] [h Hh] Hr HQ. destruct (Hp _ _ Hh) as [Hd Hb Hn H0].
  destruct (MRT_list_rmv_spec m Q (HP P p) l1 x l2) as (m1 & Hrun & Hl1 & Hfr & Hpl); [done|by apply Hd|done..|].
  unfold MRT_plist_rmv. rewrite (bind_ok _ _ _ _ _ Hrun).
  assert (HP1 : plists m1 !! P = Some h) by by rewrite Hpl.
  assert (is_Some (lists m1 !! HP P p)) as [l HL] by (apply Hfr; by apply Hd).
  lrun. destruct (li_list _ _ Hl1 _ _ HL) as (Hin & _). rewrite fn_lookup_insert in Hin.
  destruct (Z.eqb_spec (inQ l) 0) as [Hz|Hz].
  - assert (l1 ++ l2 = []) as He by (apply length_zero_iff_nil; lia).
    lrun. eexists. split; [done|]. split.
    + split; [by eapply linv_plists; [..|exact Hl1]|].
      eapply (pinv_upd m m1 _ Q P p _ h); cbn; [done..| |rewrite !insert_insert_eq; by rewrite Hpl| | |].
      * done.
      * cbn. rewrite HQ, !length_app. cbn. lia.
      * cbn. by apply CLR_BIT_nonneg.
      * intros q Hq. cbn. rewrite CLR_BIT_shift by lia.
        case_decide; [|by rewrite (proj2 (Z.eqb_neq p q))].
        subst. rewrite Z.eqb_refl. cbn. symmetry. apply bool_decide_eq_false. by intros [].
    + etrans; [done|]. apply lframe_plists; [done..|]. intros P2. cbn.
      repeat (erewrite is_Some_insert; [|lsolve; fail]). done.
  - lrun. eexists. split; [done|]. split.
    + split; [by eapply linv_plists; [..|exact Hl1]|].
      eapply (pinv_upd m m1 _ Q P p _ h); cbn; [done..| |by rewrite Hpl| |done|].
      * done.
      * cbn. rewrite HQ, !length_app. cbn. lia.
      * intros q Hq. cbn. case_decide; [|done]. subst. rewrite Hb by done.
        rewrite !bool_decide_true; [done| |].
        -- intros He. rewrite He in Hin. done.
        -- rewrite HQ. by destruct l1.
    + etrans; [done|]. apply lframe_plists; [done..|]. intros P2. cbn.
      repeat (erewrite is_Some_insert; [|lsolve; fail]). done.
Qed.

(** ** Picking the most urgent link *)

Fixpoint pq_first (Q : lhead → list laddr) (P : phead) (p : Z) (n : nat) : option laddr :=
  match n with
  | O => None
  | S n' => match Q (HP P p) with x :: _ => Some x | [] => pq_first Q P (p + 1) n' end
  end.

(** The first link of the lowest-numbered (most urgent) non-empty priority. *)
Definition pq_head (Q : lhead → list laddr) (P : phead) : option laddr := pq_first Q P 0 16.

Lemma pq_first_Some Q P p n x :
  pq_first Q P p n = Some x →
  ∃ q l, p ≤ q < p + Z.of_nat n ∧ Q (HP P q) = x :: l ∧ ∀ r, p ≤ r < q → Q (HP P r) = [].
Proof.
  revert p. induction n as [|n IH]; intros p; cbn; [done|].
  destruct (Q (HP P p)) as [|y l] eqn:E.
  - intros (q & l & Hq & Hl & Hlt)%IH. exists q, l. split_and!; [lia..|done|].
    intros r Hr. destruct (decide (r = p)) as [->|]; [done|apply Hlt; lia].
  - intros [= <-]. exists p, l. split_and!; [lia..|done|intros; lia].
Qed.

Lemma pq_first_None Q P p n :
  pq_first Q P p n = None ↔ ∀ r, p ≤ r < p + Z.of_nat n → Q (HP P r) = [].
Proof.
  revert p. induction n as [|n IH]; intros p; cbn; [naive_solver lia|].
  destruct (Q (HP P p)) as [|y l] eqn:E.
  - rewrite IH. split; intros H r Hr.
    + destruct (decide (r = p)) as [->|]; [done|]. apply H. lia.
    + apply H. lia.
  - split; [done|]. intros H. rewrite H in E by lia. done.
Qed.

Lemma pq_head_Some Q P x :
  pq_head Q P = Some x ↔
  ∃ p l, 0 ≤ p < 16 ∧ Q (HP P p) = x :: l ∧ ∀ q, 0 ≤ q < p → Q (HP P q) = [].
Proof.
  split; [apply pq_first_Some|]. intros (p & l & Hp & Hl & Hlt).
  destruct (pq_head Q P) as [y|] eqn:E.
  - apply pq_first_Some in E as (q & l' & Hq & Hl' & Hlt').
    destruct (Z.lt_trichotomy p q) as [H|[->|H]].
    + by rewrite Hlt' in Hl by lia.
    + congruence.
    + by rewrite Hlt in Hl' by lia.
  - eapply (proj1 (pq_first_None Q P 0 16)) in E; [by erewrite Hl in E|lia].
Qed.

Lemma pq_head_None Q P : pq_head Q P = None ↔ ∀ p, 0 ≤ p < 16 → Q (HP P p) = [].
Proof. apply pq_first_None. Qed.

Lemma plist_scan_spec m Q P h p n :
  qinv m Q → plists m !! P = Some h → 0 ≤ p → p + Z.of_nat n = 16 →
  plist_scan P (bitmap h) p n m = Ok m (pq_first Q P p n).
Proof.
  intros [Hl Hp] Hh. destruct (Hp _ _ Hh) as [Hd Hb Hn H0].
  revert p. induction n as [|n IH]; intros p Hp0 Hpn; cbn; [done|].
  rewrite TEST_BIT_shift, Hb by done. destruct (Q (HP P p)) as [|x l] eqn:E.
  - rewrite bool_decide_false by (by intros []). apply IH; lia.
  - rewrite bool_decide_true by done.
    assert (is_Some (lists m !! HP P p)) as [ls HL] by (apply Hd; lia).
    mnext ld_list_ok. unfold mret, M_ret. f_equal.
    destruct (li_list _ _ Hl _ _ HL) as (_ & _ & Hf & _). by rewrite Hf, E.
Qed.

Lemma MRT_plist_get_spec m Q P :
  qinv m Q → is_Some (plists m !! P) → MRT_plist_get P m = Ok m (pq_head Q P).
Proof.
  intros Hq [h Hh]. unfold MRT_plist_get. mnext ld_plist_ok.
  destruct (Z.eqb_spec (p_inQ h) 0) as [Hz|Hz]; [|by eapply plist_scan_spec].
  destruct Hq as [_ Hp]. destruct (Hp _ _ Hh) as [_ _ Hn _].
  unfold mret, M_ret. f_equal. symmetry. apply pq_head_None, plen_0. lia.
Qed.

(** ** A client's view: any sequence of queue operations *)

Inductive qop :=
  | OpApp (L : lhead) (x : laddr)
  | OpRmv (L : lhead) (x : laddr)
  | OpPApp (P : phead) (x : laddr) (p : Z)
  | OpPIns (P : phead) (x : laddr) (p : Z)
  | OpPRmv (P : phead) (x : laddr) (p : Z).

(** What the code runs for each of them. *)
Definition run_qop (o : qop) : M lmem unit :=
  match o with
  | OpApp L x => MRT_list_app L x
  | OpRmv L x => MRT_list_rmv L x
  | OpPApp P x p => MRT_plist_app P x p
  | OpPIns P x p => MRT_plist_ins P x p
  | OpPRmv P x p => MRT_plist_rmv P x p
  end.

(** The abstract queues: sequences, with [x] taken out by value. *)
Definition without (x : laddr) (xs : list laddr) : list laddr := filter (λ y, y ≠ x) xs.

Definition abs_qop (o : qop) (Q : lhead → list laddr) : lhead → list laddr :=
  match o with
  | OpApp L x => <[L := Q L ++ [x]]> Q
  | OpRmv L x => <[L := without x (Q L)]> Q
  | OpPApp P x p => <[HP P p := Q (HP P p) ++ [x]]> Q
  | OpPIns P x p => <[HP P p := x :: Q (HP P p)]> Q
  | OpPRmv P x p => <[HP P p := without x (Q (HP P p))]> Q
  end.

(** When a client may issue it: only existing queues, a link is inserted only
    when it is in no queue and removed only from the queue it is in. *)
Definition legal (m : lmem) (Q : lhead → list laddr) (o : qop) : Prop :=
  match o with
  | OpApp L x => is_Some (lists m !! L) ∧ (∀ P p, L ≠ HP P p) ∧ is_Some (links m !! x) ∧ unlinked Q x
  | OpRmv L x => is_Some (lists m !! L) ∧ (∀ P p, L ≠ HP P p) ∧ x ∈ Q L
  | OpPApp P x p | OpPIns P x p =>
      is_Some (plists m !! P) ∧ 0 ≤ p < 16 ∧ is_Some (links m !! x) ∧ unlinked Q x
  | OpPRmv P x p => is_Some (plists m !! P) ∧ 0 ≤ p < 16 ∧ x ∈ Q (HP P p)
  end.

Fixpoint legal_run (m : lmem) (Q : lhead → list laddr) (os : list qop) : Prop :=
  match os with
  | [] => True
  | o :: os' => legal m Q o ∧ legal_run m (abs_qop o Q) os'
  end.

Fixpoint run_qops (os : list qop) : M lmem unit :=
  match os with
  | [] => mret ()
  | o :: os' => run_qop o;; run_qops os'
  end.

Lemma without_middle x l1 l2 : NoDup (l1 ++ x :: l2) → without x (l1 ++ x :: l2) = l1 ++ l2.
Proof. apply filter_ne_middle. Qed.

Lemma run_qop_spec m Q o :
  qinv m Q → legal m Q o →
  ∃ m', run_qop o m = Ok m' () ∧ qstep m m' Q (abs_qop o Q).
Proof.
  intros Hq. pose proof Hq as [Hl _]. destruct o; cbn.
  - intros (? & ? & ? & ?). destruct (list_app_q m Q L x) as (m' & ? & ? & _); eauto.
  - intros (? & ? & Hx). pose proof (li_nodup _ _ Hl L) as Hnd.
    apply list_elem_of_split in Hx as (l1 & l2 & E).
    rewrite E, without_middle by congruence.
    destruct (list_rmv_q m Q L l1 x l2) as (m' & ? & ? & _); eauto.
  - intros (? & ? & ? & ?). by apply MRT_plist_app_spec.
  - intros (? & ? & ? & ?). by apply MRT_plist_ins_spec.
  - intros (? & ? & Hx). pose proof (li_nodup _ _ Hl (HP P p)) as Hnd.
    apply list_elem_of_split in Hx as (l1 & l2 & E).
    rewrite E, without_middle by congruence. by apply MRT_plist_rmv_spec.
Qed.

(** Legality only depends on which links and headers exist. *)
Lemma legal_frame m m' Q o : lframe m m' → legal m Q o → legal m' Q o.
Proof.
  intros [Hp Hl Hpl]. assert (Hk : ∀ x, is_Some (links m !! x) → is_Some (links m' !! x)).
  { intros x [k Hk]. specialize (Hp x). rewrite Hk in Hp. destruct (links m' !! x); naive_solver. }
  destruct o; cbn; rewrite ?Hl, ?Hpl; naive_solver.
Qed.

Lemma legal_run_frame m m' Q os : lframe m m' → legal_run m Q os → legal_run m' Q os.
Proof.
  intros Hf. revert Q. induction os as [|o os IH]; intros Q; cbn; [done|].
  intros [? ?]. eauto using legal_frame.
Qed.

Lemma run_qops_spec m Q os :
  qinv m Q → legal_run m Q os →
  ∃ m', run_qops os m = Ok m' () ∧ qstep m m' Q (foldl (λ Q o, abs_qop o Q) Q os).
Proof.
  revert m Q. induction os as [|o os IH]; intros m Q Hq; cbn.
  - intros _. exists m. by split; [|split].
  - intros [Ho Hos]. destruct (run_qop_spec m Q o) as (m1 & Hrun & Hq1 & Hf1); [done..|].
    destruct (IH m1 (abs_qop o Q)) as (m2 & Hrun2 & Hq2 & Hf2); [done|by eapply legal_run_frame|].
    exists m2. rewrite (bind_ok _ _ _ _ _ Hrun). split; [done|]. split; [done|]. by etrans.
Qed.

(** A store whose headers have all been reset represents empty queues. *)
Definition list_empty : list_t := mk_list 0 0 None None.
Definition plist_empty : plist_t := mk_plist 0 0 0.

Lemma qinv_fresh m :
  (∀ L l, lists m !! L = Some l → l = list_empty) →
  (∀ P h, plists m !! P = Some h → h = plist_empty) →
  (∀ P p, is_Some (plists m !! P) → is_Some (lists m !! HP P p) ↔ 0 ≤ p < 16) →
  qinv m (λ _, []).
Proof.
  intros Hl Hp Hd. split; [constructor|]; try done.
  - intros L l ->%Hl. done.
  - constructor.
  - intros L L' x []%not_elem_of_nil.
  - intros P h Hh. constructor; [by eauto| |by rewrite (Hp _ _ Hh), (proj2 (plen_0 _ _))|].
    + intros p _. by rewrite (Hp _ _ Hh), Z.bits_0, bool_decide_false by tauto.
    + by rewrite (Hp _ _ Hh).
Qed.

(** A small store: the ready list, the free-timer list and three timers' links. *)
Definition small_lmem : lmem :=
  mk_lmem
    (list_to_map ((λ i, (LVt i, mk_link None None 0 (OVt i))) <$> [1; 2; 3]))
    (list_to_map ((HFreeVt, list_empty) ::
       ((λ p, (HP PRdy (Z.of_nat p), list_empty)) <$> seq 0 16)))
    {[ PRdy := plist_empty ]}.

Lemma small_lmem_qinv : qinv small_lmem (λ _, []).
Proof.
  apply qinv_fresh.
  - intros L l HL. apply elem_of_list_to_map_2 in HL.
    apply elem_of_cons in HL as [|HL]; [naive_solver|].
    apply list_elem_of_fmap in HL. naive_solver.
  - intros P h. cbn. rewrite lookup_singleton_Some. naive_solver.
  - intros P p [h Hh]. cbn in Hh. apply lookup_singleton_Some in Hh as [<- <-].
    cbn [lists small_lmem].
    rewrite list_to_map_cons, lookup_insert_ne by done. split.
    + intros [l Hin%elem_of_list_to_map_2]. apply list_elem_of_fmap in Hin as (n & [= -> ->] & Hn).
      apply elem_of_seq in Hn. lia.
    + intros Hp. apply not_eq_None_Some. intros Hn%not_elem_of_list_to_map_2.
      apply Hn, list_elem_of_fmap. exists (HP PRdy p, list_empty). split; [done|].
      apply list_elem_of_fmap. exists (Z.to_nat p). rewrite elem_of_seq, Z2Nat.id by lia. split; [done|lia].
Qed.

(** C1: any sequence of legal queue operations on the intrusive lists and
    priority lists of mrtlib.c (append, remove, priority append, insert at head,
    priority remove), started on a well-formed store, runs without undefined
    behaviour and leaves the store representing exactly the sequences obtained
    by the abstract operations; [MRT_plist_get] then answers the first link of
    the most urgent non-empty priority, or [NULL] when all are empty. *)
Theorem plist_refines_sequences m Q os P :
  qinv m Q → legal_run m Q os → is_Some (plists m !! P) →
  ∃ m', (run_qops os;; MRT_plist_get P) m
          = Ok m' (pq_head (foldl (λ Q o, abs_qop o Q) Q os) P) ∧
        qstep m m' Q (foldl (λ Q o, abs_qop o Q) Q os).
Proof.
  intros Hq Hl HP'. destruct (run_qops_spec m Q os) as (m' & Hrun & Hq' & Hf); [done..|].
  exists m'. rewrite (bind_ok _ _ _ _ _ Hrun). split; [|done].
  apply MRT_plist_get_spec; [done|]. by apply (fr_plists _ _ Hf).
Qed.

Definition small_ops : list qop :=
  [OpApp HFreeVt (LVt 1); OpPApp PRdy (LVt 2) 5; OpRmv HFreeVt (LVt 1);
   OpPApp PRdy (LVt 1) 5; OpPIns PRdy (LVt 3) 5; OpPRmv PRdy (LVt 3) 5].

Lemma plist_refines_sequences_witness :
  ∃ m', (run_qops small_ops;; MRT_plist_get PRdy) small_lmem = Ok m' (Some (LVt 2)) ∧
        qinv m' (foldl (λ Q o, abs_qop o Q) (λ _, []) small_ops).
Proof.
  edestruct (plist_refines_sequences small_lmem (λ _, []) small_ops PRdy) as (m' & Hrun & Hq).
  - apply small_lmem_qinv.
  - repeat split; try by eexists.
    all: try (vm_compute; done). all: try (intros L; vm_compute; repeat case_match; set_solver).
    all: try (vm_compute; set_solver).
  - by eexists.
  - exists m'. split; [rewrite Hrun; by vm_compute|apply Hq].
Defined.
