(* ===== verification/Kernel.v ===== *)
(** * The kernel's data (kernel/type.h, kernel/proc.h, kernel/glo.h)

    One record per C structure, one gmap per table of structures, and [kstate],
    the kernel's global variables.  The embedded links and list headers of every
    structure live in the store [lm] of Lists.v.  A pointer to an element of a
    table is the element's index ([struct proc *]: the process number); a
    pointer that may be [NULL] is an [option].  Reading an index that is not in
    the table is a wild pointer. *)

From stdpp Require Import base gmap strings pretty numbers fin_maps functions list.
From S2P Require Import Prelude Lists.
Local Open Scope Z_scope.

(** ** Constants (include/minix/const.h, com.h, config.h, kernel/const.h, errno.h) *)

Definition NR_TASKS : Z := 11.
Definition NR_PROCS : Z := 32.
Definition LOW_USER : Z := 2.
Definition HARDWARE : Z := -1.
Definition IDLE : Z := -7.
Definition MRTTASK : Z := -9.
Definition MM_PROC_NR : Z := 0.
Definition FS_PROC_NR : Z := 1.
Definition ANY : Z := NR_PROCS + 100.
Definition MRT_ANYPROC : Z := - (NR_TASKS + 100).

Definition NR_VTIMERS : Z := 16.
Definition NR_MESSAGES : Z := 32.
Definition NR_MSGQ : Z := 16.
Definition NR_SEM : Z := 16.
Definition NR_IRQ_VECTORS : Z := 16.
Definition NR_IRQ_SOFT : Z := 16.
Definition CLOCK_IRQ : Z := 0.
Definition MRT_MAXPER : Z := 10000.
Definition HZ : Z := 50.
Definition TIMER_FREQ : Z := 1193182.

Definition MRT_PRIHIGHEST : Z := 0.
Definition MRT_PRILOWEST : Z := 15.

(** [MRT_FOREVER] is [-1]; compared with an unsigned timeout it is [2^32 - 1]. *)
Definition MRT_NOWAIT : Z := 0.
Definition MRT_FOREVER : Z := -1.

(** [p_flags] *)
Definition P_SLOT_FREE : Z := 1.
Definition SENDING : Z := 4.
Definition RECEIVING : Z := 8.
Definition PENDING : Z := 16.
Definition SIG_PENDING : Z := 32.
Definition P_STOP : Z := 64.
Definition MRT_P_REALTIME : Z := 0x4000.
Definition MRT_P_PERIODIC : Z := 0x8000.

(** [rt.flags] *)
Definition MRT_MBX_SND : Z := 1.
Definition MRT_MBX_RCV : Z := 2.
Definition MRT_P_SLEEP : Z := 4.
Definition MRT_SEM_DOWN : Z := 8.
Definition MRT_LOCK_WAIT : Z := 0x10.
Definition MRT_P_STATUS : Z := 0xFF.

(** [MRT_sv.flags] *)
Definition MRT_RTMODE : Z := 1.
Definition MRT_MINIXCLI : Z := 2.
Definition MRT_NEWINT : Z := 4.
Definition MRT_FLUSHLCK : Z := 8.
Definition MRT_NEEDSCHED : Z := 0x20.
Definition MRT_RTSCHED : Z := 0x40.
Definition MRT_DBG232 : Z := 0x100.
Definition MRT_LATENCY : Z := 0x200.
Definition MRT_BPIP : Z := 0x400.
Definition MRT_ONESHOT : Z := 0x800.
Definition MRT_PRTYMASK : Z := 0x1000.

(** message queue and semaphore policies *)
Definition MQ_PRTYORDER : Z := 1.
Definition MQ_PRTYINHERIT : Z := 2.
Definition SEM_PRTYORDER : Z := 1.
Definition SEM_PRTYINHERIT : Z := 2.
Definition SEM_MUTEX : Z := 4.

(** interrupt descriptors *)
Definition MRT_RTIRQ : Z := 1.
Definition MRT_TDIRQ : Z := 2.
Definition MRT_SOFTIRQ : Z := 4.
Definition MRT_ISTMSG : Z := 8.
Definition MRT_RELATPER : Z := 0x10.
Definition MRT_ENQUEUED : Z := 1.
Definition MRT_DISABLED : Z := 2.
Definition MRT_LATCALC : Z := 8.
Definition MRT_TDTRIGGER : Z := 0x10.
Definition MRT_TASKLOCKED : Z := 0x40.
Definition MRT_HANDLOCKED : Z := 0x80.
Definition MRT_TASKWAIT : Z := 0x100.
Definition MRT_HANDWAIT : Z := 0x200.
Definition MRT_IRQ_DISABLED : Z := 0.
Definition MRT_IRQ_ENABLED : Z := 1.

(** virtual timers *)
Definition VT_ALLOC : Z := 0.
Definition VT_FREEQ : Z := 1.
Definition VT_ACTIVEQ : Z := 2.
Definition VT_EXPIREDQ : Z := 4.
Definition MRT_NBRVTACT : Z := 13.
Definition MRT_ACT_NONE : Z := 0.
Definition MRT_ACT_SCHED : Z := 1.
Definition MRT_ACT_MSGOWN : Z := 2.
Definition MRT_ACT_MSGWDOG : Z := 3.
Definition MRT_ACT_IRQTRIG : Z := 4.
Definition MRT_ACT_SNDTO : Z := 5.
Definition MRT_ACT_RCVFR : Z := 6.
Definition MRT_ACT_WAKEUP : Z := 7.
Definition MRT_ACT_DEBUG : Z := 8.
Definition MRT_ACT_PERIODIC : Z := 9.
Definition MRT_ACT_SNDRCV : Z := 10.
Definition MRT_ACT_STOP : Z := 11.
Definition MRT_ACT_DOWN : Z := 12.

(** message types *)
Definition MT_MBFREE : Z := 0.
Definition MT_UPRQST : Z := 1.
Definition MT_REQUEST : Z := 2.
Definition MT_AREQUEST : Z := 3.
Definition MT_REPLY : Z := 4.
Definition MT_SIGNAL : Z := 5.
Definition MT_RQRCV : Z := 6.
Definition MT_KRNIRQ : Z := 0x10.
Definition MT_KRNTOUT : Z := 0x11.
Definition MT_KRNDLINE : Z := 0x12.
Definition MT_KRNWDOG : Z := 0x13.
Definition MT_KRNPROC : Z := 0x14.
Definition MRTMSGQFREE : Z := -1.

(** object tags of links *)
Definition MRT_OBJVT : Z := 1.
Definition MRT_OBJPROC : Z := 2.
Definition MRT_OBJMQ : Z := 3.
Definition MRT_OBJMQE : Z := 4.
Definition MRT_OBJIRQD : Z := 5.
Definition MRT_OBJSEM : Z := 6.

(** results *)
Definition OK : Z := 0.
Definition EPERM : Z := -1.
Definition EFAULT : Z := -14.
Definition EINVAL : Z := -22.
Definition ELOCKED : Z := -101.
Definition EBADCALL : Z := -102.
Definition E_BAD_DEST : Z := -1001.
Definition E_BAD_SRC : Z := -1002.
Definition E_TRY_AGAIN : Z := -1003.
Definition E_NO_PERM : Z := -1008.
Definition E_BAD_FCN : Z := -1009.
Definition E_BAD_PROC : Z := -1011.
Definition E_MRT_BADIRQ : Z := -2001.
Definition E_MRT_BADTASK : Z := -2002.
Definition E_MRT_BADPRTY : Z := -2003.
Definition E_MRT_BADHARM : Z := -2005.
Definition E_MRT_RTACTIVE : Z := -2006.
Definition E_MRT_BADPTYPE : Z := -2007.
Definition E_MRT_BADWDOG : Z := -2010.
Definition E_MRT_UNREADY : Z := -2011.
Definition E_MRT_NOVTIMER : Z := -2012.
Definition E_MRT_NOSOFTIRQ : Z := -2013.
Definition E_MRT_NORTMODE : Z := -2014.
Definition E_MRT_UNSLEEP : Z := -2015.
Definition E_MRT_EXITING : Z := -2016.
Definition E_MRT_NOMQENT : Z := -2017.
Definition E_MRT_NOMSGQ : Z := -2019.
Definition E_MRT_TIMEOUT : Z := -2021.
Definition E_MRT_RTMODE : Z := -2022.
Definition E_MRT_BADRFSH : Z := -2023.
Definition E_MRT_MQFULL : Z := -2024.
Definition E_MRT_NOSEM : Z := -2025.
Definition E_MRT_BADSEM : Z := -2026.
Definition E_MRT_FREESEM : Z := -2027.
Definition E_MRT_BADNAME : Z := -2028.
Definition E_MRT_BADVALUE : Z := -2029.
Definition E_MRT_BADFLAGS : Z := -2030.
Definition E_MRT_BADMSGQ : Z := -2031.
Definition E_MRT_FREEMSGQ : Z := -2032.

(** ** Structures *)

(** kernel/proc.h: [rtattrib_t], [rtstats_t], [mqattrib_t] *)
Record rtattrib_t := mk_rtattrib {
  rt_flags : Z;
  rt_priority : Z;
  rt_baseprty : Z;
  rt_period : Z;
  rt_limit : Z;
  rt_deadline : Z;
  rt_watchdog : Z;
}.
#[export] Instance rtattrib_eta : Eta rtattrib_t := λ r,
  mk_rtattrib (rt_flags r) (rt_priority r) (rt_baseprty r) (rt_period r) (rt_limit r)
    (rt_deadline r) (rt_watchdog r).

Record rtstats_t := mk_rtstats {
  st_scheds : Z;
  st_mdl : Z;
  st_timestamp : Z;
  st_maxlat : Z;
  st_minlax : Z;
  st_msgsent : Z;
  st_msgrcvd : Z;
}.
#[export] Instance rtstats_eta : Eta rtstats_t := λ r,
  mk_rtstats (st_scheds r) (st_mdl r) (st_timestamp r) (st_maxlat r) (st_minlax r)
    (st_msgsent r) (st_msgrcvd r).

Record mqattrib_t := mk_mqattrib {
  mqa_size : Z;
  mqa_flags : Z;
}.
#[export] Instance mqattrib_eta : Eta mqattrib_t := λ r, mk_mqattrib (mqa_size r) (mqa_flags r).

(** include/minix/type.h: [struct mem_map]; [p_map] has the segments T, D, S *)
Record mem_map := mk_mem_map {
  mem_vir : Z;
  mem_phys : Z;
  mem_len : Z;
}.

(** kernel/proc.h: [struct proc], without the saved registers other than the
    return register, the descriptors and the accounting times. [p_stguard] is
    the word the stack guard pointer points to. *)
Record proc := mk_proc {
  p_retreg : Z;
  p_stguard : Z;
  p_nr : Z;
  p_int_blocked : bool;
  p_int_held : bool;
  p_nextheld : option Z;
  p_flags : Z;
  p_map_D : mem_map;
  p_map_S : mem_map;
  p_pid : Z;
  p_callerq : option Z;
  p_sendlink : option Z;
  p_messbuf : Z;
  p_getfrom : Z;
  p_sendto : Z;
  p_nextready : option Z;
  p_pending : Z;
  rt : rtattrib_t;
  st : rtstats_t;
  mq : mqattrib_t;
  pmq : option Z;
  pvt : option Z;
  ipcvt : option Z;
  pfrom : option Z;
  pto : option Z;
  psem : option Z;
  pmsg : Z;
  pmhdr : Z;
}.
#[export] Instance proc_eta : Eta proc := λ r,
  mk_proc (p_retreg r) (p_stguard r) (p_nr r) (p_int_blocked r) (p_int_held r) (p_nextheld r)
    (p_flags r) (p_map_D r) (p_map_S r) (p_pid r) (p_callerq r) (p_sendlink r) (p_messbuf r)
    (p_getfrom r) (p_sendto r) (p_nextready r) (p_pending r) (rt r) (st r) (mq r) (pmq r) (pvt r)
    (ipcvt r) (pfrom r) (pto r) (psem r) (pmsg r) (pmhdr r).

(** kernel/type.h: [MRT_vtimer_t] *)
Record MRT_vtimer_t := mk_vtimer {
  vt_period : Z;
  vt_limit : Z;
  vt_action : Z;
  vt_param : Z;
  vt_priority : Z;
  vt_index : Z;
  vt_owner : Z;
  vt_flags : Z;
  vt_nextexp : Z;
  vt_timestamp : Z;
  vt_expired : Z;
}.
#[export] Instance vtimer_eta : Eta MRT_vtimer_t := λ v,
  mk_vtimer (vt_period v) (vt_limit v) (vt_action v) (vt_param v) (vt_priority v) (vt_index v)
    (vt_owner v) (vt_flags v) (vt_nextexp v) (vt_timestamp v) (vt_expired v).

(** kernel/type.h: [MRT_irqd_t]; handlers are code addresses *)
Record MRT_irqd_t := mk_irqd {
  iq_count : Z;
  iq_maxshower : Z;
  iq_mdl : Z;
  iq_timestamp : Z;
  iq_maxlat : Z;
  iq_reenter : Z;
  iq_irq : Z;
  iq_harmonic : Z;
  iq_pvt : option Z;
  iq_flags : Z;
  iq_latency : Z;
  iq_shower : Z;
  iq_before : Z;
  iq_nrthandler : Z;
  iq_rthandler : Z;
  iq_period : Z;
  iq_task : Z;
  iq_watchdog : Z;
  iq_priority : Z;
  iq_irqtype : Z;
  iq_name : string;
}.
#[export] Instance irqd_eta : Eta MRT_irqd_t := λ d,
  mk_irqd (iq_count d) (iq_maxshower d) (iq_mdl d) (iq_timestamp d) (iq_maxlat d) (iq_reenter d)
    (iq_irq d) (iq_harmonic d) (iq_pvt d) (iq_flags d) (iq_latency d) (iq_shower d) (iq_before d)
    (iq_nrthandler d) (iq_rthandler d) (iq_period d) (iq_task d) (iq_watchdog d) (iq_priority d)
    (iq_irqtype d) (iq_name d).

(** include/minix/type.h: message headers; a message body is its bytes *)
Record mrtpid_t := mk_mrtpid {
  mp_pid : Z;
  mp_p_nr : Z;
}.

Record mrt_mhdr_t := mk_mhdr {
  h_src : mrtpid_t;
  h_dst : mrtpid_t;
  h_mtype : Z;
  h_mid : Z;
  h_seqno : Z;
  h_tstamp : Z;
  h_priority : Z;
  h_deadline : Z;
  h_laxity : Z;
}.
#[export] Instance mhdr_eta : Eta mrt_mhdr_t := λ h,
  mk_mhdr (h_src h) (h_dst h) (h_mtype h) (h_mid h) (h_seqno h) (h_tstamp h) (h_priority h)
    (h_deadline h) (h_laxity h).

Definition mrt_msg_t : Type := list Z.

(** kernel/type.h: [MRT_mqe_t], [MRT_msgQ_t], [MRT_sem_t] *)
Record MRT_mqe_t := mk_mqe {
  e_hdr : mrt_mhdr_t;
  e_m_u : mrt_msg_t;
  e_index : Z;
  e_pvt : option Z;
}.
#[export] Instance mqe_eta : Eta MRT_mqe_t := λ e,
  mk_mqe (e_hdr e) (e_m_u e) (e_index e) (e_pvt e).

Record MRT_msgQ_t := mk_msgQ {
  q_index : Z;
  q_size : Z;
  q_flags : Z;
  q_owner : Z;
  q_delivered : Z;
  q_enqueued : Z;
}.
#[export] Instance msgQ_eta : Eta MRT_msgQ_t := λ q,
  mk_msgQ (q_index q) (q_size q) (q_flags q) (q_owner q) (q_delivered q) (q_enqueued q).

Record MRT_sem_t := mk_sem {
  s_index : Z;
  s_value : Z;
  s_priority : Z;
  s_flags : Z;
  s_owner : Z;
  s_ups : Z;
  s_downs : Z;
  s_carrier : option Z;
  s_name : string;
}.
#[export] Instance sem_eta : Eta MRT_sem_t := λ s,
  mk_sem (s_index s) (s_value s) (s_priority s) (s_flags s) (s_owner s) (s_ups s) (s_downs s)
    (s_carrier s) (s_name s).

(** kernel/type.h: [MRT_sysval_t] with its [MRT_sysstat_t counter] *)
Record MRT_sysval_t := mk_sysval {
  sv_flags : Z;
  sv_virtual_PIC : Z;
  sv_real_PIC : Z;
  sv_PIT_latency : Z;
  sv_PIT_latch : Z;
  sv_tickrate : Z;
  sv_harmonic : Z;
  sv_refresh : Z;
  sv_tick2Hz : Z;
  sv_MINIX_soft : Z;
  sv_IDLE_soft : Z;
  sv_prtylvl : Z;
  sv_idlecount : Z;
  c_scheds : Z;
  c_messages : Z;
  c_interrupts : Z;
  c_ticks : Z;
  c_highticks : Z;
  c_idlemax : Z;
  c_idlelast : Z;
  c_oneshots : Z;
}.
#[export] Instance sysval_eta : Eta MRT_sysval_t := λ v,
  mk_sysval (sv_flags v) (sv_virtual_PIC v) (sv_real_PIC v) (sv_PIT_latency v) (sv_PIT_latch v)
    (sv_tickrate v) (sv_harmonic v) (sv_refresh v) (sv_tick2Hz v) (sv_MINIX_soft v)
    (sv_IDLE_soft v) (sv_prtylvl v) (sv_idlecount v) (c_scheds v) (c_messages v) (c_interrupts v)
    (c_ticks v) (c_highticks v) (c_idlemax v) (c_idlelast v) (c_oneshots v).

(** include/unistd.h: arguments of the real-time kernel calls *)
Record mrt_ipc_t := mk_ipc {
  ipc_p_nr : Z;
  ipc_pid : Z;
  ipc_msg : Z;
  ipc_msg2 : Z;
  ipc_hdr : Z;
  ipc_timeout : Z;
  ipc_priority : Z;
}.

Record mrt_down_t := mk_down {
  dw_index : Z;
  dw_timeout : Z;
}.

(** include/minix/type.h: a MINIX [message] *)
Record message := mk_message {
  m_source : Z;
  m_type : Z;
  m_u : list Z;
}.
#[export] Instance message_eta : Eta message := λ m, mk_message (m_source m) (m_type m) (m_u m).

(** include/unistd.h: what the real-time system calls report and set *)
Record mrt_sysstat_t := mk_sysstat {
  ss_scheds : Z;
  ss_messages : Z;
  ss_interrupts : Z;
  ss_ticks : Z;
  ss_highticks : Z;
  ss_idlemax : Z;
  ss_idlelast : Z;
}.

Record mrt_sysval_t := mk_usysval {
  us_flags : Z;
  us_virtual_PIC : Z;
  us_PIT_latency : Z;
  us_PIT_latch : Z;
  us_tickrate : Z;
  us_harmonic : Z;
  us_refresh : Z;
}.

Record mrt_irqattr_t := mk_irqattr {
  ia_period : Z;
  ia_task : Z;
  ia_watchdog : Z;
  ia_priority : Z;
  ia_irqtype : Z;
  ia_name : string;
}.

Record mrt_irqstat_t := mk_irqstat {
  is_count : Z;
  is_maxshower : Z;
  is_mdl : Z;
  is_timestamp : Z;
  is_maxlat : Z;
  is_reenter : Z;
}.

Record mrt_irqint_t := mk_irqint {
  ii_irq : Z;
  ii_harmonic : Z;
  ii_vtimer : Z;
  ii_flags : Z;
}.

Record mrt_pattr_t := mk_pattr {
  pa_flags : Z;
  pa_baseprty : Z;
  pa_period : Z;
  pa_limit : Z;
  pa_deadline : Z;
  pa_watchdog : Z;
  pa_mq_size : Z;
  pa_mq_flags : Z;
}.

(** [pt_mdl] is the word the kernel never assigns. *)
Record mrt_pstat_t := mk_pstat {
  pt_scheds : Z;
  pt_mdl : Z;
  pt_timestamp : Z;
  pt_maxlat : Z;
  pt_minlax : Z;
  pt_msgsent : Z;
  pt_msgrcvd : Z;
}.

Record mrt_pint_t := mk_pint {
  pi_vt : Z;
  pi_priority : Z;
  pi_mqID : Z;
  pi_p_nr : Z;
}.

Record mrt_semattr_t := mk_semattr {
  sa_value : Z;
  sa_flags : Z;
  sa_priority : Z;
  sa_name : string;
}.

Record mrt_semstat_t := mk_semstat {
  sst_ups : Z;
  sst_downs : Z;
  sst_maxinQ : Z;
}.

Record mrt_semint_t := mk_semint {
  sin_index : Z;
  sin_owner : Z;
  sin_inQ : Z;
}.

Record mrt_msgqstat_t := mk_msgqstat {
  ms_delivered : Z;
  ms_enqueued : Z;
  ms_maxinQ : Z;
}.

(** User memory seen as these structures. *)
Record tmem := mk_tmem {
  tm_sysstat : Z → mrt_sysstat_t;
  tm_sysval : Z → mrt_sysval_t;
  tm_irqattr : Z → mrt_irqattr_t;
  tm_irqstat : Z → mrt_irqstat_t;
  tm_irqint : Z → mrt_irqint_t;
  tm_pattr : Z → mrt_pattr_t;
  tm_pstat : Z → mrt_pstat_t;
  tm_pint : Z → mrt_pint_t;
  tm_semattr : Z → mrt_semattr_t;
  tm_semstat : Z → mrt_semstat_t;
  tm_semint : Z → mrt_semint_t;
  tm_msgqstat : Z → mrt_msgqstat_t;
}.
#[export] Instance tmem_eta : Eta tmem := λ t,
  mk_tmem (tm_sysstat t) (tm_sysval t) (tm_irqattr t) (tm_irqstat t) (tm_irqint t) (tm_pattr t) (tm_pstat t)
    (tm_pint t) (tm_semattr t) (tm_semstat t) (tm_semint t) (tm_msgqstat t).

(** User memory by physical address, one view per structure that crosses the
    user/kernel boundary.  A store changes the view it is made through. *)
Record umem := mk_umem {
  um_msg : Z → mrt_msg_t;
  um_hdr : Z → mrt_mhdr_t;
  um_ipc : Z → mrt_ipc_t;
  um_long : Z → Z;
  um_pid : Z → mrtpid_t;
  um_down : Z → mrt_down_t;
  um_mess : Z → message;
  um_str : Z → string;
  um_task : tmem;
}.
#[export] Instance umem_eta : Eta umem := λ u,
  mk_umem (um_msg u) (um_hdr u) (um_ipc u) (um_long u) (um_pid u) (um_down u) (um_mess u)
    (um_str u) (um_task u).

(** The three MINIX ready queues. *)
Inductive readyq :=
  | TASK_Q
  | SERVER_Q
  | USER_Q.
#[export] Instance readyq_eq_dec : EqDecision readyq.
Proof. solve_decision. Defined.

(** The devices the kernel drives: the 8259 interrupt masks, what channel 2 of
    the timer reads, the last latch loaded into channel 0, the CPU's interrupt
    flag. *)
Record hardware := mk_hardware {
  hw_PIC : Z;
  hw_timer2 : Z;
  hw_timer0 : Z;
  hw_IF : bool;
}.
#[export] Instance hardware_eta : Eta hardware := λ h,
  mk_hardware (hw_PIC h) (hw_timer2 h) (hw_timer0 h) (hw_IF h).

(** The functions whose [static long CPUflags] is looked at: three run interrupt
    handlers, which may call them again, between saving the flag and restoring it,
    and [MRT_semalloc] restores the flag before it has saved it.  In all other
    functions the static is a local variable, since nothing runs between. *)
Inductive flags_of :=
  | F_MRT_do_handler
  | F_unlock
  | F_MRT_irqd_unlock
  | F_MRT_semalloc.
#[export] Instance flags_of_eq_dec : EqDecision flags_of.
Proof. solve_decision. Defined.

(** ** The kernel state *)
Record kstate := mk_kstate {
  lm : lmem;                        (* every link, list and plist header *)
  procs : gmap Z proc;              (* proc[], by process number *)
  sems : gmap Z MRT_sem_t;          (* MRT_ss.sem[] *)
  vtimers : gmap Z MRT_vtimer_t;    (* MRT_st.vtimer[] *)
  mqes : gmap Z MRT_mqe_t;          (* MRT_sm.mqe[] *)
  msgQs : gmap Z MRT_msgQ_t;        (* MRT_sm.msgQ[] *)
  irqtab : gmap Z MRT_irqd_t;       (* MRT_si.irqtab[] *)
  sv : MRT_sysval_t;                (* MRT_sv *)
  earliest : Z;                     (* MRT_st.actQ.earliest *)
  maxper : Z;                       (* MRT_st.actQ.maxper *)
  T2curr : Z;                       (* MRT_st.T2curr *)
  latch : Z;                        (* MRT_st.latch *)
  si_mask : Z → Z;                  (* MRT_si.mask[] *)
  hard_use : Z;                     (* MRT_si.hard_use *)
  soft_use : Z;                     (* MRT_si.soft_use *)
  proc_ptr : Z;
  bill_ptr : Z;
  rdy_head : readyq → option Z;
  rdy_tail : readyq → option Z;
  held_head : option Z;
  held_tail : option Z;
  k_reenter : Z;
  switching : bool;
  sig_procs : Z;
  um : umem;
  hw : hardware;
  CPUflags : flags_of → bool;       (* the static CPUflags, their interrupt flag *)
  junk : Z;                         (* what an uninitialised local holds *)
  console : list string;            (* what printf has written, newest first *)
}.
#[export] Instance kstate_eta : Eta kstate := λ k,
  mk_kstate (lm k) (procs k) (sems k) (vtimers k) (mqes k) (msgQs k) (irqtab k) (sv k)
    (earliest k) (maxper k) (T2curr k) (latch k) (si_mask k) (hard_use k) (soft_use k)
    (proc_ptr k) (bill_ptr k) (rdy_head k) (rdy_tail k) (held_head k) (held_tail k)
    (k_reenter k) (switching k) (sig_procs k) (um k) (hw k) (CPUflags k) (junk k) (console k).

Abbreviation K := (M kstate).

(** Loads and stores through a pointer into a table. *)
Definition ld_proc (n : Z) : K proc := m ← gets procs; deref (m !! n).
Definition st_proc (n : Z) (f : proc → proc) : K unit :=
  r ← ld_proc n; modify (λ k, k <| procs ::= <[n := f r]> |>).
Definition ld_sem (i : Z) : K MRT_sem_t := m ← gets sems; deref (m !! i).
Definition st_sem (i : Z) (f : MRT_sem_t → MRT_sem_t) : K unit :=
  r ← ld_sem i; modify (λ k, k <| sems ::= <[i := f r]> |>).
Definition ld_vt (i : Z) : K MRT_vtimer_t := m ← gets vtimers; deref (m !! i).
Definition st_vt (i : Z) (f : MRT_vtimer_t → MRT_vtimer_t) : K unit :=
  r ← ld_vt i; modify (λ k, k <| vtimers ::= <[i := f r]> |>).
Definition ld_mqe (i : Z) : K MRT_mqe_t := m ← gets mqes; deref (m !! i).
Definition st_mqe (i : Z) (f : MRT_mqe_t → MRT_mqe_t) : K unit :=
  r ← ld_mqe i; modify (λ k, k <| mqes ::= <[i := f r]> |>).
Definition ld_mq (i : Z) : K MRT_msgQ_t := m ← gets msgQs; deref (m !! i).
Definition st_mq (i : Z) (f : MRT_msgQ_t → MRT_msgQ_t) : K unit :=
  r ← ld_mq i; modify (λ k, k <| msgQs ::= <[i := f r]> |>).
Definition ld_irqd (i : Z) : K MRT_irqd_t := m ← gets irqtab; deref (m !! i).
Definition st_irqd (i : Z) (f : MRT_irqd_t → MRT_irqd_t) : K unit :=
  r ← ld_irqd i; modify (λ k, k <| irqtab ::= <[i := f r]> |>).
Definition st_sv (f : MRT_sysval_t → MRT_sysval_t) : K unit := modify (λ k, k <| sv ::= f |>).
(** [printf] of a formatted string. *)
Definition printf (s : string) : K unit := modify (λ k, k <| console ::= cons s |>).
Definition nl : string := String (Ascii.ascii_of_nat 10) EmptyString.

Definition sv_test (b : Z) : K bool := gets (λ k, TEST_BIT (sv_flags (sv k)) b).
Definition sv_set (b : Z) : K unit := st_sv (λ v, v <| sv_flags ::= λ f, SET_BIT f b |>).
Definition sv_clr (b : Z) : K unit := st_sv (λ v, v <| sv_flags ::= λ f, CLR_BIT f b |>).

(** Code of Lists.v on the embedded links and headers. *)
Definition lists_ {A} (m : M lmem A) : K A := zoom lm (λ t k, k <| lm := t |>) m.

(** [(T * ) plink->this] at the type the code expects. *)
Definition as_vt (o : objp) : K Z := match o with OVt i => mret i | _ => undef WrongType end.
Definition as_proc (o : objp) : K Z := match o with OProc i => mret i | _ => undef WrongType end.
Definition as_mq (o : objp) : K Z := match o with OMq i => mret i | _ => undef WrongType end.
Definition as_mqe (o : objp) : K Z := match o with OMqe i => mret i | _ => undef WrongType end.
Definition as_irqd (o : objp) : K Z := match o with OIrqd i => mret i | _ => undef WrongType end.
Definition as_sem (o : objp) : K Z := match o with OSem i => mret i | _ => undef WrongType end.
Definition this_of (x : laddr) : K objp := l ← lists_ (ld_link x); mret (this l).

(** ** Macros of kernel/proc.h *)
Definition MRT_is_realtime (r : proc) : bool := TEST_BIT (p_flags r) MRT_P_REALTIME.
Definition MRT_is_periodic (r : proc) : bool := TEST_BIT (rt_flags (rt r)) MRT_P_PERIODIC.
Definition MRT_is_rtready (r : proc) : bool := Z.land (rt_flags (rt r)) MRT_P_STATUS =? 0.
Definition MRT_is_process (r : proc) : bool := negb (TEST_BIT (p_flags r) P_SLOT_FREE).
Definition isokprocn (n : Z) : bool := u32 (n + NR_TASKS) <? NR_PROCS + NR_TASKS.
Definition isoksrc_dest (n : Z) : bool := isokprocn n || (n =? ANY).
Definition isrxhardware (n : Z) : bool := (n =? ANY) || (n =? HARDWARE).
Definition issysmrt (n : Z) : bool := (n =? FS_PROC_NR) || (n =? MM_PROC_NR) || (n =? MRTTASK).
Definition istaskp (p : Z) : bool := (p <? 0) && negb (p =? IDLE).
Definition isuserp (p : Z) : bool := LOW_USER <=? p.

(** ** Assembly routines of klib386.s the kernel calls *)
Definition MRT_set_PIC (mask : Z) : K unit :=
  modify (λ k, k <| hw ::= λ h, h <| hw_PIC := Z.land mask 0xFFFF |> |>).
Definition MRT_enable_irq (irq : Z) : K unit :=
  modify (λ k, k <| hw ::= λ h, h <| hw_PIC ::= λ p, CLR_BIT p (Z.shiftl 1 irq) |> |>).
Definition MRT_disable_irq (irq : Z) : K unit :=
  modify (λ k, k <| hw ::= λ h, h <| hw_PIC ::= λ p, SET_BIT p (Z.shiftl 1 irq) |> |>).

(** ** User memory (kernel/system.c [umap], [numap]; kernel/kernel.h macros) *)
Definition CLICK_SHIFT : Z := 8.

(** [umap] for the data and stack segments: [numap] always passes D. *)
Definition umap_D (r : proc) (vir_addr bytes : Z) : Z :=
  if bytes <=? 0 then 0 else
  let vc := Z.shiftr (u32 (vir_addr + bytes - 1)) CLICK_SHIFT in
  let seg := if vc <? u32 (mem_vir (p_map_D r) + mem_len (p_map_D r))
             then p_map_D r else p_map_S r in
  if u32 (mem_vir seg + mem_len seg) <=? Z.shiftr vir_addr CLICK_SHIFT then 0
  else u32 (u32 (Z.shiftl (mem_phys seg) CLICK_SHIFT)
            + u32 (vir_addr - u32 (Z.shiftl (mem_vir seg) CLICK_SHIFT))).

Definition numap (proc_nr vir_addr bytes : Z) : K Z :=
  r ← ld_proc proc_nr; mret (umap_D r vir_addr bytes).

(** [USR2KRN(proc, &x, src, size); k]: the macro returns [EINVAL] from the
    calling function when the address does not map. *)
Definition USR2KRN {A} (n : Z) (view : umem → Z → A) (src size : Z) (k : A → K Z) : K Z :=
  r ← ld_proc n;
  user_phys ← numap (p_nr r) src size;
  if user_phys =? 0 then mret EINVAL
  else x ← gets (λ s, view (um s) user_phys); k x.

(** [KRN2USR(proc, dst, &x, size); k] *)
Definition KRN2USR (n : Z) (store : Z → umem → umem) (dst size : Z) (k : K Z) : K Z :=
  r ← ld_proc n;
  user_phys ← numap (p_nr r) dst size;
  if user_phys =? 0 then mret EINVAL
  else modify (λ s, s <| um ::= store user_phys |>);; k.

(** [USR2USR(pdst, psrc, dst, src, size); k] for message bodies: only
    [user_phys1] is tested. *)
Definition USR2USR (pdst psrc dst src size : Z) (k : K Z) : K Z :=
  rd ← ld_proc pdst;
  user_phys ← numap (p_nr rd) dst size;
  rs ← ld_proc psrc;
  user_phys1 ← numap (p_nr rs) src size;
  if (user_phys1 =? 0) || (user_phys1 =? 0) then mret EINVAL
  else modify (λ s, s <| um ::= λ u, u <| um_msg ::= <[user_phys := um_msg u user_phys1]> |> |>);; k.

Definition sizeof_mrt_msg_t : Z := 28.
Definition sizeof_mrt_mhdr_t : Z := 44.
Definition sizeof_mrt_ipc_t : Z := 28.
Definition sizeof_long : Z := 4.
Definition sizeof_mrtpid_t : Z := 8.
Definition sizeof_mrt_down_t : Z := 8.
Definition MESS_SIZE : Z := 36.

(** ** Running loads and stores *)
Section runs.
Implicit Types (k : kstate).

Lemma ld_proc_ok k n r : procs k !! n = Some r → ld_proc n k = Ok k r.
Proof. intros H. unfold ld_proc. rewrite (bind_ok _ _ _ _ _ (gets_ok _ _)). by apply deref_ok. Qed.
Lemma ld_sem_ok k n r : sems k !! n = Some r → ld_sem n k = Ok k r.
Proof. intros H. unfold ld_sem. rewrite (bind_ok _ _ _ _ _ (gets_ok _ _)). by apply deref_ok. Qed.
Lemma ld_vt_ok k n r : vtimers k !! n = Some r → ld_vt n k = Ok k r.
Proof. intros H. unfold ld_vt. rewrite (bind_ok _ _ _ _ _ (gets_ok _ _)). by apply deref_ok. Qed.
Lemma ld_mqe_ok k n r : mqes k !! n = Some r → ld_mqe n k = Ok k r.
Proof. intros H. unfold ld_mqe. rewrite (bind_ok _ _ _ _ _ (gets_ok _ _)). by apply deref_ok. Qed.
Lemma ld_mq_ok k n r : msgQs k !! n = Some r → ld_mq n k = Ok k r.
Proof. intros H. unfold ld_mq. rewrite (bind_ok _ _ _ _ _ (gets_ok _ _)). by apply deref_ok. Qed.
Lemma ld_irqd_ok k n r : irqtab k !! n = Some r → ld_irqd n k = Ok k r.
Proof. intros H. unfold ld_irqd. rewrite (bind_ok _ _ _ _ _ (gets_ok _ _)). by apply deref_ok. Qed.

Lemma st_proc_ok k n r f : procs k !! n = Some r →
  st_proc n f k = Ok (k <| procs ::= <[n := f r]> |>) ().
Proof. intros H. unfold st_proc. by rewrite (bind_ok _ _ _ _ _ (ld_proc_ok _ _ _ H)). Qed.
Lemma st_sem_ok k n r f : sems k !! n = Some r →
  st_sem n f k = Ok (k <| sems ::= <[n := f r]> |>) ().
Proof. intros H. unfold st_sem. by rewrite (bind_ok _ _ _ _ _ (ld_sem_ok _ _ _ H)). Qed.
Lemma st_vt_ok k n r f : vtimers k !! n = Some r →
  st_vt n f k = Ok (k <| vtimers ::= <[n := f r]> |>) ().
Proof. intros H. unfold st_vt. by rewrite (bind_ok _ _ _ _ _ (ld_vt_ok _ _ _ H)). Qed.
Lemma st_mqe_ok k n r f : mqes k !! n = Some r →
  st_mqe n f k = Ok (k <| mqes ::= <[n := f r]> |>) ().
Proof. intros H. unfold st_mqe. by rewrite (bind_ok _ _ _ _ _ (ld_mqe_ok _ _ _ H)). Qed.
Lemma st_mq_ok k n r f : msgQs k !! n = Some r →
  st_mq n f k = Ok (k <| msgQs ::= <[n := f r]> |>) ().
Proof. intros H. unfold st_mq. by rewrite (bind_ok _ _ _ _ _ (ld_mq_ok _ _ _ H)). Qed.
Lemma st_irqd_ok k n r f : irqtab k !! n = Some r →
  st_irqd n f k = Ok (k <| irqtab ::= <[n := f r]> |>) ().
Proof. intros H. unfold st_irqd. by rewrite (bind_ok _ _ _ _ _ (ld_irqd_ok _ _ _ H)). Qed.

Lemma lists_ok {A} k (m : M lmem A) t a : m (lm k) = Ok t a → lists_ m k = Ok (k <| lm := t |>) a.
Proof. intros H. unfold lists_. by erewrite zoom_ok. Qed.

Lemma k_ld_list_ok k L l : lists (lm k) !! L = Some l → lists_ (ld_list L) k = Ok k l.
Proof. intros H. rewrite (lists_ok _ _ _ _ (ld_list_ok _ _ _ H)). by destruct k. Qed.
Lemma k_ld_link_ok k x l : links (lm k) !! x = Some l → lists_ (ld_link x) k = Ok k l.
Proof. intros H. rewrite (lists_ok _ _ _ _ (ld_link_ok _ _ _ H)). by destruct k. Qed.

Lemma this_of_ok k x l : links (lm k) !! x = Some l → this_of x k = Ok k (this l).
Proof.
  intros H. unfold this_of.
  rewrite (bind_ok _ _ _ _ _ (lists_ok _ _ _ _ (ld_link_ok _ _ _ H))). by destruct k.
Qed.
End runs.

(** [krun] runs the loads, stores and tests at the head of the goal, reading
    through the updates already made. *)
Create HintDb krun.

Ltac ksolve :=
  cbn; repeat first [rewrite lookup_insert_eq | rewrite lookup_insert_ne by (congruence || lia)];
  try eassumption; eauto.
Ltac krun1 :=
  first
    [ rewrite bind_assoc
    | rewrite ret_bind
    | rewrite (bind_ok _ _ _ _ _ (gets_ok _ _))
    | rewrite (bind_ok _ _ _ _ _ (modify_ok _ _))
    | erewrite bind_ok; [| first
        [ eapply ld_proc_ok; ksolve; fail
        | eapply st_proc_ok; ksolve; fail
        | eapply ld_vt_ok; ksolve; fail
        | eapply st_vt_ok; ksolve; fail
        | eapply ld_sem_ok; ksolve; fail
        | eapply st_sem_ok; ksolve; fail
        | eapply ld_mqe_ok; ksolve; fail
        | eapply st_mqe_ok; ksolve; fail
        | eapply ld_mq_ok; ksolve; fail
        | eapply st_mq_ok; ksolve; fail
        | eapply ld_irqd_ok; ksolve; fail
        | eapply st_irqd_ok; ksolve; fail
        | eapply this_of_ok; ksolve; fail
        | eapply k_ld_list_ok; ksolve; fail
        | eapply k_ld_link_ok; ksolve; fail
        | eapply notnull_ok; ksolve; fail ]]
    | first
        [ erewrite st_proc_ok; [| ksolve; fail]
        | erewrite st_vt_ok; [| ksolve; fail]
        | erewrite st_sem_ok; [| ksolve; fail]
        | erewrite st_mqe_ok; [| ksolve; fail]
        | erewrite st_mq_ok; [| ksolve; fail]
        | erewrite st_irqd_ok; [| ksolve; fail]
        | rewrite modify_ok ] ].
Ltac krun := repeat krun1.

(** ** A kernel whose tables are cleared

    The state the initialisation code starts from, and the one concrete runs in
    this development start from: every list header zeroed, every slot present. *)

#[export] Instance list_t_eq_dec : EqDecision list_t.
Proof. solve_decision. Defined.
#[export] Instance plist_t_eq_dec : EqDecision plist_t.
Proof. solve_decision. Defined.
#[export] Instance link_t_eq_dec : EqDecision link_t.
Proof. solve_decision. Defined.

Definition zs (a n : Z) : list Z := seqZ a n.

Definition bss_links : gmap laddr link_t :=
  list_to_map ((λ x, (x, mk_link None None 0 (owner_of x))) <$>
    ((LVt <$> zs 0 NR_VTIMERS) ++ (LProc <$> zs (- NR_TASKS) (NR_TASKS + NR_PROCS)) ++
     (LMq <$> zs 0 NR_MSGQ) ++ (LMqe <$> zs 0 NR_MESSAGES) ++
     (LIrqd <$> zs 0 (NR_IRQ_VECTORS + NR_IRQ_SOFT)) ++
     (LSemA <$> zs 0 NR_SEM) ++ (LSemL <$> zs 0 NR_SEM))).

Definition bss_pheads : list phead :=
  [PRdy; PExp; PIrq] ++ (PSem <$> zs 0 NR_SEM) ++ (PMq <$> zs 0 NR_MSGQ).

Definition bss_lists : gmap lhead list_t :=
  list_to_map ((λ L, (L, list_empty)) <$>
    ([HFreeVt; HActQ; HMqeL; HMsgQL; HSfreeL; HMnxQ] ++
     (HSalloc <$> zs (- NR_TASKS) (NR_TASKS + NR_PROCS)) ++
     (HSlock <$> zs (- NR_TASKS) (NR_TASKS + NR_PROCS)) ++
     (P ← bss_pheads; HP P <$> zs 0 MRT_NR_PRTY))).

Definition bss_lm : lmem :=
  mk_lmem bss_links bss_lists (list_to_map ((λ P, (P, plist_empty)) <$> bss_pheads)).

Definition prty_of (L : lhead) : Z := match L with HP _ p => p | _ => 0 end.

(** A decision procedure for the hypotheses of [qinv_fresh]. *)
Definition fresh_check (m : lmem) : bool :=
  bool_decide (map_Forall (λ _ l, l = list_empty) (lists m)) &&
  bool_decide (map_Forall (λ _ l, l = plist_empty) (plists m)) &&
  bool_decide (map_Forall (λ P _, Forall (λ p, is_Some (lists m !! HP P p)) (zs 0 16)) (plists m)) &&
  bool_decide (map_Forall (λ L _, 0 ≤ prty_of L < 16) (lists m)).

Lemma fresh_check_qinv m : fresh_check m = true → qinv m (λ _, []).
Proof.
  unfold fresh_check. rewrite !andb_true_iff, !bool_decide_eq_true.
  intros [[[H1 H2] H3] H4]. apply qinv_fresh; [done..|]. intros P p [h Hh]. split.
  - intros [l Hl]. apply (H4 _ _ Hl).
  - intros Hp. apply (proj1 (Forall_forall _ _) (H3 _ _ Hh)), elem_of_seqZ. lia.
Qed.

Lemma bss_lm_qinv : qinv bss_lm (λ _, []).
Proof. apply fresh_check_qinv. vm_compute. reflexivity. Qed.

Definition bss_map : mem_map := mk_mem_map 0 0x1000 0x1000.

(** Slot [n] in use by a process with pid [100 + n]; its data segment starts at
    click [0x1000 * (n + 12)]. *)
Definition bss_proc (n : Z) : proc :=
  mk_proc 0 0xDEADBEEF n false false None 0
    (mk_mem_map 0 (0x1000 * (n + 12)) 0x1000) (mk_mem_map 0x1000 (0x1000 * (n + 12)) 0)
    (100 + n) None None 0 0 0 None 0
    (mk_rtattrib 0 MRT_PRILOWEST MRT_PRILOWEST 0 0 0 HARDWARE) (mk_rtstats 0 0 0 0 0 0 0)
    (mk_mqattrib 0 0) None None None None None None 0 0.

Definition bss_hdr : mrt_mhdr_t := mk_mhdr (mk_mrtpid 0 0) (mk_mrtpid 0 0) 0 0 0 0 0 0 0.

Definition bss_umem : umem :=
  mk_umem (λ _, []) (λ _, bss_hdr) (λ _, mk_ipc 0 0 0 0 0 0 0) (λ _, 0) (λ _, mk_mrtpid 0 0)
    (λ _, mk_down 0 0) (λ _, mk_message 0 0 []) (λ _, "")
    (mk_tmem (λ _, mk_sysstat 0 0 0 0 0 0 0) (λ _, mk_usysval 0 0 0 0 0 0 0) (λ _, mk_irqattr 0 0 0 0 0 "")
      (λ _, mk_irqstat 0 0 0 0 0 0) (λ _, mk_irqint 0 0 0 0) (λ _, mk_pattr 0 0 0 0 0 0 0 0) (λ _, mk_pstat 0 0 0 0 0 0 0)
      (λ _, mk_pint 0 0 0 0) (λ _, mk_semattr 0 0 0 "") (λ _, mk_semstat 0 0 0) (λ _, mk_semint 0 0 0) (λ _, mk_msgqstat 0 0 0)).

Definition table {A} (a n : Z) (f : Z → A) : gmap Z A := list_to_map ((λ i, (i, f i)) <$> zs a n).

Definition bss : kstate :=
  mk_kstate bss_lm (table (- NR_TASKS) (NR_TASKS + NR_PROCS) bss_proc)
    (table 0 NR_SEM (λ i, mk_sem i 0 MRT_PRILOWEST 0 HARDWARE 0 0 None "FREE"))
    (table 0 NR_VTIMERS (λ i, mk_vtimer 0 0 0 0 MRT_PRILOWEST i HARDWARE 0 0 0 0))
    (table 0 NR_MESSAGES (λ i, mk_mqe bss_hdr [] i None))
    (table 0 NR_MSGQ (λ i, mk_msgQ i 0 0 MRTMSGQFREE 0 0))
    (table 0 (NR_IRQ_VECTORS + NR_IRQ_SOFT)
      (λ i, mk_irqd 0 0 0 0 0 0 i 1 None 0 0 0 0 0 0 0 HARDWARE HARDWARE MRT_PRILOWEST 0 ""))
    (mk_sysval 0 0 0 0 0 HZ 1 HZ 0 0 0 MRT_PRILOWEST 0 0 0 0 0 0 0 0 0)
    0 0 0 0 (λ _, 0) 0 0 IDLE IDLE (λ _, None) (λ _, None) None None 0 false 0
    bss_umem (mk_hardware 0xFFFF 0 0 true) (λ _, false) 0 [].

Definition is_ok {S A} (r : res S A) : bool := match r with Ok _ _ => true | _ => false end.
Definition state_of {S A} (d : S) (r : res S A) : S := match r with Ok s _ => s | _ => d end.
Definition value_of {S A} (d : A) (r : res S A) : A := match r with Ok _ a => a | _ => d end.

Lemma is_ok_run {S A} (d : S) (v : A) (r : res S A) : is_ok r = true → r = Ok (state_of d r) (value_of v r).
Proof. by destruct r. Qed.
