(* ===== verification/Sched.v ===== *)
(** * The scheduler (kernel/proc.c, kernel/mrtproc.c)

    Real-time processes wait in the priority list [PRdy]; MINIX processes wait
    in three singly linked queues threaded through [p_nextready].  [pick_proc]
    asks the real-time queue first and falls back to the MINIX queues. *)

From stdpp Require Import base gmap strings numbers fin_maps functions list.
From S2P Require Import Prelude Lists Kernel.
Local Open Scope Z_scope.

(** ** The real-time ready queue (mrtproc.c) *)

Definition MRT_rdyQ_init : K unit := lists_ (MRT_plist_rst PRdy).

Definition MRT_rdyQ_app (rp : Z) : K unit :=
  r ← ld_proc rp;
  if (st_scheds (st r) >? rt_limit (rt r)) && (rt_limit (rt r) >? 0)
  then p ← gets proc_ptr; st_proc p (λ r, r <| p_flags ::= λ f, SET_BIT f P_STOP |>)
  else lists_ (MRT_plist_app PRdy (LProc rp) (rt_priority (rt r))).
Definition MRT_ready : Z → K unit := MRT_rdyQ_app.

Definition MRT_rdyQ_ins (rp : Z) : K unit :=
  r ← ld_proc rp;
  lists_ (MRT_plist_ins PRdy (LProc rp) (rt_priority (rt r))).

Definition MRT_rdyQ_rmv (rp : Z) : K unit :=
  r ← ld_proc rp;
  lists_ (MRT_plist_rmv PRdy (LProc rp) (rt_priority (rt r))).
Definition MRT_unready : Z → K unit := MRT_rdyQ_rmv.

(** The priority level is kept in an unsigned char. *)
Definition MRT_prtylvl_set (priority : Z) : K unit :=
  st_sv (λ v, v <| sv_prtylvl := priority mod 256 |>);;
  b ← sv_test MRT_PRTYMASK;
  if (b : bool)
  then mask ← gets (λ k, Z.lor (Z.lnot (si_mask k priority)) (sv_real_PIC (sv k)));
       MRT_set_PIC mask
  else mret ().

(** [OK] or [!OK]; the interrupt flag is the same on return. *)
Definition MRT_pick_proc : K Z :=
  sv_clr MRT_NEEDSCHED;;
  plink ← lists_ (MRT_plist_get PRdy);
  match plink with
  | Some x =>
      o ← this_of x; p ← as_proc o;
      modify (λ k, k <| proc_ptr := p |>);;
      st_sv (λ v, v <| c_scheds ::= λ c, u32 (c + 1) |>);;
      t ← gets (λ k, c_ticks (sv k));
      st_proc p (λ r, r <| st ::= λ s, s <| st_timestamp := t |> |>);;
      st_proc p (λ r, r <| st ::= λ s, s <| st_scheds ::= λ c, u32 (c + 1) |> |>);;
      (if isuserp p then modify (λ k, k <| bill_ptr := p |>) else mret ());;
      r ← ld_proc p;
      MRT_prtylvl_set (rt_priority (rt r));;
      mret OK
  | None => MRT_prtylvl_set MRT_PRILOWEST;; mret 1
  end.

(** ** The MINIX queues (proc.c) *)

Definition pick_minix : K unit :=
  h ← gets rdy_head;
  match h TASK_Q with
  | Some rp => modify (λ k, k <| proc_ptr := rp |>)
  | None =>
  match h SERVER_Q with
  | Some rp => modify (λ k, k <| proc_ptr := rp |>)
  | None =>
  match h USER_Q with
  | Some rp => modify (λ k, k <| proc_ptr := rp |> <| bill_ptr := rp |>)
  | None => modify (λ k, k <| proc_ptr := IDLE |> <| bill_ptr := IDLE |>)
  end end end.

Definition pick_proc : K unit :=
  rtmode ← sv_test MRT_RTMODE;
  picked ← (if (rtmode : bool) then MRT_pick_proc else mret 1);
  if picked =? OK then sv_set MRT_RTSCHED
  else sv_clr MRT_RTSCHED;; pick_minix.

(** [rdy_tail[q]->p_nextready = rp], or a new head when the queue is empty. *)
Definition enq_tail (q : readyq) (rp : Z) : K unit :=
  h ← gets rdy_head;
  match h q with
  | Some _ =>
      t ← gets rdy_tail; tl ← notnull (t q);
      st_proc tl (λ r, r <| p_nextready := Some rp |>)
  | None =>
      (if decide (q = TASK_Q) then modify (λ k, k <| proc_ptr := rp |>) else mret ());;
      modify (λ k, k <| rdy_head ::= <[q := Some rp]> |>)
  end;;
  modify (λ k, k <| rdy_tail ::= <[q := Some rp]> |>);;
  st_proc rp (λ r, r <| p_nextready := None |>).

Definition ready (rp : Z) : K unit :=
  if istaskp rp then enq_tail TASK_Q rp
  else if negb (isuserp rp) then enq_tail SERVER_Q rp
  else
    h ← gets rdy_head;
    (match h USER_Q with
     | None => modify (λ k, k <| rdy_tail ::= <[USER_Q := Some rp]> |>)
     | Some _ => mret ()
     end);;
    h ← gets rdy_head;
    st_proc rp (λ r, r <| p_nextready := h USER_Q |>);;
    modify (λ k, k <| rdy_head ::= <[USER_Q := Some rp]> |>).

Definition STACK_GUARD : Z := 0xDEADBEEF.

(** Search the body of the queue for the predecessor of [rp] from [xp] on. *)
Fixpoint unready_body (fuel : nat) (q : readyq) (xp rp : Z) : K unit :=
  match fuel with
  | O => λ _, NoFuel
  | S fuel' =>
      x ← ld_proc xp;
      if decide (p_nextready x = Some rp) then
        r ← ld_proc rp;
        st_proc xp (λ x, x <| p_nextready := p_nextready r |>);;
        t ← gets rdy_tail;
        if decide (t q = Some rp) then modify (λ k, k <| rdy_tail ::= <[q := Some xp]> |>)
        else mret ()
      else match p_nextready x with
           | None => mret ()
           | Some xp' => unready_body fuel' q xp' rp
           end
  end.

(** A queue never holds more than the [NR_TASKS + NR_PROCS = 43] processes. *)
Definition queue_fuel : nat := 64.

Definition unready_from (q : readyq) (rp : Z) (always_pick : bool) : K unit :=
  h ← gets rdy_head;
  match h q with
  | None => mret ()
  | Some xp =>
      if decide (xp = rp) then
        x ← ld_proc xp;
        modify (λ k, k <| rdy_head ::= <[q := p_nextready x]> |>);;
        cur ← gets proc_ptr;
        if always_pick || bool_decide (rp = cur) then pick_proc else mret ()
      else unready_body queue_fuel q xp rp
  end.

Definition unready (rp : Z) : K unit :=
  if istaskp rp then
    r ← ld_proc rp;
    if negb (p_stguard r =? STACK_GUARD) then panic "stack overrun by task" (p_nr r)
    else unready_from TASK_Q rp false
  else if negb (isuserp rp) then unready_from SERVER_Q rp true
  else unready_from USER_Q rp true.

Definition sched : K unit :=
  h ← gets rdy_head;
  match h USER_Q with
  | None => mret ()
  | Some hd =>
      t ← gets rdy_tail; tl ← notnull (t USER_Q);
      st_proc tl (λ r, r <| p_nextready := Some hd |>);;
      modify (λ k, k <| rdy_tail ::= <[USER_Q := Some hd]> |>);;
      r ← ld_proc hd;
      modify (λ k, k <| rdy_head ::= <[USER_Q := p_nextready r]> |>);;
      t ← gets rdy_tail; tl ← notnull (t USER_Q);
      st_proc tl (λ r, r <| p_nextready := None |>);;
      pick_proc
  end.

(** The safe gateways for tasks set [switching] around the call. *)
Definition locked {A} (m : K A) : K A :=
  modify (λ k, k <| switching := true |>);;
  a ← m;
  modify (λ k, k <| switching := false |>);;
  mret a.
Definition lock_pick_proc : K unit := locked pick_proc.
Definition lock_ready (rp : Z) : K unit := locked (ready rp).
Definition lock_unready (rp : Z) : K unit := locked (unready rp).
Definition lock_sched : K unit := locked sched.

(** * Correctness *)

(** ** The real-time ready queue

    Every link is embedded in the object its [this] points to; the ready queue
    holds processes, each in the list of its effective priority. *)
Definition this_ok (m : lmem) : Prop := ∀ x l, links m !! x = Some l → this l = owner_of x.

Record rdy_inv (k : kstate) (Q : lhead → list laddr) : Prop := {
  ri_q : qinv (lm k) Q;
  ri_pl : is_Some (plists (lm k) !! PRdy);
  ri_this : this_ok (lm k);
  ri_proc : ∀ p x, x ∈ Q (HP PRdy p) →
    ∃ n r, x = LProc n ∧ procs k !! n = Some r ∧ rt_priority (rt r) = p;
}.

Lemma this_ok_frame m m' : lframe m m' → this_ok m → this_ok m'.
Proof.
  intros [Hp _ _] Ht x l Hx. specialize (Hp x). rewrite Hx in Hp. cbn in Hp.
  destruct (links m !! x) as [l0|] eqn:E; [|done]. cbn in Hp. injection Hp as Hth.
  unfold payload in Hth. rewrite Hth. by apply Ht.
Qed.

Lemma rdy_link k Q p x : rdy_inv k Q → x ∈ Q (HP PRdy p) →
  ∃ l, links (lm k) !! x = Some l ∧ this l = owner_of x.
Proof.
  intros [[Hl _] _ Ht _] Hx. destruct (linv_in_links _ _ _ _ Hl Hx) as [l Hl']. eauto.
Qed.

(** What [pick_proc] leaves alone: everything but the statistics of the process
    it picks, the running process, the billed process and the system values. *)
Definition no_st (r : proc) : proc := r <| st := mk_rtstats 0 0 0 0 0 0 0 |>.

Record pframe (k k' : kstate) : Prop := {
  pf_lm : lm k' = lm k;
  pf_procs : no_st <$> procs k' = no_st <$> procs k;
  pf_head : rdy_head k' = rdy_head k;
  pf_tail : rdy_tail k' = rdy_tail k;
  pf_rtmode : TEST_BIT (sv_flags (sv k')) MRT_RTMODE = TEST_BIT (sv_flags (sv k)) MRT_RTMODE;
  pf_switching : switching k' = switching k;
  pf_um : um k' = um k;
  pf_sig : sig_procs k' = sig_procs k;
}.

#[export] Instance pframe_preorder : PreOrder pframe.
Proof.
  split; [by constructor|]. intros k1 k2 k3 [] []. constructor; congruence.
Qed.

Lemma no_st_insert k n r f :
  procs k !! n = Some r → no_st (f r) = no_st r →
  no_st <$> <[n := f r]> (procs k) = no_st <$> procs k.
Proof.
  intros Hn Hf. rewrite fmap_insert, Hf. apply insert_id. rewrite lookup_fmap, Hn. done.
Qed.

Lemma pframe_lookup k k' n r : pframe k k' → procs k !! n = Some r →
  ∃ r', procs k' !! n = Some r' ∧ no_st r' = no_st r.
Proof.
  intros [_ Hp _ _ _ _ _ _] Hn. apply (f_equal (.!! n)) in Hp. rewrite !lookup_fmap, Hn in Hp.
  destruct (procs k' !! n) as [r'|]; [|done]. apply (inj Some) in Hp. eauto.
Qed.

Lemma rdy_inv_pframe k k' Q : pframe k k' → rdy_inv k Q → rdy_inv k' Q.
Proof.
  intros Hf [Hq Hpl Ht Hp]. pose proof (pf_lm _ _ Hf) as Hlm.
  constructor; rewrite ?Hlm; try done.
  intros p x Hx. destruct (Hp _ _ Hx) as (n & r & -> & Hn & Hr).
  destruct (pframe_lookup _ _ _ _ Hf Hn) as (r' & Hr' & E). exists n, r'. split_and!; [done..|].
  apply (f_equal rt) in E. cbn in E. congruence.
Qed.

(** Clearing or setting another flag leaves the mode bit alone. *)
Lemma rtmode_clr f b : Z.testbit b 0 = false → TEST_BIT (CLR_BIT f b) MRT_RTMODE = TEST_BIT f MRT_RTMODE.
Proof.
  intros Hb. change MRT_RTMODE with (Z.shiftl 1 0). rewrite !TEST_BIT_shift by lia.
  unfold CLR_BIT. by rewrite Z.land_spec, Z.lnot_spec, Hb, andb_true_r by lia.
Qed.

Lemma rtmode_set f b : Z.testbit b 0 = false → TEST_BIT (SET_BIT f b) MRT_RTMODE = TEST_BIT f MRT_RTMODE.
Proof.
  intros Hb. change MRT_RTMODE with (Z.shiftl 1 0). rewrite !TEST_BIT_shift by lia.
  unfold SET_BIT. by rewrite Z.lor_spec, Hb, orb_false_r by lia.
Qed.
Create Rewrite HintDb flags.
#[export] Hint Rewrite rtmode_clr rtmode_set using done : flags.

Ltac pframe_tac := constructor; cbn; autorewrite with flags; try done.

Lemma MRT_prtylvl_set_spec k p :
  ∃ k', MRT_prtylvl_set p k = Ok k' () ∧ pframe k k' ∧ procs k' = procs k ∧
        proc_ptr k' = proc_ptr k ∧ sv_prtylvl (sv k') = p mod 256.
Proof.
  unfold MRT_prtylvl_set, st_sv, sv_test, MRT_set_PIC. krun. cbn.
  destruct (TEST_BIT _ _); krun; eexists; (split; [done|]); split_and!; try done; pframe_tac.
Qed.

(** The process [MRT_pick_proc] selects. *)
Definition rt_choice (Q : lhead → list laddr) : option Z :=
  match pq_head Q PRdy with Some (LProc n) => Some n | _ => None end.

Lemma rt_choice_pq k Q : rdy_inv k Q → pq_head Q PRdy = LProc <$> rt_choice Q.
Proof.
  intros Hi. unfold rt_choice. destruct (pq_head Q PRdy) as [x|] eqn:E; [|done].
  apply pq_head_Some in E as (p & l & Hp & Hl & _).
  destruct (ri_proc _ _ Hi p x) as (n & r & -> & _); [rewrite Hl; set_solver|done].
Qed.

Lemma MRT_pick_proc_spec k Q :
  rdy_inv k Q →
  ∃ k', MRT_pick_proc k = Ok k' (if rt_choice Q is Some _ then OK else 1) ∧ pframe k k' ∧
    match rt_choice Q with
    | Some n => proc_ptr k' = n ∧
        ∃ r, procs k' !! n = Some r ∧ sv_prtylvl (sv k') = rt_priority (rt r) mod 256
    | None => proc_ptr k' = proc_ptr k
    end.
Proof.
  intros Hi. pose proof (rt_choice_pq _ _ Hi) as Hpq. unfold MRT_pick_proc.
  unfold sv_clr, st_sv. krun. 
  pose proof (MRT_plist_get_spec (lm k) Q PRdy (ri_q _ _ Hi) (ri_pl _ _ Hi)) as Hg.
  erewrite bind_ok; [|by apply lists_ok].
  rewrite Hpq. destruct (rt_choice Q) as [n|]; cbn.
  - apply pq_head_Some in Hpq as (p & l & Hp & Hl & _).
    assert (Hx : LProc n ∈ Q (HP PRdy p)) by (rewrite Hl; set_solver).
    destruct (rdy_link _ _ _ _ Hi Hx) as (lk & Hlk & Hth).
    destruct (ri_proc _ _ Hi _ _ Hx) as (n' & r & [= <-] & Hn & Hr).
    krun. rewrite Hth. cbn. krun.
    set (k1 := upd procs _ _).
    assert (∃ k2, (if isuserp n then modify (λ k, k <| bill_ptr := n |>) else mret ()) k1 = Ok k2 () ∧
      pframe k k2 ∧ proc_ptr k2 = n ∧ ∃ r, procs k2 !! n = Some r) as (k2 & Hk2 & Hf2 & Hp2 & r2 & Hr2).
    { destruct (isuserp n); eexists; (split; [done|]); (split; [|split; [done|cbn; rewrite lookup_insert_eq; eauto]]);
        pframe_tac; rewrite insert_insert_eq; by apply (no_st_insert k n r (λ r, r <| st ::= _ |> <| st ::= _ |>)). }
    rewrite (bind_ok _ _ _ _ _ Hk2). krun.
    destruct (MRT_prtylvl_set_spec k2 (rt_priority (rt r2))) as (k3 & Hk3 & Hf3 & Hps & Hp3 & Hlvl).
    rewrite (bind_ok _ _ _ _ _ Hk3). eexists. split; [done|]. split; [by etrans|].
    split; [by rewrite Hp3|]. exists r2. by rewrite Hps.
  - edestruct (MRT_prtylvl_set_spec) as (k' & Hrun & Hf & _ & Hptr & _).
    cbn. rewrite (bind_ok _ _ _ _ _ Hrun). eexists. split; [done|]. split; [|by rewrite Hptr].
    etrans; [|exact Hf]. pframe_tac.
Qed.

(** ** The MINIX ready queues *)

(** The queue of a process. *)
Definition rq_of (n : Z) : readyq :=
  if istaskp n then TASK_Q else if isuserp n then USER_Q else SERVER_Q.

Definition nxt (xs : list Z) (e : option Z) : option Z :=
  match xs with [] => e | x :: _ => Some x end.

(** [xs] is threaded through [p_nextready] and ends in [e]. *)
Fixpoint chain (ps : gmap Z proc) (xs : list Z) (e : option Z) : Prop :=
  match xs with
  | [] => True
  | x :: xs' => (∃ r, ps !! x = Some r ∧ p_nextready r = nxt xs' e) ∧ chain ps xs' e
  end.

(** The tail pointer of an empty queue is stale and never read. *)
Record rq_inv (k : kstate) (R : readyq → list Z) : Prop := {
  rq_head : ∀ q, rdy_head k q = nxt (R q) None;
  rq_tail : ∀ q l t, R q = l ++ [t] → rdy_tail k q = Some t;
  rq_chain : ∀ q, chain (procs k) (R q) None;
  rq_nodup : ∀ q, NoDup (R q);
  rq_class : ∀ q n, n ∈ R q → rq_of n = q;
}.

(** The process table: exactly the slots [-NR_TASKS .. NR_PROCS - 1]. *)
Definition ptab (ps : gmap Z proc) : Prop := ∀ n, is_Some (ps !! n) → - NR_TASKS ≤ n < NR_PROCS.

Lemma nxt_app xs ys e : nxt (xs ++ ys) e = nxt xs (nxt ys e).
Proof. by destruct xs. Qed.

Lemma chain_app ps xs ys e : chain ps (xs ++ ys) e ↔ chain ps xs (nxt ys e) ∧ chain ps ys e.
Proof. induction xs as [|x xs IH]; cbn; [tauto|]. rewrite IH, nxt_app. tauto. Qed.

Lemma chain_frame ps ps' xs e :
  (∀ x, x ∈ xs → p_nextready <$> ps' !! x = p_nextready <$> ps !! x) →
  chain ps xs e → chain ps' xs e.
Proof.
  induction xs as [|x xs IH]; cbn; [done|]. intros Hf [(r & Hr & Hn) Hc]. split.
  - specialize (Hf x). rewrite Hr in Hf. destruct (ps' !! x) as [r'|]; [|set_solver].
    exists r'. split; [done|]. rewrite <- Hn. assert (x ∈ x :: xs) as Hx by set_solver.
    specialize (Hf Hx). cbn in Hf. congruence.
  - apply IH; [|done]. intros. apply Hf. set_solver.
Qed.

Lemma chain_lookup ps xs e x : chain ps xs e → x ∈ xs → is_Some (ps !! x).
Proof.
  induction xs as [|y xs IH]; cbn; [set_solver|].
  intros [(r & Hr & _) Hc] [->|Hx]%elem_of_cons; eauto.
Qed.

Lemma chain_pframe k k' xs e : pframe k k' → chain (procs k) xs e → chain (procs k') xs e.
Proof.
  intros Hf. apply chain_frame. intros x _. pose proof (pf_procs _ _ Hf) as Hp.
  apply (f_equal (.!! x)) in Hp. rewrite !lookup_fmap in Hp.
  destruct (procs k' !! x), (procs k !! x); try done. cbn. f_equal.
  apply (inj Some) in Hp. by apply (f_equal p_nextready) in Hp.
Qed.

Lemma rq_inv_pframe k k' R : pframe k k' → rq_inv k R → rq_inv k' R.
Proof.
  intros Hf [Hh Ht Hc Hn Hcl]. constructor; try done.
  - intros q. by rewrite (pf_head _ _ Hf).
  - intros q. rewrite (pf_tail _ _ Hf). apply Ht.
  - intros q. by eapply chain_pframe.
Qed.

(** [R] with one queue replaced. *)
Lemma rq_inv_upd k k' R q ys :
  rq_inv k R →
  rdy_head k' q = nxt ys None → (∀ q', q' ≠ q → rdy_head k' q' = rdy_head k q') →
  (∀ q' l t, q' ≠ q → R q' = l ++ [t] → rdy_tail k' q' = rdy_tail k q') →
  (∀ l t, ys = l ++ [t] → rdy_tail k' q = Some t) →
  chain (procs k') ys None →
  (∀ x, rq_of x ≠ q → p_nextready <$> procs k' !! x = p_nextready <$> procs k !! x) →
  NoDup ys → (∀ n, n ∈ ys → rq_of n = q) →
  rq_inv k' (<[q := ys]> R).
Proof.
  intros [Hh Ht Hc Hn Hcl] Eh Eh' Et Et' Hch Hps Hnd Hys. constructor; intros q';
    destruct (decide (q' = q)) as [->|Hne];
    rewrite ?Eh, ?Eh', ?fn_lookup_insert, ?fn_lookup_insert_ne by congruence; try done.
  - intros l t E. rewrite (Et _ _ _ Hne E). by eapply Ht.
  - eapply chain_frame; [|apply Hc]. intros x Hx. apply Hps. by rewrite (Hcl _ _ Hx).
  - apply Hcl.
Qed.

(** ** Choosing *)

Definition minix_choice (R : readyq → list Z) : Z :=
  match R TASK_Q, R SERVER_Q, R USER_Q with
  | n :: _, _, _ => n
  | [], n :: _, _ => n
  | [], [], n :: _ => n
  | [], [], [] => IDLE
  end.

Definition choice (rtmode : bool) (Q : lhead → list laddr) (R : readyq → list Z) : Z :=
  match rt_choice Q with
  | Some n => if rtmode then n else minix_choice R
  | None => minix_choice R
  end.

Lemma pick_minix_spec k R :
  rq_inv k R →
  ∃ k', pick_minix k = Ok k' () ∧ proc_ptr k' = minix_choice R ∧ pframe k k'.
Proof.
  intros [Hh _ _ _ _]. unfold pick_minix, minix_choice. krun. rewrite !Hh.
  destruct (R TASK_Q); [destruct (R SERVER_Q); [destruct (R USER_Q)|]|]; cbn;
    eexists; (split; [done|]); (split; [done|]); pframe_tac.
Qed.

Lemma pick_proc_spec k Q R :
  rdy_inv k Q → rq_inv k R →
  ∃ k', pick_proc k = Ok k' () ∧
        proc_ptr k' = choice (TEST_BIT (sv_flags (sv k)) MRT_RTMODE) Q R ∧ pframe k k'.
Proof.
  intros Hi HR. unfold pick_proc, sv_test, choice. krun.
  assert (Hmx : ∀ k1, pframe k k1 → ∃ k', (sv_clr MRT_RTSCHED;; pick_minix) k1 = Ok k' () ∧
            proc_ptr k' = minix_choice R ∧ pframe k k').
  { intros k1 Hf1. unfold sv_clr, st_sv. krun.
    edestruct (pick_minix_spec (k1 <| sv ::= λ v, v <| sv_flags ::= λ f, CLR_BIT f MRT_RTSCHED |> |>) R)
      as (k' & Hrun & Hptr & Hf').
    { eapply rq_inv_pframe, HR. etrans; [exact Hf1|pframe_tac]. }
    exists k'. split_and!; [done..|]. etrans; [exact Hf1|]. etrans; [|exact Hf']. pframe_tac. }
  destruct (TEST_BIT _ MRT_RTMODE) eqn:Em.
  - destruct (MRT_pick_proc_spec k Q Hi) as (k1 & Hrun & Hf1 & Hc).
    rewrite (bind_ok _ _ _ _ _ Hrun). destruct (rt_choice Q) as [n|]; [|by apply Hmx].
    cbn. unfold sv_set, st_sv. eexists. split; [done|]. destruct Hc as [Hn _].
    split; [done|]. etrans; [exact Hf1|]. pframe_tac.
  - rewrite ret_bind. cbn. destruct (Hmx k) as (k' & ? & ? & ?); [done|].
    exists k'. by destruct (rt_choice Q).
Qed.

(** ** The queue operations *)

Definition abs_ready (n : Z) (R : readyq → list Z) : readyq → list Z :=
  <[rq_of n := if decide (rq_of n = USER_Q) then n :: R USER_Q else R (rq_of n) ++ [n]]> R.
Definition abs_unready (n : Z) (R : readyq → list Z) : readyq → list Z :=
  <[rq_of n := filter (λ m, m ≠ n) (R (rq_of n))]> R.
Definition rotate (xs : list Z) : list Z := match xs with [] => [] | x :: l => l ++ [x] end.
Definition abs_sched (R : readyq → list Z) : readyq → list Z := <[USER_Q := rotate (R USER_Q)]> R.

(** What the queue operations leave alone: the list store and every field of
    every process but the statistics and [p_nextready]. *)
Definition core (r : proc) : proc := no_st r <| p_nextready := None |>.

Record qframe (k k' : kstate) : Prop := {
  qf_lm : lm k' = lm k;
  qf_procs : core <$> procs k' = core <$> procs k;
  qf_rtmode : TEST_BIT (sv_flags (sv k')) MRT_RTMODE = TEST_BIT (sv_flags (sv k)) MRT_RTMODE;
  qf_um : um k' = um k;
  qf_sig : sig_procs k' = sig_procs k;
}.

#[export] Instance qframe_preorder : PreOrder qframe.
Proof. split; [by constructor|]. intros k1 k2 k3 [] []. constructor; congruence. Qed.

Lemma pframe_qframe k k' : pframe k k' → qframe k k'.
Proof.
  intros [Hl Hp _ _ Hr _ Hu Hg]. constructor; [done| |done..].
  apply (f_equal (fmap (λ r, r <| p_nextready := None |>))) in Hp. by rewrite <- !map_fmap_compose in Hp.
Qed.

Lemma core_insert (ps : gmap Z proc) n r f : ps !! n = Some r → core (f r) = core r →
  core <$> <[n := f r]> ps = core <$> ps.
Proof. intros Hn Hf. rewrite fmap_insert, Hf. apply insert_id. by rewrite lookup_fmap, Hn. Qed.

Lemma qframe_lookup k k' n r : qframe k k' → procs k !! n = Some r →
  ∃ r', procs k' !! n = Some r' ∧ core r' = core r.
Proof.
  intros [_ Hp _ _ _] Hn. apply (f_equal (.!! n)) in Hp. rewrite !lookup_fmap, Hn in Hp.
  destruct (procs k' !! n) as [r'|]; [|done]. apply (inj Some) in Hp. eauto.
Qed.

Lemma qframe_is_Some k k' n : qframe k k' → is_Some (procs k' !! n) ↔ is_Some (procs k !! n).
Proof.
  intros [_ Hp _ _ _]. apply (f_equal (.!! n)) in Hp. rewrite !lookup_fmap in Hp.
  destruct (procs k' !! n), (procs k !! n); naive_solver.
Qed.

Lemma rdy_inv_qframe k k' Q : qframe k k' → rdy_inv k Q → rdy_inv k' Q.
Proof.
  intros Hf [Hq Hpl Ht Hp]. constructor; rewrite ?(qf_lm _ _ Hf); try done.
  intros p x Hx. destruct (Hp _ _ Hx) as (n & r & -> & Hn & Hr).
  destruct (qframe_lookup _ _ _ _ Hf Hn) as (r' & Hr' & E). exists n, r'. split_and!; [done..|].
  apply (f_equal rt) in E. cbn in E. congruence.
Qed.

(** Writing [p_nextready] of one process. *)
Lemma nextready_other (ps : gmap Z proc) n (r : proc) x :
  x ≠ n → p_nextready <$> <[n := r]> ps !! x = p_nextready <$> ps !! x.
Proof. intros. by rewrite lookup_insert_ne. Qed.

Lemma core_set_next (ps : gmap Z proc) n r e : ps !! n = Some r →
  core <$> <[n := r <| p_nextready := e |>]> ps = core <$> ps.
Proof. intros. by apply (core_insert ps n r (λ r, r <| p_nextready := e |>)). Qed.

Lemma chain_notin (ps : gmap Z proc) n r xs e : n ∉ xs → chain ps xs e → chain (<[n := r]> ps) xs e.
Proof. intros Hn. apply chain_frame. intros x Hx. by rewrite lookup_insert_ne by set_solver. Qed.

(** Retargeting the last element of a chain. *)
Lemma chain_snoc (ps : gmap Z proc) l t r e e' :
  ps !! t = Some r → NoDup (l ++ [t]) → chain ps (l ++ [t]) e →
  chain (<[t := r <| p_nextready := e' |>]> ps) (l ++ [t]) e'.
Proof.
  intros Hr Hnd [Hl _]%chain_app. apply NoDup_app in Hnd as (_ & Hd & _). apply chain_app. split.
  - apply chain_notin; [|done]. intros ?%Hd. set_solver.
  - cbn. rewrite lookup_insert_eq. eauto.
Qed.

Lemma enq_tail_spec k R q n :
  rq_inv k R → is_Some (procs k !! n) → rq_of n = q → n ∉ R q →
  ∃ k', enq_tail q n k = Ok k' () ∧ rq_inv k' (<[q := R q ++ [n]]> R) ∧ qframe k k' ∧
        proc_ptr k' = (if decide (q = TASK_Q ∧ R q = []) then n else proc_ptr k).
Proof.
  intros HR [r Hn] Hq Hnin. unfold enq_tail. krun. rewrite (rq_head _ _ HR).
  pose proof (rq_nodup _ _ HR q) as Hnd. pose proof (rq_chain _ _ HR q) as Hc.
  assert (Hnd' : NoDup (R q ++ [n])).
  { apply NoDup_app. split_and!; [done|set_solver|apply NoDup_singleton]. }
  assert (Hcl : ∀ m, m ∈ R q ++ [n] → rq_of m = q).
  { intros m [Hm| ->%list_elem_of_singleton]%elem_of_app; [by eapply rq_class|done]. }
  assert (Htail : ∀ l t, R q ++ [n] = l ++ [t] → Some n = Some t).
  { intros l t [_ ->]%app_inj_tail. done. }
  destruct (snoc_cases (R q)) as [E|(l & t & E)].
  - rewrite E in *. cbn.
    assert (Hfin : ∀ k1, procs k1 = <[n := r <| p_nextready := None |>]> (procs k) → lm k1 = lm k →
      sv k1 = sv k → um k1 = um k → sig_procs k1 = sig_procs k → rdy_head k1 = <[q := Some n]> (rdy_head k) →
      rdy_tail k1 = <[q := Some n]> (rdy_tail k) → rq_inv k1 (<[q := [n]]> R) ∧ qframe k k1).
    { intros k1 Ep El Es Eu Eg Eh Et. split; [|constructor; rewrite ?Ep, ?Es; auto using core_set_next].
      eapply (rq_inv_upd k); rewrite ?Ep, ?Eh, ?Et; try done; intros;
        rewrite ?fn_lookup_insert, ?fn_lookup_insert_ne by congruence; try done.
      - eapply Htail; eauto.
      - split; [|done]. rewrite lookup_insert_eq. eauto.
      - rewrite lookup_insert_ne by congruence. done. }
    destruct (decide (q = TASK_Q)) as [Hqt|Hqt]; krun;
      [rewrite decide_True by done|rewrite decide_False by tauto];
      (eexists; split; [done|]; split_and!; [by apply Hfin|by apply Hfin|done]).
  - rewrite E in *.
    assert (is_Some (procs k !! t)) as [rt Ht] by (eapply chain_lookup; [done|set_solver]).
    assert (Htn : t ≠ n) by set_solver.
    replace (nxt (l ++ [t]) None) with (Some (default t (head l))) by (by destruct l). krun.
    rewrite (rq_tail _ _ HR _ _ _ E). krun. eexists. split; [done|].
    split_and!; [|constructor; cbn; auto|cbn; rewrite decide_False; [done|by intros [_ ?]; destruct l]].
    + eapply (rq_inv_upd k); cbn; try done.
      * rewrite (rq_head _ _ HR), E. by destruct l.
      * by intros; rewrite fn_lookup_insert_ne.
      * intros. rewrite fn_lookup_insert. eauto.
      * apply chain_app. split; [|cbn; rewrite lookup_insert_eq; eauto].
        apply chain_notin; [done|]. eapply chain_snoc; eauto.
      * intros x Hx. assert (x ≠ n) by congruence.
        assert (x ≠ t) by (intros ->; apply Hx, (rq_class _ _ HR); rewrite E; set_solver).
        by rewrite !lookup_insert_ne.
    + rewrite core_set_next by (by rewrite lookup_insert_ne). by apply core_set_next.
Qed.

Lemma ready_spec k R n :
  rq_inv k R → is_Some (procs k !! n) → n ∉ R (rq_of n) →
  ∃ k', ready n k = Ok k' () ∧ rq_inv k' (abs_ready n R) ∧ qframe k k' ∧
        proc_ptr k' = (if decide (rq_of n = TASK_Q ∧ R TASK_Q = []) then n else proc_ptr k).
Proof.
  intros HR Hn Hnin. unfold ready, abs_ready, rq_of in *.
  destruct (istaskp n) eqn:Et; [|destruct (isuserp n) eqn:Eu]; cbn in *.
  - apply enq_tail_spec; try done. unfold rq_of. by rewrite Et.
  - destruct Hn as [r Hr]. rewrite (decide_True (P := USER_Q = USER_Q)) by done.
    krun. rewrite (rq_head _ _ HR).
    pose proof (rq_chain _ _ HR USER_Q) as Hc. pose proof (rq_nodup _ _ HR USER_Q) as Hnd.
    assert (Hu : rq_of n = USER_Q) by (unfold rq_of; by rewrite Et, Eu).
    assert (∃ k1, (match nxt (R USER_Q) None with
        | None => modify (λ k, k <| rdy_tail ::= <[USER_Q := Some n]> |>)
        | Some _ => mret () end) k = Ok k1 () ∧
        k1 = k <| rdy_tail := if nxt (R USER_Q) None is None then <[USER_Q := Some n]> (rdy_tail k) else rdy_tail k |>)
      as (k1 & Hk1 & E1).
    { destruct (nxt (R USER_Q) None); eexists; (split; [done|]); by destruct k. }
    rewrite (bind_ok _ _ _ _ _ Hk1). clear Hk1. subst k1. krun. cbn.
    eexists. split; [done|]. split_and!; [|constructor; cbn; auto using core_set_next|done].
    eapply (rq_inv_upd k); cbn; try done.
    + intros q' Hq'. by rewrite fn_lookup_insert_ne.
    + intros q' l t Hq' _. destruct (nxt (R USER_Q) None); [done|]. by rewrite fn_lookup_insert_ne.
    + destruct (R USER_Q) as [|y ys] eqn:E; cbn.
      * intros l t El. rewrite fn_lookup_insert. destruct l as [|? []]; naive_solver.
      * intros [|z l] t El; [done|]. injection El as -> El. apply (rq_tail _ _ HR _ l). by rewrite E.
    + rewrite lookup_insert_eq. split; [|by apply chain_notin].
      eexists. split; [done|]. cbn. by rewrite (rq_head _ _ HR).
    + intros x Hx. rewrite lookup_insert_ne by congruence. done.
    + by apply NoDup_cons.
    + intros m [->|Hm]%elem_of_cons; [done|by eapply rq_class].
  - destruct (enq_tail_spec k R SERVER_Q n) as (k' & ? & ? & ? & Hp); try done.
    { unfold rq_of. by rewrite Et, Eu. }
    exists k'. rewrite decide_False in Hp by naive_solver. by rewrite decide_False by naive_solver.
Qed.

Lemma ptab_length k R q : ptab (procs k) → rq_inv k R → (length (R q) ≤ 43)%nat.
Proof.
  intros Hp HR. apply (NoDup_range_length (- NR_TASKS) NR_PROCS); [apply HR|].
  intros x Hx. apply Hp. eapply chain_lookup; [apply HR|done].
Qed.

Lemma unready_body_spec k R q n pre xp suf fuel :
  rq_inv k R → rq_of n = q → R q = pre ++ xp :: suf → n ∉ pre → n ≠ xp → (length suf < fuel)%nat →
  ∃ k', unready_body fuel q xp n k = Ok k' () ∧
        rq_inv k' (<[q := filter (λ m, m ≠ n) (R q)]> R) ∧ qframe k k' ∧ proc_ptr k' = proc_ptr k.
Proof.
  intros HR Hq. revert pre xp fuel. induction suf as [|y suf IH]; intros pre xp fuel E Hpre Hne Hfuel;
    (destruct fuel as [|fuel]; [cbn in Hfuel; lia|]);
    pose proof (rq_chain _ _ HR q) as Hc; pose proof (rq_nodup _ _ HR q) as Hnd; rewrite E in Hc, Hnd;
    apply chain_app in Hc as [Hc1 Hc2]; cbn in Hc2; cbn [unready_body].
  - destruct Hc2 as [(r & Hr & Hn) _]. krun. rewrite Hn, decide_False by done.
    exists k. split; [done|]. rewrite filter_ne_notin by (rewrite E; set_solver). split; [|done].
    eapply rq_inv_upd; try done; try apply HR; intros; by eapply (rq_class _ _ HR).
  - destruct Hc2 as [(r & Hr & Hn) Hc3]. krun. rewrite Hn.
    destruct (decide (Some y = Some n)) as [[= ->]|Hy].
    + destruct Hc3 as [(rn & Hrn & Hnn) Hc4]. krun.
      assert (filter (λ m, m ≠ n) (R q) = pre ++ xp :: suf) as ->.
      { rewrite E. change (xp :: n :: suf) with ([xp] ++ n :: suf). rewrite app_assoc.
        rewrite filter_ne_middle by (by rewrite <- app_assoc). by rewrite <- app_assoc. }
      assert (Hnp : n ∉ pre ++ [xp]) by set_solver.
      assert (Hndp : NoDup (pre ++ xp :: suf)).
      { change (xp :: n :: suf) with ([xp] ++ n :: suf) in Hnd. rewrite app_assoc, <- Permutation_middle in Hnd.
        apply NoDup_cons in Hnd as [_ Hnd]. by rewrite <- app_assoc in Hnd. }
      assert (Hch : chain (<[xp := r <| p_nextready := p_nextready rn |>]> (procs k)) (pre ++ xp :: suf) None).
      { apply chain_app. split; [|cbn; rewrite lookup_insert_eq; split; [eauto|]].
        - apply chain_notin; [|done]. apply NoDup_app in Hndp. set_solver.
        - apply chain_notin; [|done]. apply NoDup_app in Hndp as (_ & _ & Hndp).
          apply NoDup_cons in Hndp. tauto. }
      assert (Hps : ∀ x, rq_of x ≠ q → p_nextready <$> <[xp := r <| p_nextready := p_nextready rn |>]> (procs k) !! x
                          = p_nextready <$> procs k !! x).
      { intros x Hx. rewrite lookup_insert_ne; [done|]. intros <-. apply Hx, (rq_class _ _ HR).
        rewrite E. set_solver. }
      assert (Hcl : ∀ m, m ∈ pre ++ xp :: suf → rq_of m = q).
      { intros m Hm. apply (rq_class _ _ HR). rewrite E. set_solver. }
      cbn. destruct (snoc_cases suf) as [->|(l & t & ->)].
      * rewrite (rq_tail _ _ HR q (pre ++ [xp]) n), decide_True by (by rewrite ?E, <- ?app_assoc).
        eexists. split; [done|]. split_and!; [|constructor; cbn; auto using core_set_next|done].
        eapply (rq_inv_upd k); cbn; try done.
        -- rewrite (rq_head _ _ HR), E. by destruct pre.
        -- intros. by rewrite fn_lookup_insert_ne.
        -- intros l t [_ <-]%app_inj_tail. by rewrite fn_lookup_insert.
      * assert (t ≠ n).
        { apply NoDup_app in Hnd as (_ & _ & [_ [Hnd _]%NoDup_cons]%NoDup_cons). set_solver. }
        rewrite (rq_tail _ _ HR q (pre ++ xp :: n :: l) t), decide_False by (rewrite ?E, <- ?app_assoc; first [done | intros [=]; done]).
        eexists. split; [done|]. split_and!; [|constructor; cbn; auto using core_set_next|done].
        eapply (rq_inv_upd k); cbn; try done.
        -- rewrite (rq_head _ _ HR), E. by destruct pre.
        -- intros l' t' El. rewrite (app_comm_cons l), app_assoc in El. apply app_inj_tail in El as [_ <-].
           apply (rq_tail _ _ HR q (pre ++ xp :: n :: l)). by rewrite E, <- app_assoc.
    + destruct (IH (pre ++ [xp]) y fuel) as (k' & ? & ? & ?).
      { by rewrite <- app_assoc. } { set_solver. } { congruence. } { cbn in Hfuel. lia. }
      exists k'. done.
Qed.

Lemma rq_inv_id k R q xs : rq_inv k R → R q = xs → rq_inv k (<[q := xs]> R).
Proof.
  intros HR E. eapply rq_inv_upd; try done; rewrite <- E; try apply HR.
Qed.

(** The running process after [unready n]: the scheduler runs when [n] was at
    the head of its queue and, for a task, was also the running process. *)
Definition after_unready (rtmode : bool) (Q : lhead → list laddr) (R : readyq → list Z)
    (n cur : Z) : Z :=
  match R (rq_of n) with
  | x :: _ =>
      if bool_decide (x = n) && (negb (bool_decide (rq_of n = TASK_Q)) || bool_decide (n = cur))
      then choice rtmode Q (abs_unready n R) else cur
  | [] => cur
  end.

Lemma unready_from_spec k Q R q n ap :
  rdy_inv k Q → rq_inv k R → ptab (procs k) → rq_of n = q →
  ap = negb (bool_decide (q = TASK_Q)) →
  ∃ k', unready_from q n ap k = Ok k' () ∧ rq_inv k' (abs_unready n R) ∧ qframe k k' ∧
    proc_ptr k' = after_unready (TEST_BIT (sv_flags (sv k)) MRT_RTMODE) Q R n (proc_ptr k).
Proof.
  intros Hi HR Hp Hq ->. unfold unready_from, after_unready, abs_unready. rewrite Hq.
  krun. rewrite (rq_head _ _ HR). pose proof (ptab_length k R q Hp HR) as Hlen.
  pose proof (rq_chain _ _ HR q) as Hc. pose proof (rq_nodup _ _ HR q) as Hnd.
  destruct (R q) as [|x xs] eqn:E; cbn [chain nxt] in Hc |- *.
  { exists k. split; [done|]. split; [|done].
    by apply rq_inv_id. }
  destruct Hc as [(r & Hr & Hn) Hc].
  destruct (decide (x = n)) as [->|Hne].
  - krun. rewrite (bool_decide_true (n = n)) by done. cbn [andb].
    assert (filter (λ m, m ≠ n) (n :: xs) = xs) as Ef by (apply (filter_ne_middle n [] xs); done).
    rewrite Ef. set (k1 := upd rdy_head _ k).
    assert (HR1 : rq_inv k1 (<[q := xs]> R)).
    { apply NoDup_cons in Hnd as [Hnx Hnd].
      eapply (rq_inv_upd k); cbn; try done; intros; rewrite ?fn_lookup_insert, ?fn_lookup_insert_ne by done; try done.
      - eapply (rq_tail _ _ HR q (n :: l)). rewrite E. by subst xs.
      - apply (rq_class _ _ HR). rewrite E. set_solver. }
    assert (Hf1 : qframe k k1) by (by constructor).
    destruct (_ || _) eqn:Eb.
    + destruct (pick_proc_spec k1 Q (<[q := xs]> R)) as (k' & Hrun & Hptr & Hf); [by eapply rdy_inv_qframe|done|].
      exists k'. split; [done|]. split_and!; [by eapply rq_inv_pframe|etrans; [done|by apply pframe_qframe]|].
      by rewrite Hptr.
    + by exists k1.
  - rewrite bool_decide_false by done.
    destruct (unready_body_spec k R q n [] x xs queue_fuel) as (k' & ? & ? & ? & ?); try done.
    { set_solver. } { cbn in Hlen. unfold queue_fuel. lia. }
    rewrite <- E. by exists k'.
Qed.

Lemma unready_spec k Q R n r :
  rdy_inv k Q → rq_inv k R → ptab (procs k) →
  procs k !! n = Some r → (istaskp n → p_stguard r = STACK_GUARD) →
  ∃ k', unready n k = Ok k' () ∧ rq_inv k' (abs_unready n R) ∧ qframe k k' ∧
    proc_ptr k' = after_unready (TEST_BIT (sv_flags (sv k)) MRT_RTMODE) Q R n (proc_ptr k).
Proof.
  intros Hi HR Hp Hn Hg. unfold unready.
  destruct (istaskp n) eqn:Et; [|destruct (isuserp n) eqn:Eu]; cbn [negb].
  - krun. rewrite Hg, Z.eqb_refl by done. apply unready_from_spec; try done. unfold rq_of. by rewrite Et.
  - apply unready_from_spec; try done. unfold rq_of. by rewrite Et, Eu.
  - apply unready_from_spec; try done. unfold rq_of. by rewrite Et, Eu.
Qed.

Lemma sched_spec k Q R :
  rdy_inv k Q → rq_inv k R →
  ∃ k', sched k = Ok k' () ∧ rq_inv k' (abs_sched R) ∧ qframe k k' ∧
    proc_ptr k' = (if R USER_Q is [] then proc_ptr k
                   else choice (TEST_BIT (sv_flags (sv k)) MRT_RTMODE) Q (abs_sched R)).
Proof.
  intros Hi HR. unfold sched, abs_sched. krun. rewrite (rq_head _ _ HR).
  pose proof (rq_chain _ _ HR USER_Q) as Hc. pose proof (rq_nodup _ _ HR USER_Q) as Hnd.
  destruct (R USER_Q) as [|x xs] eqn:E; cbn [chain nxt] in Hc |- *.
  { exists k. split; [done|]. split; [|done].
    by apply rq_inv_id. }
  destruct Hc as [(r & Hr & Hn) Hc]. krun.
  assert (Hcl : ∀ m, m ∈ xs ++ [x] → rq_of m = USER_Q).
  { intros m Hm. apply (rq_class _ _ HR). rewrite E. set_solver. }
  assert (Hnd' : NoDup (xs ++ [x])) by (by rewrite <- Permutation_cons_append).
  assert (Hpick : ∀ k1, rq_inv k1 (<[USER_Q := xs ++ [x]]> R) → qframe k k1 → 
    ∃ k', pick_proc k1 = Ok k' () ∧ rq_inv k' (<[USER_Q := xs ++ [x]]> R) ∧ qframe k k' ∧
     proc_ptr k' = choice (TEST_BIT (sv_flags (sv k)) MRT_RTMODE) Q (<[USER_Q := xs ++ [x]]> R)).
  { intros k1 HR1 Hf1. destruct (pick_proc_spec k1 Q _ (rdy_inv_qframe _ _ _ Hf1 Hi) HR1) as (k' & ? & Hptr & Hf).
    exists k'. split; [done|]. split_and!; [by eapply rq_inv_pframe|etrans; [done|by apply pframe_qframe]|].
    by rewrite Hptr, (qf_rtmode _ _ Hf1). }
  destruct (snoc_cases xs) as [->|(l & t & ->)].
  - rewrite (rq_tail _ _ HR USER_Q [] x) by done. krun.
    apply Hpick.
    + eapply (rq_inv_upd k); cbn; try done; intros; rewrite ?fn_lookup_insert, ?fn_lookup_insert_ne by done; try done.
      * destruct l as [|? []]; naive_solver.
      * rewrite insert_insert_eq, lookup_insert_eq. eauto.
      * rewrite insert_insert_eq, lookup_insert_ne; [done|]. intros <-. set_solver.
    + constructor; cbn; try done. rewrite insert_insert_eq.
      by apply (core_insert (procs k) x r (λ r, r <| p_nextready := _ |> <| p_nextready := _ |>)).
  - assert (is_Some (procs k !! t)) as [rt0 Ht] by (eapply chain_lookup; [exact Hc|set_solver]).
    assert (Htx : t ≠ x) by (apply NoDup_cons in Hnd as [Hx _]; set_solver).
    rewrite (rq_tail _ _ HR USER_Q (x :: l) t) by done. krun.
    apply Hpick.
    + eapply (rq_inv_upd k); cbn; try done; intros; rewrite ?fn_lookup_insert, ?fn_lookup_insert_ne by done; try done.
      * by rewrite Hn; destruct l.
      * apply app_inj_tail in H as [_ <-]. done.
      * apply chain_app. split; [|cbn; rewrite lookup_insert_eq; eauto].
        apply chain_notin; [apply NoDup_cons in Hnd; tauto|]. apply NoDup_cons in Hnd as [_ Hnd].
        eapply chain_snoc; eauto.
      * rewrite !lookup_insert_ne; [done|intros <-..]; set_solver.
    + constructor; cbn; try done.
      rewrite core_set_next by (by rewrite lookup_insert_ne). by apply core_set_next.
Qed.

(** ** Sequences of scheduler operations *)

Record sched_inv (k : kstate) (Q : lhead → list laddr) (R : readyq → list Z) : Prop := {
  si_rdy : rdy_inv k Q;
  si_rq : rq_inv k R;
  si_ptab : ptab (procs k);
  si_guard : ∀ n r, procs k !! n = Some r → istaskp n → p_stguard r = STACK_GUARD;
}.

Lemma sched_inv_qframe k k' Q R R' :
  sched_inv k Q R → qframe k k' → rq_inv k' R' → sched_inv k' Q R'.
Proof.
  intros [Hi HR Hp Hg] Hf HR'. constructor; [by eapply rdy_inv_qframe|done| |].
  - intros n Hn. apply Hp. by apply (qframe_is_Some _ _ _ Hf).
  - intros n r Hn Ht. assert (is_Some (procs k !! n)) as [r0 Hr0] by (apply (qframe_is_Some _ _ _ Hf); eauto).
    destruct (qframe_lookup _ _ _ _ Hf Hr0) as (r' & Hr' & E). assert (r' = r) as -> by congruence.
    apply (f_equal p_stguard) in E. cbn in E. rewrite E. by eapply Hg.
Qed.

Inductive rqop :=
  | OReady (n : Z)
  | OUnready (n : Z)
  | OSched.

Definition run_rqop (o : rqop) : K unit :=
  match o with OReady n => ready n | OUnready n => unready n | OSched => sched end.

(** The abstract scheduler: three sequences and the running process. *)
Definition abs_rqop (rtmode : bool) (Q : lhead → list laddr) (o : rqop)
    (a : (readyq → list Z) * Z) : (readyq → list Z) * Z :=
  let '(R, cur) := a in
  match o with
  | OReady n => (abs_ready n R, if decide (rq_of n = TASK_Q ∧ R TASK_Q = []) then n else cur)
  | OUnready n => (abs_unready n R, after_unready rtmode Q R n cur)
  | OSched => (abs_sched R, if R USER_Q is [] then cur else choice rtmode Q (abs_sched R))
  end.

(** A process is made ready only when it is not ready already. *)
Definition rq_legal (o : rqop) (R : readyq → list Z) : Prop :=
  match o with
  | OReady n => - NR_TASKS ≤ n < NR_PROCS ∧ n ∉ R (rq_of n)
  | OUnready n => - NR_TASKS ≤ n < NR_PROCS
  | OSched => True
  end.

Fixpoint rq_legal_run (rtmode : bool) (Q : lhead → list laddr) (os : list rqop)
    (a : (readyq → list Z) * Z) : Prop :=
  match os with
  | [] => True
  | o :: os' => rq_legal o a.1 ∧ rq_legal_run rtmode Q os' (abs_rqop rtmode Q o a)
  end.

Fixpoint run_rqops (os : list rqop) : K unit :=
  match os with
  | [] => mret ()
  | o :: os' => run_rqop o;; run_rqops os'
  end.

Lemma run_rqop_spec k Q R o :
  sched_inv k Q R → (∀ n, - NR_TASKS ≤ n < NR_PROCS → is_Some (procs k !! n)) → rq_legal o R →
  let a := abs_rqop (TEST_BIT (sv_flags (sv k)) MRT_RTMODE) Q o (R, proc_ptr k) in
  ∃ k', run_rqop o k = Ok k' () ∧ sched_inv k' Q a.1 ∧ proc_ptr k' = a.2 ∧ qframe k k'.
Proof.
  intros Hs Hd Hl. pose proof Hs as [Hi HR Hp Hg]. destruct o as [n|n|]; cbn in *.
  - destruct Hl as [Hn Hnin]. destruct (ready_spec k R n) as (k' & ? & ? & ? & ?); eauto.
    exists k'. split_and!; eauto using sched_inv_qframe.
  - destruct (Hd n Hl) as [r Hr]. destruct (unready_spec k Q R n r) as (k' & ? & ? & ? & ?); eauto.
    exists k'. split_and!; eauto using sched_inv_qframe.
  - destruct (sched_spec k Q R) as (k' & ? & ? & ? & ?); [done..|].
    exists k'. split_and!; eauto using sched_inv_qframe.
Qed.

(** C2: any sequence of [ready], [unready] and [sched] calls, in which a process
    is made ready only when it is not ready already, runs to completion (the
    search loop of [unready] ends) without a panic or a bad pointer, and leaves
    the three linked queues representing the abstract sequences: tasks and
    servers are appended, user processes are pushed at the head, [unready]
    takes the process out wherever it is, [sched] rotates the user queue.  The
    running process is the one the abstract scheduler chooses. *)
Theorem minix_queues_refine k Q R os :
  sched_inv k Q R → (∀ n, - NR_TASKS ≤ n < NR_PROCS → is_Some (procs k !! n)) →
  let rtmode := TEST_BIT (sv_flags (sv k)) MRT_RTMODE in
  rq_legal_run rtmode Q os (R, proc_ptr k) →
  let a := foldl (λ a o, abs_rqop rtmode Q o a) (R, proc_ptr k) os in
  ∃ k', run_rqops os k = Ok k' () ∧ sched_inv k' Q a.1 ∧ proc_ptr k' = a.2.
Proof.
  intros Hs Hd rtmode. revert k R Hs Hd rtmode. induction os as [|o os IH]; intros k R Hs Hd rtmode; cbn.
  { intros _. by exists k. }
  intros [Ho Hos]. destruct (run_rqop_spec k Q R o Hs Hd Ho) as (k1 & Hrun & Hs1 & Hp1 & Hf).
  rewrite (bind_ok _ _ _ _ _ Hrun).
  assert (Em : TEST_BIT (sv_flags (sv k1)) MRT_RTMODE = rtmode) by apply Hf.
  destruct (IH k1 (abs_rqop rtmode Q o (R, proc_ptr k)).1 Hs1) as (k' & Hrun' & Hs' & Hp').
  - intros n Hn. apply (qframe_is_Some _ _ _ Hf). by apply Hd.
  - rewrite Em, Hp1. by rewrite <- surjective_pairing.
  - rewrite Em, Hp1 in Hs', Hp'. rewrite <- surjective_pairing in Hs', Hp'. by exists k'.
Qed.

(** The cleared kernel: empty queues. *)
Lemma this_ok_check m :
  bool_decide (map_Forall (λ x l, this l = owner_of x) (links m)) = true → this_ok m.
Proof. rewrite bool_decide_eq_true. done. Qed.

Lemma bss_procs n : - NR_TASKS ≤ n < NR_PROCS → procs bss !! n = Some (bss_proc n).
Proof.
  intros Hn. apply elem_of_list_to_map_1; [|apply list_elem_of_fmap; exists n; split; [done|apply elem_of_seqZ; lia]].
  rewrite <- list_fmap_compose. apply NoDup_fmap; [by intros ??|apply NoDup_seqZ].
Qed.

Lemma bss_procs_inv n r : procs bss !! n = Some r → r = bss_proc n ∧ - NR_TASKS ≤ n < NR_PROCS.
Proof.
  intros (i & [= -> ->] & Hi%elem_of_seqZ)%elem_of_list_to_map_2%list_elem_of_fmap. split; [done|lia].
Qed.

Lemma bss_sched_inv : sched_inv bss (λ _, []) (λ _, []).
Proof.
  constructor.
  - constructor; [apply bss_lm_qinv|by eexists|apply this_ok_check; vm_compute; done|set_solver].
  - constructor; try done; [intros ? [] ?; done|constructor|set_solver].
  - intros n [r Hr%bss_procs_inv]. tauto.
  - intros n r [-> _]%bss_procs_inv _. done.
Qed.

Definition rq_script : list rqop :=
  [OReady 5; OReady (-3); OReady 7; OReady 0; OSched; OUnready (-3); OReady (-2); OUnready 5].

Lemma minix_queues_refine_witness :
  ∃ k', run_rqops rq_script bss = Ok k' () ∧ proc_ptr k' = -2 ∧ rdy_head k' USER_Q = Some 7.
Proof.
  edestruct (minix_queues_refine bss (λ _, []) (λ _, []) rq_script) as (k' & Hrun & Hs & Hp).
  - apply bss_sched_inv.
  - intros n Hn. rewrite bss_procs by done. by eexists.
  - vm_compute. repeat split; try lia; set_solver.
  - exists k'. split; [done|]. split; [rewrite Hp; by vm_compute|].
    rewrite (rq_head _ _ (si_rq _ _ _ Hs)). by vm_compute.
Defined.

(** ** Operations on the real-time ready queue *)

Definition may_run (r : proc) : Prop :=
  (st_scheds (st r) >? rt_limit (rt r)) && (rt_limit (rt r) >? 0) = false.

Lemma qstep_plists m m' Q Q' P : qstep m m' Q Q' → is_Some (plists m !! P) → is_Some (plists m' !! P).
Proof. intros [_ Hf]. by apply (fr_plists _ _ Hf). Qed.

(** Any queue step that puts into the ready lists only ready processes of the
    right priority keeps the ready-queue invariant. *)
Lemma rdy_inv_step k m' Q Q' :
  rdy_inv k Q → qstep (lm k) m' Q Q' →
  (∀ p x, x ∈ Q' (HP PRdy p) → x ∈ Q (HP PRdy p) ∨
     ∃ n r, x = LProc n ∧ procs k !! n = Some r ∧ rt_priority (rt r) = p) →
  rdy_inv (k <| lm := m' |>) Q'.
Proof.
  intros [Hq Hpl Ht Hp] Hs Hx. constructor; cbn.
  - apply Hs.
  - by eapply qstep_plists.
  - eapply this_ok_frame, Ht. apply Hs.
  - intros p x [Hin|Hin]%Hx; [by apply Hp|done].
Qed.

Lemma MRT_rdyQ_app_spec k Q n r :
  rdy_inv k Q → procs k !! n = Some r → may_run r → 0 ≤ rt_priority (rt r) < 16 →
  is_Some (links (lm k) !! LProc n) → unlinked Q (LProc n) →
  let p := rt_priority (rt r) in
  let Q' := <[HP PRdy p := Q (HP PRdy p) ++ [LProc n]]> Q in
  ∃ m', MRT_rdyQ_app n k = Ok (k <| lm := m' |>) () ∧ qstep (lm k) m' Q Q' ∧
        rdy_inv (k <| lm := m' |>) Q'.
Proof.
  intros Hi Hn Hm Hp Hl Hu p Q'. unfold MRT_rdyQ_app. krun. rewrite Hm.
  destruct (MRT_plist_app_spec (lm k) Q PRdy (LProc n) p) as (m' & Hrun & Hs); try done; try apply Hi.
  exists m'. split; [by apply lists_ok|]. split; [done|].
  eapply rdy_inv_step; [done..|]. intros q x. unfold Q'.
  destruct (decide (q = p)) as [->|Hne]; [|rewrite fn_lookup_insert_ne by congruence; auto].
  rewrite fn_lookup_insert. intros [Hx| ->%list_elem_of_singleton]%elem_of_app; [auto|right]. by eexists _, _.
Qed.

Lemma MRT_rdyQ_ins_spec k Q n r :
  rdy_inv k Q → procs k !! n = Some r → 0 ≤ rt_priority (rt r) < 16 →
  is_Some (links (lm k) !! LProc n) → unlinked Q (LProc n) →
  let p := rt_priority (rt r) in
  let Q' := <[HP PRdy p := LProc n :: Q (HP PRdy p)]> Q in
  ∃ m', MRT_rdyQ_ins n k = Ok (k <| lm := m' |>) () ∧ qstep (lm k) m' Q Q' ∧
        rdy_inv (k <| lm := m' |>) Q'.
Proof.
  intros Hi Hn Hp Hl Hu p Q'. unfold MRT_rdyQ_ins. krun.
  destruct (MRT_plist_ins_spec (lm k) Q PRdy (LProc n) p) as (m' & Hrun & Hs); try done; try apply Hi.
  exists m'. split; [by apply lists_ok|]. split; [done|].
  eapply rdy_inv_step; [done..|]. intros q x. unfold Q'.
  destruct (decide (q = p)) as [->|Hne]; [|rewrite fn_lookup_insert_ne by congruence; auto].
  rewrite fn_lookup_insert. intros [->|Hx]%elem_of_cons; [right|auto]. by eexists _, _.
Qed.

Lemma MRT_rdyQ_rmv_spec k Q n r l1 l2 :
  rdy_inv k Q → procs k !! n = Some r → 0 ≤ rt_priority (rt r) < 16 →
  Q (HP PRdy (rt_priority (rt r))) = l1 ++ LProc n :: l2 →
  let Q' := <[HP PRdy (rt_priority (rt r)) := l1 ++ l2]> Q in
  ∃ m', MRT_rdyQ_rmv n k = Ok (k <| lm := m' |>) () ∧ qstep (lm k) m' Q Q' ∧
        rdy_inv (k <| lm := m' |>) Q' ∧ unlinked Q' (LProc n).
Proof.
  intros Hi Hn Hp HQ Q'. unfold MRT_rdyQ_rmv. krun.
  destruct (MRT_plist_rmv_spec (lm k) Q PRdy (LProc n) (rt_priority (rt r)) l1 l2)
    as (m' & Hrun & Hs); try done; try apply Hi.
  exists m'. split; [by apply lists_ok|]. split; [done|]. split.
  - eapply rdy_inv_step; [done..|]. intros q x. unfold Q'.
    destruct (decide (q = rt_priority (rt r))) as [->|Hne]; [|rewrite fn_lookup_insert_ne by congruence; auto].
    rewrite fn_lookup_insert, HQ. set_solver.
  - destruct (ri_q _ _ Hi) as [Hl _]. intros L. unfold Q'.
    destruct (decide (L = HP PRdy (rt_priority (rt r)))) as [->|Hne].
    + rewrite fn_lookup_insert. pose proof (li_nodup _ _ Hl (HP PRdy (rt_priority (rt r)))) as Hnd.
      rewrite HQ, <- Permutation_middle in Hnd. apply NoDup_cons in Hnd. tauto.
    + rewrite fn_lookup_insert_ne by congruence. intros Hx. apply Hne, (li_disj _ _ Hl _ _ _ Hx).
      rewrite HQ. set_solver.
Qed.

(** C3: in real-time mode, when a real-time process is ready, [pick_proc] gives
    the processor to the process at the head of the most urgent non-empty ready
    list: no ready process has a more urgent effective priority, and those of
    the same priority are behind it in the queue.  The system priority level
    becomes its priority, [MRT_RTSCHED] is set and the queues are untouched. *)
Theorem pick_proc_most_urgent k Q R m q :
  rdy_inv k Q → rq_inv k R → TEST_BIT (sv_flags (sv k)) MRT_RTMODE = true →
  LProc m ∈ Q (HP PRdy q) → 0 ≤ q < 16 →
  ∃ k' n p l r, pick_proc k = Ok k' () ∧ proc_ptr k' = n ∧ 0 ≤ p < 16 ∧
    Q (HP PRdy p) = LProc n :: l ∧ procs k !! n = Some r ∧ rt_priority (rt r) = p ∧
    (∀ m' q', LProc m' ∈ Q (HP PRdy q') → 0 ≤ q' < 16 → p ≤ q') ∧
    sv_prtylvl (sv k') = p ∧ TEST_BIT (sv_flags (sv k')) MRT_RTSCHED = true ∧ lm k' = lm k.
Proof.
  intros Hi HR Hm Hx Hq. unfold pick_proc, sv_test. krun. rewrite Hm.
  pose proof (rt_choice_pq _ _ Hi) as Hpq.
  destruct (MRT_pick_proc_spec k Q Hi) as (k1 & Hrun & Hf & Hc).
  rewrite (bind_ok _ _ _ _ _ Hrun). destruct (rt_choice Q) as [n|] eqn:En.
  - apply pq_head_Some in Hpq as (p & l & Hp & Hl & Hlow). destruct Hc as [Hptr (r1 & Hr1 & Hlvl)].
    destruct (ri_proc _ _ Hi p (LProc n)) as (n' & r & [= <-] & Hr & Hpr); [rewrite Hl; set_solver|].
    cbn. unfold sv_set, st_sv. rewrite modify_ok. eexists _, n, p, l, r. split; [done|]. cbn.
    split_and!; try done; try lia.
    + intros m' q' Hm' Hq'. destruct (Z.lt_ge_cases q' p); [|lia]. rewrite Hlow in Hm' by lia. set_solver.
    + destruct (pframe_lookup _ _ _ _ Hf Hr) as (r1' & Hr1' & E).
      assert (r1' = r1) as -> by congruence.
      rewrite Hlvl. apply (f_equal rt) in E. cbn in E. rewrite E, Hpr. apply Z.mod_small. lia.
    + change MRT_RTSCHED with (Z.shiftl 1 6). rewrite TEST_BIT_shift, SET_BIT_shift by lia. done.
    + apply Hf.
  - rewrite (proj1 (pq_head_None _ _) Hpq) in Hx by done. set_solver.
Qed.

(** Two real-time processes made ready: process 3 at priority 5, then process 4
    at priority 2. *)
Definition rt_proc (n p : Z) : proc :=
  (bss_proc n) <| p_flags := MRT_P_REALTIME |> <| rt ::= λ a, a <| rt_priority := p |> <| rt_baseprty := p |> |>.

Definition rt_bss : kstate :=
  bss <| procs ::= λ ps, <[3 := rt_proc 3 5]> (<[4 := rt_proc 4 2]> ps) |>
      <| sv ::= λ v, v <| sv_flags := MRT_RTMODE |> |>.

Definition rt_Q : lhead → list laddr :=
  <[HP PRdy 2 := [LProc 4]]> (<[HP PRdy 5 := [LProc 3]]> (λ _, [])).

Lemma rt_bss_ready : ∃ m, (MRT_ready 3;; MRT_ready 4) rt_bss = Ok (rt_bss <| lm := m |>) () ∧
  rdy_inv (rt_bss <| lm := m |>) rt_Q.
Proof.
  assert (H0 : rdy_inv rt_bss (λ _, [])).
  { destruct bss_sched_inv as [[] _ _ _]. constructor; try done. by intros p x Hx%elem_of_nil. }
  destruct (MRT_rdyQ_app_spec rt_bss (λ _, []) 3 (rt_proc 3 5)) as (m1 & H1 & Hs1 & Hi1);
    [done|reflexivity|reflexivity|cbn; lia|by eexists|by intros ? Hx%elem_of_nil|].
  edestruct (MRT_rdyQ_app_spec (rt_bss <| lm := m1 |>) _ 4 (rt_proc 4 2) Hi1) as (m2 & H2 & Hs2 & Hi2);
    [reflexivity|reflexivity|cbn; lia|..].
  { destruct Hs1 as [_ [Hp _ _]]. specialize (Hp (LProc 4)).
    change (lm (rt_bss <| lm := m1 |>)) with m1. destruct (links m1 !! LProc 4) eqn:E; [by eexists|]. by vm_compute in Hp. }
  { intros L. change (rt_priority (rt (rt_proc 3 5))) with 5. destruct (decide (L = HP PRdy 5)) as [->|];
      rewrite ?fn_lookup_insert, ?fn_lookup_insert_ne by done.
    - cbn. rewrite list_elem_of_singleton. done.
    - by intros Hx%elem_of_nil. }
  exists m2. unfold MRT_ready. rewrite (bind_ok _ _ _ _ _ H1). split; [exact H2|exact Hi2].
Qed.

Lemma pick_proc_most_urgent_witness :
  ∃ m k', (MRT_ready 3;; MRT_ready 4) rt_bss = Ok (rt_bss <| lm := m |>) () ∧
    pick_proc (rt_bss <| lm := m |>) = Ok k' () ∧ proc_ptr k' = 4 ∧ sv_prtylvl (sv k') = 2.
Proof.
  destruct rt_bss_ready as (m & Hrun & Hi).
  edestruct (pick_proc_most_urgent (rt_bss <| lm := m |>) rt_Q (λ _, []) 4 2)
    as (k' & n & p & l & r & Hp & Hn & Hrng & HQ & _ & _ & Hmin & Hlvl & _).
  - exact Hi.
  - destruct bss_sched_inv as [_ [] _ _]. by constructor.
  - done.
  - unfold rt_Q. rewrite fn_lookup_insert. by apply list_elem_of_singleton.
  - lia.
  - assert (p = 2) as ->.
    { unfold rt_Q in HQ. destruct (decide (p = 2)) as [|H2]; [done|].
      rewrite fn_lookup_insert_ne in HQ by congruence. destruct (decide (p = 5)) as [->|H5].
      - assert (5 ≤ 2); [|lia]. apply (Hmin 4 2); [|lia]. unfold rt_Q. rewrite fn_lookup_insert.
        by apply list_elem_of_singleton.
      - by rewrite fn_lookup_insert_ne in HQ by congruence. }
    exists m, k'. split_and!; [done..| |done].
    unfold rt_Q in HQ; rewrite fn_lookup_insert in HQ. congruence.
Defined.
