(* ===== verification/VTimer.v ===== *)
(** * Virtual timers (kernel/mrtvt.c)

    Active timers wait in a delta queue: [earliest] is the number of ticks to the
    expiration of the first one and every timer's [nextexp] the distance to the
    one behind it; [maxper] is the distance from the first to the last.  At each
    tick the interrupt dispatcher decrements [earliest] and, when it reaches
    zero, [MRT_clock_handler] moves the expired timers to the priority list
    [PExp].  The second half proves that this refines a sorted list of remaining
    times. *)

From stdpp Require Import base gmap strings numbers fin_maps functions list.
From S2P Require Import Prelude Lists Kernel Sched.
Local Open Scope Z_scope.

(** ** The programmable timer and the interrupt mask *)

(** mrtirq.c *)
Definition MRT_set_irq (irq : Z) : K unit :=
  st_sv (λ v, v <| sv_real_PIC ::= λ p, CLR_BIT p (Z.shiftl 1 irq) |>);;
  MRT_enable_irq irq.
Definition MRT_reset_irq (irq : Z) : K unit :=
  st_sv (λ v, v <| sv_real_PIC ::= λ p, SET_BIT p (Z.shiftl 1 irq) |>);;
  MRT_disable_irq irq.

Definition MRT_read_timer2 : K Z := gets (λ k, hw_timer2 (hw k)).
Definition MRT_timer2_set (latch : Z) : K unit :=
  modify (λ k, k <| hw ::= λ h, h <| hw_timer2 := Z.land latch 0xFFFF |> |>).
Definition timer0_load (latch : Z) : K unit :=
  modify (λ k, k <| hw ::= λ h, h <| hw_timer0 := Z.land latch 0xFFFF |> |>).

Definition MRT_timer_set (harmonic : Z) : K unit :=
  MRT_reset_irq CLOCK_IRQ;;
  st_sv (λ v, v <| sv_harmonic := harmonic |>);;
  st_sv (λ v, v <| sv_tickrate := u32 (sv_harmonic v * HZ) |>);;
  v ← gets sv;
  (if sv_tickrate v =? 0 then undef DivZero
   else st_sv (λ v, v <| sv_PIT_latch := TIMER_FREQ / sv_tickrate v |>));;
  v ← gets sv;
  timer0_load (sv_PIT_latch v);;
  MRT_set_irq CLOCK_IRQ.

Definition MRT_timer_oneshot (period : Z) : K unit :=
  t2 ← MRT_read_timer2;
  modify (λ k, k <| T2curr := t2 |>);;
  modify (λ k, k <| latch := u32 (sv_tick2Hz (sv k) * period) |>);;
  n ← gets (λ k, c_oneshots (sv k));
  l ← gets latch;
  t ← gets T2curr;
  let error :=
    if n =? 0 then 0
    else let realhz := s32 (0xFFFF - t) in
         let error := s32 (realhz - l) in
         if l <? u32 error then 0 else error in
  MRT_timer2_set 0xFFFF;;
  timer0_load (Z.shiftr (u32 (l - error)) 1);;
  st_sv (λ v, v <| c_oneshots ::= λ c, u32 (c + 1) |>);;
  MRT_set_irq CLOCK_IRQ.

(** ** Timer descriptors *)

Definition MRT_timerQ_init : K unit :=
  modify (λ k, k <| earliest := 0 |> <| maxper := 0 |>);;
  lists_ (MRT_list_rst HActQ);;
  lists_ (MRT_list_rst HFreeVt);;
  lists_ (MRT_plist_rst PExp).

Definition MRT_vtimer_rst (i : Z) : K unit :=
  st_vt i (λ v, v <| vt_period := 0 |> <| vt_limit := 0 |> <| vt_action := MRT_ACT_NONE |>
                  <| vt_param := 0 |> <| vt_owner := HARDWARE |> <| vt_priority := MRT_PRILOWEST |>
                  <| vt_timestamp := 0 |> <| vt_nextexp := 0 |> <| vt_flags := VT_ALLOC |>);;
  lists_ (MRT_link_rst (LVt i) (OVt i) MRT_OBJVT).

Definition MRT_vtimer_init : K unit :=
  for_ 0 (Z.to_nat NR_VTIMERS) (λ i,
    st_vt i (λ v, v <| vt_index := i |>);;
    MRT_vtimer_rst i;;
    lists_ (MRT_list_app HFreeVt (LVt i))).

(** Splicing a link between two neighbours of the active queue. *)
Definition act_splice (x plprev plnext : laddr) : M lmem unit :=
  st_link x (λ l, l <| next := Some plnext |>);;
  st_link x (λ l, l <| prev := Some plprev |>);;
  st_link plprev (λ l, l <| next := Some x |>);;
  st_link plnext (λ l, l <| prev := Some x |>);;
  st_list HActQ (λ l, l <| inQ ::= Z.succ |>);;
  st_list HActQ (λ l, l <| maxinQ := MAX (inQ l) (maxinQ l) |>).

(** The loop that looks for the first timer that expires after [period]. *)
Fixpoint ins_scan (fuel : nat) (ticksum : Z) (plnext : laddr) (period : Z) : K (Z * laddr) :=
  match fuel with
  | O => λ _, NoFuel
  | S fuel' =>
      lk ← lists_ (ld_link plnext);
      if u32 ticksum <=? period then
        match next lk with
        | None => mret (ticksum, plnext)
        | Some nx =>
            o ← this_of plnext; j ← as_vt o; v ← ld_vt j;
            ins_scan fuel' (s32 (ticksum + vt_nextexp v)) nx period
        end
      else mret (ticksum, plnext)
  end.

(** At most [NR_VTIMERS = 16] timers are in the active queue. *)
Definition vt_fuel : nat := 32.

Definition MRT_vtimer_ins (i : Z) : K unit :=
  st_vt i (λ v, v <| vt_flags := VT_ACTIVEQ |>);;
  v ← ld_vt i;
  l ← lists_ (ld_list HActQ);
  e ← gets earliest;
  m ← gets maxper;
  match first l with
  | None =>
      modify (λ k, k <| earliest := s32 (vt_period v) |>);;
      modify (λ k, k <| maxper := 0 |>);;
      st_vt i (λ v, v <| vt_nextexp := 0 |>);;
      lists_ (MRT_list_ins HActQ (LVt i))
  | Some f =>
      if u32 e >? vt_period v then
        st_vt i (λ v, v <| vt_nextexp := u32 (e - vt_period v) |>);;
        modify (λ k, k <| maxper := u32 (m + u32 (e - vt_period v)) |>);;
        modify (λ k, k <| earliest := s32 (vt_period v) |>);;
        lists_ (MRT_list_ins HActQ (LVt i))
      else if u32 (m + e) <=? vt_period v then
        plprev ← notnull (last l);
        o ← this_of plprev; pvtprev ← as_vt o;
        st_vt pvtprev (λ w, w <| vt_nextexp := u32 (vt_period v - (m + e)) |>);;
        modify (λ k, k <| maxper := u32 (vt_period v - e) |>);;
        st_vt i (λ v, v <| vt_nextexp := 0 |>);;
        lists_ (MRT_list_app HActQ (LVt i))
      else
        r ← ins_scan vt_fuel e f (vt_period v);
        let '(ticksum, plnext) := r in
        st_vt i (λ w, w <| vt_nextexp := u32 (ticksum - vt_period w) |>);;
        v ← ld_vt i;
        lk ← lists_ (ld_link plnext);
        plprev ← notnull (prev lk);
        o ← this_of plprev; pvtprev ← as_vt o;
        st_vt pvtprev (λ w, w <| vt_nextexp ::= λ x, u32 (x - vt_nextexp v) |>);;
        lists_ (act_splice (LVt i) plprev plnext)
  end.

Definition MRT_vtimer_rmv (i : Z) : K unit :=
  l ← lists_ (ld_list HActQ);
  (if bool_decide (first l = Some (LVt i)) && bool_decide (last l = Some (LVt i)) then
     modify (λ k, k <| earliest := 0 |> <| maxper := 0 |>)
   else if bool_decide (first l = Some (LVt i)) then
     v ← ld_vt i;
     modify (λ k, k <| earliest ::= λ e, s32 (e + vt_nextexp v) |>);;
     modify (λ k, k <| maxper ::= λ m, u32 (m - vt_nextexp v) |>)
   else if bool_decide (last l = Some (LVt i)) then
     lk ← lists_ (ld_link (LVt i));
     plprev ← notnull (prev lk);
     o ← this_of plprev; pvtprev ← as_vt o;
     w ← ld_vt pvtprev;
     modify (λ k, k <| maxper ::= λ m, u32 (m - vt_nextexp w) |>)
   else
     lk ← lists_ (ld_link (LVt i));
     plprev ← notnull (prev lk);
     o ← this_of plprev; pvtprev ← as_vt o;
     v ← ld_vt i;
     st_vt pvtprev (λ w, w <| vt_nextexp ::= λ x, u32 (x + vt_nextexp v) |>));;
  lists_ (MRT_list_rmv HActQ (LVt i));;
  st_vt i (λ v, v <| vt_flags := VT_ALLOC |>);;
  lists_ (MRT_link_rst (LVt i) (OVt i) MRT_OBJVT).

Definition MRT_vtimer_stop (i : Z) : K unit :=
  v ← ld_vt i;
  (if vt_flags v =? VT_FREEQ then panic "MRT_vtimer_stop: VT is free" (vt_index v)
   else if vt_flags v =? VT_ACTIVEQ then MRT_vtimer_rmv i
   else if vt_flags v =? VT_EXPIREDQ then lists_ (MRT_plist_rmv PExp (LVt i) (vt_priority v))
   else mret ());;
  st_vt i (λ v, v <| vt_nextexp := 0 |> <| vt_flags := VT_ALLOC |>);;
  lists_ (MRT_link_rst (LVt i) (OVt i) MRT_OBJVT).

Definition MRT_vtimer_free (i : Z) : K unit :=
  MRT_vtimer_stop i;;
  MRT_vtimer_rst i;;
  st_vt i (λ v, v <| vt_flags := VT_FREEQ |>);;
  lists_ (MRT_list_app HFreeVt (LVt i)).

(** [vt] is the caller's local descriptor; only the fields [VTALLOC] fills are
    read. *)
Definition MRT_vtimer_alloc (period limit action param owner priority : Z) : K (option Z) :=
  l ← lists_ (ld_list HFreeVt);
  if inQ l =? 0 then mret None
  else if (period <=? 0) || (period >? MRT_MAXPER) then mret None
  else if limit <? 0 then mret None
  else if (action <? 0) || (action >? MRT_NBRVTACT) then mret None
  else
    plink ← notnull (first l);
    lists_ (MRT_list_rmv HFreeVt plink);;
    o ← this_of plink; vv ← as_vt o;
    st_vt vv (λ v, v <| vt_owner := owner |> <| vt_priority := priority |> <| vt_period := period |>
                     <| vt_limit := limit |> <| vt_action := action |> <| vt_param := param |>
                     <| vt_flags := VT_ALLOC |>);;
    mret (Some vv).

(** kernel.h: [VTSET(pvt, per, lim, act, par, pty)] *)
Definition VTSET (pvt : option Z) (per lim act par pty : Z) : K unit :=
  i ← notnull pvt;
  st_vt i (λ v, v <| vt_period := u32 per |> <| vt_limit := lim |> <| vt_action := act |>
                  <| vt_param := par |> <| vt_priority := pty |>);;
  MRT_vtimer_ins i.

(** Moves the expired timers from the active to the expired queue; answers the
    smallest period seen and the first timer left. *)
Fixpoint clock_loop (fuel : nat) (minexp : Z) : K (Z * option laddr) :=
  match fuel with
  | O => λ _, NoFuel
  | S fuel' =>
      l ← lists_ (ld_list HActQ);
      match first l with
      | None => mret (minexp, None)
      | Some plink =>
          e ← gets earliest;
          if negb (e =? 0) then mret (minexp, Some plink)
          else
            o ← this_of plink; i ← as_vt o; v ← ld_vt i;
            oneshot ← sv_test MRT_ONESHOT;
            let minexp' :=
              if oneshot && ((u32 (vt_expired v + 1) <? vt_limit v) || (vt_limit v =? 0))
              then MIN minexp (vt_period v) else minexp in
            MRT_vtimer_rmv i;;
            v ← ld_vt i;
            lists_ (MRT_plist_app PExp plink (vt_priority v));;
            clock_loop fuel' minexp'
      end
  end.

Definition MRT_clock_handler : K Z :=
  r ← clock_loop vt_fuel MRT_MAXPER;
  let '(minexp, plink) := r in
  oneshot ← sv_test MRT_ONESHOT;
  (if (oneshot : bool) then
     (minexp' ← (match plink with
                 | Some x => o ← this_of x; i ← as_vt o; v ← ld_vt i; mret (MIN minexp (vt_period v))
                 | None => mret minexp
                 end);
      MRT_timer_oneshot minexp')
   else mret ());;
  mret MRT_IRQ_ENABLED.

(** The timer branch of [MRT_IRQ_dispatch] (mrtirq.c) in periodic mode. *)
Definition MRT_tick : K unit :=
  st_sv (λ v, v <| c_ticks ::= λ t, u32 (t + 1) |>);;
  l ← lists_ (ld_list HActQ);
  match first l with
  | None => mret ()
  | Some _ =>
      modify (λ k, k <| earliest ::= λ e, s32 (e - 1) |>);;
      e ← gets earliest;
      if e =? 0 then MRT_clock_handler;; mret () else mret ()
  end.

(** * The delta queue refines a sorted list of remaining times *)

(** [L] lists the active timers with their remaining ticks; every timer's
    [nextexp] is the distance to the next one (the last one's is not used). *)
Fixpoint deltas (vts : gmap Z MRT_vtimer_t) (L : list (Z * Z)) : Prop :=
  match L with
  | [] => True
  | (i, t) :: L' =>
      match L' with
      | [] => is_Some (vts !! i)
      | (_, t') :: _ => ∃ v, vts !! i = Some v ∧ vt_nextexp v = t' - t ∧ t ≤ t'
      end ∧ deltas vts L'
  end.

Definition time_first (L : list (Z * Z)) : Z := match L with [] => 0 | a :: _ => a.2 end.
Fixpoint time_last (L : list (Z * Z)) : Z :=
  match L with [] => 0 | [a] => a.2 | _ :: L' => time_last L' end.

Definition small (t : Z) : Prop := 0 ≤ t < 2 ^ 31.

Record act_rep (k : kstate) (Q : lhead → list laddr) (L : list (Z * Z)) : Prop := {
  ar_Q : Q HActQ = (λ a, LVt a.1) <$> L;
  ar_deltas : deltas (vtimers k) L;
  ar_first : earliest k = time_first L;
  ar_max : maxper k = time_last L - time_first L;
  ar_small : Forall (λ a, small a.2) L;
}.

(** The timer part of the kernel invariant. *)
Record vt_inv (k : kstate) (Q : lhead → list laddr) (L : list (Z * Z)) : Prop := {
  vi_q : qinv (lm k) Q;
  vi_this : this_ok (lm k);
  vi_act : is_Some (lists (lm k) !! HActQ);
  vi_exp : is_Some (plists (lm k) !! PExp);
  vi_tab : ∀ i, is_Some (vtimers k !! i) → 0 ≤ i < NR_VTIMERS;
  vi_rep : act_rep k Q L;
}.

Lemma u32_small x : small x → u32 x = x.
Proof. intros. apply Z.mod_small. unfold small in *. lia. Qed.
Lemma s32_small x : small x → s32 x = x.
Proof. intros. unfold s32, small in *. rewrite Z.mod_small; lia. Qed.

Lemma deltas_app vts L1 a L2 :
  deltas vts (L1 ++ a :: L2) ↔ deltas vts (L1 ++ [a]) ∧ deltas vts (a :: L2).
Proof.
  induction L1 as [|[i t] L1 IH]; cbn [app].
  - destruct a as [j u]. cbn. split; [|tauto]. intros [Hd HL]. split; [|done]. split; [|done].
    destruct L2 as [|[j' u'] L2]; [done|]. destruct Hd as (v & -> & _). by eexists.
  - cbn. rewrite IH. destruct L1 as [|[i' t'] L1]; cbn; [destruct a|]; tauto.
Qed.

(** Only the [nextexp] of the timers before the last one matters. *)
Lemma deltas_frame vts vts' L1 a :
  (∀ i, i ∈ L1.*1 → vt_nextexp <$> vts' !! i = vt_nextexp <$> vts !! i) →
  is_Some (vts' !! a.1) → deltas vts (L1 ++ [a]) → deltas vts' (L1 ++ [a]).
Proof.
  intros Hf Ha. induction L1 as [|[i t] L1 IH]; cbn [app].
  - destruct a. cbn. tauto.
  - cbn. intros [Hd HL]. split; [|apply IH; [intros; apply Hf; set_solver|done]].
    specialize (Hf i). cbn in Hf. destruct L1 as [|[i' t'] L1]; cbn in *; [destruct a as [ja ua]|];
      destruct Hd as (v & Hv & Hn & Hle); rewrite Hv in Hf;
      (destruct (vts' !! i) as [v'|]; [|set_solver]); exists v'; (split; [done|]); (split; [|done]);
      rewrite <- Hn; (assert (i ∈ [i]) by set_solver); specialize (Hf ltac:(set_solver)); naive_solver.
Qed.

Lemma time_last_app L a : time_last (L ++ [a]) = a.2.
Proof. induction L as [|b [|c L] IH]; cbn in *; done. Qed.

Lemma time_last_cons a b L : time_last (a :: b :: L) = time_last (b :: L).
Proof. done. Qed.

Lemma time_last_app2 L1 a L2 : time_last (L1 ++ a :: L2) = time_last (a :: L2).
Proof. induction L1 as [|b [|c L1] IH]; cbn [app] in *; [done|done|]. by rewrite time_last_cons. Qed.

(** Remaining times are sorted. *)
Lemma deltas_sorted vts L : deltas vts L → ∀ L1 a L2 b L3, L = L1 ++ a :: L2 ++ b :: L3 → a.2 ≤ b.2.
Proof.
  intros Hd L1 a L2 b L3 ->. apply deltas_app in Hd as [_ Hd]. clear L1.
  revert a Hd. induction L2 as [|c L2 IH]; intros [i t] Hd; cbn [app] in *.
  - destruct b as [j u]. destruct Hd as [(v & _ & _ & Hle) _]. done.
  - destruct c as [j u]. destruct Hd as [(v & _ & _ & Hle) Hd]. specialize (IH (j, u) Hd). cbn in *. lia.
Qed.

Lemma deltas_last vts L a : deltas vts L → a ∈ L → a.2 ≤ time_last L.
Proof.
  intros Hd (l1 & l2 & ->)%list_elem_of_split. rewrite time_last_app2.
  destruct (snoc_cases l2) as [->|(l & b & ->)]; [done|].
  rewrite app_comm_cons, time_last_app. by apply (deltas_sorted _ _ Hd l1 a l b []).
Qed.

Lemma deltas_lookup vts L a : deltas vts L → a ∈ L → is_Some (vts !! a.1).
Proof.
  intros Hd (l1 & l2 & ->)%list_elem_of_split. apply deltas_app in Hd as [_ Hd].
  destruct a as [i t]. destruct Hd as [Hd _]. destruct l2 as [|[j u] l2]; [done|]. destruct Hd as (v & Hv & _). by eexists.
Qed.

(** ** Insertion in time order, behind the timers that expire no later *)
Fixpoint vt_insert (i per : Z) (L : list (Z * Z)) : list (Z * Z) :=
  match L with
  | [] => [(i, per)]
  | (j, t) :: L' => if per <? t then (i, per) :: (j, t) :: L' else (j, t) :: vt_insert i per L'
  end.

Lemma vt_insert_app i per L1 L2 :
  Forall (λ a, a.2 ≤ per) L1 → (∀ a, head L2 = Some a → per < a.2) →
  vt_insert i per (L1 ++ L2) = L1 ++ (i, per) :: L2.
Proof.
  intros H1 H2. induction H1 as [|[j t] L1 Hj H1 IH]; cbn in *.
  - destruct L2 as [|[j t] L2]; [done|]. specialize (H2 _ eq_refl). cbn in *.
    by destruct (Z.ltb_spec per t); [|lia].
  - destruct (Z.ltb_spec per t); [lia|]. by rewrite IH.
Qed.

(** What the active-queue operations change: the list store, the flags and
    [nextexp] of timers, [earliest] and [maxper]. *)
Definition vt_core (v : MRT_vtimer_t) : MRT_vtimer_t := v <| vt_flags := 0 |> <| vt_nextexp := 0 |>.

Record vtframe (k k' : kstate) : Prop := {
  vf_eq : k' = k <| lm := lm k' |> <| vtimers := vtimers k' |> <| earliest := earliest k' |>
                 <| maxper := maxper k' |>;
  vf_vt : vt_core <$> vtimers k' = vt_core <$> vtimers k;
  vf_lm : lframe (lm k) (lm k');
}.

#[export] Instance vtframe_preorder : PreOrder vtframe.
Proof.
  split.
  - intros k. constructor; [by destruct k|done|reflexivity].
  - intros k1 k2 k3 [E1 V1 L1] [E2 V2 L2]. constructor; [|congruence|by etrans].
    rewrite E2, E1. by destruct k1.
Qed.

Lemma vt_core_insert (vts : gmap Z MRT_vtimer_t) i v v' :
  vts !! i = Some v → vt_core v' = vt_core v → vt_core <$> <[i := v']> vts = vt_core <$> vts.
Proof. intros Hi E. rewrite fmap_insert, E. apply insert_id. by rewrite lookup_fmap, Hi. Qed.

Lemma vtframe_lookup k k' i v : vtframe k k' → vtimers k !! i = Some v →
  ∃ v', vtimers k' !! i = Some v' ∧ vt_core v' = vt_core v.
Proof.
  intros [_ Hv _] Hi. apply (f_equal (.!! i)) in Hv. rewrite !lookup_fmap, Hi in Hv.
  destruct (vtimers k' !! i) as [v'|]; [|done]. apply (inj Some) in Hv. eauto.
Qed.

(** The frame of a run that ends with code on the list store. *)
Lemma vtframe_lm k k1 m' :
  vtframe k k1 → lframe (lm k1) m' → vtframe k (k1 <| lm := m' |>).
Proof.
  intros H1 Hl. etrans; [exact H1|]. constructor; [by destruct k1|done|done].
Qed.

(** Splicing a link between two neighbours of the active queue. *)
Lemma act_splice_spec m Q x l1 a b l2 :
  qinv m Q → is_Some (lists m !! HActQ) → is_Some (links m !! x) → unlinked Q x →
  Q HActQ = l1 ++ a :: b :: l2 →
  ∃ m', act_splice x a b m = Ok m' () ∧ qstep m m' Q (<[HActQ := l1 ++ a :: x :: b :: l2]> Q).
Proof.
  intros [Hl Hp] [h Hh] [k Hx] Hu E. pose proof Hl as [_ _ Hnd _ _]. specialize (Hnd HActQ). rewrite E in Hnd.
  destruct (linv_in_links _ _ HActQ a Hl) as [ka Ha]; [rewrite E; set_solver|].
  destruct (linv_in_links _ _ HActQ b Hl) as [kb Hb]; [rewrite E; set_solver|].
  assert (a ≠ x) by (intros ->; apply (Hu HActQ); rewrite E; set_solver).
  assert (b ≠ x) by (intros ->; apply (Hu HActQ); rewrite E; set_solver).
  assert (a ≠ b).
  { apply NoDup_app in Hnd as (_ & _ & [Hab _]%NoDup_cons). set_solver. }
  destruct (li_list _ _ Hl _ _ Hh) as (Hin & Hmax & Hf & Hla). rewrite E in Hin, Hf, Hla.
  unfold act_splice. lrun. eexists. split; [done|]. apply lstep_q; [done..|].
  split; [|split; [lframe_tac|done]].
  replace (l1 ++ a :: x :: b :: l2) with ((l1 ++ [a]) ++ x :: b :: l2) by (by rewrite <- app_assoc).
  eapply (linv_insert _ _ _ _ _ (l1 ++ [a]) (b :: l2)); cbn; rewrite ?lst_or_app, <- ?app_assoc; cbn;
    [done|by eexists|done|done|by rewrite !insert_insert_eq| |..].
  - split_and!; cbn.
    + rewrite Hin, !length_app. cbn. lia.
    + apply MAX_ge_l.
    + rewrite Hf. by destruct l1.
    + rewrite Hla, !lst_or_app. done.
  - by rewrite !lookup_insert_ne, lookup_insert_eq by done.
  - done.
  - done.
  - intros y k' [= <-] Hk'. simplify_eq. rewrite lookup_insert_ne, lookup_insert_eq by done. by eexists.
  - intros y k' [= <-] Hk'. simplify_eq. rewrite lookup_insert_eq. by eexists.
  - intros y Hy1 Hy2 Hy3. rewrite !lookup_insert_ne; congruence.
Qed.

Lemma vt_inv_intro k k' Q Q' L L' :
  vt_inv k Q L → vtframe k k' → qinv (lm k') Q' → act_rep k' Q' L' → vt_inv k' Q' L'.
Proof.
  intros [Hq Ht Ha He Htab Hr] Hf Hq' Hr'. pose proof Hf as [_ Hv Hl]. constructor; try done.
  - by eapply this_ok_frame.
  - by apply (fr_lists _ _ Hl).
  - by apply (fr_plists _ _ Hl).
  - intros i Hi. apply Htab. apply (f_equal (.!! i)) in Hv. rewrite !lookup_fmap in Hv.
    destruct Hi as [v Hi]. rewrite Hi in Hv. destruct (vtimers k !! i); [by eexists|done].
Qed.

Lemma vt_ids_nodup k Q L : vt_inv k Q L → NoDup L.*1.
Proof.
  intros [[Hl _] _ _ _ _ Hr]. pose proof (li_nodup _ _ Hl HActQ) as Hnd. rewrite (ar_Q _ _ _ Hr) in Hnd.
  change ((λ a, LVt a.1) <$> L) with (LVt ∘ fst <$> L) in Hnd.
  rewrite (list_fmap_compose fst LVt) in Hnd. by eapply NoDup_fmap_1.
Qed.

Lemma vt_length k Q L : vt_inv k Q L → (length L ≤ 16)%nat.
Proof.
  intros Hi. rewrite <- (length_fmap fst). apply (NoDup_range_length 0 NR_VTIMERS); [by eapply vt_ids_nodup|].
  intros i (a & -> & Ha)%list_elem_of_fmap. apply (vi_tab _ _ _ Hi).
  eapply deltas_lookup; [apply Hi|done].
Qed.

(** The active queue's header: its first and last links. *)
Lemma act_header k Q L : vt_inv k Q L →
  ∃ l, lists (lm k) !! HActQ = Some l ∧ first l = (λ a, LVt a.1) <$> head L ∧
       ∀ L1 a, L = L1 ++ [a] → last l = Some (LVt a.1).
Proof.
  intros [[Hl _] _ [l Ha] _ _ Hr]. exists l. split; [done|].
  destruct (li_list _ _ Hl _ _ Ha) as (_ & _ & Hf & Hla). rewrite (ar_Q _ _ _ Hr) in Hf, Hla. split.
  - rewrite Hf. by destruct L.
  - intros L1 a ->. by rewrite Hla, fmap_app, lst_or_app.
Qed.

(** Every active timer's link points back to it. *)
Lemma act_link k Q L a : vt_inv k Q L → a ∈ L →
  ∃ lk, links (lm k) !! LVt a.1 = Some lk ∧ this lk = OVt a.1.
Proof.
  intros [[Hl _] Ht _ _ _ Hr] Ha.
  destruct (linv_in_links _ _ HActQ (LVt a.1) Hl) as [lk Hlk].
  { rewrite (ar_Q _ _ _ Hr). apply list_elem_of_fmap. eauto. }
  exists lk. split; [done|]. by apply (Ht _ _ Hlk).
Qed.

Lemma act_notin k Q L i : vt_inv k Q L → unlinked Q (LVt i) → i ∉ L.*1.
Proof.
  intros Hi Hu (a & -> & Ha)%list_elem_of_fmap. apply (Hu HActQ). rewrite (ar_Q _ _ _ (vi_rep _ _ _ Hi)).
  apply list_elem_of_fmap. eauto.
Qed.

(** Neighbours in the active queue. *)
Lemma seg_neighbours h p l1 x l2 n k :
  seg h p (l1 ++ x :: l2) n → h !! x = Some k → prev k = lst_or p l1 ∧ next k = hd_or l2 n.
Proof. intros [_ [(k' & Hk & ? & ?) _]]%seg_app ?. simplify_eq. done. Qed.

Lemma act_neighbours k Q L L1 a L2 lk :
  vt_inv k Q L → L = L1 ++ a :: L2 → links (lm k) !! LVt a.1 = Some lk →
  prev lk = lst_or None ((λ a, LVt a.1) <$> L1) ∧ next lk = (λ a, LVt a.1) <$> head L2.
Proof.
  intros [[Hl _] _ _ _ _ Hr] -> Hlk. pose proof (li_links _ _ Hl HActQ) as Hs.
  rewrite (ar_Q _ _ _ Hr), fmap_app in Hs. cbn in Hs.
  destruct (seg_neighbours _ _ _ _ _ _ _ Hs Hlk) as [-> ->]. split; [done|]. by destruct L2.
Qed.

(** The search loop finds the first timer that expires after [per]. *)
Lemma ins_scan_spec k Q L per fuel L1 a L2 :
  vt_inv k Q L → small per → L = L1 ++ a :: L2 → Forall (λ b, b.2 ≤ per) L1 →
  per < time_last L → (length L2 < fuel)%nat →
  ∃ L1' b L2', ins_scan fuel a.2 (LVt a.1) per k = Ok k (b.2, LVt b.1) ∧
    L = L1' ++ b :: L2' ∧ Forall (λ c, c.2 ≤ per) L1' ∧ per < b.2.
Proof.
  intros Hi Hper. revert L1 a fuel. induction L2 as [|c L2 IH]; intros L1 a fuel E HL1 Hlast Hfuel;
    (destruct fuel as [|fuel]; [lia|]); cbn [ins_scan];
    (destruct (act_link _ _ _ a Hi) as (lk & Hlk & Hth); [rewrite E; set_solver|]);
    destruct (act_neighbours _ _ _ _ _ _ _ Hi E Hlk) as [_ Hnx];
    pose proof (vi_rep _ _ _ Hi) as Hr;
    (assert (Ha : small a.2) by (eapply (proj1 (Forall_forall _ _) (ar_small _ _ _ Hr)); rewrite E; set_solver));
    krun; rewrite u32_small by done.
  - destruct (Z.leb_spec a.2 per) as [Hle|Hgt]; [|eauto 10].
    rewrite E, time_last_app in Hlast. lia.
  - destruct (Z.leb_spec a.2 per) as [Hle|Hgt]; [|eauto 10]. rewrite Hnx. cbn. krun. rewrite Hth. cbn.
    pose proof (ar_deltas _ _ _ Hr) as Hd. rewrite E in Hd. apply deltas_app in Hd as [_ Hd].
    destruct a as [i t], c as [j u]. destruct Hd as [(v & Hv & Hn & Hle') _]. krun.
    assert (Hu : small u) by (eapply (proj1 (Forall_forall _ _) (ar_small _ _ _ Hr) (j, u)); rewrite E; set_solver).
    rewrite Hn. cbn in *. replace (t + (u - t)) with u by lia. rewrite s32_small by done.
    apply (IH (L1 ++ [(i, t)]) (j, u)); [by rewrite E, <- app_assoc| |done|cbn in Hfuel; lia].
    apply Forall_app. split; [done|]. by constructor.
Qed.

Definition act_Q (Q : lhead → list laddr) (L : list (Z * Z)) : lhead → list laddr :=
  <[HActQ := (λ a, LVt a.1) <$> L]> Q.

(** The result of an operation that changes the active queue to [L']. *)
Definition vt_result (k k' : kstate) (Q : lhead → list laddr) (L' : list (Z * Z)) : Prop :=
  vt_inv k' (act_Q Q L') L' ∧ vtframe k k' ∧ qstep (lm k) (lm k') Q (act_Q Q L').

Lemma vt_result_intro k k1 m' Q L L' :
  vt_inv k Q L → vtframe k k1 → lm k1 = lm k → qstep (lm k) m' Q (act_Q Q L') →
  deltas (vtimers k1) L' → earliest k1 = time_first L' → maxper k1 = time_last L' - time_first L' →
  Forall (λ a, small a.2) L' → vt_result k (k1 <| lm := m' |>) Q L'.
Proof.
  intros Hi Hf El Hs Hd He Hm Hsm.
  assert (Hf' : vtframe k (k1 <| lm := m' |>)) by (apply vtframe_lm; [done|rewrite El; apply Hs]).
  split_and!; [|done|done]. eapply vt_inv_intro; [done|done|apply Hs|].
  by constructor.
Qed.

Lemma deltas_cons vts i v t L :
  vts !! i = Some v → match L with [] => True | a :: _ => vt_nextexp v = a.2 - t ∧ t ≤ a.2 end →
  deltas vts L → deltas vts ((i, t) :: L).
Proof. intros Hv HL Hd. destruct L as [|[j u] L]; cbn; split; try done; eauto. Qed.

Lemma deltas_notin vts i v L : i ∉ L.*1 → deltas vts L → deltas (<[i := v]> vts) L.
Proof.
  destruct (snoc_cases L) as [->|(L1 & a & ->)]; [done|]. intros Hi Hd.
  rewrite fmap_app in Hi. cbn in Hi.
  eapply deltas_frame; [|rewrite lookup_insert_ne by set_solver; eapply deltas_lookup; [done|set_solver]|done].
  intros j Hj. rewrite lookup_insert_ne by set_solver. done.
Qed.

(** Rewriting the [nextexp] of the last timer of a queue. *)
Lemma deltas_last_upd vts L1 i t v : deltas vts (L1 ++ [(i, t)]) → i ∉ L1.*1 →
  deltas (<[i := v]> vts) (L1 ++ [(i, t)]).
Proof.
  intros Hd Hi. eapply deltas_frame; [|cbn; rewrite lookup_insert_eq; by eexists|exact Hd].
  intros j Hj. rewrite lookup_insert_ne by set_solver. done.
Qed.

Lemma small_last L : Forall (λ a, small a.2) L → small (time_last L).
Proof.
  destruct (snoc_cases L) as [->|(L1 & a & ->)]; [done|].
  intros [_ Ha]%Forall_app. rewrite time_last_app. by inversion Ha.
Qed.

Ltac vtframe_tac :=
  constructor; cbn; [done| |reflexivity];
  repeat (erewrite vt_core_insert; [|ksolve|done]); try done.

Lemma MRT_vtimer_ins_first k Q L i v :
  vt_inv k Q L → vtimers k !! i = Some v → small (vt_period v) →
  is_Some (links (lm k) !! LVt i) → unlinked Q (LVt i) →
  (∀ a, head L = Some a → vt_period v < a.2) →
  ∃ k', MRT_vtimer_ins i k = Ok k' () ∧ vt_result k k' Q (vt_insert i (vt_period v) L).
Proof.
  intros Hi Hv Hp Hl Hu Hhd. pose proof (act_notin _ _ _ _ Hi Hu) as Hni.
  destruct (act_header _ _ _ Hi) as (l & Hal & Hf & _).
  pose proof Hi as [[Hlv Hpv] _ Ha _ _ Hr].
  destruct (MRT_list_ins_spec (lm k) Q HActQ (LVt i) Hlv Ha Hl Hu) as (m' & Hrun & Hst).
  assert (HQ : qstep (lm k) m' Q (act_Q Q ((i, vt_period v) :: L))).
  { unfold act_Q. cbn. rewrite <- (ar_Q _ _ _ Hr). by apply lstep_q. }
  assert (vt_insert i (vt_period v) L = (i, vt_period v) :: L) as ->.
  { apply (vt_insert_app _ _ []); [done|by apply Hhd]. }
  unfold MRT_vtimer_ins. krun. cbn. rewrite Hf. destruct L as [|[j t] L]; cbn in *.
  - krun. erewrite lists_ok by exact Hrun. eexists. split; [done|].
    eapply vt_result_intro; [exact Hi|vtframe_tac|done|exact HQ| | | |]; cbn.
    + rewrite lookup_insert_eq. split; [by eexists|done].
    + by rewrite s32_small.
    + lia.
    + apply Forall_singleton. done.
  - specialize (Hhd _ eq_refl). cbn in Hhd.
    assert (Ht0 : small t) by (pose proof (ar_small _ _ _ Hr) as Hs; by inversion Hs).
    pose proof (small_last _ (ar_small _ _ _ Hr)) as Hlast.
    pose proof (deltas_last _ _ (j, t) (ar_deltas _ _ _ Hr) ltac:(set_solver)) as Hle. cbn [snd] in Hle.
    rewrite (ar_first _ _ _ Hr), (ar_max _ _ _ Hr). cbn [time_first snd]. unfold small in *.
    rewrite (u32_small t), (u32_small (t - _)), (u32_small (_ + _)), s32_small by (unfold small; lia).
    destruct (Z.gtb_spec t (vt_period v)) as [_|]; [|lia].
    krun. erewrite lists_ok by exact Hrun. eexists. split; [done|].
    eapply vt_result_intro; [exact Hi|vtframe_tac|done|exact HQ| | | |]; cbn [vtimers earliest maxper].
    + eapply deltas_cons; [apply lookup_insert_eq|cbn; rewrite u32_small by (unfold small; lia); lia|].
      apply deltas_notin; [done|]. apply deltas_notin; [done|]. apply Hr.
    + done.
    + rewrite time_last_cons. cbn. lia.
    + constructor; [done|apply Hr].
Qed.
#[local] Arguments ins_scan : simpl never.

Lemma first_le_last vts L a : deltas vts L → L ≠ [] → a ∈ L → time_first L ≤ a.2.
Proof.
  intros Hd Hne Ha. destruct L as [|b L]; [done|]. apply elem_of_cons in Ha as [->|Ha]; [done|].
  apply list_elem_of_split in Ha as (l1 & l2 & ->). by apply (deltas_sorted _ _ Hd [] b l1 a l2).
Qed.

Lemma act_small k Q L a : act_rep k Q L → a ∈ L → small a.2.
Proof. intros Hr. apply (proj1 (Forall_forall _ _) (ar_small _ _ _ Hr)). Qed.

Lemma MRT_vtimer_ins_last k Q L L1 j tl i v :
  vt_inv k Q L → L = L1 ++ [(j, tl)] → vtimers k !! i = Some v → small (vt_period v) →
  is_Some (links (lm k) !! LVt i) → unlinked Q (LVt i) → tl ≤ vt_period v →
  ∃ k', MRT_vtimer_ins i k = Ok k' () ∧ vt_result k k' Q (vt_insert i (vt_period v) L).
Proof.
  intros Hi EL Hv Hp Hl Hu Htl. pose proof (act_notin _ _ _ _ Hi Hu) as Hni.
  destruct (act_header _ _ _ Hi) as (l & Hal & Hf & Hla). specialize (Hla L1 (j, tl) EL).
  pose proof Hi as [[Hlv Hpv] _ Ha _ _ Hr]. pose proof (ar_deltas _ _ _ Hr) as Hd.
  assert (HjL : (j, tl) ∈ L) by (rewrite EL; set_solver).
  pose proof (vt_ids_nodup _ _ _ Hi) as Hnd. rewrite EL, fmap_app in Hnd, Hni. cbn in Hnd, Hni.
  assert (Hj1 : j ∉ L1.*1) by (apply NoDup_app in Hnd; set_solver).
  assert (Hji : j ≠ i) by set_solver.
  pose proof (act_small _ _ _ _ Hr HjL) as Hs. cbn in Hs.
  assert (Hne : L ≠ []) by (rewrite EL; by destruct L1).
  pose proof (first_le_last _ _ _ Hd Hne HjL) as Hfl. cbn [snd] in Hfl.
  assert (Hfs : small (time_first L)).
  { destruct L as [|b L]; [done|]. apply (act_small _ _ _ b Hr). set_solver. }
  assert (Htl' : time_last L = tl) by (by rewrite EL, time_last_app).
  destruct (act_link _ _ _ _ Hi HjL) as (lk & Hlk & Hth). cbn [fst] in *.
  destruct (deltas_lookup _ _ _ Hd HjL) as [vj Hvj]. cbn in Hvj.
  destruct (MRT_list_app_spec (lm k) Q HActQ (LVt i) Hlv Ha Hl Hu) as (m' & Hrun & Hst).
  assert (HQ : qstep (lm k) m' Q (act_Q Q (L ++ [(i, vt_period v)]))).
  { unfold act_Q. rewrite fmap_app, <- (ar_Q _ _ _ Hr). by apply lstep_q. }
  assert (vt_insert i (vt_period v) L = L ++ [(i, vt_period v)]) as ->.
  { rewrite <- (app_nil_r L) at 1. apply vt_insert_app; [|done]. apply Forall_forall. intros a Ha'.
    pose proof (deltas_last _ _ _ Hd Ha') as Hal'. lia. }
  unfold MRT_vtimer_ins. krun. cbn. rewrite Hf, Hla.
  assert (∃ a, head L = Some a) as [a Ea] by (destruct L; [done|eauto]). rewrite Ea. cbn.
  rewrite (ar_first _ _ _ Hr), (ar_max _ _ _ Hr), Htl'. unfold small in *.
  replace (tl - time_first L + time_first L) with tl by lia.
  rewrite (u32_small tl), (u32_small (time_first L)), (u32_small (vt_period v - tl)),
    (u32_small (vt_period v - time_first L)) by (unfold small; lia).
  destruct (Z.gtb_spec (time_first L) (vt_period v)) as [Hc|_]; [lia|].
  destruct (Z.leb_spec tl (vt_period v)) as [_|Hc]; [|lia].
  krun. rewrite Hth. cbn [as_vt]. krun. erewrite lists_ok by exact Hrun. eexists. split; [done|].
  eapply vt_result_intro; [exact Hi|vtframe_tac|done|exact HQ| | | |]; cbn [vtimers earliest maxper].
  - rewrite EL, <- app_assoc. cbn [app]. apply deltas_app. split.
    + cbn. rewrite insert_insert_ne, insert_insert_eq by done. apply deltas_last_upd; [|done]. 
      apply deltas_notin; [|by rewrite <- EL]. rewrite fmap_app. set_solver.
    + eapply deltas_cons; [cbn; rewrite lookup_insert_ne, lookup_insert_eq by done; done|cbn; lia|].
      cbn. rewrite lookup_insert_eq. split; [by eexists|done].
  - cbn. destruct L; [done|]. apply Hr.
  - cbn. rewrite time_last_app. by destruct L.
  - apply Forall_app. split; [apply Hr|by apply Forall_singleton].
Qed.

(** The state of the queue after the middle branch. *)
Lemma deltas_middle vts L1 a ta b tb L2 i per va v' :
  deltas vts (L1 ++ (a, ta) :: (b, tb) :: L2) → NoDup (L1 ++ (a, ta) :: (b, tb) :: L2).*1 →
  i ∉ (L1 ++ (a, ta) :: (b, tb) :: L2).*1 → vt_nextexp va = per - ta → vt_nextexp v' = tb - per →
  ta ≤ per ≤ tb →
  deltas (<[a := va]> (<[i := v']> vts)) (L1 ++ (a, ta) :: (i, per) :: (b, tb) :: L2).
Proof.
  intros Hd Hnd Hni Hva Hv' Hle. rewrite fmap_app in Hnd, Hni. cbn in Hnd, Hni.
  assert (a ≠ i) by set_solver.
  apply NoDup_app in Hnd as (_ & Hn1 & [Hna _]%NoDup_cons).
  apply deltas_app in Hd as [Hd1 [_ Hd2]]. apply deltas_app. split.
  - apply deltas_last_upd; [|set_solver]. apply deltas_notin; [rewrite fmap_app; set_solver|done].
  - eapply deltas_cons; [apply lookup_insert_eq|cbn; lia|].
    eapply deltas_cons; [rewrite lookup_insert_ne by done; apply lookup_insert_eq|cbn; lia|].
    apply deltas_notin; [set_solver|]. apply deltas_notin; [set_solver|done].
Qed.

Lemma MRT_vtimer_ins_middle k Q L i v :
  vt_inv k Q L → vtimers k !! i = Some v → small (vt_period v) →
  is_Some (links (lm k) !! LVt i) → unlinked Q (LVt i) → L ≠ [] →
  time_first L ≤ vt_period v < time_last L →
  ∃ k', MRT_vtimer_ins i k = Ok k' () ∧ vt_result k k' Q (vt_insert i (vt_period v) L).
Proof.
  intros Hi Hv Hp Hl Hu Hne Hrange. pose proof (act_notin _ _ _ _ Hi Hu) as Hni.
  destruct (act_header _ _ _ Hi) as (l & Hal & Hf & _).
  pose proof Hi as [Hq _ Ha _ _ Hr]. pose proof (ar_deltas _ _ _ Hr) as Hd.
  pose proof (vt_ids_nodup _ _ _ Hi) as Hnd. pose proof (vt_length _ _ _ Hi) as Hlen.
  pose proof (small_last _ (ar_small _ _ _ Hr)) as Hls.
  destruct (snoc_cases L) as [->|(L' & c & EL')]; [done|].
  assert (∃ f L0, L = f :: L0) as (f & L0 & EL) by (destruct L; eauto; done).
  assert (Hfs : small f.2) by (apply (act_small _ _ _ f Hr); rewrite EL; set_solver).
  unfold MRT_vtimer_ins. krun. cbn. assert (Eh : head L = Some f) by (by rewrite EL). rewrite Hf, Eh. cbn.
  assert (Hf2 : time_first L = f.2) by (by rewrite EL). rewrite Hf2 in Hrange.
  rewrite (ar_first _ _ _ Hr), (ar_max _ _ _ Hr), Hf2. unfold small in *.
  replace (time_last L - f.2 + f.2) with (time_last L) by lia.
  rewrite (u32_small f.2), (u32_small (time_last L)) by (unfold small; lia).
  destruct (Z.gtb_spec f.2 (vt_period v)) as [Hc|_]; [lia|].
  destruct (Z.leb_spec (time_last L) (vt_period v)) as [Hc|_]; [lia|].
  set (k1 := upd vtimers _ k).
  assert (Hi1 : vt_inv k1 Q L).
  { eapply vt_inv_intro; [exact Hi| |done|].
    - unfold k1. vtframe_tac.
    - constructor; try apply Hr. cbn. by apply deltas_notin. }
  destruct (ins_scan_spec k1 Q L (vt_period v) vt_fuel [] f L0 Hi1 Hp EL) as (L1 & [b tb] & L2 & Hscan & E & HL1 & Hb).
  { constructor. } { lia. } { rewrite EL in Hlen. cbn in Hlen. unfold vt_fuel. lia. }
  rewrite (bind_ok _ _ _ _ _ Hscan). cbn [fst snd] in *.
  destruct (snoc_cases L1) as [->|(L1' & [a ta] & ->)].
  { rewrite EL in E. injection E as -> _. cbn in *. lia. }
  rewrite <- app_assoc in E. cbn [app] in E.
  apply Forall_app in HL1 as [HL1 [Hta _]%Forall_cons]. cbn in Hta.
  assert (Hta0 : small ta) by (apply (act_small _ _ _ (a, ta) Hr); rewrite E; set_solver).
  assert (Htb : small tb) by (apply (act_small _ _ _ (b, tb) Hr); rewrite E; set_solver). unfold small in *.
  destruct (act_link _ _ _ (b, tb) Hi) as (lkb & Hlkb & _); [rewrite E; set_solver|].
  destruct (act_link _ _ _ (a, ta) Hi) as (lka & Hlka & Hth); [rewrite E; set_solver|].
  destruct (act_neighbours _ _ _ (L1' ++ [(a, ta)]) (b, tb) L2 lkb Hi) as [Hpv _]; [by rewrite E, <- app_assoc|done|].
  rewrite fmap_app, lst_or_app in Hpv. cbn in Hpv, Hlkb, Hlka, Hth.
  pose proof Hd as Hd'. rewrite E in Hd'. apply deltas_app in Hd' as [_ [(va & Hva & Hna & _) _]].
  assert (Hai : a ≠ i) by (rewrite E, fmap_app in Hni; set_solver).
  destruct (act_splice_spec (lm k) Q (LVt i) ((λ a, LVt a.1) <$> L1') (LVt a) (LVt b) ((λ a, LVt a.1) <$> L2))
    as (m' & Hrun & HQ); [done..| |].
  { rewrite (ar_Q _ _ _ Hr), E, fmap_app. done. }
  assert (vt_insert i (vt_period v) L = L1' ++ (a, ta) :: (i, vt_period v) :: (b, tb) :: L2) as ->.
  { rewrite E. change ((a, ta) :: (b, tb) :: L2) with ([(a, ta)] ++ (b, tb) :: L2). rewrite app_assoc.
    rewrite vt_insert_app; [by rewrite <- app_assoc| |by intros ? [= <-]].
    apply Forall_app. split; [exact HL1|]. constructor; [exact Hta|constructor]. }
  krun. rewrite Hth. cbn [as_vt]. krun. erewrite lists_ok by exact Hrun. eexists. split; [done|].
  eapply vt_result_intro; [exact Hi|vtframe_tac|done| | | | |].
  - unfold act_Q. rewrite fmap_app. exact HQ.
  - cbn [vtimers upd]. unfold upd; cbn. rewrite insert_insert_eq.
    apply deltas_middle; rewrite <- ?E; try done; cbn; rewrite ?Hna; [|by rewrite u32_small by (unfold small; lia)|lia].
    rewrite (u32_small (tb - _)), u32_small by (unfold small; lia). lia.
  - cbn. rewrite (ar_first _ _ _ Hr), E. by destruct L1'.
  - cbn. rewrite (ar_max _ _ _ Hr), E, !time_last_app2. by destruct L1'.
  - pose proof (ar_small _ _ _ Hr) as Hsm. rewrite E in Hsm. apply Forall_app in Hsm as [Hs1 Hs2].
    apply Forall_app. split; [done|]. inversion Hs2; subst. constructor; [done|]. by constructor.
Qed.

Lemma MRT_vtimer_ins_spec k Q L i v :
  vt_inv k Q L → vtimers k !! i = Some v → small (vt_period v) →
  is_Some (links (lm k) !! LVt i) → unlinked Q (LVt i) →
  ∃ k', MRT_vtimer_ins i k = Ok k' () ∧ vt_result k k' Q (vt_insert i (vt_period v) L).
Proof.
  intros Hi Hv Hp Hl Hu. destruct (snoc_cases L) as [->|(L1 & [j tl] & EL)].
  { by apply MRT_vtimer_ins_first. }
  destruct (Z.lt_ge_cases (vt_period v) (time_first L)) as [Hlt|Hge].
  { apply MRT_vtimer_ins_first; try done. intros a Ha. by destruct L; [|injection Ha as ->]. }
  destruct (Z.lt_ge_cases (vt_period v) tl) as [Hlt|Hge'].
  - apply MRT_vtimer_ins_middle; try done; rewrite EL; [by destruct L1|]. rewrite time_last_app.
    rewrite EL in Hge. cbn. lia.
  - by eapply MRT_vtimer_ins_last.
Qed.

(** ** Removal *)

Lemma act_Q_remove Q (L1 : list (Z * Z)) a L2 : Q HActQ = (λ a, LVt a.1) <$> L1 ++ a :: L2 →
  Q HActQ = ((λ a, LVt a.1) <$> L1) ++ LVt a.1 :: ((λ a, LVt a.1) <$> L2).
Proof. intros ->. by rewrite fmap_app. Qed.

Lemma unlinked_removed k Q L1 i t L2 :
  vt_inv k Q (L1 ++ (i, t) :: L2) → unlinked (act_Q Q (L1 ++ L2)) (LVt i).
Proof.
  intros Hi L. pose proof (vt_ids_nodup _ _ _ Hi) as Hnd. destruct Hi as [[Hl _] _ _ _ _ Hr]. unfold act_Q.
  destruct (decide (L = HActQ)) as [->|Hne].
  - rewrite fn_lookup_insert. intros ([j u] & [= ->] & Hj)%list_elem_of_fmap.
    rewrite fmap_app in Hnd. cbn in Hnd. rewrite <- Permutation_middle in Hnd.
    apply NoDup_cons in Hnd as [Hni _]. apply Hni. rewrite <- fmap_app. apply list_elem_of_fmap. by exists (j, u).
  - rewrite fn_lookup_insert_ne by congruence. intros Hx. apply Hne, (li_disj _ _ Hl _ _ _ Hx).
    rewrite (ar_Q _ _ _ Hr). apply list_elem_of_fmap. exists (i, t). split; [done|set_solver].
Qed.

Lemma vt_rmv_finish k k1 Q L1 i t L2 :
  let L' := L1 ++ L2 in
  vt_inv k Q (L1 ++ (i, t) :: L2) → vtframe k k1 → lm k1 = lm k → deltas (vtimers k1) L' →
  earliest k1 = time_first L' → maxper k1 = time_last L' - time_first L' →
  ∃ k', (lists_ (MRT_list_rmv HActQ (LVt i));;
         st_vt i (λ v, v <| vt_flags := VT_ALLOC |>);;
         lists_ (MRT_link_rst (LVt i) (OVt i) MRT_OBJVT)) k1 = Ok k' () ∧
    vt_result k k' Q L' ∧ unlinked (act_Q Q L') (LVt i) ∧
    ∃ v', vtimers k' !! i = Some v' ∧ vt_flags v' = VT_ALLOC.
Proof.
  intros L' Hi Hf El Hd He Hm. pose proof (unlinked_removed _ _ _ _ _ _ Hi) as Hu.
  pose proof (vt_ids_nodup _ _ _ Hi) as Hnd. pose proof Hi as [Hq Ht Ha _ _ Hr].
  destruct (act_link _ _ _ (i, t) Hi) as (lk & Hlk & Hth); [set_solver|].
  destruct (deltas_lookup _ _ (i, t) (ar_deltas _ _ _ Hr)) as [v Hv]; [set_solver|]. cbn in Hlk, Hth, Hv.
  destruct (list_rmv_q (lm k) Q HActQ ((λ a, LVt a.1) <$> L1) (LVt i) ((λ a, LVt a.1) <$> L2))
    as (m1 & Hrun1 & Hs1 & _); [done..| |].
  { by apply (act_Q_remove Q L1 (i, t)), Hr. }
  rewrite <- fmap_app in Hs1. change (qstep (lm k) m1 Q (act_Q Q L')) in Hs1.
  destruct Hs1 as [Hq1 Hf1].
  assert (∃ lk', links m1 !! LVt i = Some lk' ∧ this lk' = OVt i) as (lk' & Hlk' & Hth').
  { pose proof (fr_payload _ _ Hf1 (LVt i)) as Hp. rewrite Hlk in Hp.
    destruct (links m1 !! LVt i) as [lk'|]; [|done]. exists lk'. split; [done|]. injection Hp as Hp. unfold payload in Hp. by rewrite Hp. }
  destruct (link_rst_q m1 (act_Q Q L') (LVt i) lk' (OVt i) MRT_OBJVT) as (m2 & Hrun2 & Hq2 & Hf2); [done..|].
  destruct (vtframe_lookup _ _ _ _ Hf Hv) as (v1 & Hv1 & _).
  erewrite bind_ok; [|apply lists_ok; by rewrite El]. krun.
  erewrite lists_ok by exact Hrun2. eexists. split; [done|].
  assert (Hni : i ∉ L'.*1).
  { unfold L'. rewrite fmap_app in Hnd |- *. cbn in Hnd. rewrite <- Permutation_middle in Hnd.
    by apply NoDup_cons in Hnd as [? _]. }
  split_and!; [|done|cbn; rewrite lookup_insert_eq; by eexists].
  replace (upd lm _ _) with ((k1 <| vtimers ::= <[i := v1 <| vt_flags := VT_ALLOC |>]> |>) <| lm := m2 |>) by (by destruct k1).
  eapply vt_result_intro; [exact Hi| |by cbn|split; [done|by etrans]|by apply deltas_notin|done|done|].
  - etrans; [exact Hf|]. vtframe_tac.
  - pose proof (ar_small _ _ _ Hr) as Hsm. apply Forall_app in Hsm as [? Hs2]. inversion Hs2. by apply Forall_app.
Qed.

(** Taking one timer out of the middle of a delta queue. *)
Lemma deltas_bypass vts L1 a ta i t b tb L2 va :
  deltas vts (L1 ++ (a, ta) :: (i, t) :: (b, tb) :: L2) →
  NoDup (L1 ++ (a, ta) :: (i, t) :: (b, tb) :: L2).*1 → vt_nextexp va = tb - ta →
  deltas (<[a := va]> vts) (L1 ++ (a, ta) :: (b, tb) :: L2).
Proof.
  intros Hd Hnd Hva. rewrite fmap_app in Hnd. cbn in Hnd.
  apply NoDup_app in Hnd as (_ & Hn1 & [Hna _]%NoDup_cons).
  apply deltas_app in Hd as [Hd1 [(v1 & _ & _ & H1) [(v2 & _ & _ & H2) Hd2]]].
  apply deltas_app. split; [apply deltas_last_upd; [done|set_solver]|].
  eapply deltas_cons; [apply lookup_insert_eq|cbn; lia|]. apply deltas_notin; [set_solver|done].
Qed.

Definition removed (k k' : kstate) (Q : lhead → list laddr) (L' : list (Z * Z)) (i : Z) : Prop :=
  vt_result k k' Q L' ∧ unlinked (act_Q Q L') (LVt i) ∧
  ∃ v', vtimers k' !! i = Some v' ∧ vt_flags v' = VT_ALLOC.

Lemma vtimer_rmv_first k Q i t L2 :
  vt_inv k Q ((i, t) :: L2) →
  ∃ k', MRT_vtimer_rmv i k = Ok k' () ∧ removed k k' Q L2 i.
Proof.
  intros Hi. destruct (act_header _ _ _ Hi) as (l & Hal & Hf & Hla). cbn in Hf.
  pose proof Hi as [_ _ _ _ _ Hr]. pose proof (vt_ids_nodup _ _ _ Hi) as Hnd.
  unfold MRT_vtimer_rmv. krun. rewrite Hf, bool_decide_true by done.
  destruct (ar_deltas _ _ _ Hr) as [Hd1 Hd]. pose proof (ar_small _ _ _ Hr) as Hsm.
  destruct L2 as [|[j u] L2].
  - rewrite (Hla [] (i, t)), bool_decide_true by done. cbn [andb]. krun.
    apply (vt_rmv_finish k _ Q [] i t []); done.
  - destruct (snoc_cases ((j, u) :: L2)) as [?|(L3 & [c tc] & E)]; [done|].
    assert (Hci : c ≠ i).
    { rewrite E, fmap_cons, fmap_app in Hnd. apply NoDup_cons in Hnd as [Hni _]. set_solver. }
    rewrite (Hla ((i, t) :: L3) (c, tc)), bool_decide_false by (rewrite ?E; cbn; first [done|congruence]). cbn [andb].
    destruct Hd1 as (v & Hv & Hn & Hle). krun.
    apply (vt_rmv_finish k _ Q [] i t ((j, u) :: L2)); try done; cbn [app];
      pose proof (small_last _ Hsm) as Hls; rewrite time_last_cons in Hls;
      pose proof (deltas_last (vtimers k) ((j, u) :: L2) (j, u) Hd ltac:(set_solver)) as Hju; cbn [snd] in Hju;
      inversion Hsm as [|? ? Ht Hsm']; subst; inversion Hsm' as [|? ? Hu _]; subst; cbn [snd] in *; unfold small in *.
    + cbn. rewrite (ar_first _ _ _ Hr), Hn. cbn. rewrite s32_small; unfold small; lia.
    + cbn -[time_last]. rewrite (ar_max _ _ _ Hr), Hn, time_last_cons. cbn -[time_last].
      rewrite u32_small; unfold small; lia.
Qed.

Lemma vtimer_rmv_later k Q L1 a ta i t L2 :
  vt_inv k Q (L1 ++ (a, ta) :: (i, t) :: L2) →
  ∃ k', MRT_vtimer_rmv i k = Ok k' () ∧ removed k k' Q (L1 ++ (a, ta) :: L2) i.
Proof.
  intros Hi. destruct (act_header _ _ _ Hi) as (l & Hal & Hf & Hla).
  pose proof Hi as [_ _ _ _ _ Hr]. pose proof (vt_ids_nodup _ _ _ Hi) as Hnd.
  pose proof (ar_deltas _ _ _ Hr) as Hd. pose proof (ar_small _ _ _ Hr) as Hsm.
  pose proof (small_last _ Hsm) as Hls. rewrite time_last_app2, time_last_cons in Hls.
  assert (Hfst : ∀ L3, time_first (L1 ++ (a, ta) :: L3) = time_first (L1 ++ [(a, ta)])) by (by destruct L1).
  assert (Hfa : time_first (L1 ++ [(a, ta)]) ≤ ta).
  { rewrite <- (Hfst ((i, t) :: L2)). apply (first_le_last _ _ (a, ta) Hd); [by destruct L1|set_solver]. }
  assert (Hf0 : small (time_first (L1 ++ [(a, ta)]))).
  { apply Forall_app in Hsm as [H1 H2]. destruct L1; [by inversion H2|by inversion H1]. }
  assert (Hne : first l ≠ Some (LVt i)).
  { rewrite Hf. rewrite fmap_app in Hnd. destruct L1 as [|b L1]; cbn in Hnd |- *;
      apply NoDup_cons in Hnd as [Hni _]; intros [= E]; rewrite E in Hni; set_solver. }
  destruct (act_link _ _ _ (i, t) Hi) as (lki & Hlki & _); [set_solver|].
  destruct (act_link _ _ _ (a, ta) Hi) as (lka & Hlka & Hth); [set_solver|].
  replace (L1 ++ (a, ta) :: (i, t) :: L2) with ((L1 ++ [(a, ta)]) ++ (i, t) :: L2) in Hi by (by rewrite <- app_assoc).
  destruct (act_neighbours _ _ _ (L1 ++ [(a, ta)]) (i, t) L2 lki Hi) as [Hpv _]; [done..|].
  rewrite fmap_app, lst_or_app in Hpv. cbn in Hpv, Hlki, Hlka, Hth.
  apply deltas_app in Hd as Hd'. destruct Hd' as [_ [(va & Hva & Hna & Hle) Hd2]].
  unfold MRT_vtimer_rmv. krun. rewrite (bool_decide_false (first l = _)) by done. cbn [andb].
  replace (L1 ++ (a, ta) :: L2) with ((L1 ++ [(a, ta)]) ++ L2) by (by rewrite <- app_assoc).
  assert (Hmax := ar_max _ _ _ Hr). rewrite time_last_app2, time_last_cons, Hfst in Hmax.
  destruct L2 as [|[b tb] L2].
  - rewrite (Hla (L1 ++ [(a, ta)]) (i, t)), bool_decide_true by (by rewrite <- ?app_assoc).
    krun. rewrite Hth. cbn [as_vt]. krun.
    apply (vt_rmv_finish k _ Q (L1 ++ [(a, ta)]) i t []); rewrite ?app_nil_r; try done.
    + apply deltas_app in Hd as [? _]. done.
    + cbn. by rewrite (ar_first _ _ _ Hr), Hfst.
    + cbn. rewrite Hmax, Hna, time_last_app. cbn in *. unfold small in *. rewrite u32_small; unfold small; lia.
  - destruct (snoc_cases ((b, tb) :: L2)) as [?|(L3 & [c tc] & E)]; [done|].
    assert (Hci : c ≠ i).
    { rewrite E, fmap_app, !fmap_cons, fmap_app in Hnd.
      apply NoDup_app in Hnd as (_ & _ & [_ [Hni _]%NoDup_cons]%NoDup_cons). set_solver. }
    rewrite (Hla (L1 ++ (a, ta) :: (i, t) :: L3) (c, tc)), bool_decide_false
      by (rewrite ?E, <- ?app_assoc; cbn; first [done|congruence]).
    destruct Hd2 as [(v & Hv & Hn & Hle2) Hd3].
    assert (Hai : a ≠ i).
    { rewrite fmap_app in Hnd. apply NoDup_app in Hnd as (_ & _ & [Hni _]%NoDup_cons). set_solver. }
    assert (small ta ∧ small tb) as [Hta Htb].
    { split; [apply (act_small _ _ _ (a, ta) Hr)|apply (act_small _ _ _ (b, tb) Hr)]; set_solver. }
    krun. rewrite Hth. cbn [as_vt]. krun.
    apply (vt_rmv_finish k _ Q (L1 ++ [(a, ta)]) i t ((b, tb) :: L2)); try done; rewrite <- ?app_assoc; cbn [app].
    + vtframe_tac.
    + eapply deltas_bypass; [done..|]. cbn. rewrite Hna, Hn. unfold small in *. rewrite u32_small; unfold small; lia.
    + cbn. by rewrite (ar_first _ _ _ Hr), (Hfst (_ :: _)), (Hfst (_ :: L2)).
    + cbn -[time_last]. by rewrite Hmax, time_last_app2, ?(time_last_cons (a, ta)), ?(time_last_cons (i, t)), (Hfst ((b, tb) :: L2)).
Qed.

Lemma MRT_vtimer_rmv_spec k Q L1 i t L2 :
  vt_inv k Q (L1 ++ (i, t) :: L2) →
  ∃ k', MRT_vtimer_rmv i k = Ok k' () ∧ removed k k' Q (L1 ++ L2) i.
Proof.
  destruct (snoc_cases L1) as [->|(L1' & [a ta] & ->)]; [apply vtimer_rmv_first|].
  rewrite <- !app_assoc. apply vtimer_rmv_later.
Qed.

(** ** Expiration *)

Definition prio_of (vts : gmap Z MRT_vtimer_t) (i : Z) : Z := from_option vt_priority 0 (vts !! i).

(** The timers of [E] that go to priority list [p], in order. *)
Definition expired_at (vts : gmap Z MRT_vtimer_t) (p : Z) (E : list (Z * Z)) : list laddr :=
  (λ a, LVt a.1) <$> filter (λ a, prio_of vts a.1 = p) E.

Lemma vtframe_prio k k' i : vtframe k k' → prio_of (vtimers k') i = prio_of (vtimers k) i.
Proof.
  intros [_ Hv _]. apply (f_equal (.!! i)) in Hv. rewrite !lookup_fmap in Hv. unfold prio_of.
  destruct (vtimers k' !! i), (vtimers k !! i); try done. cbn.
  apply (inj Some) in Hv. by apply (f_equal vt_priority) in Hv.
Qed.

Lemma expired_at_frame k k' p E : vtframe k k' → expired_at (vtimers k') p E = expired_at (vtimers k) p E.
Proof.
  intros Hf. unfold expired_at. f_equal. apply list_filter_iff. intros a. by rewrite (vtframe_prio _ _ _ Hf).
Qed.

Lemma vt_inv_other k m' Q Q' L :
  vt_inv k Q L → qstep (lm k) m' Q Q' → Q' HActQ = Q HActQ → vt_inv (k <| lm := m' |>) Q' L.
Proof.
  intros Hi Hs E. eapply vt_inv_intro; [exact Hi| |apply Hs|].
  - apply vtframe_lm; [reflexivity|apply Hs].
  - destruct (vi_rep _ _ _ Hi). constructor; cbn; try done. congruence.
Qed.

(** The queues after the timers [E] in front of [L'] have expired. *)
Record expired (k k' : kstate) (Q Q' : lhead → list laddr) (E L' : list (Z * Z)) : Prop := {
  ex_inv : vt_inv k' Q' L';
  ex_frame : vtframe k k';
  ex_exp : ∀ p, Q' (HP PExp p) = Q (HP PExp p) ++ expired_at (vtimers k) p E;
  ex_other : ∀ H, H ≠ HActQ → (∀ p, H ≠ HP PExp p) → Q' H = Q H;
}.

Lemma clock_step k Q i t L' :
  vt_inv k Q ((i, t) :: L') → 0 ≤ prio_of (vtimers k) i < 16 →
  ∃ k1 v m1 Q1, MRT_vtimer_rmv i k = Ok k1 () ∧ vtimers k1 !! i = Some v ∧
    MRT_plist_app PExp (LVt i) (vt_priority v) (lm k1) = Ok m1 () ∧
    expired k (k1 <| lm := m1 |>) Q Q1 [(i, t)] L'.
Proof.
  intros Hi Hp. destruct (vtimer_rmv_first k Q i t L' Hi) as (k1 & Hrun & (Hi1 & Hf1 & Hs1) & Hu & v & Hv & _).
  pose proof (vtframe_prio _ _ i Hf1) as Hpr. assert (Hpv : prio_of (vtimers k1) i = vt_priority v) by (unfold prio_of; by rewrite Hv).
  destruct (act_link _ _ _ (i, t) Hi) as (lk & Hlk & _); [set_solver|]. cbn in Hlk.
  assert (is_Some (links (lm k1) !! LVt i)) as Hl1.
  { pose proof (fr_payload _ _ (vf_lm _ _ Hf1) (LVt i)) as E. rewrite Hlk in E. destruct (links (lm k1) !! LVt i); [by eexists|done]. }
  destruct (MRT_plist_app_spec (lm k1) (act_Q Q L') PExp (LVt i) (vt_priority v)) as (m1 & Hrun1 & Hs2);
    [apply Hi1|apply Hi1|lia|done|done|].
  exists k1, v, m1, (<[HP PExp (vt_priority v) := act_Q Q L' (HP PExp (vt_priority v)) ++ [LVt i]]> (act_Q Q L')).
  split_and!; [done..|]. constructor.
  - eapply vt_inv_other; [done..|]. by rewrite fn_lookup_insert_ne.
  - eapply vtframe_lm; [done|apply Hs2].
  - intros p. unfold expired_at, act_Q. destruct (decide (p = vt_priority v)) as [->|Hne].
    + rewrite fn_lookup_insert, fn_lookup_insert_ne by done. rewrite filter_cons_True by (cbn; congruence). done.
    + rewrite !fn_lookup_insert_ne by congruence. rewrite filter_cons_False by (cbn; congruence). by rewrite app_nil_r.
  - intros H H1 H2. unfold act_Q. by rewrite !fn_lookup_insert_ne by done.
Qed.

Lemma clock_loop_spec k Q E L' minexp fuel :
  vt_inv k Q (E ++ L') → Forall (λ a, a.2 = 0) E → (∀ a, head L' = Some a → a.2 ≠ 0) →
  (∀ a, a ∈ E → 0 ≤ prio_of (vtimers k) a.1 < 16) → (length E < fuel)%nat →
  ∃ k' Q' me, clock_loop fuel minexp k = Ok k' (me, (λ a, LVt a.1) <$> head L') ∧ expired k k' Q Q' E L'.
Proof.
  revert k Q minexp fuel. induction E as [|[i t] E IH]; intros k Q minexp fuel Hi HE HL Hp Hfuel;
    (destruct fuel as [|fuel]; [cbn in Hfuel; lia|]); cbn [clock_loop];
    destruct (act_header _ _ _ Hi) as (l & Hal & Hf & _); pose proof (vi_rep _ _ _ Hi) as Hr; krun; rewrite Hf; cbn [app] in *.
  - exists k, Q. assert (expired k k Q Q [] L').
    { constructor; [done|reflexivity|intros; by rewrite app_nil_r|done]. }
    destruct L' as [|[j u] L']; cbn; [by eexists|]. krun. rewrite (ar_first _ _ _ Hr). cbn.
    specialize (HL _ eq_refl). cbn in HL. destruct (Z.eqb_spec u 0); [done|]. by eexists.
  - cbn. krun. inversion HE as [|? ? Ht HE']; subst. cbn in Ht. subst t.
    rewrite (ar_first _ _ _ Hr). cbn.
    destruct (act_link _ _ _ (i, 0) Hi) as (lk & Hlk & Hth); [set_solver|]. cbn in Hlk, Hth.
    destruct (deltas_lookup _ _ (i, 0) (ar_deltas _ _ _ Hr)) as [v Hv]; [set_solver|]. cbn in Hv.
    destruct (clock_step k Q i 0 (E ++ L') Hi) as (k1 & v1 & m1 & Q1 & Hrun & Hv1 & Hrun1 & Hex); [apply (Hp (i, 0)); set_solver|].
    krun. rewrite Hth. cbn [as_vt]. unfold sv_test. krun.
    rewrite (bind_ok _ _ _ _ _ Hrun). krun. erewrite bind_ok; [|apply lists_ok; exact Hrun1].
    destruct Hex as [Hi1 Hf1 He1 Ho1].
    edestruct (IH (k1 <| lm := m1 |>) Q1) as (k' & Q' & me & Hrun' & [Hi' Hf' He' Ho']); [done|done|done| | |].
    { intros a Ha. rewrite (vtframe_prio _ _ _ Hf1). apply Hp. set_solver. }
    { cbn in Hfuel. instantiate (1 := fuel). lia. }
    exists k', Q', me. split; [exact Hrun'|]. constructor; [done|by etrans| |].
    + intros p. rewrite He', He1, (expired_at_frame _ _ _ _ Hf1), <- app_assoc. f_equal.
      unfold expired_at. by rewrite <- fmap_app, <- filter_app.
    + intros H H1 H2. rewrite Ho', Ho1; done.
Qed.
#[local] Arguments clock_loop : simpl never.

(** ** A tick *)

Definition decr (L : list (Z * Z)) : list (Z * Z) := (λ a, (a.1, a.2 - 1)) <$> L.
Definition due (L : list (Z * Z)) : list (Z * Z) := filter (λ a, a.2 = 0) (decr L).
Definition rest (L : list (Z * Z)) : list (Z * Z) := filter (λ a, a.2 ≠ 0) (decr L).

Lemma deltas_tail vts a L : deltas vts (a :: L) → deltas vts L.
Proof. destruct a. by intros [_ ?]. Qed.

Lemma deltas_decr vts L : deltas vts L → deltas vts (decr L).
Proof.
  induction L as [|[i t] L IH]; [done|]. intros [H1 H2]. specialize (IH H2). cbn.
  destruct L as [|[j u] L]; [done|]. cbn in *. split; [|done].
  destruct H1 as (v & Hv & Hn & Hle). exists v. split_and!; [done|lia..].
Qed.

Lemma time_last_decr L : L ≠ [] → time_last (decr L) = time_last L - 1.
Proof.
  destruct (snoc_cases L) as [->|(L' & a & ->)]; [done|]. intros _.
  unfold decr. rewrite fmap_app. cbn [fmap list_fmap]. by rewrite (time_last_app _ (a.1, a.2 - 1)), time_last_app.
Qed.

(** In a sorted list the timers with no time left are in front. *)
Lemma zero_split vts L : deltas vts L → Forall (λ a, 0 ≤ a.2) L →
  L = filter (λ a, a.2 = 0) L ++ filter (λ a, a.2 ≠ 0) L.
Proof.
  intros Hd HL. induction HL as [|a L Ha HL IH]; [done|].
  destruct (decide (a.2 = 0)) as [Hz|Hnz].
  - rewrite filter_cons_True, filter_cons_False by (cbn; tauto). cbn. f_equal. apply IH. by eapply deltas_tail.
  - rewrite filter_cons_False, filter_cons_True by done.
    assert (Hall : ∀ b, b ∈ L → b.2 ≠ 0).
    { intros b (l1 & l2 & ->)%list_elem_of_split. pose proof (deltas_sorted _ _ Hd [] a l1 b l2 eq_refl). lia. }
    clear IH Hd. assert (filter (λ b, b.2 = 0) L = [] ∧ filter (λ b, b.2 ≠ 0) L = L) as [-> ->]; [|done].
    clear HL. induction L as [|b L IH]; [done|].
    rewrite filter_cons_False by (apply Hall; set_solver). rewrite filter_cons_True by (apply Hall; set_solver).
    destruct IH as [-> ->]; [|done]. intros c Hc. apply Hall. set_solver.
Qed.

(** Timers that have time left, with priorities in range, in periodic mode. *)
Record vt_good (k : kstate) (Q : lhead → list laddr) (L : list (Z * Z)) : Prop := {
  vg_inv : vt_inv k Q L;
  vg_pos : Forall (λ a, 1 ≤ a.2) L;
  vg_prio : ∀ i v, vtimers k !! i = Some v → 0 ≤ vt_priority v < 16;
  vg_mode : TEST_BIT (sv_flags (sv k)) MRT_ONESHOT = false;
}.

Lemma vtframe_good_prio k k' :
  vtframe k k' → (∀ i v, vtimers k !! i = Some v → 0 ≤ vt_priority v < 16) →
  ∀ i v, vtimers k' !! i = Some v → 0 ≤ vt_priority v < 16.
Proof.
  intros Hf Hp i v Hv. pose proof (vtframe_prio _ _ i Hf) as E. unfold prio_of in E. rewrite Hv in E. cbn in E.
  destruct (vtimers k !! i) as [v0|] eqn:E0; cbn in E.
  - rewrite E. by eapply Hp.
  - destruct Hf as [_ Hc _]. apply (f_equal (.!! i)) in Hc. rewrite !lookup_fmap, Hv, E0 in Hc. done.
Qed.

Definition ticked (k : kstate) : kstate := k <| sv ::= λ v, v <| c_ticks ::= λ t, u32 (t + 1) |> |>.

(** What a tick does to the queues: timers due move to the expired lists. *)
Record tick_result (k k' : kstate) (Q Q' : lhead → list laddr) (L : list (Z * Z)) : Prop := {
  tr_good : vt_good k' Q' (rest L);
  tr_frame : vtframe (ticked k) k';
  tr_exp : ∀ p, Q' (HP PExp p) = Q (HP PExp p) ++ expired_at (vtimers k) p (due L);
  tr_other : ∀ H, H ≠ HActQ → (∀ p, H ≠ HP PExp p) → Q' H = Q H;
}.

Lemma rest_pos L : Forall (λ a, 1 ≤ a.2) L → Forall (λ a, 1 ≤ a.2) (rest L).
Proof.
  intros HL. apply Forall_forall. intros a Ha. unfold rest in Ha. apply list_elem_of_filter in Ha as [Hnz Ha].
  unfold decr in Ha. apply list_elem_of_fmap in Ha as (b & -> & Hb). rewrite Forall_forall in HL.
  specialize (HL b Hb). cbn in *. lia.
Qed.

Lemma ticked_inv k Q L a L0 :
  L = a :: L0 → vt_inv k Q L → Forall (λ a, 1 ≤ a.2) L →
  vt_inv (ticked k <| earliest := earliest k - 1 |>) Q (decr L).
Proof.
  intros EL [Hq Ht Ha He Htab Hr] Hpos. constructor; try done.
  destruct Hr as [HQ Hd Hf Hm Hs]. constructor; cbn.
  - rewrite HQ. unfold decr. rewrite <- list_fmap_compose. done.
  - by apply deltas_decr.
  - rewrite Hf, EL. done.
  - rewrite Hm, time_last_decr by (by rewrite EL). rewrite EL. cbn. lia.
  - unfold decr. apply Forall_fmap, Forall_forall. intros b Hb. rewrite Forall_forall in Hpos, Hs.
    specialize (Hpos b Hb). specialize (Hs b Hb). cbn. unfold small in *. lia.
Qed.

Lemma MRT_tick_spec k Q L :
  vt_good k Q L → ∃ k' Q', MRT_tick k = Ok k' () ∧ tick_result k k' Q Q' L.
Proof.
  intros [Hi Hpos Hp Hmode]. destruct (act_header _ _ _ Hi) as (l & Hal & Hf & _).
  unfold MRT_tick, st_sv. krun. cbn [lm]. rewrite Hf. destruct L as [|a L0] eqn:EL.
  - cbn. exists (ticked k), Q. split; [done|]. constructor; [|reflexivity|intros; by rewrite app_nil_r|done].
    constructor; [|constructor|exact Hp|exact Hmode]. change (rest []) with (@nil (Z * Z)).
    destruct Hi as [? ? ? ? ? []]. constructor; try assumption. by constructor.
  - rewrite <- EL in *. assert (head L = Some a) as -> by (by rewrite EL). cbn.
    pose proof (vi_rep _ _ _ Hi) as Hr. pose proof (ar_first _ _ _ Hr) as He. rewrite EL in He. cbn in He.
    assert (Ha : 1 ≤ a.2) by (rewrite EL in Hpos; by inversion Hpos).
    assert (Hs : small a.2) by (apply (act_small _ _ _ a Hr); rewrite EL; set_solver).
    pose proof (ticked_inv k Q L a L0 EL Hi Hpos) as Hi1. rewrite He in Hi1.
    assert (Hd0 : Forall (λ b, 0 ≤ b.2) (decr L)).
    { apply Forall_fmap, Forall_forall. intros b Hb. rewrite Forall_forall in Hpos. specialize (Hpos b Hb). cbn. lia. }
    pose proof (zero_split _ _ (ar_deltas _ _ _ (vi_rep _ _ _ Hi1)) Hd0) as Esp. fold (due L) (rest L) in Esp.
    set (k1 := ticked k <| earliest := a.2 - 1 |>) in *.
    rewrite (bind_ok _ _ _ _ _ (modify_ok _ _)). replace (upd earliest _ _) with k1.
    2: { unfold k1, ticked, upd. cbn. rewrite He, s32_small; [done|unfold small in *; lia]. }
    krun. change (earliest k1) with (a.2 - 1).
    assert (Hf1 : vtframe (ticked k) k1) by (constructor; [done|done|reflexivity]).
    destruct (Z.eqb_spec (a.2 - 1) 0) as [Hz|Hnz].
    + rewrite Esp in Hi1. pose proof (vt_length _ _ _ Hi1) as Hlen. rewrite length_app in Hlen.
      destruct (clock_loop_spec k1 Q (due L) (rest L) MRT_MAXPER vt_fuel) as (k' & Q' & me & Hrun & [Hi' Hf' He' Ho']);
        [done|..].
      { apply Forall_forall. by intros b [? _]%list_elem_of_filter. }
      { intros b Hb. unfold rest in Hb. apply head_Some_elem_of in Hb. by apply list_elem_of_filter in Hb as [? _]. }
      { intros b Hb. destruct (deltas_lookup _ _ b (ar_deltas _ _ _ (vi_rep _ _ _ Hi1))) as [v Hv]; [set_solver|].
        unfold prio_of. rewrite Hv. by eapply Hp. }
      { unfold vt_fuel. lia. }
      exists k', Q'. unfold MRT_clock_handler, sv_test. krun. rewrite (bind_ok _ _ _ _ _ Hrun). krun.
      assert (Esv : sv k' = sv (ticked k)) by (by rewrite (vf_eq _ _ Hf')).
      assert (Em : TEST_BIT (sv_flags (sv k')) MRT_ONESHOT = false) by (by rewrite Esv).
      rewrite Em. krun. split; [done|]. constructor; [|by etrans|done|done].
      constructor; [done|by apply rest_pos| |done]. by apply (vtframe_good_prio k1 k' Hf').
    + assert (Hdue : due L = []).
      { destruct (due L) as [|b E'] eqn:Ed; [done|]. rewrite EL in Esp. injection Esp as Hb _.
        assert (b ∈ due L) as [Hb0 _]%list_elem_of_filter by (rewrite Ed; set_solver).
        rewrite <- Hb in Hb0. cbn in Hb0. lia. }
      rewrite Hdue in Esp. cbn in Esp. exists k1, Q. split; [done|].
      constructor; [|done|intros p; rewrite Hdue; by rewrite app_nil_r|done].
      rewrite <- Esp. constructor; [done| |done|done]. rewrite Esp. by apply rest_pos.
Qed.

(** ** Sequences of timer operations *)

Inductive vop :=
  | VStart (i : Z)
  | VStop (i : Z)
  | VTick.

Definition run_vop (o : vop) : K unit :=
  match o with VStart i => MRT_vtimer_ins i | VStop i => MRT_vtimer_rmv i | VTick => MRT_tick end.

Fixpoint run_vops (os : list vop) : K unit :=
  match os with [] => mret () | o :: os' => run_vop o;; run_vops os' end.

(** The abstract timer service: the active timers with the ticks they have left,
    in order of expiration, and the expired ones in order of expiration. *)
Definition vt_abs : Type := list (Z * Z) * list Z.

Definition period_of (vts : gmap Z MRT_vtimer_t) (i : Z) : Z := from_option vt_period 0 (vts !! i).

Definition abs_vop (vts : gmap Z MRT_vtimer_t) (o : vop) (a : vt_abs) : vt_abs :=
  match o with
  | VStart i => (vt_insert i (period_of vts i) a.1, a.2)
  | VStop i => (filter (λ b, b.1 ≠ i) a.1, a.2)
  | VTick => (rest a.1, a.2 ++ (due a.1).*1)
  end.

(** A timer is started when it is neither active nor expired, with a period of
    at least one tick that fits a [long]; an active timer is stopped. *)
Definition vop_legal (vts : gmap Z MRT_vtimer_t) (o : vop) (a : vt_abs) : Prop :=
  match o with
  | VStart i => is_Some (vts !! i) ∧ 1 ≤ period_of vts i < 2 ^ 31 ∧ i ∉ a.1.*1 ∧ i ∉ a.2
  | VStop i => i ∈ a.1.*1
  | VTick => True
  end.

Fixpoint vops_legal (vts : gmap Z MRT_vtimer_t) (os : list vop) (a : vt_abs) : Prop :=
  match os with
  | [] => True
  | o :: os' => vop_legal vts o a ∧ vops_legal vts os' (abs_vop vts o a)
  end.

(** The concrete queues hold the abstract ones: each expired timer waits in the
    list of its priority, first come first served. *)
Record vt_sim (k : kstate) (a : vt_abs) : Prop := {
  vs_Q : ∃ Q, vt_good k Q a.1 ∧
    (∀ p, 0 ≤ p < 16 → Q (HP PExp p) = LVt <$> filter (λ i, prio_of (vtimers k) i = p) a.2) ∧
    (∀ H i, H ≠ HActQ → (∀ p, H ≠ HP PExp p) → LVt i ∉ Q H) ;
  vs_links : ∀ i, is_Some (vtimers k !! i) → is_Some (links (lm k) !! LVt i);
}.

Lemma vtframe_is_Some k k' i : vtframe k k' → is_Some (vtimers k' !! i) ↔ is_Some (vtimers k !! i).
Proof.
  intros [_ Hv _]. apply (f_equal (.!! i)) in Hv. rewrite !lookup_fmap in Hv.
  destruct (vtimers k' !! i), (vtimers k !! i); naive_solver.
Qed.

Lemma lframe_is_Some m m' x : lframe m m' → is_Some (links m' !! x) ↔ is_Some (links m !! x).
Proof. intros [Hp _ _]. specialize (Hp x). destruct (links m' !! x), (links m !! x); naive_solver. Qed.

Lemma vtframe_links k k' : vtframe k k' → (∀ i, is_Some (vtimers k !! i) → is_Some (links (lm k) !! LVt i)) →
  ∀ i, is_Some (vtimers k' !! i) → is_Some (links (lm k') !! LVt i).
Proof.
  intros Hf Hl i. rewrite (vtframe_is_Some _ _ _ Hf), (lframe_is_Some _ _ _ (vf_lm _ _ Hf)). apply Hl.
Qed.

Lemma vtframe_period k k' i : vtframe k k' → period_of (vtimers k') i = period_of (vtimers k) i.
Proof.
  intros [_ Hv _]. apply (f_equal (.!! i)) in Hv. rewrite !lookup_fmap in Hv. unfold period_of.
  destruct (vtimers k' !! i), (vtimers k !! i); try done. cbn.
  apply (inj Some) in Hv. by apply (f_equal vt_period) in Hv.
Qed.

Lemma filter_prio_frame k k' p (X : list Z) : vtframe k k' →
  filter (λ i, prio_of (vtimers k') i = p) X = filter (λ i, prio_of (vtimers k) i = p) X.
Proof. intros Hf. apply list_filter_iff. intros i. by rewrite (vtframe_prio _ _ _ Hf). Qed.

Lemma vt_insert_pos i per L : 1 ≤ per → Forall (λ a, 1 ≤ a.2) L → Forall (λ a, 1 ≤ a.2) (vt_insert i per L).
Proof.
  intros Hp HL. induction HL as [|[j t] L Hj HL IH]; cbn; [by repeat constructor|].
  destruct (per <? t); by repeat constructor.
Qed.

Lemma filter_id_middle (L1 : list (Z * Z)) i t L2 :
  NoDup (L1 ++ (i, t) :: L2).*1 → filter (λ b, b.1 ≠ i) (L1 ++ (i, t) :: L2) = L1 ++ L2.
Proof.
  rewrite fmap_app, fmap_cons, <- Permutation_middle. intros [Hni _]%NoDup_cons. cbn in Hni.
  assert (Hid : ∀ L : list (Z * Z), i ∉ L.*1 → filter (λ b, b.1 ≠ i) L = L).
  { induction L as [|[j u] L IH]; [done|]. rewrite fmap_cons. intros Hi.
    rewrite filter_cons_True by (cbn; set_solver). by rewrite IH by set_solver. }
  rewrite filter_app, filter_cons_False by (cbn; tauto). rewrite !Hid by set_solver. done.
Qed.

Lemma unlinked_of_sim k a Q i :
  vt_good k Q a.1 → i ∉ a.1.*1 → i ∉ a.2 →
  (∀ p, 0 ≤ p < 16 → Q (HP PExp p) = LVt <$> filter (λ i, prio_of (vtimers k) i = p) a.2) →
  (∀ H i, H ≠ HActQ → (∀ p, H ≠ HP PExp p) → LVt i ∉ Q H) → unlinked Q (LVt i).
Proof.
  intros [Hi _ _ _] H1 H2 HE HO H. destruct (decide (H = HActQ)) as [->|Hne].
  { rewrite (ar_Q _ _ _ (vi_rep _ _ _ Hi)). intros (b & [= ->] & Hb)%list_elem_of_fmap.
    apply H1, list_elem_of_fmap. by exists b. }
  assert ((∃ p, H = HP PExp p) ∨ (∀ p, H ≠ HP PExp p)) as [[p ->]|Hnp].
  { destruct H as [[] p| | | | | | | |]; first [left; exists p; reflexivity|by right]. }
  - intros Hx. assert (Hp : 0 ≤ p < 16).
    { destruct (vi_exp _ _ _ Hi) as [h Hh]. destruct (vi_q _ _ _ Hi) as [Hl Hpi].
      apply (po_dom _ _ _ _ (Hpi _ _ Hh)). apply not_eq_None_Some. intros Hn.
      rewrite (li_dom _ _ Hl _ Hn) in Hx. set_solver. }
    rewrite HE in Hx by done. apply list_elem_of_fmap in Hx as (j & [= <-] & [_ Hj]%list_elem_of_filter). done.
  - by apply HO.
Qed.

(** Which timers exist and their periods never change. *)
Definition vts_same (vts vts' : gmap Z MRT_vtimer_t) : Prop :=
  ∀ i, period_of vts' i = period_of vts i ∧ (is_Some (vts' !! i) ↔ is_Some (vts !! i)).

Lemma vtframe_same k k' : vtframe k k' → vts_same (vtimers k) (vtimers k').
Proof. intros Hf i. split; [by apply vtframe_period|by apply vtframe_is_Some]. Qed.

Lemma expired_at_ids vts p E :
  expired_at vts p E = LVt <$> filter (λ i, prio_of vts i = p) E.*1.
Proof.
  unfold expired_at. induction E as [|[j u] E IH]; [done|]. rewrite fmap_cons. cbn [fst].
  destruct (decide (prio_of vts j = p)).
  - rewrite !filter_cons_True by done. cbn. by rewrite IH.
  - rewrite !filter_cons_False by done. apply IH.
Qed.

(** An operation that changes the active queue only. *)
Lemma vt_sim_active k k' Q L X L' :
  vt_good k Q L →
  (∀ p, 0 ≤ p < 16 → Q (HP PExp p) = LVt <$> filter (λ i, prio_of (vtimers k) i = p) X) →
  (∀ H i, H ≠ HActQ → (∀ p, H ≠ HP PExp p) → LVt i ∉ Q H) →
  (∀ i, is_Some (vtimers k !! i) → is_Some (links (lm k) !! LVt i)) →
  vt_result k k' Q L' → Forall (λ a, 1 ≤ a.2) L' → vt_sim k' (L', X).
Proof.
  intros [Hi Hpos Hp Hm] HE HO Hl (Hi' & Hf & Hs) Hpos'. split; [|by eapply vtframe_links].
  exists (act_Q Q L'). split_and!.
  - constructor; [done|done|by eapply vtframe_good_prio|]. by rewrite (vf_eq _ _ Hf).
  - intros p Hpr. unfold act_Q. rewrite fn_lookup_insert_ne by done. rewrite HE by done. cbn.
    by rewrite (filter_prio_frame _ _ _ _ Hf).
  - intros H i H1 H2. unfold act_Q. rewrite fn_lookup_insert_ne by done. by apply HO.
Qed.

Lemma run_vop_spec k a o :
  vt_sim k a → vop_legal (vtimers k) o a →
  ∃ k', run_vop o k = Ok k' () ∧ vt_sim k' (abs_vop (vtimers k) o a) ∧ vts_same (vtimers k) (vtimers k').
Proof.
  intros [(Q & Hg & HE & HO) Hl] Ho. pose proof Hg as [Hi Hpos Hp Hm]. destruct a as [L X], o as [i|i|]; cbn in *.
  - destruct Ho as ([v Hv] & Hper & H1 & H2). unfold period_of in *. rewrite Hv in *. cbn in *.
    destruct (MRT_vtimer_ins_spec k Q L i v) as (k' & Hrun & Hres); try done.
    { unfold small. lia. } { eauto. } { by eapply (unlinked_of_sim k (L, X)). }
    exists k'. split; [done|]. split; [|apply vtframe_same, Hres].
    eapply vt_sim_active; try done. apply vt_insert_pos; [lia|done].
  - apply list_elem_of_fmap in Ho as ([j t] & -> & (L1 & L2 & E)%list_elem_of_split). cbn.
    pose proof (vt_ids_nodup _ _ _ Hi) as Hnd. rewrite E in Hnd, Hi.
    destruct (MRT_vtimer_rmv_spec k Q L1 j t L2 Hi) as (k' & Hrun & Hres & _).
    exists k'. split; [done|]. split; [|apply vtframe_same, Hres]. rewrite E, filter_id_middle by done.
    eapply vt_sim_active; try done. rewrite E in Hpos. apply Forall_app in Hpos as [? Hp2]. inversion Hp2. by apply Forall_app.
  - destruct (MRT_tick_spec k Q L Hg) as (k' & Q' & Hrun & [Hg' Hf He Ho']).
    exists k'. split; [done|]. split; [|apply (vtframe_same _ _ Hf)].
    split; [|by apply (vtframe_links _ _ Hf)]. exists Q'. split_and!; [done| |].
    + intros p Hpr. rewrite He, HE by done. cbn [snd]. rewrite (filter_prio_frame _ _ _ _ Hf), filter_app, fmap_app. f_equal.
      by rewrite expired_at_ids.
    + intros H i H1 H2. rewrite Ho' by done. by apply HO.
Qed.

Lemma vts_same_abs vts vts' o a : vts_same vts vts' → abs_vop vts' o a = abs_vop vts o a.
Proof. intros Hs. destruct o; cbn; [|done..]. by rewrite (proj1 (Hs i)). Qed.

Lemma vts_same_legal vts vts' os a : vts_same vts vts' → vops_legal vts os a → vops_legal vts' os a.
Proof.
  intros Hs. revert a. induction os as [|o os IH]; intros a; cbn; [done|]. intros [Ho Hos].
  rewrite (vts_same_abs _ _ _ _ Hs). split; [|by apply IH].
  destruct o; cbn in *; [|done..]. by rewrite (proj1 (Hs i)), (proj2 (Hs i)).
Qed.

Lemma vts_same_foldl vts vts' os a : vts_same vts vts' →
  foldl (λ a o, abs_vop vts' o a) a os = foldl (λ a o, abs_vop vts o a) a os.
Proof.
  intros Hs. revert a. induction os as [|o os IH]; intros a; cbn; [done|]. by rewrite (vts_same_abs _ _ _ _ Hs).
Qed.

Lemma run_vops_spec k a os :
  vt_sim k a → vops_legal (vtimers k) os a →
  ∃ k', run_vops os k = Ok k' () ∧ vt_sim k' (foldl (λ a o, abs_vop (vtimers k) o a) a os).
Proof.
  revert k a. induction os as [|o os IH]; intros k a Hs; cbn; [by exists k|]. intros [Ho Hos].
  destruct (run_vop_spec k a o Hs Ho) as (k1 & Hrun & Hs1 & Hsame). rewrite (bind_ok _ _ _ _ _ Hrun).
  destruct (IH k1 _ Hs1) as (k' & Hrun' & Hs'); [by eapply vts_same_legal|].
  exists k'. split; [done|]. by rewrite (vts_same_foldl _ _ _ _ Hsame) in Hs'.
Qed.

(** C4: any legal sequence of timer starts ([MRT_vtimer_ins]), stops
    ([MRT_vtimer_rmv]) and clock ticks runs without undefined behaviour and the
    delta queue and the expired priority lists represent the abstract timer
    service after it: a start inserts the timer in order of expiration behind
    the timers that expire no later, a stop takes it out, and a tick decrements
    every timer and moves exactly those that reached zero, in order, to the
    expired list of their priority. *)
Theorem timers_refine k a os :
  vt_sim k a → vops_legal (vtimers k) os a →
  ∃ k', run_vops os k = Ok k' () ∧ vt_sim k' (foldl (λ a o, abs_vop (vtimers k) o a) a os).
Proof. apply run_vops_spec. Qed.

(** Three timers with periods 2, 3 and 2 and priorities 4, 4 and 1. *)
Definition vt_bss : kstate :=
  bss <| vtimers := table 0 NR_VTIMERS (λ i,
    mk_vtimer (if i =? 1 then 3 else 2) 0 0 0 (if i =? 2 then 1 else 4) i HARDWARE 0 0 0 0) |>.

Lemma vt_bss_sim : vt_sim vt_bss ([], []).
Proof.
  destruct bss_sched_inv as [[Hq Hpl Ht _] _ _ _].
  assert (Hv : ∀ i v, vtimers vt_bss !! i = Some v → 0 ≤ i < NR_VTIMERS ∧ 0 ≤ vt_priority v < 16).
  { intros i v (j & [= -> ->] & Hj%elem_of_seqZ)%elem_of_list_to_map_2%list_elem_of_fmap. cbn.
    split; [lia|]. by destruct (j =? 2). }
  split.
  - exists (λ _, []). split_and!; [|reflexivity|by intros H i _ _ ?%elem_of_nil]. constructor; [|constructor|apply Hv|done].
    constructor; [done|done|by eexists|by eexists| |].
    + intros i [v Hv']. by apply (Hv i v).
    + constructor; try done.
  - intros i [v [Hi _]%Hv]. change (lm vt_bss) with bss_lm.
    assert (Forall (λ i, is_Some (links bss_lm !! LVt i)) (zs 0 NR_VTIMERS)) as Hall.
    { apply (bool_decide_eq_true_1 _). vm_compute. reflexivity. }
    rewrite Forall_forall in Hall. apply Hall, elem_of_seqZ. lia.
Qed.

Definition vt_script : list vop := [VStart 0; VStart 1; VTick; VStart 2; VTick; VStop 1; VTick; VTick].

Lemma timers_refine_witness :
  ∃ k', run_vops vt_script vt_bss = Ok k' () ∧ vt_sim k' ([], [0; 2]).
Proof.
  destruct (timers_refine vt_bss ([], []) vt_script) as (k' & Hrun & Hs).
  - apply vt_bss_sim.
  - cbn. repeat split; try (by eexists); try (unfold period_of; vm_compute; done); vm_compute; set_solver.
  - exists k'. split; [done|]. replace ([], [0; 2]) with (foldl (λ a o, abs_vop (vtimers vt_bss) o a) ([], []) vt_script); [done|].
    by vm_compute.
Defined.

(** ** When a timer fires *)

Lemma elem_rest j u L : (j, u) ∈ rest L ↔ (j, u + 1) ∈ L ∧ u ≠ 0.
Proof.
  unfold rest, decr. rewrite list_elem_of_filter, list_elem_of_fmap. cbn. split.
  - intros (Hu & [j' u'] & [= -> ->] & Hin). cbn in *. by replace (u' - 1 + 1) with u' by lia.
  - intros [Hin Hu]. split; [done|]. exists (j, u + 1). split; [|done]. cbn. f_equal. lia.
Qed.

Lemma elem_due j L : j ∈ (due L).*1 ↔ (j, 1) ∈ L.
Proof.
  unfold due, decr. rewrite list_elem_of_fmap. split.
  - intros ([j' u'] & -> & [Hz ([j'' u''] & [= -> ->] & Hin)%list_elem_of_fmap]%list_elem_of_filter).
    cbn in *. by replace u'' with 1 in Hin by lia.
  - intros Hin. exists (j, 0). split; [done|]. apply list_elem_of_filter. split; [done|].
    apply list_elem_of_fmap. by exists (j, 1).
Qed.

Lemma elem_vt_insert b i per L : b ∈ vt_insert i per L ↔ b = (i, per) ∨ b ∈ L.
Proof.
  induction L as [|[j t] L IH]; cbn; [set_solver|]. destruct (per <? t); [set_solver|].
  rewrite !elem_of_cons, IH. tauto.
Qed.

Definition ticks_abs (n : nat) (vts : gmap Z MRT_vtimer_t) (a : vt_abs) : vt_abs :=
  foldl (λ a o, abs_vop vts o a) a (replicate n VTick).

(** [n] ticks before timer [i] fires, and the tick at which it does. *)
Lemma ticks_abs_spec n vts i t L X :
  (∀ u, (i, u) ∈ L ↔ u = t) → i ∉ X → Z.of_nat n ≤ t → 1 ≤ t →
  let a := ticks_abs n vts (L, X) in
  (Z.of_nat n < t → (∀ u, (i, u) ∈ a.1 ↔ u = t - Z.of_nat n) ∧ i ∉ a.2) ∧
  (Z.of_nat n = t → (∀ u, (i, u) ∉ a.1) ∧ i ∈ a.2).
Proof.
  revert t L X. unfold ticks_abs. induction n as [|n IH]; intros t L X HL HX Hn Ht; cbn [replicate foldl].
  { cbn. split; [|lia]. intros _. split; [|done]. intros u. rewrite HL. lia. }
  cbn [abs_vop fst snd].
  assert (Hd : i ∈ (due L).*1 ↔ t = 1) by (rewrite elem_due, HL; lia).
  destruct (decide (t = 1)) as [->|Hne].
  - assert (n = 0%nat) as -> by lia. cbn. split; [lia|]. intros _. split; [|set_solver].
    intros u. rewrite elem_rest, HL. lia.
  - destruct (IH (t - 1) (rest L) (X ++ (due L).*1)) as [IH1 IH2].
    { intros u. rewrite elem_rest, HL. lia. } { set_solver. } { lia. } { lia. }
    split; intros Hlt.
    + destruct IH1 as [H1 H2]; [lia|]. split; [|done]. intros u. rewrite H1. lia.
    + apply IH2. lia.
Qed.

(** C5: a timer started with period [per] is still active, with [per - n] ticks
    left, after every [n < per] ticks, and is in the expired queue exactly when
    [per] ticks have passed, whatever other timers are active. *)
Theorem timer_fires_on_time k L X i n :
  vt_sim k (L, X) → vop_legal (vtimers k) (VStart i) (L, X) →
  let per := period_of (vtimers k) i in
  Z.of_nat n ≤ per →
  ∃ k' L' X', run_vops (VStart i :: replicate n VTick) k = Ok k' () ∧ vt_sim k' (L', X') ∧
    (Z.of_nat n < per → (i, per - Z.of_nat n) ∈ L' ∧ i ∉ X') ∧
    (Z.of_nat n = per → i ∉ L'.*1 ∧ i ∈ X').
Proof.
  intros Hs Ho per Hn. pose proof Ho as (_ & Hper & HiL & HiX). cbn [fst snd] in *.
  destruct (run_vops_spec k (L, X) (VStart i :: replicate n VTick)) as (k' & Hrun & Hs'); [done|split; [done|]|].
  { generalize (abs_vop (vtimers k) (VStart i) (L, X)). clear. induction n as [|n IH]; intros a; [done|]. split; [done|apply IH]. }
  cbn [foldl abs_vop fst snd] in Hs'. fold per in Hs'. fold (ticks_abs n (vtimers k) (vt_insert i per L, X)) in Hs'.
  destruct (ticks_abs_spec n (vtimers k) i per (vt_insert i per L) X) as [H1 H2]; [|done|done|lia|].
  { intros u. rewrite elem_vt_insert. split; [intros [[=]|Hin]; [done|]|intros ->; by left].
    destruct HiL. apply list_elem_of_fmap. by exists (i, u). }
  destruct (ticks_abs n (vtimers k) (vt_insert i per L, X)) as [L' X'] eqn:E. cbn in H1, H2.
  exists k', L', X'. split_and!; [done|done| |].
  - intros Hlt. destruct (H1 Hlt) as [Ha Hb]. split; [by apply Ha|done].
  - intros Heq. destruct (H2 Heq) as [Ha Hb]. split; [|done].
    intros ([j u] & -> & Hin)%list_elem_of_fmap. by apply (Ha u).
Qed.

Lemma timer_fires_on_time_witness :
  ∃ k' L' X', run_vops (VStart 1 :: replicate 3 VTick) vt_bss = Ok k' () ∧ vt_sim k' (L', X') ∧ 1 ∈ X'.
Proof.
  destruct (timer_fires_on_time vt_bss [] [] 1 3) as (k' & L' & X' & Hrun & Hs & _ & H3).
  - apply vt_bss_sim.
  - repeat split; try (by eexists); try (vm_compute; done); set_solver.
  - vm_compute. done.
  - exists k', L', X'. split_and!; [done..|]. apply H3. by vm_compute.
Defined.
