(* ===== verification/Inherit.v ===== *)
(** * Priority inheritance (kernel/mrtlib.c [MRT_inherit], [MRT_disinherit])

    A real-time process that blocks on a message or a semaphore lends its
    priority to the process it waits for, and transitively to the processes that
    one waits for.  This file also holds the two pick functions disinheritance
    uses: [MRT_sproc_pick] (mrtsem.c) and [MRT_mqe_pick] (mrtmsg.c). *)

From stdpp Require Import base gmap strings numbers fin_maps functions list.
From S2P Require Import Prelude Lists Kernel Sched.
Local Open Scope Z_scope.

(** ** Picking waiting processes and messages *)

Definition MRT_sproc_pick (psem : Z) : K (option Z) :=
  plink ← lists_ (MRT_plist_get (PSem psem));
  match plink with
  | None => mret None
  | Some x => o ← this_of x; rp ← as_proc o; mret (Some rp)
  end.

(** The inner loop of [MRT_mqe_pick]: the first entry from [source]. *)
Fixpoint mqe_walk (fuel : nat) (plink : option laddr) (source : Z) : K (option Z) :=
  match fuel with
  | O => λ _, NoFuel
  | S fuel' =>
      match plink with
      | None => mret None
      | Some x =>
          o ← this_of x; e ← as_mqe o; pmqe ← ld_mqe e;
          if (source =? MRT_ANYPROC) || (source =? mp_p_nr (h_src (e_hdr pmqe)))
          then mret (Some e)
          else lk ← lists_ (ld_link x); mqe_walk fuel' (next lk) source
      end
  end.

(** A queue holds at most [NR_MESSAGES = 32] entries. *)
Definition mqe_fuel : nat := 64.

Fixpoint mqe_scan (q bm p : Z) (n : nat) (source : Z) : K (option Z) :=
  match n with
  | O => mret None
  | S n' =>
      if TEST_BIT bm (Z.shiftl 1 p) then
        l ← lists_ (ld_list (HP (PMq q) p));
        r ← mqe_walk mqe_fuel (first l) source;
        match r with
        | Some e => mret (Some e)
        | None => mqe_scan q bm (p + 1) n' source
        end
      else mqe_scan q bm (p + 1) n' source
  end.

Definition MRT_mqe_pick (pmq : option Z) (source : Z) : K (option Z) :=
  q ← notnull pmq;
  pl ← lists_ (ld_plist (PMq q));
  if p_inQ pl =? 0 then mret None
  else mqe_scan q (bitmap pl) 0 (Z.to_nat MRT_NR_PRTY) source.

(** ** Inheritance *)

(** The process [r] of slot [n] waits for; [None] where [MRT_inherit] returns. *)
Definition inherit_next (n : Z) (r : proc) : K (option Z) :=
  if TEST_BIT (rt_flags (rt r)) MRT_MBX_SND then p ← notnull (pto r); mret (Some p)
  else if TEST_BIT (rt_flags (rt r)) MRT_MBX_RCV && negb (bool_decide (pfrom r = Some n))
  then p ← notnull (pfrom r); mret (Some p)
  else if TEST_BIT (rt_flags (rt r)) MRT_SEM_DOWN
  then s ← notnull (psem r); sem ← ld_sem s; mret (s_carrier sem)
  else mret None.

Fixpoint MRT_inherit (fuel : nat) (prty pptr : Z) : K unit :=
  match fuel with
  | O => λ _, NoFuel
  | S fuel' =>
      bpip ← sv_test MRT_BPIP;
      if negb bpip then mret ()
      else
        r ← ld_proc pptr;
        if prty <? rt_priority (rt r) then
          if MRT_is_rtready r then
            MRT_rdyQ_rmv pptr;;
            st_proc pptr (λ r, r <| rt ::= λ a, a <| rt_priority := prty mod 256 |> |>);;
            MRT_rdyQ_ins pptr
          else
            st_proc pptr (λ r, r <| rt ::= λ a, a <| rt_priority := prty mod 256 |> |>);;
            r ← ld_proc pptr;
            p ← inherit_next pptr r;
            match p with
            | Some p => MRT_inherit fuel' prty p
            | None => mret ()
            end
        else mret ()
  end.

(** Each call lowers the priority of a process above [prty]: at most one call per
    process and a last one that finds nothing to do. *)
Definition inherit_fuel : nat := 64.

(** The loop over the semaphores a process has locked. *)
Fixpoint slock_prty (fuel : nat) (lk : option laddr) (sem_prty : Z) : K Z :=
  match fuel with
  | O => λ _, NoFuel
  | S fuel' =>
      match lk with
      | None => mret sem_prty
      | Some x =>
          o ← this_of x; s ← as_sem o;
          rpp ← MRT_sproc_pick s;
          sem_prty' ← (match rpp with
                       | Some n => r ← ld_proc n; mret (MIN sem_prty (rt_priority (rt r)))
                       | None => mret sem_prty
                       end);
          k ← lists_ (ld_link x);
          slock_prty fuel' (next k) sem_prty'
      end
  end.

(** The source walks the semaphores that [rp] has locked, but [rp] is a local pointer
    that is never assigned (the caller's process is [pptr]): undefined behaviour. *)
Definition MRT_disinherit (pptr : Z) : K unit :=
  bpip ← sv_test MRT_BPIP;
  if negb bpip then mret ()
  else
    rp ← (undef Uninit : K Z);
    l ← lists_ (ld_list (HSlock rp));
    sem_prty ← slock_prty 32 (first l) MRT_PRILOWEST;
    r ← ld_proc pptr;
    pmqe ← MRT_mqe_pick (pmq r) MRT_ANYPROC;
    mq_prty ← (match pmqe with
               | Some e => m ← ld_mqe e; mret (h_priority (e_hdr m))
               | None => mret MRT_PRILOWEST
               end);
    let prty := MIN (MIN sem_prty mq_prty) (rt_baseprty (rt r)) in
    if negb (prty =? rt_baseprty (rt r)) then
      if MRT_is_rtready r then
        MRT_rdyQ_rmv pptr;;
        st_proc pptr (λ r, r <| rt ::= λ a, a <| rt_priority := prty |> |>);;
        MRT_rdyQ_ins pptr
      else st_proc pptr (λ r, r <| rt ::= λ a, a <| rt_priority := prty |> |>)
    else mret ().

(** * Correctness of inheritance *)

(** The process slot [n] waits for: the wait-for graph [MRT_inherit] follows.
    A process in ready state waits for nobody. *)
Definition wait_target (k : kstate) (n : Z) : option Z :=
  r ← procs k !! n;
  if MRT_is_rtready r then None
  else if TEST_BIT (rt_flags (rt r)) MRT_MBX_SND then pto r
  else if TEST_BIT (rt_flags (rt r)) MRT_MBX_RCV && negb (bool_decide (pfrom r = Some n)) then pfrom r
  else if TEST_BIT (rt_flags (rt r)) MRT_SEM_DOWN
  then s ← psem r; sem ← sems k !! s; s_carrier sem
  else None.

Definition prio (k : kstate) (n : Z) : Z := from_option (λ r, rt_priority (rt r)) 0 (procs k !! n).

(** Pointers of a blocked process are set. *)
Definition wait_ok (k : kstate) (n : Z) (r : proc) : Prop :=
  (TEST_BIT (rt_flags (rt r)) MRT_MBX_SND → is_Some (pto r)) ∧
  (TEST_BIT (rt_flags (rt r)) MRT_MBX_RCV → is_Some (pfrom r)) ∧
  (TEST_BIT (rt_flags (rt r)) MRT_SEM_DOWN → ∃ s, psem r = Some s ∧ is_Some (sems k !! s)).

(** The real-time part of the kernel invariant: the ready list of its priority
    holds every ready real-time process, priorities are in range, blocked
    processes wait for existing real-time processes. *)
Record rt_inv (k : kstate) (Q : lhead → list laddr) : Prop := {
  rti_rdy : rdy_inv k Q;
  rti_ptab : ptab (procs k);
  rti_prio : ∀ n r, procs k !! n = Some r → 0 ≤ rt_priority (rt r) < 16;
  rti_in : ∀ n r, procs k !! n = Some r → MRT_is_realtime r → MRT_is_rtready r →
    LProc n ∈ Q (HP PRdy (rt_priority (rt r)));
  rti_out : ∀ p n r, LProc n ∈ Q (HP PRdy p) → procs k !! n = Some r → MRT_is_rtready r;
  rti_wait : ∀ n r, procs k !! n = Some r → wait_ok k n r;
  rti_target : ∀ n m, wait_target k n = Some m → ∃ r, procs k !! m = Some r ∧ MRT_is_realtime r;
}.

(** Nobody waits for a process of lower urgency. *)
Definition pi_ok (k : kstate) : Prop := ∀ n m, wait_target k n = Some m → prio k m ≤ prio k n.

(** ... except for processes that just started to wait for [p], whose priority
    is [prty] or less urgent. *)
Definition pi_except (k : kstate) (prty p : Z) : Prop :=
  ∀ n m, wait_target k n = Some m → prio k m ≤ prio k n ∨ (m = p ∧ prty ≤ prio k n).

(** [set_prio n prty k]: what inheriting does to the process table. *)
Definition inherited (prty : Z) (r : proc) : proc :=
  r <| rt ::= λ a, a <| rt_priority := prty |> |>.

(** What [MRT_inherit] may change: ready lists, and priorities towards [prty]. *)
Record inh_frame (prty : Z) (k k' : kstate) : Prop := {
  if_eq : k' = k <| lm := lm k' |> <| procs := procs k' |>;
  if_lm : lframe (lm k) (lm k');
  if_procs : ∀ n, procs k' !! n = procs k !! n ∨
    ∃ r, procs k !! n = Some r ∧ prty < rt_priority (rt r) ∧ procs k' !! n = Some (inherited prty r);
}.

Lemma inh_frame_refl prty k : inh_frame prty k k.
Proof. constructor; [by destruct k|reflexivity|by left]. Qed.

Lemma inh_frame_trans prty k1 k2 k3 : inh_frame prty k1 k2 → inh_frame prty k2 k3 → inh_frame prty k1 k3.
Proof.
  intros [E1 L1 P1] [E2 L2 P2]. constructor; [rewrite E2, E1; by destruct k1|by etrans|].
  intros n. destruct (P2 n) as [H2|(r2 & H2 & Hlt2 & H2')], (P1 n) as [H1|(r1 & H1 & Hlt1 & H1')].
  - left. congruence.
  - right. exists r1. by rewrite H2.
  - right. exists r2. by rewrite <- H1.
  - exfalso. rewrite H1' in H2. injection H2 as <-. cbn in Hlt2. lia.
Qed.

(** Setting one priority leaves the wait-for graph alone. *)
Section upd.
Context (k k' : kstate) (p prty : Z) (r : proc).
Hypothesis Hp : procs k !! p = Some r.
Hypothesis Hps : procs k' = <[p := inherited prty r]> (procs k).
Hypothesis Hss : sems k' = sems k.

Lemma wait_target_upd n : wait_target k' n = wait_target k n.
Proof.
  unfold wait_target. rewrite Hps, Hss. destruct (decide (n = p)) as [->|Hne].
  - by rewrite lookup_insert_eq, Hp.
  - by rewrite lookup_insert_ne.
Qed.

Lemma prio_upd n : prio k' n = if decide (n = p) then prty else prio k n.
Proof.
  unfold prio. rewrite Hps. destruct (decide (n = p)) as [->|Hne].
  - by rewrite lookup_insert_eq.
  - by rewrite lookup_insert_ne.
Qed.

(** The exception moves along the graph. *)
Lemma pi_except_upd q :
  pi_except k prty p → prty < prio k p → (∀ m, wait_target k p = Some m → m = q) → pi_except k' prty q.
Proof.
  intros Hpi Hlt Hq n m. rewrite wait_target_upd, !prio_upd. intros Hw. specialize (Hpi n m Hw).
  destruct (decide (n = p)) as [->|Hn]; destruct (decide (m = p)) as [->|Hm]; try lia.
  right. split; [by apply Hq|lia].
Qed.

Lemma pi_ok_upd :
  pi_except k prty p → prty < prio k p → wait_target k p = None → pi_ok k'.
Proof.
  intros Hpi Hlt Hn n m. rewrite wait_target_upd, !prio_upd. intros Hw. specialize (Hpi n m Hw).
  destruct (decide (n = p)) as [->|Hne]; [congruence|]. destruct (decide (m = p)) as [->|Hm]; [lia|].
  destruct Hpi as [?|[? ?]]; [lia|done].
Qed.

(** The parts of the invariant that do not look at the queues. *)
Lemma rt_inv_upd Q Q' :
  rt_inv k Q → 0 ≤ prty < 16 → rdy_inv k' Q' →
  (∀ n r', n ≠ p → procs k !! n = Some r' → MRT_is_realtime r' → MRT_is_rtready r' →
     LProc n ∈ Q' (HP PRdy (rt_priority (rt r')))) →
  (MRT_is_realtime r → MRT_is_rtready r → LProc p ∈ Q' (HP PRdy prty)) →
  (∀ q n r', LProc n ∈ Q' (HP PRdy q) → procs k !! n = Some r' → MRT_is_rtready r') →
  rt_inv k' Q'.
Proof.
  intros [_ Htab Hpr Hin _ Hw Ht] Hrange Hrdy Hin' Hp' Hout. constructor; [done|..].
  - intros n. rewrite Hps. intros Hn. apply Htab. destruct (decide (n = p)) as [->|]; [by eexists|].
    by rewrite lookup_insert_ne in Hn.
  - intros n r'. rewrite Hps, lookup_insert_Some. intros [[<- <-]|[Hne Hn]]; [done|eauto].
  - intros n r'. rewrite Hps, lookup_insert_Some. intros [[<- <-]|[Hne Hn]]; [apply Hp'|eauto].
  - intros q n r' Hq. rewrite Hps, lookup_insert_Some.
    intros [[<- <-]|[Hne Hn]]; [exact (Hout q p r Hq Hp)|exact (Hout q n r' Hq Hn)].
  - intros n r'. unfold wait_ok. rewrite Hss, Hps, lookup_insert_Some.
    intros [[<- <-]|[Hne Hn]]; [exact (Hw p r Hp)|exact (Hw n r' Hn)].
  - intros n m. rewrite wait_target_upd. intros (r' & Hr' & Hrt)%Ht. rewrite Hps.
    destruct (decide (m = p)) as [->|Hne]; [|rewrite lookup_insert_ne by done; eauto].
    rewrite lookup_insert_eq. eexists. split; [done|]. assert (r' = r) as -> by congruence. done.
Qed.
End upd.

(** ** Termination measure: the processes less urgent than [prty] *)
Definition above (k : kstate) (prty : Z) : nat :=
  length (filter (λ n, prty < prio k n) (zs (- NR_TASKS) (NR_TASKS + NR_PROCS))).

Lemma filter_length_lt {A} (P P' : A → Prop) `{∀ x, Decision (P x), ∀ x, Decision (P' x)} (l : list A) x :
  (∀ y, P' y → P y) → x ∈ l → P x → ¬ P' x → (length (filter P' l) < length (filter P l))%nat.
Proof.
  intros Hsub Hx HPx HPx'. assert (Hle : ∀ l : list A, (length (filter P' l) ≤ length (filter P l))%nat).
  { induction l0 as [|y l0 IH]; [done|]. destruct (decide (P' y)) as [Hy|Hy].
    - rewrite !filter_cons_True by auto. cbn. lia.
    - rewrite filter_cons_False by done. destruct (decide (P y)); [rewrite filter_cons_True by done|rewrite filter_cons_False by done]; cbn; lia. }
  apply list_elem_of_split in Hx as (l1 & l2 & ->). rewrite !filter_app, !length_app.
  rewrite (filter_cons_True P), (filter_cons_False P') by done. cbn.
  specialize (Hle l1) as H1. specialize (Hle l2) as H2. lia.
Qed.

Lemma above_upd k k' p prty r :
  procs k !! p = Some r → procs k' = <[p := inherited prty r]> (procs k) → ptab (procs k) →
  prty < prio k p → (above k' prty < above k prty)%nat.
Proof.
  intros Hp Hps Htab Hlt. apply (filter_length_lt _ _ _ p).
  - intros n. rewrite (prio_upd k k' p prty r Hps). case_decide; lia.
  - apply elem_of_seqZ. assert (- NR_TASKS ≤ p < NR_PROCS) by (apply Htab; by eexists). lia.
  - done.
  - rewrite (prio_upd k k' p prty r Hps), decide_True by done. lia.
Qed.

Lemma above_bound k prty : (above k prty ≤ 43)%nat.
Proof.
  unfold above. etrans; [apply length_filter|]. unfold zs. rewrite length_seqZ. done.
Qed.

(** The pointer chase of [MRT_inherit] follows the wait-for graph. *)
Lemma inherit_next_spec k n r :
  procs k !! n = Some r → wait_ok k n r → MRT_is_rtready r = false →
  inherit_next n r k = Ok k (wait_target k n).
Proof.
  intros Hn (H1 & H2 & H3) Hr. unfold inherit_next, wait_target. rewrite Hn. cbn. rewrite Hr.
  destruct (TEST_BIT _ MRT_MBX_SND); [destruct H1 as [p ->]; [done|]; by krun|].
  destruct (TEST_BIT _ MRT_MBX_RCV); cbn.
  - destruct (bool_decide _) eqn:Eb; cbn; [|destruct H2 as [p ->]; [done|]; by krun].
    destruct (TEST_BIT _ MRT_SEM_DOWN); [|done].
    destruct H3 as (s & -> & [sem Hs]); [done|]. cbn. krun. by rewrite Hs.
  - destruct (TEST_BIT _ MRT_SEM_DOWN); [|done].
    destruct H3 as (s & -> & [sem Hs]); [done|]. cbn. krun. by rewrite Hs.
Qed.

Lemma rdy_inv_procs k Q ps' p :
  rdy_inv k Q → unlinked Q (LProc p) → (∀ n, n ≠ p → ps' !! n = procs k !! n) →
  rdy_inv (k <| procs := ps' |>) Q.
Proof.
  intros [Hq Hpl Ht Hp] Hu Hps. constructor; try done. intros q x Hx.
  destruct (Hp q x Hx) as (n & r & -> & Hn & Hr). exists n, r. split; [done|]. split; [|done].
  cbn. rewrite Hps; [done|]. intros ->. by apply (Hu (HP PRdy q)).
Qed.

(** Moving a ready process to the head of a more urgent list. *)
Lemma requeue_spec k Q p r prty :
  rt_inv k Q → procs k !! p = Some r → MRT_is_realtime r → MRT_is_rtready r → 0 ≤ prty < 16 →
  prty < rt_priority (rt r) →
  ∃ k' Q', (MRT_rdyQ_rmv p;;
            st_proc p (λ r, r <| rt ::= λ a, a <| rt_priority := prty mod 256 |> |>);;
            MRT_rdyQ_ins p) k = Ok k' () ∧
    rt_inv k' Q' ∧ procs k' = <[p := inherited prty r]> (procs k) ∧
    k' = k <| lm := lm k' |> <| procs := procs k' |> ∧ lframe (lm k) (lm k') ∧
    Q' (HP PRdy prty) = LProc p :: Q (HP PRdy prty) ∧
    (∀ H, (∀ q, H ≠ HP PRdy q) → Q' H = Q H).
Proof.
  intros Hi Hp Hrt Hrr Hprty Hlt. pose proof (rti_in _ _ Hi _ _ Hp Hrt Hrr) as Hin.
  pose proof (rti_prio _ _ Hi _ _ Hp) as Hpr. pose proof (rti_rdy _ _ Hi) as Hrdy.
  apply list_elem_of_split in Hin as (l1 & l2 & E).
  destruct (MRT_rdyQ_rmv_spec k Q p r l1 l2 Hrdy Hp Hpr E) as (m1 & Hrun1 & Hs1 & Hr1 & Hu1).
  rewrite (bind_ok _ _ _ _ _ Hrun1). krun. rewrite (Z.mod_small prty) by lia.
  set (Q1 := <[HP PRdy (rt_priority (rt r)) := l1 ++ l2]> Q) in *.
  change (r <| rt ::= λ a, a <| rt_priority := prty |> |>) with (inherited prty r).
  set (k2 := k <| lm := m1 |> <| procs ::= <[p := inherited prty r]> |>).
  assert (Hr2 : rdy_inv k2 Q1).
  { apply (rdy_inv_procs (k <| lm := m1 |>) Q1 _ p Hr1 Hu1). intros n Hn. by rewrite lookup_insert_ne. }
  destruct (MRT_rdyQ_ins_spec k2 Q1 p (inherited prty r)) as (m2 & Hrun2 & Hs2 & Hr3); [done|cbn; by rewrite lookup_insert_eq|done| |done|].
  { destruct (linv_in_links (lm k) Q (HP PRdy (rt_priority (rt r))) (LProc p)) as [lk Hlk]; [apply Hrdy|rewrite E; set_solver|].
    destruct Hs1 as [_ [Hpay _ _]]. specialize (Hpay (LProc p)). rewrite Hlk in Hpay. cbn.
    destruct (links m1 !! LProc p); [by eexists|done]. }
  cbn [inherited rt_priority rt] in Hs2, Hr3.
  set (Q2 := <[HP PRdy prty := LProc p :: Q1 (HP PRdy prty)]> Q1) in *.
  exists (k2 <| lm := m2 |>), Q2. split; [exact Hrun2|].
  assert (HQ2 : Q2 (HP PRdy prty) = LProc p :: Q (HP PRdy prty)).
  { unfold Q2, Q1. rewrite fn_lookup_insert, fn_lookup_insert_ne; [done|]. injection. lia. }
  split_and!; [|done|by destruct k|cbn; etrans; [apply Hs1|apply Hs2]|done|].
  - eapply (rt_inv_upd k); [done|done|done|exact Hi|done|exact Hr3| | |].
    + intros n r' Hne Hn Hrt' Hrr'. pose proof (rti_in _ _ Hi _ _ Hn Hrt' Hrr') as Hin'.
      unfold Q2, Q1. destruct (decide (rt_priority (rt r') = prty)) as [Eq|Hne'].
      * rewrite Eq in *. rewrite fn_lookup_insert, fn_lookup_insert_ne by (injection; lia). apply elem_of_cons. by right.
      * rewrite fn_lookup_insert_ne by congruence. destruct (decide (rt_priority (rt r') = rt_priority (rt r))) as [Eq|Hq].
        -- rewrite Eq, fn_lookup_insert. rewrite Eq, E in Hin'. apply elem_of_app in Hin' as [?|Hin']; [set_solver|].
           apply elem_of_cons in Hin' as [[=]|?]; [done|set_solver].
        -- by rewrite fn_lookup_insert_ne by congruence.
    + intros _ _. rewrite HQ2. set_solver.
    + intros q n r' Hn Hr'. destruct (decide (n = p)) as [->|Hne]; [by assert (r' = r) as -> by congruence|].
      apply (rti_out _ _ Hi q n r'); [|done]. revert Hn. unfold Q2, Q1.
      destruct (decide (q = prty)) as [->|Hq].
      * rewrite fn_lookup_insert, fn_lookup_insert_ne by (injection; lia). intros [[=]|?]%elem_of_cons; done.
      * rewrite fn_lookup_insert_ne by congruence. destruct (decide (q = rt_priority (rt r))) as [->|Hq'].
        -- rewrite fn_lookup_insert, E. set_solver.
        -- by rewrite fn_lookup_insert_ne by congruence.
  - intros H HH. unfold Q2, Q1. by rewrite !fn_lookup_insert_ne by done.
Qed.

Definition bpip_on (k : kstate) : Prop := TEST_BIT (sv_flags (sv k)) MRT_BPIP = true.

Lemma prio_lookup k n r : procs k !! n = Some r → prio k n = rt_priority (rt r).
Proof. intros H. unfold prio. by rewrite H. Qed.

Lemma wait_target_ready k n r : procs k !! n = Some r → MRT_is_rtready r → wait_target k n = None.
Proof. intros H Hr. unfold wait_target. rewrite H. cbn. by destruct (MRT_is_rtready r). Qed.

Lemma inherit_blocked k Q p r prty :
  rt_inv k Q → procs k !! p = Some r → MRT_is_rtready r = false → 0 ≤ prty < 16 →
  rt_inv (k <| procs ::= <[p := inherited prty r]> |>) Q.
Proof.
  intros Hi Hp Hr Hprty. eapply (rt_inv_upd k); [done|done|done|exact Hi|done| | | |].
  - destruct (rti_rdy _ _ Hi) as [Hq Hpl Ht Hpr]. constructor; try done. intros q x Hx.
    destruct (Hpr q x Hx) as (n & rn & -> & Hn & Hrn). cbn.
    destruct (decide (n = p)) as [->|Hne]; [|exists n, rn; by rewrite lookup_insert_ne].
    pose proof (rti_out _ _ Hi _ _ _ Hx Hp) as Hrr. by rewrite Hr in Hrr.
  - intros n r' _ Hn Hrt Hrr. by apply (rti_in _ _ Hi).
  - intros _ Hrr. by rewrite Hr in Hrr.
  - intros q n r' Hn Hr'. by apply (rti_out _ _ Hi q n r').
Qed.

(** [MRT_inherit] restores the invariant along the chain of waiting processes. *)
Lemma MRT_inherit_spec fuel : ∀ prty p k Q r,
  rt_inv k Q → bpip_on k → 0 ≤ prty < 16 → procs k !! p = Some r → MRT_is_realtime r →
  pi_except k prty p → (above k prty < fuel)%nat →
  ∃ k' Q', MRT_inherit fuel prty p k = Ok k' () ∧ rt_inv k' Q' ∧ pi_ok k' ∧
    inh_frame prty k k' ∧ (∀ H, (∀ q, H ≠ HP PRdy q) → Q' H = Q H) ∧ prio k' p ≤ prty.
Proof.
  induction fuel as [|fuel IH]; intros prty p k Q r Hi Hb Hprty Hp Hrt Hpi Hf; [lia|].
  cbn [MRT_inherit]. unfold sv_test. rewrite (bind_ok _ _ _ _ _ (gets_ok _ _)), Hb. cbn [negb].
  rewrite (bind_ok _ _ _ _ _ (ld_proc_ok _ _ _ Hp)). pose proof (prio_lookup _ _ _ Hp) as Hpp.
  destruct (Z.ltb_spec prty (rt_priority (rt r))) as [Hlt|Hge].
  2: { exists k, Q. split_and!; try done; [|apply inh_frame_refl|lia].
       intros n m Hw. destruct (Hpi n m Hw) as [?|[-> ?]]; lia. }
  destruct (MRT_is_rtready r) eqn:Hr.
  - destruct (requeue_spec k Q p r prty) as (k' & Q' & Hrun & Hi' & Hps & Hk' & Hlm & _ & HQ); try done; [by rewrite Hr|].
    exists k', Q'. assert (Hss : sems k' = sems k) by (rewrite Hk'; by destruct k). split_and!; try done.
    + eapply (pi_ok_upd k k' p prty r); try done; [lia|]. apply (wait_target_ready _ _ _ Hp). by rewrite Hr.
    + constructor; [done|done|]. intros n. rewrite Hps. destruct (decide (n = p)) as [->|Hne].
      * right. exists r. by rewrite lookup_insert_eq.
      * left. by rewrite lookup_insert_ne.
    + rewrite (prio_upd k k' p prty r Hps), decide_True; done.
  - krun. rewrite (Z.mod_small prty) by lia. cbn -[MRT_inherit].
    change (r <| rt ::= λ a, a <| rt_priority := prty |> |>) with (inherited prty r).
    set (k1 := k <| procs ::= <[p := inherited prty r]> |>).
    assert (Hi1 : rt_inv k1 Q) by (by apply inherit_blocked).
    assert (Hp1 : procs k1 !! p = Some (inherited prty r)) by (cbn; by rewrite lookup_insert_eq).
    assert (Hif : inh_frame prty k k1).
    { constructor; [by destruct k|reflexivity|]. intros n. destruct (decide (n = p)) as [->|Hne].
      - right. by exists r.
      - left. cbn. by rewrite lookup_insert_ne. }
    assert (Hpr1 : prio k1 p = prty) by (by rewrite (prio_lookup _ _ _ Hp1)).
    rewrite (bind_ok _ _ _ _ _ (inherit_next_spec k1 p _ Hp1 (rti_wait _ _ Hi1 _ _ Hp1) Hr)).
    assert (Hw : wait_target k1 p = wait_target k p) by (by eapply wait_target_upd).
    destruct (wait_target k1 p) as [m|] eqn:Em.
    + destruct (rti_target _ _ Hi1 _ _ Em) as (rm & Hm & Hrtm).
      destruct (IH prty m k1 Q rm) as (k' & Q' & Hrun & Hi' & Hok & Hfr & HQ & Hle); try done.
      * eapply (pi_except_upd k k1 p prty r); try done; [lia|]. congruence.
      * assert (above k1 prty < above k prty)%nat; [|lia].
        eapply (above_upd k k1 p prty r); try done; [apply Hi|lia].
      * exists k', Q'. split_and!; try done; [by eapply inh_frame_trans|].
        assert (prio k' p ≤ prio k1 p); [|lia]. destruct (if_procs _ _ _ Hfr p) as [E|(r' & E & Hlt' & E')].
        -- unfold prio. by rewrite E.
        -- unfold prio. rewrite E', E. cbn. lia.
    + exists k1, Q. split_and!; try done; [|lia].
      eapply (pi_ok_upd k k1 p prty r); try done. lia.
Qed.

Lemma wait_target_frame prty k k' n : inh_frame prty k k' → wait_target k' n = wait_target k n.
Proof.
  intros [E _ Hp]. assert (sems k' = sems k) as Hs by (rewrite E; by destruct k).
  unfold wait_target. rewrite Hs. destruct (Hp n) as [->|(r & -> & _ & ->)]; done.
Qed.

(** The processes [p] waits for, directly or not. *)
Definition waits_for (k : kstate) : relation Z := rtc (λ n m, wait_target k n = Some m).

Lemma waits_for_frame prty k k' p m : inh_frame prty k k' → waits_for k p m → waits_for k' p m.
Proof.
  intros Hf. induction 1 as [|a b c Hab _ IH]; [done|]. eapply rtc_l; [|exact IH].
  by rewrite (wait_target_frame _ _ _ _ Hf).
Qed.

Lemma waits_for_prio k p m : pi_ok k → waits_for k p m → prio k m ≤ prio k p.
Proof. intros Hok. induction 1 as [|a b c Hab _ IH]; [done|]. specialize (Hok _ _ Hab). lia. Qed.

(** C6: the priority inheritance protocol.  When a process of priority [prty]
    starts to wait for the real-time process [p] (so that [p] is the only
    process that may be less urgent than those waiting for it), [MRT_inherit]
    always returns, on every wait-for graph, cyclic ones included.  Afterwards
    nobody waits for a less urgent process, [p] and every process [p] waits for,
    directly or transitively, are at least as urgent as [prty], the ready lists
    agree with the new priorities, and nothing but ready lists and
    less urgent priorities has changed, the base priorities in particular not. *)
Theorem inherit_restores_priorities prty p k Q r :
  rt_inv k Q → bpip_on k → 0 ≤ prty < 16 → procs k !! p = Some r → MRT_is_realtime r →
  pi_except k prty p →
  ∃ k' Q', MRT_inherit inherit_fuel prty p k = Ok k' () ∧ rt_inv k' Q' ∧ pi_ok k' ∧
    inh_frame prty k k' ∧ (∀ H, (∀ q, H ≠ HP PRdy q) → Q' H = Q H) ∧
    (∀ m, waits_for k p m → prio k' m ≤ prty).
Proof.
  intros Hi Hb Hprty Hp Hrt Hpi. pose proof (above_bound k prty) as Hab.
  destruct (MRT_inherit_spec inherit_fuel prty p k Q r) as (k' & Q' & H); try done;
    [unfold inherit_fuel; lia|].
  destruct H as (Hrun & Hi' & Hok & Hf & HQ & Hle). exists k', Q'. split_and!; try done.
  intros m Hm. pose proof (waits_for_prio k' p m Hok (waits_for_frame _ _ _ _ _ Hf Hm)). lia.
Qed.

(** Process 4 (priority 9) is blocked sending to process 5 (priority 9, ready);
    process 3 (priority 2) has just blocked receiving from process 4. *)
Definition pi_procs : gmap Z proc :=
  <[3 := (rt_proc 3 2) <| rt ::= λ a, a <| rt_flags := MRT_MBX_RCV |> |> <| pfrom := Some 4 |>]>
  (<[4 := (rt_proc 4 9) <| rt ::= λ a, a <| rt_flags := MRT_MBX_SND |> |> <| pto := Some 5 |>]>
  (<[5 := rt_proc 5 9]> (procs bss))).

Definition pi_bss : kstate :=
  bss <| procs := pi_procs |> <| sv ::= λ v, v <| sv_flags := MRT_BPIP |> |>.

Lemma pi_procs_inv n r : pi_procs !! n = Some r →
  n = 3 ∨ n = 4 ∨ n = 5 ∨ (n ≠ 3 ∧ n ≠ 4 ∧ n ≠ 5 ∧ r = bss_proc n ∧ - NR_TASKS ≤ n < NR_PROCS).
Proof.
  unfold pi_procs. intros [[<- _]|[? H]]%lookup_insert_Some; [by left|].
  apply lookup_insert_Some in H as [[<- _]|[? H]]; [by right; left|].
  apply lookup_insert_Some in H as [[<- _]|[? H]]; [by right; right; left|].
  apply bss_procs_inv in H as [-> ?]. repeat right. split_and!; auto; lia.
Qed.

Lemma pi_wait m n t : wait_target (pi_bss <| lm := m |>) n = Some t →
  (n = 3 ∧ t = 4) ∨ (n = 4 ∧ t = 5).
Proof.
  unfold wait_target. cbn. destruct (pi_procs !! n) as [r|] eqn:E; [|done]. cbn.
  destruct (pi_procs_inv _ _ E) as [->|[->|[->|(_ & _ & _ & -> & _)]]]; vm_compute in E; try injection E as <-; cbn; naive_solver.
Qed.

Lemma pi_bss_inv : ∃ m, MRT_ready 5 pi_bss = Ok (pi_bss <| lm := m |>) () ∧
  rt_inv (pi_bss <| lm := m |>) (<[HP PRdy 9 := [LProc 5]]> (λ _, [])).
Proof.
  destruct (MRT_rdyQ_app_spec pi_bss (λ _, []) 5 (rt_proc 5 9)) as (m & Hrun & Hs & Hi);
    [|reflexivity|reflexivity|cbn; lia|by eexists|by intros ? Hx%elem_of_nil|].
  { destruct bss_sched_inv as [[] _ _ _]. constructor; try done. by intros p x Hx%elem_of_nil. }
  exists m. split; [exact Hrun|]. change (rt_priority (rt (rt_proc 5 9))) with 9 in Hi.
  constructor; [exact Hi|..]; clear Hi Hs Hrun.
  - intros n [r Hn]. change (pi_procs !! n = Some r) in Hn. apply pi_procs_inv in Hn as [->|[->|[->|Hn]]]; [unfold NR_TASKS, NR_PROCS; lia..|apply Hn].
  - intros n r Hn. change (pi_procs !! n = Some r) in Hn.
    destruct (pi_procs_inv _ _ Hn) as [->|[->|[->|(_ & _ & _ & -> & _)]]]; vm_compute in Hn; try injection Hn as <-; cbn; unfold MRT_PRILOWEST; lia.
  - intros n r Hn Hrt Hrr. change (pi_procs !! n = Some r) in Hn.
    destruct (pi_procs_inv _ _ Hn) as [->|[->|[->|(_ & _ & _ & -> & _)]]]; vm_compute in Hn; try injection Hn as <-; try done.
    change (rt_priority _) with 9. rewrite fn_lookup_insert. by apply list_elem_of_singleton.
  - intros p n r Hx Hn. change (pi_procs !! n = Some r) in Hn. destruct (decide (p = 9)) as [->|].
    + rewrite fn_lookup_insert, list_elem_of_singleton in Hx. injection Hx as ->. vm_compute in Hn. by injection Hn as <-.
    + rewrite fn_lookup_insert_ne in Hx by congruence. by apply elem_of_nil in Hx.
  - intros n r Hn. change (pi_procs !! n = Some r) in Hn.
    destruct (pi_procs_inv _ _ Hn) as [->|[->|[->|(_ & _ & _ & -> & _)]]]; vm_compute in Hn; try injection Hn as <-;
      repeat split; cbn; try done; by eexists.
  - intros n t [[_ ->]|[_ ->]]%pi_wait; by eexists.
Qed.

Lemma inherit_restores_priorities_witness :
  ∃ m k', MRT_ready 5 pi_bss = Ok (pi_bss <| lm := m |>) () ∧
    MRT_inherit inherit_fuel 2 4 (pi_bss <| lm := m |>) = Ok k' () ∧ pi_ok k' ∧
    prio k' 4 ≤ 2 ∧ prio k' 5 ≤ 2.
Proof.
  destruct pi_bss_inv as (m & Hrun & Hi).
  destruct (inherit_restores_priorities 2 4 (pi_bss <| lm := m |>) (<[HP PRdy 9 := [LProc 5]]> (λ _, []))
    ((rt_proc 4 9) <| rt ::= λ a, a <| rt_flags := MRT_MBX_SND |> |> <| pto := Some 5 |>))
    as (k' & Q' & Hr & _ & Hok & _ & _ & Hw); [exact Hi|reflexivity|lia|reflexivity|reflexivity| |].
  - intros n t [[-> ->]|[-> ->]]%pi_wait.
    + right. split; [done|]. by vm_compute.
    + left. by vm_compute.
  - exists m, k'. split_and!; [done..| |].
    + apply Hw, rtc_refl.
    + apply Hw. apply rtc_once. reflexivity.
Defined.
