(* ===== verification/Sem.v ===== *)
(** * Real-time semaphores (kernel/mrtsem.c)

    Allocation from a pool, [MRT_semup] and [MRT_semdown] with their priority or
    FIFO queues of waiting processes, mutexes with a carrier, timeouts through
    the waiting process's IPC timer, and the clean-up code of [mrt_set2nrt].

    Semaphore.v proves that they refine counting semaphores. *)

From stdpp Require Import base gmap strings numbers fin_maps functions list.
From S2P Require Import Prelude Lists Kernel Sched VTimer Inherit.
Local Open Scope Z_scope.

Definition MRT_sem_rst (psem : Z) : K unit :=
  st_sem psem (λ s, s <| s_value := 0 |> <| s_priority := MRT_PRILOWEST |> <| s_flags := 0 |>
    <| s_owner := HARDWARE |> <| s_ups := 0 |> <| s_downs := 0 |> <| s_carrier := None |>);;
  lists_ (MRT_link_rst (LSemA psem) (OSem psem) MRT_OBJSEM);;
  lists_ (MRT_link_rst (LSemL psem) (OSem psem) MRT_OBJSEM);;
  st_sem psem (λ s, s <| s_name := "FREE" |>);;
  lists_ (MRT_plist_rst (PSem psem)).

Definition MRT_spool_init : K unit :=
  lists_ (MRT_list_rst HSfreeL);;
  for_ 0 (Z.to_nat NR_SEM) (λ i,
    st_sem i (λ s, s <| s_index := i |>);;
    MRT_sem_rst i;;
    lists_ (MRT_list_app HSfreeL (LSemA i))).

Definition MRT_sem_alloc (rp : Z) : K (option Z) :=
  l ← lists_ (ld_list HSfreeL);
  match first l with
  | Some plink =>
      lists_ (MRT_list_rmv HSfreeL plink);;
      o ← this_of plink; psem ← as_sem o;
      r ← ld_proc rp;
      st_sem psem (λ s, s <| s_owner := p_nr r |>);;
      lists_ (MRT_list_app (HSalloc rp) plink);;
      mret (Some psem)
  | None => mret None
  end.

Definition MRT_sem_free (rp psem : Z) : K unit :=
  lists_ (MRT_list_rmv (HSalloc rp) (LSemA psem));;
  MRT_sem_rst psem;;
  lists_ (MRT_list_app HSfreeL (LSemA psem)).

(** The list of the waiting queue a process goes to. *)
Definition sproc_pty (flag : Z) (s : MRT_sem_t) (r : proc) : Z :=
  if TEST_BIT (s_flags s) flag then rt_priority (rt r) else MRT_PRIHIGHEST.

Definition MRT_sproc_app (psem rp : Z) : K unit :=
  s ← ld_sem psem; r ← ld_proc rp;
  lists_ (MRT_plist_app (PSem psem) (LProc rp) (sproc_pty SEM_PRTYORDER s r)).

Definition MRT_sproc_rmv (psem rp : Z) : K unit :=
  s ← ld_sem psem; r ← ld_proc rp;
  pl ← lists_ (ld_plist (PSem psem));
  (if p_inQ pl =? 0 then panic "MRT_sproc_rmv, inQ = 0 for semaphore " (s_index s) else mret ());;
  lists_ (MRT_plist_rmv (PSem psem) (LProc rp) (sproc_pty MQ_PRTYORDER s r)).

(** [CLR_BIT(rp->rt.flags, b); if (MRT_is_rtready(rp)) MRT_ready(rp);] *)
Definition clr_ready (rp b : Z) : K unit :=
  st_proc rp (λ r, r <| rt ::= λ a, a <| rt_flags ::= λ f, CLR_BIT f b |> |>);;
  r ← ld_proc rp;
  if MRT_is_rtready r then MRT_ready rp else mret ().

(** A mutex changes hands: the part of [MRT_semup] under [SEM_MUTEX] when [rp]
    gets the semaphore. *)
Definition mutex_pass (psem rp : Z) : K unit :=
  cur ← gets proc_ptr;
  lists_ (MRT_list_rmv (HSlock cur) (LSemL psem));;
  st_sem psem (λ s, s <| s_carrier := Some rp |>);;
  lists_ (MRT_list_app (HSlock rp) (LSemL psem));;
  s ← ld_sem psem;
  if TEST_BIT (s_flags s) SEM_PRTYINHERIT then MRT_disinherit cur else mret ().

Definition MRT_semup (psem : Z) : K Z :=
  s ← ld_sem psem;
  if s_owner s =? HARDWARE then mret E_MRT_BADSEM
  else
    (if s_value s <? 0 then
       o ← MRT_sproc_pick psem;
       match o with
       | None => panic "MRT_semup: value<0 but any process waiting on semaphore " (s_index s)
       | Some rp =>
           MRT_sproc_rmv psem rp;;
           r ← ld_proc rp;
           i ← notnull (ipcvt r);
           MRT_vtimer_stop i;;
           st_proc rp (λ r, r <| Kernel.psem := None |>);;
           (if TEST_BIT (s_flags s) SEM_MUTEX then mutex_pass psem rp else mret ());;
           clr_ready rp MRT_SEM_DOWN
       end
     else if (s_value s =? 0) && TEST_BIT (s_flags s) SEM_MUTEX then
       cur ← gets proc_ptr;
       lists_ (MRT_list_rmv (HSlock cur) (LSemL psem));;
       st_sem psem (λ s, s <| s_carrier := None |>)
     else mret ());;
    st_sem psem (λ s, s <| s_ups ::= λ u, s32 (u + 1) |>);;
    st_sem psem (λ s, s <| s_value ::= λ v, s32 (v + 1) |>);;
    mret OK.

Definition MRT_semdown (psem timeout : Z) : K Z :=
  s ← ld_sem psem;
  if s_owner s =? HARDWARE then mret E_MRT_BADSEM
  else
    cur ← gets proc_ptr;
    if (s_value s <=? 0) && (timeout =? MRT_NOWAIT) then mret E_TRY_AGAIN
    else
      (if s_value s <=? 0 then
         (if negb (timeout =? u32 MRT_FOREVER) then
            r ← ld_proc cur;
            VTSET (ipcvt r) timeout 1 MRT_ACT_DOWN (s_index s) (rt_priority (rt r))
          else mret ());;
         st_proc cur (λ r, r <| rt ::= λ a, a <| rt_flags ::= λ f, SET_BIT f MRT_SEM_DOWN |> |>);;
         st_proc cur (λ r, r <| Kernel.psem := Some psem |>);;
         MRT_unready cur;;
         MRT_sproc_app psem cur;;
         (if TEST_BIT (s_flags s) SEM_PRTYINHERIT then
            r ← ld_proc cur; s ← ld_sem psem;
            bpip ← sv_test MRT_BPIP;
            if negb bpip then mret ()
            else c ← notnull (s_carrier s); MRT_inherit inherit_fuel (rt_priority (rt r)) c
          else mret ())
       else if (s_value s =? 1) && TEST_BIT (s_flags s) SEM_MUTEX then
         st_sem psem (λ s, s <| s_carrier := Some cur |>);;
         lists_ (MRT_list_app (HSlock cur) (LSemL psem))
       else mret ());;
      st_sem psem (λ s, s <| s_downs ::= λ d, s32 (d + 1) |>);;
      st_sem psem (λ s, s <| s_value ::= λ v, s32 (v - 1) |>);;
      mret OK.

(** [for (lk = rp->slockL.first; lk != NULL; lk = rp->slockL.first)] *)
Fixpoint sem_unlock_loop (fuel : nat) (rp : Z) : K unit :=
  match fuel with
  | O => λ _, NoFuel
  | S fuel' =>
      l ← lists_ (ld_list (HSlock rp));
      match first l with
      | None => mret ()
      | Some lk => o ← this_of lk; psem ← as_sem o; MRT_semup psem;; sem_unlock_loop fuel' rp
      end
  end.
Definition MRT_sem_unlock (rp : Z) : K unit := sem_unlock_loop 32 rp.

(** The inner loop of [MRT_sem_empty]: every process waiting on [psem]. *)
Fixpoint sem_wakeall (fuel : nat) (psem : Z) : K unit :=
  match fuel with
  | O => λ _, NoFuel
  | S fuel' =>
      o ← MRT_sproc_pick psem;
      match o with
      | None => mret ()
      | Some rpp =>
          MRT_sproc_rmv psem rpp;;
          r ← ld_proc rpp;
          (match ipcvt r with Some i => MRT_vtimer_stop i | None => mret () end);;
          st_proc rpp (λ r, r <| Kernel.psem := None |>);;
          clr_ready rpp MRT_SEM_DOWN;;
          st_proc rpp (λ r, r <| p_retreg := E_MRT_EXITING |>);;
          sem_wakeall fuel' psem
      end
  end.

Fixpoint sem_empty_loop (fuel : nat) (lk : option laddr) : K unit :=
  match fuel with
  | O => λ _, NoFuel
  | S fuel' =>
      match lk with
      | None => mret ()
      | Some x =>
          o ← this_of x; psem ← as_sem o;
          sem_wakeall 64 psem;;
          k ← lists_ (ld_link x);
          sem_empty_loop fuel' (next k)
      end
  end.

(** A process owns at most [NR_SEM] semaphores; a semaphore has at most one
    waiter per process. *)
Definition MRT_sem_empty (rp : Z) : K unit :=
  l ← lists_ (ld_list (HSalloc rp)); sem_empty_loop 32 (first l).
