(* ===== verification/Semaphore.v ===== *)
(** * Semaphores refine counting semaphores (kernel/mrtsem.c)

    The abstract view of Sem.v: a semaphore is a value, a queue of waiting
    processes per priority and, for a mutex, the process that holds it.
    [MRT_semdown] without timeout or without waiting, and [MRT_semup], implement
    it on the kernel's intrusive lists. *)

From stdpp Require Import base gmap strings numbers fin_maps functions list.
From S2P Require Import Prelude Lists Kernel Sched VTimer Inherit Sem.
Local Open Scope Z_scope.

(** ** Abstract semaphores *)

(** Values, waiting processes by priority, holders of mutexes, ready processes
    by priority. *)
Record sems_abs := mk_abs {
  val : Z → Z;
  wq : Z → Z → list Z;
  holder : Z → option Z;
  rq : Z → list Z;
}.
#[export] Instance sems_abs_eta : Eta sems_abs := λ a, mk_abs (val a) (wq a) (holder a) (rq a).

(** The first process of the most urgent non-empty list, with its priority. *)
Fixpoint first_waiting (W : Z → list Z) (p : Z) (n : nat) : option (Z * Z) :=
  match n with
  | O => None
  | S n' => match W p with x :: _ => Some (p, x) | [] => first_waiting W (p + 1) n' end
  end.

Section spec.
(** The static side: a process's priority, a semaphore's policy. *)
Context (prty : Z → Z) (order mutex : Z → bool).

Definition wprty (i n : Z) : Z := if order i then prty n else 0.

(** [n] downs [i]; [wait] tells [MRT_FOREVER] from [MRT_NOWAIT]. *)
Definition abs_down (n i : Z) (wait : bool) (a : sems_abs) : sems_abs * Z :=
  if (val a i <=? 0) && negb wait then (a, E_TRY_AGAIN)
  else
    (mk_abs (<[i := val a i - 1]> (val a))
       (if val a i <=? 0 then <[i := <[wprty i n := wq a i (wprty i n) ++ [n]]> (wq a i)]> (wq a) else wq a)
       (if mutex i && (0 <? val a i) then <[i := Some n]> (holder a) else holder a)
       (if val a i <=? 0 then <[prty n := filter (λ m, m ≠ n) (rq a (prty n))]> (rq a) else rq a), OK).

Definition abs_up (i : Z) (a : sems_abs) : sems_abs * Z :=
  match first_waiting (wq a i) 0 16 with
  | Some (p, n) =>
      (mk_abs (<[i := val a i + 1]> (val a)) (<[i := <[p := tail (wq a i p)]> (wq a i)]> (wq a))
         (if mutex i then <[i := Some n]> (holder a) else holder a)
         (<[prty n := rq a (prty n) ++ [n]]> (rq a)), OK)
  | None =>
      (mk_abs (<[i := val a i + 1]> (val a)) (wq a) (if mutex i then <[i := None]> (holder a) else holder a) (rq a), OK)
  end.
End spec.

Lemma first_waiting_Some W p n q x : first_waiting W p n = Some (q, x) →
  p ≤ q < p + Z.of_nat n ∧ (∃ l, W q = x :: l) ∧ ∀ q', p ≤ q' < q → W q' = [].
Proof.
  revert p. induction n as [|n IH]; intros p; cbn; [done|]. destruct (W p) as [|y l] eqn:E.
  - intros (Hq & Hl & Hlow)%IH. split_and!; [lia..|done|]. intros q' Hq'. destruct (decide (q' = p)) as [->|]; [done|]. apply Hlow. lia.
  - intros [= <- <-]. split_and!; [lia..|eauto|intros; lia].
Qed.

Lemma first_waiting_None W p n : first_waiting W p n = None → ∀ q, p ≤ q < p + Z.of_nat n → W q = [].
Proof.
  revert p. induction n as [|n IH]; intros p; cbn; [lia|]. destruct (W p) as [|y l] eqn:E; [|done].
  intros HW q Hq. destruct (decide (q = p)) as [->|]; [done|]. apply (IH _ HW). lia.
Qed.

Lemma pq_first_waiting Q P W p n : (∀ q, Q (HP P q) = LProc <$> W q) →
  pq_first Q P p n = (λ x, LProc x.2) <$> first_waiting W p n.
Proof. intros HQ. revert p. induction n as [|n IH]; intros p; cbn; [done|]. rewrite HQ. destruct (W p); cbn; [apply IH|done]. Qed.

(** ** The representation *)

Section sim.
Context (live : Z → Prop) (prty : Z → Z) (order mutex : Z → bool).

Definition status (r : proc) : Z := Z.land (rt_flags (rt r)) MRT_P_STATUS.

(** The IPC timer of a process is allocated and does not run. *)
Definition idle_vt (k : kstate) (Q : lhead → list laddr) (r : proc) : Prop :=
  ∃ j v, ipcvt r = Some j ∧ vtimers k !! j = Some v ∧ vt_flags v = VT_ALLOC ∧
    is_Some (links (lm k) !! LVt j) ∧ unlinked Q (LVt j).

Record proc_ok (k : kstate) (Q : lhead → list laddr) (n : Z) (r : proc) : Prop := {
  po_link : is_Some (links (lm k) !! LProc n);
  po_run : may_run r;
  po_prty : rt_priority (rt r) = prty n;
  po_range : 0 ≤ prty n < 16;
  po_lock : is_Some (lists (lm k) !! HSlock n);
  po_vt : idle_vt k Q r;
}.

Record sem_rep (k : kstate) (Q : lhead → list laddr) (a : sems_abs) (i : Z) (s : MRT_sem_t) : Prop := {
  sr_owner : s_owner s ≠ HARDWARE;
  sr_value : s_value s = val a i;
  sr_order : TEST_BIT (s_flags s) SEM_PRTYORDER = order i;
  sr_mutex : TEST_BIT (s_flags s) SEM_MUTEX = mutex i;
  sr_plain : TEST_BIT (s_flags s) SEM_PRTYINHERIT = false;
  sr_plist : is_Some (plists (lm k) !! PSem i);
  sr_queue : ∀ p, Q (HP (PSem i) p) = LProc <$> wq a i p;
  sr_count : Z.of_nat (plen Q (PSem i)) = Z.max 0 (- val a i);
  sr_link : is_Some (links (lm k) !! LSemL i);
  sr_carrier : mutex i = true → s_carrier s = holder a i;
  sr_held : mutex i = true → match holder a i with
    | Some c => LSemL i ∈ Q (HSlock c) ∧ val a i ≤ 0 ∧ is_Some (lists (lm k) !! HSlock c)
    | None => unlinked Q (LSemL i) ∧ val a i = 1
    end;
}.

Record sem_inv (k : kstate) (Q : lhead → list laddr) (a : sems_abs) : Prop := {
  sv_rdy : rdy_inv k Q;
  sv_ready : ∀ p, Q (HP PRdy p) = LProc <$> rq a p;
  sv_sem : ∀ i, live i → ∃ s, sems k !! i = Some s ∧ sem_rep k Q a i s;
  sv_runs : ∀ p n, n ∈ rq a p → ∃ r, procs k !! n = Some r ∧ status r = 0 ∧ proc_ok k Q n r;
  sv_waits : ∀ i p n, live i → n ∈ wq a i p → ∃ r, procs k !! n = Some r ∧ status r = MRT_SEM_DOWN ∧
    psem r = Some i ∧ p = wprty prty order i n ∧ proc_ok k Q n r;
}.

(** What an operation on semaphore [i] that moves process [x] keeps. *)
Record sem_frame (k k' : kstate) (Q Q' : lhead → list laddr) (a a' : sems_abs) (i x : Z) : Prop := {
  sf_lm : lframe (lm k) (lm k');
  sf_Q : ∀ L y, y ≠ LProc x → y ≠ LSemL i → y ∈ Q' L ↔ y ∈ Q L;
  sf_other : ∀ j p, j ≠ i → Q' (HP (PSem j) p) = Q (HP (PSem j) p);
  sf_abs : ∀ j, j ≠ i → val a' j = val a j ∧ wq a' j = wq a j ∧ holder a' j = holder a j;
  sf_sems : ∀ j, j ≠ i → sems k' !! j = sems k !! j;
  sf_procs : ∀ n, n ≠ x → procs k' !! n = procs k !! n;
  sf_vt : ∀ j v, vtimers k !! j = Some v → vt_flags v = VT_ALLOC →
    ∃ v', vtimers k' !! j = Some v' ∧ vt_flags v' = VT_ALLOC;
  sf_rq : ∀ p n, n ∈ rq a' p → n = x ∨ n ∈ rq a p;
  sf_wq : ∀ p n, n ∈ wq a' i p → n = x ∨ n ∈ wq a i p;
}.

Lemma plen_ext Q Q' P : (∀ p, Q' (HP P p) = Q (HP P p)) → plen Q' P = plen Q P.
Proof.
  intros E. unfold plen. generalize 0%nat, 16%nat. intros b c. revert b.
  induction c as [|c IH]; intros b; cbn; [done|]. by rewrite E, IH.
Qed.

Lemma proc_ok_frame k k' Q Q' a a' i x n r r' : sem_frame k k' Q Q' a a' i x → proc_ok k Q n r →
  rt_priority (rt r') = rt_priority (rt r) → may_run r' → ipcvt r' = ipcvt r → proc_ok k' Q' n r'.
Proof.
  intros Hf [H1 H2 H3 H4 H5 (j & v & Hj & Hv & Hfl & Hlk & Hu)] Ep Em Ei.
  constructor; [by apply (lframe_is_Some _ _ _ (sf_lm _ _ _ _ _ _ _ _ Hf))|done|congruence|done|by apply (sf_lm _ _ _ _ _ _ _ _ Hf)|].
  destruct (sf_vt _ _ _ _ _ _ _ _ Hf _ _ Hv Hfl) as (v' & Hv' & Hfl'). exists j, v'.
  split_and!; try done; [congruence|by apply (lframe_is_Some _ _ _ (sf_lm _ _ _ _ _ _ _ _ Hf))|].
  intros L HL. apply (Hu L). apply (sf_Q _ _ _ _ _ _ _ _ Hf) in HL; done.
Qed.

Lemma sem_rep_frame k k' Q Q' a a' i x j s : sem_frame k k' Q Q' a a' i x → j ≠ i → sem_rep k Q a j s → sem_rep k' Q' a' j s.
Proof.
  intros Hf Hj [H1 H2 H3 H4 H5 H6 H7 H8 H9 H10 H11]. destruct (sf_abs _ _ _ _ _ _ _ _ Hf j Hj) as (Ev & Ew & Eh).
  constructor; rewrite ?Ev, ?Ew, ?Eh; try done.
  - by apply (fr_plists _ _ (sf_lm _ _ _ _ _ _ _ _ Hf)).
  - intros p. by rewrite (sf_other _ _ _ _ _ _ _ _ Hf).
  - rewrite (plen_ext Q); [done|]. intros p. by apply (sf_other _ _ _ _ _ _ _ _ Hf).
  - by apply (lframe_is_Some _ _ _ (sf_lm _ _ _ _ _ _ _ _ Hf)).
  - intros Hm. specialize (H11 Hm). destruct (holder a j) as [c|].
    + destruct H11 as (Hin & ? & HL). split_and!; [|done|by apply (sf_lm _ _ _ _ _ _ _ _ Hf)].
      apply (sf_Q _ _ _ _ _ _ _ _ Hf); [done|congruence|done].
    + destruct H11 as [Hu ?]. split; [|done]. intros L HL. apply (Hu L), (sf_Q _ _ _ _ _ _ _ _ Hf); [done|congruence|done].
Qed.

Lemma sem_inv_step k k' Q Q' a a' i x s' : sem_inv k Q a → live i → sem_frame k k' Q Q' a a' i x →
  rdy_inv k' Q' → (∀ p, Q' (HP PRdy p) = LProc <$> rq a' p) →
  sems k' !! i = Some s' → sem_rep k' Q' a' i s' →
  (∀ p, x ∈ rq a' p → ∃ r, procs k' !! x = Some r ∧ status r = 0 ∧ proc_ok k' Q' x r) →
  (∀ j p, live j → x ∈ wq a' j p → ∃ r, procs k' !! x = Some r ∧ status r = MRT_SEM_DOWN ∧
     psem r = Some j ∧ p = wprty prty order j x ∧ proc_ok k' Q' x r) →
  sem_inv k' Q' a'.
Proof.
  intros [Hr HQ Hs Hru Hw] Hi Hf Hr' HQ' Hs' Hrep Hxr Hxw.
  assert (Hok : ∀ n r, n ≠ x → procs k !! n = Some r → proc_ok k Q n r → proc_ok k' Q' n r).
  { intros n r Hn Hnr Hok. eapply proc_ok_frame; try done. apply Hok. }
  constructor; [done..| | |].
  - intros j Hj. destruct (decide (j = i)) as [->|Hne]; [by exists s'|]. destruct (Hs j Hj) as (s & Hsj & Hrj).
    exists s. rewrite (sf_sems _ _ _ _ _ _ _ _ Hf) by done. split; [done|]. by eapply sem_rep_frame.
  - intros p n Hn. destruct (decide (n = x)) as [->|Hne]; [by eapply Hxr|].
    destruct (sf_rq _ _ _ _ _ _ _ _ Hf p n Hn) as [?|Hn']; [done|]. destruct (Hru p n Hn') as (r & Hnr & Hst & Hok').
    exists r. rewrite (sf_procs _ _ _ _ _ _ _ _ Hf) by done. eauto.
  - intros j p n Hj Hn. destruct (decide (n = x)) as [->|Hne]; [by eapply Hxw|].
    assert (Hn' : n ∈ wq a j p).
    { destruct (decide (j = i)) as [->|Hji]; [destruct (sf_wq _ _ _ _ _ _ _ _ Hf p n Hn); done|].
      destruct (sf_abs _ _ _ _ _ _ _ _ Hf j Hji) as (_ & E & _). by rewrite <- E. }
    destruct (Hw j p n Hj Hn') as (r & Hnr & Hst & Hps & Hp & Hok'). exists r. rewrite (sf_procs _ _ _ _ _ _ _ _ Hf) by done.
    split_and!; eauto.
Qed.
End sim.

(** ** [MRT_semdown] *)


#[local] Arguments plen : simpl never.

Section down.
Context (live : Z → Prop) (prty : Z → Z) (order mutex : Z → bool).
#[local] Abbreviation inv := (sem_inv live prty order mutex).
#[local] Abbreviation rep := (sem_rep order mutex).
#[local] Abbreviation pok := (proc_ok prty).

Definition in_range (a : sems_abs) (i : Z) : Prop := - 2 ^ 31 < val a i < 2 ^ 31 - 1.

Lemma rdy_inv_sems k k' Q : rdy_inv k Q → lm k' = lm k → procs k' = procs k → rdy_inv k' Q.
Proof. intros [H1 H2 H3 H4] E1 E2. constructor; rewrite ?E1, ?E2; done. Qed.

(** A semaphore that is up. *)
Lemma semdown_up k Q a n i t : inv k Q a → live i → in_range a i → proc_ptr k = n → n ∈ rq a (prty n) →
  0 < val a i →
  ∃ k' Q', MRT_semdown i t k = Ok k' OK ∧ inv k' Q' (abs_down prty order mutex n i true a).1 ∧ proc_ptr k' = n.
Proof.
  intros Hinv Hi Hrg Hcur Hn Hv. destruct (sv_sem _ _ _ _ _ _ _ Hinv i Hi) as (s & Hs & Hrep).
  destruct (sv_runs _ _ _ _ _ _ _ Hinv _ _ Hn) as (r & Hr & Hst & Hpok).
  unfold abs_down. rewrite (proj2 (Z.leb_gt (val a i) 0) Hv), (proj2 (Z.ltb_lt 0 (val a i)) Hv). cbn [andb]. rewrite andb_true_r.
  unfold MRT_semdown. krun. rewrite (proj2 (Z.eqb_neq _ _) (sr_owner _ _ _ _ _ _ _ Hrep)). krun.
  rewrite (sr_value _ _ _ _ _ _ _ Hrep), (proj2 (Z.leb_gt (val a i) 0) Hv), (sr_mutex _ _ _ _ _ _ _ Hrep). cbn [andb].
  set (a' := mk_abs _ _ _ _).
  (* the end of both branches *)
  assert (Hfin : ∀ k1 Q1 s1, sems k1 !! i = Some s1 → proc_ptr k1 = n → procs k1 = procs k → vtimers k1 = vtimers k →
    (∀ j, j ≠ i → sems k1 !! j = sems k !! j) → lframe (lm k) (lm k1) → qinv (lm k1) Q1 → 
    s_owner s1 = s_owner s → s_value s1 = s_value s → s_flags s1 = s_flags s →
    (∀ P p, Q1 (HP P p) = Q (HP P p)) → (∀ L y, y ≠ LSemL i → y ∈ Q1 L ↔ y ∈ Q L) →
    (mutex i = true → s_carrier s1 = Some n ∧ LSemL i ∈ Q1 (HSlock n)) →
    ∃ k' Q', (st_sem i (λ s, s <| s_downs ::= λ d, s32 (d + 1) |>);;
      st_sem i (λ s, s <| s_value ::= λ v, s32 (v - 1) |>);; mret OK) k1 = Ok k' OK ∧ inv k' Q' a' ∧ proc_ptr k' = n).
  { intros k1 Q1 s1 Hs1 Hp1 Epr Evt Hoth Hlf Hq Eo Ev Ef HQ1 Hel Hmx. krun. eexists _, Q1. split; [done|]. split; [|done].
    pose proof (sv_rdy _ _ _ _ _ _ _ Hinv) as Hrdy.
    assert (Hrdy1 : rdy_inv k1 Q1).
    { destruct Hrdy as [H1 H2 H3 H4]. constructor; [done|by apply (fr_plists _ _ Hlf)|by eapply this_ok_frame|].
      intros p x. rewrite HQ1, Epr. apply H4. }
    assert (Hfr : sem_frame k (k1 <| sems ::= <[i := s1 <| s_downs ::= λ d, s32 (d + 1) |>]> |>
        <| sems ::= <[i := s1 <| s_downs ::= λ d, s32 (d + 1) |> <| s_value ::= λ v, s32 (v - 1) |>]> |>) Q Q1 a a' i n).
    { constructor; cbn; rewrite ?Epr, ?Evt; try done; eauto.
      - intros j Hj. rewrite fn_lookup_insert_ne by done. destruct (mutex i); [rewrite fn_lookup_insert_ne by done|]; done.
      - intros j Hj. rewrite !lookup_insert_ne by done. auto. }
    eapply (sem_inv_step live prty order mutex k _ Q Q1 a a' i n); [done|done|exact Hfr|by eapply rdy_inv_sems|..]; cbn.
    - intros p. rewrite HQ1. apply Hinv.
    - apply lookup_insert_eq.
    - destruct Hrep as [R1 R2 R3 R4 R5 R6 R7 R8 R9 R10 R11]. constructor; cbn; rewrite ?fn_lookup_insert, ?Eo, ?Ev, ?Ef; try done.
      + rewrite R2. apply s32_id. unfold in_range in Hrg. lia.
      + by apply (fr_plists _ _ Hlf).
      + intros p. by rewrite HQ1.
      + rewrite (plen_ext Q) by done. lia.
      + by apply (lframe_is_Some _ _ _ Hlf).
      + intros Hm. rewrite Hm, fn_lookup_insert. by apply Hmx.
      + intros Hm. rewrite Hm, fn_lookup_insert. destruct (Hmx Hm) as [_ Hin]. split_and!; [done| |by apply Hlf, Hpok].
        specialize (R11 Hm). destruct (holder a i); [lia|]. destruct R11. lia.
    - intros p Hnp. exists r. rewrite Epr. split_and!; try done. eapply proc_ok_frame; try done. apply Hpok.
    - intros j p Hj Hnp. exfalso. destruct (sv_waits _ _ _ _ _ _ _ Hinv j p n Hj) as (r' & Hr' & Hst' & _).
      { done. } assert (r' = r) as -> by congruence. rewrite Hst in Hst'. done. }
  destruct (mutex i) eqn:Em.
  - pose proof (sr_held _ _ _ _ _ _ _ Hrep Em) as Hh. destruct (holder a i) eqn:Eh; [lia|]. destruct Hh as [Hu Hv1].
    rewrite Hv1. cbn [Z.eqb Pos.eqb andb]. rewrite Hcur. krun.
    pose proof (sv_rdy _ _ _ _ _ _ _ Hinv) as Hrdy.
    destruct (list_app_q (lm k) Q (HSlock n) (LSemL i)) as (m' & Hrun & [Hq Hlf] & _); [apply Hrdy|apply Hpok|done|apply Hrep|done|].
    erewrite bind_ok; [|apply lists_ok; exact Hrun].
    eapply (Hfin _ (<[HSlock n := Q (HSlock n) ++ [LSemL i]]> Q)); [apply lookup_insert_eq|..]; cbn; try done.
    + intros j Hj. by rewrite lookup_insert_ne.
    + intros L y Hy. destruct (decide (L = HSlock n)) as [->|HL]; [|by rewrite fn_lookup_insert_ne].
      rewrite fn_lookup_insert, elem_of_app, list_elem_of_singleton. tauto.
    + intros _. rewrite fn_lookup_insert. split; [done|]. apply elem_of_app. right. by apply list_elem_of_singleton.
  - rewrite andb_false_r. eapply (Hfin k Q s); try done. apply Hinv.
Qed.

Lemma status_set r : status r = 0 → status (r <| rt ::= λ a, a <| rt_flags ::= λ f, SET_BIT f MRT_SEM_DOWN |> |>) = MRT_SEM_DOWN.
Proof. unfold status, SET_BIT. cbn [rt rt_flags upd]. intros E. by rewrite Z.land_lor_distr_l, E. Qed.

Lemma rdy_inv_proc k k' Q n r r' : rdy_inv k Q → lm k' = lm k → procs k !! n = Some r → procs k' = <[n := r']> (procs k) →
  rt_priority (rt r') = rt_priority (rt r) → rdy_inv k' Q.
Proof.
  intros [H1 H2 H3 H4] El Hr Ep Epr. constructor; rewrite ?El; try done. intros p x Hx.
  destruct (H4 _ _ Hx) as (m & rm & -> & Hm & <-). rewrite Ep. destruct (decide (m = n)) as [->|Hne].
  - exists n, r'. rewrite lookup_insert_eq. assert (rm = r) as -> by congruence. done.
  - exists m, rm. by rewrite lookup_insert_ne.
Qed.

Lemma rq_nodup_p k Q a p : inv k Q a → NoDup (rq a p).
Proof.
  intros Hinv. pose proof (li_nodup _ _ (proj1 (ri_q _ _ (sv_rdy _ _ _ _ _ _ _ Hinv))) (HP PRdy p)) as Hnd.
  rewrite (sv_ready _ _ _ _ _ _ _ Hinv) in Hnd. by apply NoDup_fmap_1 in Hnd.
Qed.

Lemma wprty_range k Q n r i : pok k Q n r → 0 ≤ wprty prty order i n < 16.
Proof. intros Hp. unfold wprty. destruct (order i); [apply Hp|lia]. Qed.

(** A semaphore that is down: the caller blocks. *)
Lemma semdown_block k Q a n i : inv k Q a → live i → in_range a i → proc_ptr k = n → n ∈ rq a (prty n) →
  val a i ≤ 0 →
  ∃ k' Q', MRT_semdown i (u32 MRT_FOREVER) k = Ok k' OK ∧ inv k' Q' (abs_down prty order mutex n i true a).1 ∧ proc_ptr k' = n.
Proof.
  intros Hinv Hi Hrg Hcur Hn Hv. destruct (sv_sem _ _ _ _ _ _ _ Hinv i Hi) as (s & Hs & Hrep).
  destruct (sv_runs _ _ _ _ _ _ _ Hinv _ _ Hn) as (r & Hr & Hst & Hpok).
  unfold abs_down. rewrite (proj2 (Z.leb_le (val a i) 0) Hv), (proj2 (Z.ltb_ge 0 (val a i)) Hv). cbn [andb negb]. rewrite andb_false_r.
  unfold MRT_semdown. krun. rewrite (proj2 (Z.eqb_neq _ _) (sr_owner _ _ _ _ _ _ _ Hrep)). krun.
  rewrite (sr_value _ _ _ _ _ _ _ Hrep), (proj2 (Z.leb_le (val a i) 0) Hv). cbn [andb]. change (u32 MRT_FOREVER =? MRT_NOWAIT) with false.
  rewrite Z.eqb_refl. cbn [negb]. rewrite Hcur. krun.
  set (r1 := upd psem _ _). set (k1 := upd procs _ (upd procs _ k)).
  assert (Ep1 : procs k1 = <[n := r1]> (procs k)) by (cbn; by rewrite insert_insert_eq).
  assert (Hr1 : procs k1 !! n = Some r1) by (rewrite Ep1; apply lookup_insert_eq).
  pose proof (sv_rdy _ _ _ _ _ _ _ Hinv) as Hrdy.
  assert (Hrdy1 : rdy_inv k1 Q) by (by apply (rdy_inv_proc k k1 Q n r r1)).
  assert (Hpr1 : rt_priority (rt r1) = prty n) by apply Hpok.
  destruct (list_elem_of_split _ _ Hn) as (l1 & l2 & El).
  assert (HQn : Q (HP PRdy (rt_priority (rt r1))) = (LProc <$> l1) ++ LProc n :: (LProc <$> l2)).
  { by rewrite Hpr1, (sv_ready _ _ _ _ _ _ _ Hinv), El, fmap_app. }
  destruct (MRT_rdyQ_rmv_spec k1 Q n r1 (LProc <$> l1) (LProc <$> l2)) as (m2 & Hrun2 & Hq2 & Hrdy2 & Hu2); try done.
  { rewrite Hpr1. apply Hpok. }
  unfold MRT_unready. rewrite (bind_ok _ _ _ _ _ Hrun2). clear Hrun2. set (Q2 := <[HP PRdy _ := _]> Q) in *.
  set (k2 := k1 <| lm := m2 |>) in *. set (wp := wprty prty order i n).
  assert (Hsp : MRT_sproc_app i n k2 = lists_ (MRT_plist_app (PSem i) (LProc n) wp) k2).
  { unfold MRT_sproc_app. krun. unfold sproc_pty, wp, wprty. rewrite (sr_order _ _ _ _ _ _ _ Hrep), Hpr1. done. }
  destruct (MRT_plist_app_spec m2 Q2 (PSem i) (LProc n) wp) as (m3 & Hrun3 & Hq3); [apply Hq2| | | |done|].
  { eapply (qstep_plists _ _ _ _ _ Hq2), Hrep. } { by eapply wprty_range. } { apply (lframe_is_Some _ _ _ (proj2 Hq2)), Hpok. }
  set (Q3 := <[HP (PSem i) wp := _]> Q2) in *.
  rewrite bind_assoc, (bind_ok _ _ _ _ _ (eq_trans Hsp (lists_ok _ _ _ _ Hrun3))).
  rewrite (sr_plain _ _ _ _ _ _ _ Hrep). set (k3 := k2 <| lm := m3 |>). rewrite ret_bind.
  assert (Hs3 : sems k3 !! i = Some s) by done. krun. clear Hsp.
  eexists _, Q3. split; [done|]. split; [|done].
  assert (Hlf : lframe (lm k) m3) by (etrans; [apply Hq2|apply Hq3]).
  assert (HQ3 : ∀ P p, (P = PSem i ∧ p = wp) ∨ Q3 (HP P p) = Q2 (HP P p)).
  { intros P p. destruct (decide (HP P p = HP (PSem i) wp)) as [[= -> ->]|Hne]; [by left|right]. unfold Q3. by rewrite fn_lookup_insert_ne by done. }
  assert (Hrdy3 : rdy_inv k3 Q3).
  { eapply (rdy_inv_step k2 m3 Q2 Q3 Hrdy2 Hq3). intros p x Hx. left. unfold Q3 in Hx. by rewrite fn_lookup_insert_ne in Hx. }
  assert (Hfil : filter (λ m, m ≠ n) (rq a (prty n)) = l1 ++ l2).
  { rewrite El. apply filter_ne_middle. rewrite <- El. by eapply rq_nodup_p. }
  rewrite Hfil. set (a' := mk_abs _ _ _ _).
  match goal with |- sem_inv _ _ _ _ ?k' _ _ => set (k4 := k') end.
  assert (Hpr4 : procs k4 = <[n := r1]> (procs k)) by done.
  assert (Hfr : sem_frame k k4 Q Q3 a a' i n).
  { constructor.
    - done.
    - intros L y Hy _. unfold Q3. destruct (decide (L = HP (PSem i) wp)) as [->|HL3]; [rewrite fn_lookup_insert|rewrite (fn_lookup_insert_ne Q2) by done].
      + rewrite elem_of_app, list_elem_of_singleton. unfold Q2. rewrite fn_lookup_insert_ne by done. tauto.
      + unfold Q2. destruct (decide (L = HP PRdy (rt_priority (rt r1)))) as [->|HL2]; [rewrite fn_lookup_insert|by rewrite fn_lookup_insert_ne].
        rewrite HQn, !elem_of_app, elem_of_cons. tauto.
    - intros j p Hj. unfold Q3, Q2. by rewrite !fn_lookup_insert_ne by congruence.
    - intros j Hj. cbn. by rewrite !fn_lookup_insert_ne by done.
    - intros j Hj. cbn. by rewrite !lookup_insert_ne by done.
    - intros m Hm. rewrite Hpr4. by rewrite lookup_insert_ne.
    - intros j v Hj Hfl. by exists v.
    - intros p m. cbn. destruct (decide (p = prty n)) as [->|Hp]; [rewrite fn_lookup_insert, El|rewrite fn_lookup_insert_ne by done; by right].
      rewrite !elem_of_app, elem_of_cons. tauto.
    - intros p m. cbn. rewrite fn_lookup_insert. fold wp. destruct (decide (p = wp)) as [->|Hp]; [rewrite fn_lookup_insert|rewrite fn_lookup_insert_ne by done; by right].
      rewrite elem_of_app, list_elem_of_singleton. tauto. }
  assert (Hpok4 : pok k4 Q3 n r1) by (eapply proc_ok_frame; [exact Hfr|exact Hpok|done|apply Hpok|done]).
  assert (Hnot : ∀ p, n ∉ rq a' p).
  { intros p Hp. apply (Hu2 (HP PRdy p)). unfold Q2. change (n ∈ <[prty n := l1 ++ l2]> (rq a) p) in Hp. rewrite Hpr1. destruct (decide (p = prty n)) as [->|Hne].
    - rewrite fn_lookup_insert in Hp. rewrite fn_lookup_insert. rewrite <- fmap_app. by apply list_elem_of_fmap_2.
    - rewrite fn_lookup_insert_ne in Hp by done. rewrite fn_lookup_insert_ne by congruence.
      rewrite (sv_ready _ _ _ _ _ _ _ Hinv). by apply list_elem_of_fmap_2. }
  eapply (sem_inv_step live prty order mutex k k4 Q Q3 a a' i n); [done|done|exact Hfr|by eapply (rdy_inv_sems k3)|..].
  - intros p. unfold Q3, a'. cbn. rewrite fn_lookup_insert_ne by done. unfold Q2. rewrite Hpr1.
    destruct (decide (p = prty n)) as [->|Hp]; [by rewrite !fn_lookup_insert, fmap_app|].
    rewrite !fn_lookup_insert_ne by congruence. apply Hinv.
  - apply lookup_insert_eq.
  - destruct Hrep as [R1 R2 R3 R4 R5 R6 R7 R8 R9 R10 R11]. constructor; cbn; rewrite ?fn_lookup_insert; try done.
    + rewrite R2. apply s32_id. unfold in_range in Hrg. lia.
    + by apply (fr_plists _ _ Hlf).
    + intros p. fold wp. unfold Q3. destruct (decide (p = wp)) as [->|Hp].
      * rewrite !fn_lookup_insert, fmap_app. unfold Q2. by rewrite fn_lookup_insert_ne, R7 by done.
      * rewrite !fn_lookup_insert_ne by congruence. unfold Q2. by rewrite fn_lookup_insert_ne, R7 by done.
    + unfold Q3. rewrite plen_insert by (by eapply wprty_range). rewrite length_app. cbn [length].
      unfold Q2. rewrite plen_other by done. lia.
    + by apply (lframe_is_Some _ _ _ Hlf).
    + intros Hm. specialize (R11 Hm). destruct (holder a i) as [c|]; [|lia]. destruct R11 as (Hin & _ & HL).
      split_and!; [|lia|by apply Hlf]. unfold Q3, Q2. by rewrite !fn_lookup_insert_ne by done.
  - intros p Hp. by apply Hnot in Hp.
  - intros j p Hj Hp. destruct (decide (j = i)) as [->|Hji].
    + exists r1. rewrite Hpr4, lookup_insert_eq. split_and!; [done|by apply status_set|done| |done].
      cbn in Hp. rewrite fn_lookup_insert in Hp. fold wp in Hp. destruct (decide (p = wp)) as [|Hpw]; [done|].
      rewrite fn_lookup_insert_ne in Hp by done.
      destruct (sv_waits _ _ _ _ _ _ _ Hinv i p n Hi Hp) as (r' & Hr' & Hst' & _). assert (r' = r) as -> by congruence. rewrite Hst in Hst'. done.
    + cbn in Hp. rewrite fn_lookup_insert_ne in Hp by done.
      destruct (sv_waits _ _ _ _ _ _ _ Hinv j p n Hj Hp) as (r' & Hr' & Hst' & _). assert (r' = r) as -> by congruence. rewrite Hst in Hst'. done.
Qed.
End down.

(** ** [MRT_semup] *)

Section up.
Context (live : Z → Prop) (prty : Z → Z) (order mutex : Z → bool).
#[local] Abbreviation inv := (sem_inv live prty order mutex).
#[local] Abbreviation rep := (sem_rep order mutex).
#[local] Abbreviation pok := (proc_ok prty).

(** Stopping a timer that does not run. *)
Lemma stop_idle k Q r : qinv (lm k) Q → this_ok (lm k) → idle_vt k Q r →
  ∃ j v m', ipcvt r = Some j ∧ vtimers k !! j = Some v ∧ vt_flags v = VT_ALLOC ∧
    MRT_vtimer_stop j k = Ok (k <| vtimers ::= <[j := v <| vt_nextexp := 0 |> <| vt_flags := VT_ALLOC |>]> |> <| lm := m' |>) () ∧
    qstep (lm k) m' Q Q.
Proof.
  intros Hq Ht (j & v & Hj & Hv & Hfl & [l Hl] & Hu). destruct (link_rst_q (lm k) Q (LVt j) l (OVt j) MRT_OBJVT Hq Hl) as (m' & Hrun & Hst).
  { by apply Ht in Hl. } { done. }
  exists j, v, m'. split_and!; try done. unfold MRT_vtimer_stop. krun. rewrite Hfl.
  change (VT_ALLOC =? VT_FREEQ) with false. change (VT_ALLOC =? VT_ACTIVEQ) with false. change (VT_ALLOC =? VT_EXPIREDQ) with false.
  cbv iota. krun.
  erewrite lists_ok; [|exact Hrun]. done.
Qed.

Lemma sproc_pick_spec k Q a i : inv k Q a → live i →
  MRT_sproc_pick i k = Ok k (snd <$> first_waiting (wq a i) 0 16).
Proof.
  intros Hinv Hi. destruct (sv_sem _ _ _ _ _ _ _ Hinv i Hi) as (s & Hs & Hrep). pose proof (sv_rdy _ _ _ _ _ _ _ Hinv) as Hrdy.
  unfold MRT_sproc_pick. pose proof (MRT_plist_get_spec (lm k) Q (PSem i) (ri_q _ _ Hrdy) (sr_plist _ _ _ _ _ _ _ Hrep)) as Hg.
  erewrite bind_ok; [|apply lists_ok; exact Hg]. unfold pq_head.
  rewrite (pq_first_waiting Q (PSem i) (wq a i)) by apply Hrep.
  assert (k <| lm := lm k |> = k) as -> by (by destruct k).
  destruct (first_waiting (wq a i) 0 16) as [[p n]|] eqn:E; cbn [fmap option_fmap option_map snd]; [|done].
  destruct (first_waiting_Some _ _ _ _ _ E) as (Hp & (l & Hl) & _).
  destruct (sv_waits _ _ _ _ _ _ _ Hinv i p n Hi) as (r & Hr & _ & _ & _ & Hpok); [rewrite Hl; set_solver|].
  destruct (po_link _ _ _ _ _ Hpok) as [lk Hlk]. 
  erewrite bind_ok; [|eapply this_of_ok; exact Hlk]. rewrite (ri_this _ _ Hrdy _ _ Hlk). done.
Qed.

(** The first waiting process leaves the queue. *)
Lemma sproc_rmv_spec k Q a i p n : inv k Q a → live i → first_waiting (wq a i) 0 16 = Some (p, n) →
  ∃ m', MRT_sproc_rmv i n k = Ok (k <| lm := m' |>) () ∧
    qstep (lm k) m' Q (<[HP (PSem i) p := LProc <$> tail (wq a i p)]> Q) ∧
    unlinked (<[HP (PSem i) p := LProc <$> tail (wq a i p)]> Q) (LProc n).
Proof.
  intros Hinv Hi E. destruct (sv_sem _ _ _ _ _ _ _ Hinv i Hi) as (s & Hs & Hrep). pose proof (sv_rdy _ _ _ _ _ _ _ Hinv) as Hrdy.
  destruct (first_waiting_Some _ _ _ _ _ E) as (Hp & (l & Hl) & _).
  destruct (sv_waits _ _ _ _ _ _ _ Hinv i p n Hi) as (r & Hr & _ & _ & Hpw & Hpok); [rewrite Hl; set_solver|].
  assert (HQ : Q (HP (PSem i) p) = [] ++ LProc n :: (LProc <$> l)) by (by rewrite (sr_queue _ _ _ _ _ _ _ Hrep), Hl).
  destruct (MRT_plist_rmv_spec (lm k) Q (PSem i) (LProc n) p [] (LProc <$> l)) as (m' & Hrun & Hq);
    [apply Hrdy|apply Hrep|lia|done|].
  unfold MRT_sproc_rmv. krun. destruct (sr_plist _ _ _ _ _ _ _ Hrep) as [h Hh].
  erewrite bind_ok; [|apply lists_ok, ld_plist_ok; exact Hh]. 
  assert (k <| lm := lm k |> = k) as -> by (by destruct k).
  assert (Hne : p_inQ h ≠ 0).
  { rewrite (po_inQ _ _ _ _ (proj2 (ri_q _ _ Hrdy) _ _ Hh)). intros H0.
    assert (plen Q (PSem i) = 0%nat) as Hpl by lia. rewrite (proj1 (plen_0 Q (PSem i)) Hpl p) in HQ by lia. done. }
  rewrite (proj2 (Z.eqb_neq _ _) Hne). krun.
  assert (sproc_pty MQ_PRTYORDER s r = p) as ->.
  { unfold sproc_pty. change MQ_PRTYORDER with SEM_PRTYORDER.
    rewrite (sr_order _ _ _ _ _ _ _ Hrep), (po_prty _ _ _ _ _ Hpok), Hpw. done. }
  exists m'. rewrite Hl. cbn [tail]. split; [by apply lists_ok|]. split; [done|].
  destruct Hrdy as [[Hlk _] _ _ _]. intros L. destruct (decide (L = HP (PSem i) p)) as [->|HL].
  - rewrite fn_lookup_insert. pose proof (li_nodup _ _ Hlk (HP (PSem i) p)) as Hnd. rewrite HQ in Hnd. by apply NoDup_cons in Hnd as [? _].
  - rewrite fn_lookup_insert_ne by done. intros Hx. apply HL, (li_disj _ _ Hlk _ _ _ Hx). rewrite HQ. set_solver.
Qed.

(** A held mutex changes hands. *)
Lemma mutex_pass_spec k Q i n c s : qinv (lm k) Q → proc_ptr k = c → sems k !! i = Some s →
  TEST_BIT (s_flags s) SEM_PRTYINHERIT = false → LSemL i ∈ Q (HSlock c) →
  is_Some (lists (lm k) !! HSlock c) → is_Some (lists (lm k) !! HSlock n) → is_Some (links (lm k) !! LSemL i) →
  ∃ m' Q', mutex_pass i n k = Ok (k <| sems ::= <[i := s <| s_carrier := Some n |>]> |> <| lm := m' |>) () ∧
    qstep (lm k) m' Q Q' ∧ (∀ P p, Q' (HP P p) = Q (HP P p)) ∧ (∀ L y, y ≠ LSemL i → y ∈ Q' L ↔ y ∈ Q L) ∧
    LSemL i ∈ Q' (HSlock n).
Proof.
  intros Hq Hc Hs Hin Hel HLc HLn Hlk. destruct (list_elem_of_split _ _ Hel) as (l1 & l2 & El).
  destruct (list_rmv_q (lm k) Q (HSlock c) l1 (LSemL i) l2) as (m1 & Hrun1 & [Hq1 Hf1] & _); [done..|].
  set (Q1 := <[HSlock c := l1 ++ l2]> Q) in *.
  assert (Hu : unlinked Q1 (LSemL i)).
  { destruct Hq as [Hl _]. intros L. unfold Q1. destruct (decide (L = HSlock c)) as [->|HL].
    - rewrite fn_lookup_insert. pose proof (li_nodup _ _ Hl (HSlock c)) as Hnd. rewrite El, <- Permutation_middle in Hnd.
      by apply NoDup_cons in Hnd as [? _].
    - rewrite fn_lookup_insert_ne by done. intros Hx. by apply HL, (li_disj _ _ Hl _ _ _ Hx). }
  destruct (list_app_q m1 Q1 (HSlock n) (LSemL i)) as (m2 & Hrun2 & [Hq2 Hf2] & _);
    [done|by apply Hf1|done|by apply (lframe_is_Some _ _ _ Hf1)|done|].
  exists m2, (<[HSlock n := Q1 (HSlock n) ++ [LSemL i]]> Q1). unfold mutex_pass. krun. rewrite Hc.
  erewrite bind_ok; [|apply lists_ok; exact Hrun1]. krun. erewrite bind_ok; [|apply lists_ok; exact Hrun2]. krun. cbn. rewrite Hin.
  split; [done|]. split; [split; [done|by etrans]|]. split; [|split].
  - intros P p. unfold Q1. by rewrite !fn_lookup_insert_ne by done.
  - assert (H1 : ∀ L y, y ≠ LSemL i → y ∈ Q1 L ↔ y ∈ Q L).
    { intros L y Hy. unfold Q1. destruct (decide (L = HSlock c)) as [->|HL]; [|by rewrite fn_lookup_insert_ne].
      rewrite fn_lookup_insert, El, !elem_of_app, elem_of_cons. tauto. }
    intros L y Hy. rewrite <- (H1 L y Hy). destruct (decide (L = HSlock n)) as [->|HL]; [|by rewrite fn_lookup_insert_ne].
    rewrite fn_lookup_insert, elem_of_app, list_elem_of_singleton. tauto.
  - rewrite fn_lookup_insert. apply elem_of_app. right. by apply list_elem_of_singleton.
Qed.

Lemma status_clr r : status r = MRT_SEM_DOWN →
  status (r <| rt ::= λ a, a <| rt_flags ::= λ f, CLR_BIT f MRT_SEM_DOWN |> |>) = 0.
Proof.
  unfold status, CLR_BIT. cbn [rt rt_flags upd]. intros E. rewrite <- Z.land_assoc, (Z.land_comm (Z.lnot _)), Z.land_assoc, E. done.
Qed.

(** A process waits: the first of the most urgent gets the semaphore. *)
Lemma semup_wake k Q a i p n : inv k Q a → live i → in_range a i → (mutex i = true → holder a i = Some (proc_ptr k)) →
  first_waiting (wq a i) 0 16 = Some (p, n) →
  ∃ k' Q', MRT_semup i k = Ok k' OK ∧ inv k' Q' (abs_up prty mutex i a).1 ∧ proc_ptr k' = proc_ptr k.
Proof.
  intros Hinv Hi Hrg Hhold E. destruct (sv_sem _ _ _ _ _ _ _ Hinv i Hi) as (s & Hs & Hrep).
  pose proof (sv_rdy _ _ _ _ _ _ _ Hinv) as Hrdy.
  destruct (first_waiting_Some _ _ _ _ _ E) as (Hp & (l & Hl) & _).
  destruct (sv_waits _ _ _ _ _ _ _ Hinv i p n Hi) as (r & Hr & Hst & _ & Hpw & Hpok); [rewrite Hl; set_solver|].
  assert (Hv : val a i < 0).
  { pose proof (sr_count _ _ _ _ _ _ _ Hrep) as Hc. destruct (Z.lt_ge_cases (val a i) 0); [done|].
    assert (plen Q (PSem i) = 0%nat) as Hpl by lia. pose proof (proj1 (plen_0 Q (PSem i)) Hpl p ltac:(lia)) as H0.
    rewrite (sr_queue _ _ _ _ _ _ _ Hrep), Hl in H0. done. }
  unfold abs_up. rewrite E. unfold MRT_semup. krun. rewrite (proj2 (Z.eqb_neq _ _) (sr_owner _ _ _ _ _ _ _ Hrep)).
  rewrite (sr_value _ _ _ _ _ _ _ Hrep), (proj2 (Z.ltb_lt (val a i) 0) Hv).
  rewrite !bind_assoc, (bind_ok _ _ _ _ _ (sproc_pick_spec k Q a i Hinv Hi)), E. cbn [fmap option_fmap option_map snd].
  destruct (sproc_rmv_spec k Q a i p n Hinv Hi E) as (m1 & Hrun1 & Hq1 & Hu1). rewrite !bind_assoc, (bind_ok _ _ _ _ _ Hrun1). clear Hrun1.
  set (Q1 := <[HP (PSem i) p := _]> Q) in *. set (k1 := k <| lm := m1 |>) in *. krun.
  assert (Hvt1 : idle_vt k1 Q1 r).
  { destruct (po_vt _ _ _ _ _ Hpok) as (j & v & H1 & H2 & H3 & H4 & H5). exists j, v. split_and!; try done.
    - by apply (lframe_is_Some _ _ _ (proj2 Hq1)).
    - intros L. unfold Q1. destruct (decide (L = HP (PSem i) p)) as [->|HL]; [rewrite fn_lookup_insert|rewrite fn_lookup_insert_ne by done; apply H5].
      intros (? & ? & _)%list_elem_of_fmap. done. }
  destruct (stop_idle k1 Q1 r (proj1 Hq1) (this_ok_frame _ _ (proj2 Hq1) (ri_this _ _ Hrdy)) Hvt1) as (j & v & m2 & Hj & Hvj & Hvfl & Hrun2 & Hq2).
  rewrite Hj. krun. rewrite (bind_ok _ _ _ _ _ Hrun2). clear Hrun2. krun.
  match goal with |- ∃ _ _, _ ?st = _ ∧ _ => set (k2 := st) end.
  assert (Hlf2 : lframe (lm k) (lm k2)) by (etrans; [apply Hq1|apply Hq2]).
  (* the mutex *)
  assert (∃ k3 Q3 s3, (if TEST_BIT (s_flags s) SEM_MUTEX then mutex_pass i n else mret ()) k2 = Ok k3 () ∧
    qinv (lm k3) Q3 ∧ lframe (lm k) (lm k3) ∧ (∀ P q, Q3 (HP P q) = Q1 (HP P q)) ∧ (∀ L y, y ≠ LSemL i → y ∈ Q3 L ↔ y ∈ Q1 L) ∧
    (mutex i = true → LSemL i ∈ Q3 (HSlock n) ∧ s_carrier s3 = Some n) ∧
    procs k3 = procs k2 ∧ vtimers k3 = vtimers k2 ∧ proc_ptr k3 = proc_ptr k2 ∧ sems k3 !! i = Some s3 ∧
    (∀ j, j ≠ i → sems k3 !! j = sems k !! j) ∧ s_owner s3 = s_owner s ∧ s_value s3 = s_value s ∧ s_flags s3 = s_flags s)
    as (k3 & Q3 & s3 & Hrun3 & Hq3 & Hlf3 & HQ3 & Hel3 & Hmx3 & Epr3 & Evt3 & Ept3 & Hs3 & Hoth3 & Eo3 & Ev3 & Ef3).
  { rewrite (sr_mutex _ _ _ _ _ _ _ Hrep). destruct (mutex i) eqn:Em.
    - pose proof (sr_held _ _ _ _ _ _ _ Hrep Em) as Hh. rewrite (Hhold eq_refl) in Hh. destruct Hh as (Hin & _ & HLc).
      destruct (mutex_pass_spec k2 Q1 i n (proc_ptr k) s) as (m3 & Q3 & Hrun3 & [Hq3 Hf3] & HQ3 & Hel3 & Hin3); try done.
      + apply Hq2.
      + apply Hrep.
      + by apply Hlf2.
      + apply Hlf2, Hpok.
      + apply (lframe_is_Some _ _ _ Hlf2), Hrep.
      + eexists _, Q3, (s <| s_carrier := Some n |>). split; [exact Hrun3|]. split; [done|]. split; [by etrans|]. split; [done|]. split; [done|].
        split; [done|]. do 3 (split; [done|]). split; [apply lookup_insert_eq|]. split; [|done].
        intros j' Hj'. cbn. by rewrite lookup_insert_ne.
    - exists k2, Q1, s. split; [done|]. split; [apply Hq2|]. done. }
  rewrite (bind_ok _ _ _ _ _ Hrun3). clear Hrun3.
  (* the process becomes ready *)
  assert (Hr3 : procs k3 !! n = Some (r <| psem := None |>)) by (rewrite Epr3; apply lookup_insert_eq).
  set (r4 := r <| psem := None |> <| rt ::= λ a, a <| rt_flags ::= λ f, CLR_BIT f MRT_SEM_DOWN |> |>).
  set (k4 := k3 <| procs ::= <[n := r4]> |>).
  assert (Hst4 : status r4 = 0) by (by apply (status_clr (r <| psem := None |>))).
  assert (Hp4 : procs k4 = <[n := r4]> (procs k)) by (cbn; rewrite Epr3; cbn; by rewrite insert_insert_eq).
  assert (Hu3 : unlinked Q3 (LProc n)) by (intros L HL; apply Hel3 in HL; [|done]; by apply (Hu1 L)).
  assert (HQR : ∀ q, Q3 (HP PRdy q) = Q (HP PRdy q)) by (intros q; rewrite HQ3; unfold Q1; by rewrite fn_lookup_insert_ne).
  assert (Hrdy4 : rdy_inv k4 Q3).
  { constructor; [done|apply (fr_plists _ _ Hlf3), Hrdy|eapply this_ok_frame; [exact Hlf3|apply Hrdy]|].
    intros q x Hx. destruct (ri_proc _ _ Hrdy q x) as (m & rm & -> & Hm & Hpm); [by rewrite <- HQR|].
    exists m, rm. split_and!; try done. rewrite Hp4, lookup_insert_ne; [done|]. intros <-. by apply (Hu3 (HP PRdy q)). }
  destruct (MRT_rdyQ_app_spec k4 Q3 n r4 Hrdy4) as (m5 & Hrun5 & Hq5 & Hrdy5).
  { rewrite Hp4. apply lookup_insert_eq. } { apply Hpok. } { rewrite (po_prty _ _ _ _ _ Hpok : rt_priority (rt r4) = _). apply Hpok. }
  { apply (lframe_is_Some _ _ _ Hlf3), Hpok. } { done. }
  assert (Hclr : clr_ready n MRT_SEM_DOWN k3 = Ok (k4 <| lm := m5 |>) ()).
  { unfold clr_ready. krun. fold r4. fold k4. unfold MRT_is_rtready. fold (status r4). rewrite Hst4. cbn [Z.eqb]. exact Hrun5. }
  rewrite (bind_ok _ _ _ _ _ Hclr). clear Hclr Hrun5. 
  assert (Epr : rt_priority (rt r4) = prty n) by apply Hpok. rewrite Epr in Hq5, Hrdy5.
  set (Q5 := <[HP PRdy (prty n) := _]> Q3) in *. set (k5 := k4 <| lm := m5 |>) in *.
  assert (Hs5 : sems k5 !! i = Some s3) by done. krun.
  eexists _, Q5. split; [done|]. split; [|done]. cbn [fst]. set (a' := mk_abs _ _ _ _).
  match goal with |- sem_inv _ _ _ _ ?k' _ _ => set (k6 := k') end.
  assert (Hlf6 : lframe (lm k) (lm k6)) by (etrans; [exact Hlf3|apply Hq5]).
  assert (Hp6 : procs k6 = <[n := r4]> (procs k)) by exact Hp4.
  assert (Hel5 : ∀ L y, y ≠ LProc n → y ∈ Q5 L ↔ y ∈ Q3 L).
  { intros L y Hy. unfold Q5. destruct (decide (L = HP PRdy (prty n))) as [->|HL]; [|by rewrite fn_lookup_insert_ne].
    rewrite fn_lookup_insert, elem_of_app, list_elem_of_singleton. tauto. }
  assert (Hfr : sem_frame k k6 Q Q5 a a' i n).
  { constructor.
    - done.
    - intros L y Hy Hy'. rewrite Hel5, Hel3 by done. unfold Q1. destruct (decide (L = HP (PSem i) p)) as [->|HL]; [|by rewrite fn_lookup_insert_ne].
      rewrite fn_lookup_insert, (sr_queue _ _ _ _ _ _ _ Hrep), Hl. cbn [tail fmap list_fmap]. rewrite elem_of_cons. tauto.
    - intros j' q Hj'. unfold Q5. rewrite fn_lookup_insert_ne, HQ3 by done. unfold Q1. by rewrite fn_lookup_insert_ne by congruence.
    - intros j' Hj'. cbn. rewrite !fn_lookup_insert_ne by done. destruct (mutex i); [rewrite fn_lookup_insert_ne by done|]; done.
    - intros j' Hj'. cbn. rewrite !lookup_insert_ne by done. by apply Hoth3.
    - intros m Hm. rewrite Hp6. by rewrite lookup_insert_ne.
    - intros j' v' Hj' Hfl. change (vtimers k6) with (vtimers k3). rewrite Evt3. cbn. destruct (decide (j' = j)) as [->|Hne].
      + rewrite lookup_insert_eq. by eexists.
      + rewrite lookup_insert_ne by done. by exists v'.
    - intros q m. cbn. destruct (decide (q = prty n)) as [->|Hq']; [rewrite fn_lookup_insert|rewrite fn_lookup_insert_ne by done; by right].
      rewrite elem_of_app, list_elem_of_singleton. tauto.
    - intros q m. cbn. rewrite fn_lookup_insert. destruct (decide (q = p)) as [->|Hq']; [rewrite fn_lookup_insert|rewrite fn_lookup_insert_ne by done; by right].
      rewrite Hl. cbn [tail]. intros Hm. right. by apply list_elem_of_further. }
  assert (Hpok6 : pok k6 Q5 n r4) by (eapply proc_ok_frame; [exact Hfr|exact Hpok|done|apply Hpok|done]).
  eapply (sem_inv_step live prty order mutex k k6 Q Q5 a a' i n); [done|done|exact Hfr|by eapply (rdy_inv_sems k5)|..].
  - intros q. unfold Q5, a'. cbn. destruct (decide (q = prty n)) as [->|Hq'].
    + rewrite !fn_lookup_insert, fmap_app, HQR. by rewrite (sv_ready _ _ _ _ _ _ _ Hinv).
    + rewrite !fn_lookup_insert_ne by congruence. rewrite HQR. apply Hinv.
  - apply lookup_insert_eq.
  - destruct Hrep as [R1 R2 R3 R4 R5 R6 R7 R8 R9 R10 R11]. constructor; cbn; rewrite ?fn_lookup_insert, ?Eo3, ?Ev3, ?Ef3; try done.
    + rewrite R2. apply s32_id. unfold in_range in Hrg. lia.
    + by apply (fr_plists _ _ Hlf6).
    + intros q. unfold Q5. rewrite fn_lookup_insert_ne, HQ3 by done. unfold Q1. destruct (decide (q = p)) as [->|Hq'].
      * by rewrite !fn_lookup_insert.
      * by rewrite !fn_lookup_insert_ne by congruence.
    + unfold Q5. rewrite plen_other by done. rewrite (plen_ext Q1) by done. unfold Q1. rewrite plen_insert by lia.
      rewrite R7, Hl. cbn [tail fmap list_fmap length]. rewrite length_fmap. lia.
    + by apply (lframe_is_Some _ _ _ Hlf6).
    + intros Hm. rewrite Hm, fn_lookup_insert. by apply Hmx3.
    + intros Hm. rewrite Hm, fn_lookup_insert. destruct (Hmx3 Hm) as [Hin _]. split_and!; [|lia|by apply Hlf6, Hpok].
      apply Hel5; [done|done].
  - intros q Hq'. exists r4. rewrite Hp6, lookup_insert_eq. done.
  - intros j' q Hj' Hq'. exfalso. destruct (sv_sem _ _ _ _ _ _ _ Hinv j' Hj') as (s' & Hs' & Hrep').
    assert (Hin' : LProc n ∈ Q1 (HP (PSem j') q)); [|by apply (Hu1 _ Hin')].
    unfold Q1. cbn in Hq'. destruct (decide (j' = i)) as [->|Hj'i].
    + rewrite fn_lookup_insert in Hq'. destruct (decide (q = p)) as [->|Hqp].
      * rewrite fn_lookup_insert in Hq'. rewrite fn_lookup_insert. by apply list_elem_of_fmap_2.
      * rewrite fn_lookup_insert_ne in Hq' by done. rewrite fn_lookup_insert_ne by congruence.
        rewrite (sr_queue _ _ _ _ _ _ _ Hrep'). by apply list_elem_of_fmap_2.
    + rewrite fn_lookup_insert_ne in Hq' by done. rewrite fn_lookup_insert_ne by congruence.
      rewrite (sr_queue _ _ _ _ _ _ _ Hrep'). by apply list_elem_of_fmap_2.
Qed.
End up.

Section calls.
Context (live : Z → Prop) (prty : Z → Z) (order mutex : Z → bool).
#[local] Abbreviation inv := (sem_inv live prty order mutex).
#[local] Abbreviation rep := (sem_rep order mutex).
#[local] Abbreviation pok := (proc_ok prty).

(** Nobody waits: the value goes up, a mutex becomes free. *)
Lemma semup_free k Q a i : inv k Q a → live i → in_range a i → (mutex i = true → holder a i = Some (proc_ptr k)) →
  first_waiting (wq a i) 0 16 = None →
  ∃ k' Q', MRT_semup i k = Ok k' OK ∧ inv k' Q' (abs_up prty mutex i a).1 ∧ proc_ptr k' = proc_ptr k.
Proof.
  intros Hinv Hi Hrg Hhold E. destruct (sv_sem _ _ _ _ _ _ _ Hinv i Hi) as (s & Hs & Hrep).
  pose proof (sv_rdy _ _ _ _ _ _ _ Hinv) as Hrdy.
  assert (Hemp : ∀ q, 0 ≤ q < 16 → wq a i q = []) by (intros q Hq; apply (first_waiting_None _ _ _ E); lia).
  assert (Hpl : plen Q (PSem i) = 0%nat).
  { apply plen_0. intros q Hq. by rewrite (sr_queue _ _ _ _ _ _ _ Hrep), Hemp. }
  assert (Hv : 0 ≤ val a i) by (pose proof (sr_count _ _ _ _ _ _ _ Hrep); lia).
  unfold abs_up. rewrite E. cbn [fst]. set (a' := mk_abs _ _ _ _).
  unfold MRT_semup. krun. rewrite (proj2 (Z.eqb_neq _ _) (sr_owner _ _ _ _ _ _ _ Hrep)).
  rewrite (sr_value _ _ _ _ _ _ _ Hrep), (proj2 (Z.ltb_ge (val a i) 0) Hv), (sr_mutex _ _ _ _ _ _ _ Hrep).
  assert (∃ k1 Q1 s1, (if (val a i =? 0) && mutex i then cur ← gets proc_ptr; lists_ (MRT_list_rmv (HSlock cur) (LSemL i));;
      st_sem i (λ s, s <| s_carrier := None |>) else mret ()) k = Ok k1 () ∧
    qinv (lm k1) Q1 ∧ lframe (lm k) (lm k1) ∧ (∀ P q, Q1 (HP P q) = Q (HP P q)) ∧ (∀ L y, y ≠ LSemL i → y ∈ Q1 L ↔ y ∈ Q L) ∧
    (mutex i = true → unlinked Q1 (LSemL i) ∧ s_carrier s1 = None ∧ val a i = 0) ∧
    procs k1 = procs k ∧ vtimers k1 = vtimers k ∧ proc_ptr k1 = proc_ptr k ∧ sems k1 !! i = Some s1 ∧
    (∀ j, j ≠ i → sems k1 !! j = sems k !! j) ∧ s_owner s1 = s_owner s ∧ s_value s1 = s_value s ∧ s_flags s1 = s_flags s)
    as (k1 & Q1 & s1 & Hrun & Hq1 & Hlf & HQ1 & Hel & Hmx & Epr & Evt & Ept & Hs1 & Hoth & Eo & Ev & Ef).
  { destruct (mutex i) eqn:Em; [|rewrite andb_false_r; exists k, Q, s; split; [done|]; split; [apply Hrdy|]; done].
    pose proof (sr_held _ _ _ _ _ _ _ Hrep Em) as Hh. rewrite (Hhold eq_refl) in Hh. destruct Hh as (Hin & Hv0 & HLc).
    assert (val a i = 0) as Hv1 by lia. rewrite Hv1. cbn [Z.eqb andb]. krun.
    destruct (list_elem_of_split _ _ Hin) as (l1 & l2 & El).
    destruct (list_rmv_q (lm k) Q (HSlock (proc_ptr k)) l1 (LSemL i) l2) as (m1 & Hrun1 & [Hq1 Hf1] & _); [apply Hrdy|done..|].
    erewrite bind_ok; [|apply lists_ok; exact Hrun1]. krun. eexists _, _, (s <| s_carrier := None |>). split; [done|].
    split; [exact Hq1|]. split; [done|]. split; [intros P q; by rewrite fn_lookup_insert_ne by done|]. split_and!; try done.
    - intros L y Hy. destruct (decide (L = HSlock (proc_ptr k))) as [->|HL]; [|by rewrite fn_lookup_insert_ne].
      rewrite fn_lookup_insert, El, !elem_of_app, elem_of_cons. tauto.
    - intros _. split_and!; try done. intros L. destruct (ri_q _ _ Hrdy) as [Hl _]. destruct (decide (L = HSlock (proc_ptr k))) as [->|HL].
      + rewrite fn_lookup_insert. pose proof (li_nodup _ _ Hl (HSlock (proc_ptr k))) as Hnd. rewrite El, <- Permutation_middle in Hnd.
        by apply NoDup_cons in Hnd as [? _].
      + rewrite fn_lookup_insert_ne by done. intros Hx. by apply HL, (li_disj _ _ Hl _ _ _ Hx).
    - apply lookup_insert_eq.
    - intros j Hj. cbn. by rewrite lookup_insert_ne. }
  rewrite (bind_ok _ _ _ _ _ Hrun). clear Hrun. krun. eexists _, Q1. split; [done|]. split; [|done].
  match goal with |- sem_inv _ _ _ _ ?k' _ _ => set (k2 := k') end.
  assert (Hrdy1 : rdy_inv k1 Q1).
  { destruct Hrdy as [H1 H2 H3 H4]. constructor; [done|by apply (fr_plists _ _ Hlf)|by eapply this_ok_frame|].
    intros q x. rewrite HQ1, Epr. apply H4. }
  (* no process changes *)
  assert (Hfr : ∀ x, sem_frame k k2 Q Q1 a a' i x).
  { intros x. constructor; cbn; rewrite ?Epr, ?Evt; try done; eauto.
    - intros j Hj. rewrite fn_lookup_insert_ne by done. destruct (mutex i); [rewrite fn_lookup_insert_ne by done|]; done.
    - intros j Hj. rewrite !lookup_insert_ne by done. auto. }
  eapply (sem_inv_step live prty order mutex k k2 Q Q1 a a' i 0); [done|done|exact (Hfr 0)|by eapply (rdy_inv_sems k1)|..].
  - intros q. rewrite HQ1. apply Hinv.
  - apply lookup_insert_eq.
  - destruct Hrep as [R1 R2 R3 R4 R5 R6 R7 R8 R9 R10 R11]. constructor; cbn; rewrite ?fn_lookup_insert, ?Eo, ?Ev, ?Ef; try done.
    + rewrite R2. apply s32_id. unfold in_range in Hrg. lia.
    + by apply (fr_plists _ _ Hlf).
    + intros q. by rewrite HQ1.
    + rewrite (plen_ext Q) by done. lia.
    + by apply (lframe_is_Some _ _ _ Hlf).
    + intros Hm. rewrite Hm, fn_lookup_insert. by apply Hmx.
    + intros Hm. rewrite Hm, fn_lookup_insert. destruct (Hmx Hm) as (Hu & _ & ->). done.
  - intros q Hq. destruct (sv_runs _ _ _ _ _ _ _ Hinv q 0 Hq) as (r & Hr & Hst & Hpok). exists r.
    change (procs k2) with (procs k1). rewrite Epr. split_and!; try done. eapply proc_ok_frame; [exact (Hfr 0)|exact Hpok|done|apply Hpok|done].
  - intros j q Hj Hq. destruct (sv_waits _ _ _ _ _ _ _ Hinv j q 0 Hj Hq) as (r & Hr & Hst & Hps & Hqp & Hpok). exists r.
    change (procs k2) with (procs k1). rewrite Epr. split_and!; try done. eapply proc_ok_frame; [exact (Hfr 0)|exact Hpok|done|apply Hpok|done].
Qed.

(** *** Calls *)

(** The calls: [n] downs semaphore [i] and waits, or tries; [n] ups it. *)
Inductive sem_call := SDown (n i : Z) | STry (n i : Z) | SUp (n i : Z).

Definition run_sem (c : sem_call) : K Z :=
  match c with
  | SDown n i => modify (λ k, k <| proc_ptr := n |>);; MRT_semdown i (u32 MRT_FOREVER)
  | STry n i => modify (λ k, k <| proc_ptr := n |>);; MRT_semdown i MRT_NOWAIT
  | SUp n i => modify (λ k, k <| proc_ptr := n |>);; MRT_semup i
  end.

Definition abs_sem (c : sem_call) (a : sems_abs) : sems_abs * Z :=
  match c with
  | SDown n i => abs_down prty order mutex n i true a
  | STry n i => abs_down prty order mutex n i false a
  | SUp n i => abs_up prty mutex i a
  end.

(** A ready real-time process may down any semaphore; a mutex is upped by its
    holder only. *)
Definition sem_legal (c : sem_call) (a : sems_abs) : Prop :=
  match c with
  | SDown n i | STry n i => live i ∧ in_range a i ∧ n ∈ rq a (prty n)
  | SUp n i => live i ∧ in_range a i ∧ (mutex i = true → holder a i = Some n)
  end.

Fixpoint run_sems (cs : list sem_call) : K (list Z) :=
  match cs with [] => mret [] | c :: cs' => r ← run_sem c; rs ← run_sems cs'; mret (r :: rs) end.

Fixpoint abs_sems (cs : list sem_call) (a : sems_abs) : sems_abs * list Z :=
  match cs with
  | [] => (a, [])
  | c :: cs' => let r := abs_sem c a in let rs := abs_sems cs' r.1 in (rs.1, r.2 :: rs.2)
  end.

Fixpoint sems_legal (cs : list sem_call) (a : sems_abs) : Prop :=
  match cs with [] => True | c :: cs' => sem_legal c a ∧ sems_legal cs' (abs_sem c a).1 end.

Lemma sem_inv_ptr k Q a n : inv k Q a → inv (k <| proc_ptr := n |>) Q a.
Proof.
  intros [H1 H2 H3 H4 H5].
  assert (Hok : ∀ m r, pok k Q m r → pok (k <| proc_ptr := n |>) Q m r) by (intros m r [? ? ? ? ? ?]; by constructor).
  constructor; try done.
  - by destruct H1.
  - intros i Hi. destruct (H3 i Hi) as (s & Hs & [? ? ? ? ? ? ? ? ? ? ?]). exists s. split; [done|]. by constructor.
  - intros p m Hm. destruct (H4 p m Hm) as (r & ? & ? & ?). exists r. eauto.
  - intros i p m Hi Hm. destruct (H5 i p m Hi Hm) as (r & ? & ? & ? & ? & ?). exists r. eauto 10.
Qed.

Lemma run_sem_spec k Q a c : inv k Q a → sem_legal c a →
  ∃ k' Q', run_sem c k = Ok k' (abs_sem c a).2 ∧ inv k' Q' (abs_sem c a).1.
Proof.
  intros Hinv Hc. destruct c as [n i|n i|n i]; cbn [run_sem abs_sem sem_legal] in *; destruct Hc as (Hi & Hrg & Hn);
    rewrite (bind_ok _ _ _ _ _ (modify_ok _ _)); pose proof (sem_inv_ptr k Q a n Hinv) as Hinv'; set (k0 := k <| proc_ptr := n |>) in *.
  - unfold abs_down at 1. rewrite andb_false_r. cbn [snd]. destruct (Z.le_gt_cases (val a i) 0) as [Hv|Hv].
    + destruct (semdown_block live prty order mutex k0 Q a n i) as (k' & Q' & ? & ? & _); eauto.
    + destruct (semdown_up live prty order mutex k0 Q a n i (u32 MRT_FOREVER)) as (k' & Q' & ? & ? & _); eauto.
  - destruct (Z.le_gt_cases (val a i) 0) as [Hv|Hv].
    + unfold abs_down. rewrite (proj2 (Z.leb_le _ _) Hv). cbn [andb negb fst snd].
      destruct (sv_sem _ _ _ _ _ _ _ Hinv' i Hi) as (s & Hs & Hrep). exists k0, Q. split; [|done].
      unfold MRT_semdown. krun. rewrite (proj2 (Z.eqb_neq _ _) (sr_owner _ _ _ _ _ _ _ Hrep)). krun.
      by rewrite (sr_value _ _ _ _ _ _ _ Hrep), (proj2 (Z.leb_le _ _) Hv).
    + destruct (semdown_up live prty order mutex k0 Q a n i MRT_NOWAIT) as (k' & Q' & Hrun & Hk & _); eauto.
      exists k', Q'. unfold abs_down in *. rewrite (proj2 (Z.leb_gt _ _) Hv) in *. done.
  - unfold abs_up at 1. destruct (first_waiting (wq a i) 0 16) as [[p m]|] eqn:E; cbn [snd].
    + destruct (semup_wake live prty order mutex k0 Q a i p m) as (k' & Q' & ? & ? & _); eauto.
    + destruct (semup_free k0 Q a i) as (k' & Q' & ? & ? & _); eauto.
Qed.

Lemma run_sems_spec cs : ∀ k Q a, inv k Q a → sems_legal cs a →
  ∃ k' Q', run_sems cs k = Ok k' (abs_sems cs a).2 ∧ inv k' Q' (abs_sems cs a).1.
Proof.
  induction cs as [|c cs IH]; intros k Q a Hinv; cbn [run_sems abs_sems sems_legal]; [eauto|]. intros [Hc Hcs].
  destruct (run_sem_spec k Q a c Hinv Hc) as (k1 & Q1 & Hrun & Hinv1). destruct (IH k1 Q1 _ Hinv1 Hcs) as (k2 & Q2 & Hrun2 & Hinv2).
  exists k2, Q2. cbn [fst snd]. by rewrite (bind_ok _ _ _ _ _ Hrun), (bind_ok _ _ _ _ _ Hrun2).
Qed.
End calls.



(** *** Three processes and two semaphores *)

Lemma sem_ready live prty order mutex k Q a n r i : sem_inv live prty order mutex k Q a → live i → procs k !! n = Some r →
  status r = 0 → proc_ok prty k Q n r → unlinked Q (LProc n) → (∀ j p, live j → n ∉ wq a j p) →
  ∃ k' Q', MRT_ready n k = Ok k' () ∧ procs k' = procs k ∧ lframe (lm k) (lm k') ∧ vtimers k' = vtimers k ∧
    sem_inv live prty order mutex k' Q' (a <| rq ::= <[prty n := rq a (prty n) ++ [n]]> |>) ∧
    (∀ L y, y ≠ LProc n → y ∈ Q' L ↔ y ∈ Q L).
Proof.
  intros Hinv Hi Hn Hst Hpok Hu Hnw. destruct (sv_sem _ _ _ _ _ _ _ Hinv i Hi) as (s & Hs & Hrep).
  destruct (MRT_rdyQ_app_spec k Q n r (sv_rdy _ _ _ _ _ _ _ Hinv) Hn) as (m & Hrun & Hq & Hrdy); [apply Hpok| |apply Hpok|done|].
  { rewrite (po_prty _ _ _ _ _ Hpok). apply Hpok. }
  rewrite (po_prty _ _ _ _ _ Hpok) in Hq, Hrdy. set (Q' := <[HP PRdy (prty n) := _]> Q) in *.
  assert (Hel : ∀ L y, y ≠ LProc n → y ∈ Q' L ↔ y ∈ Q L).
  { intros L y Hy. unfold Q'. destruct (decide (L = HP PRdy (prty n))) as [->|HL]; [|by rewrite fn_lookup_insert_ne].
    rewrite fn_lookup_insert, elem_of_app, list_elem_of_singleton. tauto. }
  exists (k <| lm := m |>), Q'. split; [exact Hrun|]. split; [done|]. split; [apply Hq|]. split; [done|]. split; [|exact Hel].
  assert (Hfr : sem_frame k (k <| lm := m |>) Q Q' a (a <| rq ::= <[prty n := rq a (prty n) ++ [n]]> |>) i n).
  { constructor; try done; try apply Hq; eauto.
    - intros p m'. cbn. destruct (decide (p = prty n)) as [->|Hp]; [rewrite fn_lookup_insert|rewrite fn_lookup_insert_ne by done; by right].
      rewrite elem_of_app, list_elem_of_singleton. tauto. }
  eapply (sem_inv_step live prty order mutex k _ Q Q' a _ i n s); [done|done|exact Hfr|done| |done|..].
  - intros p. unfold Q'. cbn. destruct (decide (p = prty n)) as [->|Hp].
    + rewrite !fn_lookup_insert, fmap_app. by rewrite (sv_ready _ _ _ _ _ _ _ Hinv).
    + rewrite !fn_lookup_insert_ne by congruence. apply Hinv.
  - destruct Hrep as [R1 R2 R3 R4 R5 R6 R7 R8 R9 R10 R11]. constructor; try done.
    + apply (fr_plists _ _ (proj2 Hq)); done.
    + by apply (lframe_is_Some _ _ _ (proj2 Hq)).
    + intros Hm. specialize (R11 Hm). cbn. destruct (holder a i) as [c|].
      * destruct R11 as (? & ? & HL). split_and!; [by apply Hel|done|by apply Hq].
      * destruct R11 as [Hu' ?]. split; [|done]. intros L HL. apply Hel in HL; [|done]. by apply (Hu' L).
  - intros p Hp. exists r. split_and!; try done. eapply proc_ok_frame; [exact Hfr|exact Hpok|done|apply Hpok|done].
  - intros j p Hj Hp. by destruct (Hnw j p Hj).
Qed.

Definition demo_live (i : Z) : Prop := i = 0 ∨ i = 1.
Definition demo_prty (n : Z) : Z := if n =? 3 then 5 else if n =? 4 then 2 else 7.
Definition demo_mutex (i : Z) : bool := i =? 1.

(** Semaphore 0 counts from 1, semaphore 1 is a free mutex. *)
Definition sem_bss : kstate :=
  bss <| procs ::= λ ps, <[3 := (rt_proc 3 5) <| ipcvt := Some 3 |>]> (<[4 := (rt_proc 4 2) <| ipcvt := Some 4 |>]>
           (<[5 := (rt_proc 5 7) <| ipcvt := Some 5 |>]> ps)) |>
      <| sems ::= λ ss, <[0 := mk_sem 0 1 5 SEM_PRTYORDER 3 0 0 None "count"]>
           (<[1 := mk_sem 1 1 5 (Z.lor SEM_PRTYORDER SEM_MUTEX) 3 0 0 None "mutex"]> ss) |>.

Definition sem_a0 : sems_abs := mk_abs (λ _, 1) (λ _ _, []) (λ _, None) (λ _, []).

Lemma sem_bss_inv : sem_inv demo_live demo_prty (λ _, true) demo_mutex sem_bss (λ _, []) sem_a0.
Proof.
  constructor.
  - destruct bss_sched_inv as [[H1 H2 H3 _] _ _ _]. constructor; [exact H1|exact H2|exact H3|by intros p x ?%elem_of_nil].
  - done.
  - intros i [-> | ->]; eexists; (split; [reflexivity|]); constructor; try done; try (by eexists).
    intros _. split; [|done]. by intros L ?%elem_of_nil.
  - by intros p n ?%elem_of_nil.
  - by intros i p n _ ?%elem_of_nil.
Qed.

Lemma demo_proc_ok k Q n : n = 3 ∨ n = 4 ∨ n = 5 → procs k = procs sem_bss → lframe (lm sem_bss) (lm k) → vtimers k = vtimers sem_bss →
  (∀ j, unlinked Q (LVt j)) →
  ∃ r, procs k !! n = Some r ∧ status r = 0 ∧ proc_ok demo_prty k Q n r.
Proof.
  intros Hn Ep Hlf Ev Hu. rewrite Ep.
  assert (∃ r, procs sem_bss !! n = Some r ∧ status r = 0 ∧ may_run r ∧ rt_priority (rt r) = demo_prty n ∧ 0 ≤ demo_prty n < 16 ∧
    is_Some (links (lm sem_bss) !! LProc n) ∧ is_Some (lists (lm sem_bss) !! HSlock n) ∧
    ∃ j v, ipcvt r = Some j ∧ vtimers sem_bss !! j = Some v ∧ vt_flags v = VT_ALLOC ∧ is_Some (links (lm sem_bss) !! LVt j))
    as (r & Hr & Hst & Hm & Hp & Hrg & Hlk & HL & j & v & Hj & Hv & Hfl & Hlj).
  { destruct Hn as [->|[->| ->]]; eexists; (split; [reflexivity|]); (split; [reflexivity|]); (split; [reflexivity|]); (split; [reflexivity|]);
      (split; [vm_compute; split; congruence|]); (split; [by eexists|]); (split; [by eexists|]);
      eexists _, _; (split; [reflexivity|]); (split; [reflexivity|]); (split; [reflexivity|by eexists]). }
  exists r. split; [done|]. split; [done|]. constructor; [by apply (lframe_is_Some _ _ _ Hlf)|done|done|done|by apply Hlf|].
  exists j, v. rewrite Ev. split; [done|]. split; [done|]. split; [done|]. split; [by apply (lframe_is_Some _ _ _ Hlf)|apply Hu].
Qed.

Definition sem_a3 : sems_abs := sem_a0 <| rq := <[7 := [5]]> (<[2 := [4]]> (<[5 := [3]]> (λ _, []))) |>.

Lemma sem_demo : ∃ k Q, (MRT_ready 3;; MRT_ready 4;; MRT_ready 5) sem_bss = Ok k () ∧
  sem_inv demo_live demo_prty (λ _, true) demo_mutex k Q sem_a3.
Proof.
  assert (Hu0 : ∀ x, unlinked (λ _, []) x) by (by intros x L ?%elem_of_nil).
  destruct (demo_proc_ok sem_bss (λ _, []) 3) as (r3 & Hr3 & Hs3 & Hp3); [by left|done|done|done|by intros j|].
  destruct (sem_ready _ _ _ _ sem_bss (λ _, []) sem_a0 3 r3 0 sem_bss_inv (or_introl eq_refl) Hr3 Hs3 Hp3)
    as (k1 & Q1 & Hrun1 & Ep1 & Hl1 & Ev1 & Hi1 & He1); [apply Hu0|by intros j p _ ?%elem_of_nil|].
  assert (Hu1 : ∀ x, x ≠ LProc 3 → unlinked Q1 x) by (intros x Hx L HL%He1; [by apply Hu0 in HL|done]).
  destruct (demo_proc_ok k1 Q1 4) as (r4 & Hr4 & Hs4 & Hp4); [by right; left|done|done|done|intros j; by apply Hu1|].
  destruct (sem_ready _ _ _ _ k1 Q1 _ 4 r4 0 Hi1 (or_introl eq_refl) Hr4 Hs4 Hp4)
    as (k2 & Q2 & Hrun2 & Ep2 & Hl2 & Ev2 & Hi2 & He2); [by apply Hu1|by intros j p _ ?%elem_of_nil|].
  assert (Hu2 : ∀ x, x ≠ LProc 3 → x ≠ LProc 4 → unlinked Q2 x) by (intros x Hx Hx' L HL%He2; [by apply Hu1 in HL|done]).
  destruct (demo_proc_ok k2 Q2 5) as (r5 & Hr5 & Hs5 & Hp5);
    [by right; right|by rewrite Ep2|by etrans|by rewrite Ev2|intros j; by apply Hu2|].
  destruct (sem_ready _ _ _ _ k2 Q2 _ 5 r5 0 Hi2 (or_introl eq_refl) Hr5 Hs5 Hp5)
    as (k3 & Q3 & Hrun3 & _ & _ & _ & Hi3 & _); [by apply Hu2|by intros j p _ ?%elem_of_nil|].
  exists k3, Q3. rewrite (bind_ok _ _ _ _ _ Hrun1), (bind_ok _ _ _ _ _ Hrun2). split; [done|]. exact Hi3.
Qed.

(** Process 3 takes both; 5, then 4 wait for the mutex; 4, the more urgent one,
    gets it first. *)
Definition sem_script : list sem_call :=
  [SDown 3 0; STry 4 0; SDown 3 1; SDown 5 1; SDown 4 1; SUp 3 1; SUp 3 0; SUp 4 1; SUp 5 1].

Lemma sem_script_legal : sems_legal demo_live demo_prty (λ _, true) demo_mutex sem_script sem_a3.
Proof.
  unfold sem_script. cbn [sems_legal sem_legal]. unfold demo_live, in_range.
  repeat split; try (by left); try (by right); try (vm_compute; reflexivity); try (vm_compute; set_solver).
Qed.


