(* ===== verification/Msg.v ===== *)
(** * Real-time messages (kernel/mrtmsg.c)

    A pool of message queue entries, one message queue per real-time process,
    and the kernel calls that send and receive: [rtk_rqst] (synchronous),
    [rtk_arqst] (asynchronous), [rtk_reply], [rtk_uprqst] (with a priority chosen
    by the user), [rtk_sign], [rtk_rqrcv] (send, then wait for the reply),
    [rtk_receive] and the kernel's own [MRT_ksend].

    The five asynchronous senders share everything between the verification of
    the destination and the final inheritance: [transmit]. *)

From stdpp Require Import base gmap strings numbers fin_maps functions list.
From S2P Require Import Prelude Lists Kernel Sched VTimer Inherit Sem.
Local Open Scope Z_scope.

(** ** Pools *)

(** ["----|----|----|----|"] with its terminator. *)
Definition mqe_blank : list Z :=
  [45;45;45;45;124; 45;45;45;45;124; 45;45;45;45;124; 45;45;45;45;124; 0].

(** [strcpy] into the start of a message body. *)
Definition strcpy_body (s body : mrt_msg_t) : mrt_msg_t := s ++ drop (length s) body.

Definition MRT_mqe_rst (pmqe : Z) : K unit :=
  st_mqe pmqe (λ e, e <| e_hdr ::= λ h, mk_mhdr (mk_mrtpid HARDWARE HARDWARE) (mk_mrtpid HARDWARE HARDWARE)
    MT_MBFREE 0 0 0 MRT_PRIHIGHEST 0 (h_laxity h) |>);;
  st_mqe pmqe (λ e, e <| e_m_u ::= strcpy_body mqe_blank |>);;
  st_mqe pmqe (λ e, e <| e_pvt := None |>);;
  lists_ (MRT_link_rst (LMqe pmqe) (OMqe pmqe) MRT_OBJMQE).

Definition MRT_mpool_init : K unit :=
  for_ 0 (Z.to_nat NR_MESSAGES) (λ i,
    st_mqe i (λ e, e <| e_index := i |>);;
    MRT_mqe_rst i;;
    lists_ (MRT_list_app HMqeL (LMqe i))).

Definition MRT_msgQ_rst (pmq : Z) : K unit :=
  st_mq pmq (λ q, q <| q_size := 0 |> <| q_flags := 0 |> <| q_owner := MRTMSGQFREE |>
                    <| q_delivered := 0 |> <| q_enqueued := 0 |>);;
  lists_ (MRT_link_rst (LMq pmq) (OMq pmq) MRT_OBJMQ);;
  lists_ (MRT_plist_rst (PMq pmq)).

Definition MRT_msgQ_free (pmq : Z) : K unit :=
  MRT_msgQ_rst pmq;; lists_ (MRT_list_app HMsgQL (LMq pmq)).

Definition MRT_msgQ_init : K unit :=
  lists_ (MRT_list_rst HMqeL);;
  lists_ (MRT_list_rst HMsgQL);;
  for_ 0 (Z.to_nat NR_MSGQ) (λ i, st_mq i (λ q, q <| q_index := i |>);; MRT_msgQ_free i).

(** [size], [flags] and [owner] are the fields of the caller's descriptor. *)
Definition MRT_msgQ_alloc (size flags owner : Z) : K (option Z) :=
  l ← lists_ (ld_list HMsgQL);
  match first l with
  | Some plink =>
      lists_ (MRT_list_rmv HMsgQL plink);;
      o ← this_of plink; pmq ← as_mq o;
      st_mq pmq (λ q, q <| q_size := size |> <| q_flags := flags |> <| q_owner := owner |>);;
      mret (Some pmq)
  | None => mret None
  end.

Definition MRT_mqe_alloc : K (option Z) :=
  l ← lists_ (ld_list HMqeL);
  match first l with
  | Some plink =>
      lists_ (MRT_list_rmv HMqeL plink);;
      o ← this_of plink; pmqe ← as_mqe o;
      mret (Some pmqe)
  | None => mret None
  end.

Definition MRT_mqe_free (pmqe : Z) : K unit :=
  MRT_mqe_rst pmqe;; lists_ (MRT_list_app HMqeL (LMqe pmqe)).

(** ** Queues *)

Definition mqe_pty (q : MRT_msgQ_t) (e : MRT_mqe_t) : Z :=
  if TEST_BIT (q_flags q) MQ_PRTYORDER then h_priority (e_hdr e) else MRT_PRIHIGHEST.

Definition MRT_mqe_app (pmq mqe : Z) : K Z :=
  q ← ld_mq pmq;
  pl ← lists_ (ld_plist (PMq pmq));
  if p_inQ pl =? q_size q then mret E_MRT_MQFULL
  else
    e ← ld_mqe mqe;
    lists_ (MRT_plist_app (PMq pmq) (LMqe mqe) (mqe_pty q e));;
    st_mq pmq (λ q, q <| q_enqueued ::= λ n, s32 (n + 1) |>);;
    mret OK.

Definition MRT_mqe_rmv (pmq pmqe : Z) : K unit :=
  q ← ld_mq pmq;
  e ← ld_mqe pmqe;
  lists_ (MRT_plist_rmv (PMq pmq) (LMqe pmqe) (mqe_pty q e));;
  st_mq pmq (λ q, q <| q_delivered ::= λ n, s32 (n + 1) |>).

(** ** Pieces the senders share *)

(** The queue of a real-time process is full. *)
Definition mq_full (d : proc) : K bool :=
  q ← notnull (pmq d);
  mq ← ld_mq q;
  pl ← lists_ (ld_plist (PMq q));
  mret (p_inQ pl =? q_size mq).

(** The verification of the destination process. *)
Definition check_dest (dest pid : Z) : K Z :=
  d ← ld_proc dest;
  if negb (MRT_is_process d) then mret E_BAD_PROC
  else if negb (p_pid d =? pid) then mret E_BAD_DEST
  else if negb (MRT_is_realtime d) then mret E_MRT_BADPTYPE
  else
    full ← mq_full d;
    mret (if full : bool then E_MRT_MQFULL else OK).

(** The destination waits for a message from the running process [cur], or from
    any process ([any]). *)
Definition waits_from (any : bool) (dest cur : Z) (d : proc) : bool :=
  TEST_BIT (rt_flags (rt d)) MRT_MBX_RCV &&
  (bool_decide (pfrom d = Some cur) || (any && bool_decide (pfrom d = Some dest))).

(** The header of a new message, all fields but [laxity], with the counters it
    advances. *)
Definition fill_hdr (src dest mtype prty deadline : Z) : K (Z → mrt_mhdr_t) :=
  st_sv (λ v, v <| c_messages ::= λ n, u32 (n + 1) |>);;
  st_proc src (λ r, r <| st ::= λ t, t <| st_msgsent ::= λ n, u32 (n + 1) |> |>);;
  s ← ld_proc src;
  d ← ld_proc dest;
  mid ← gets (λ k, c_messages (sv k));
  ticks ← gets (λ k, c_ticks (sv k));
  mret (mk_mhdr (mk_mrtpid (p_pid s) (p_nr s)) (mk_mrtpid (p_pid d) (p_nr d)) mtype mid
    (st_msgsent (st s)) ticks (prty mod 256) deadline).

Definition st_um_hdr (h : mrt_mhdr_t) (a : Z) (u : umem) : umem := u <| um_hdr ::= <[a := h]> |>.
Definition st_um_msg (m : mrt_msg_t) (a : Z) (u : umem) : umem := u <| um_msg ::= <[a := m]> |>.

(** Statistics of a direct delivery; the destination is unblocked and its
    timeout stopped. *)
Definition unblock_rcv (dest : Z) : K unit :=
  st_proc dest (λ r, r <| st ::= λ t, t <| st_msgrcvd ::= λ n, u32 (n + 1) |> |>);;
  st_proc dest (λ r, r <| pfrom := None |>);;
  clr_ready dest MRT_MBX_RCV;;
  d ← ld_proc dest;
  i ← notnull (ipcvt d);
  MRT_vtimer_stop i.

Definition mq_stats (q : Z) : K unit :=
  st_mq q (λ q, q <| q_delivered ::= λ n, s32 (n + 1) |>);;
  st_mq q (λ q, q <| q_enqueued ::= λ n, s32 (n + 1) |>).

(** The message goes straight into the buffers of the waiting destination. *)
Definition deliver (dest msg : Z) (hdr : mrt_mhdr_t) (k : K Z) : K Z :=
  cur ← gets proc_ptr;
  d ← ld_proc dest;
  USR2USR dest cur (pmsg d) msg sizeof_mrt_msg_t (
    KRN2USR dest (st_um_hdr hdr) (pmhdr d) sizeof_mrt_mhdr_t (
      q ← notnull (pmq d);
      mq_stats q;;
      lists_ (st_plist (PMq q) (λ pl, pl <| p_maxinQ := MAX (p_maxinQ pl) (p_inQ pl + 1) |>));;
      unblock_rcv dest;; k)).

(** From the choice of the message queue entry to the delivery or the enqueuing
    of the message; [waiting] goes on with [delivered], otherwise [queued] gets
    the entry. *)
Definition transmit (waiting : bool) (dest mtype prty deadline msg : Z) (err : string)
    (delivered : K Z) (queued : Z → K Z) : K Z :=
  cur ← gets proc_ptr;
  if waiting then
    laxity ← gets junk;
    hdr ← fill_hdr cur dest mtype prty deadline;
    deliver dest msg (hdr laxity) delivered
  else
    oe ← MRT_mqe_alloc;
    match oe with
    | None => mret E_MRT_NOMQENT
    | Some e =>
        hdr ← fill_hdr cur dest mtype prty deadline;
        st_mqe e (λ m, m <| e_hdr ::= λ h, hdr (h_laxity h) |>);;
        USR2KRN cur um_msg msg sizeof_mrt_msg_t (λ body,
          st_mqe e (λ m, m <| e_m_u := body |>);;
          d ← ld_proc dest;
          q ← notnull (pmq d);
          rc ← MRT_mqe_app q e;
          if negb (rc =? 0) then panic err (p_nr d) else queued e)
    end.

(** [if (TEST_BIT(rp->pmq->flags, MQ_PRTYINHERIT)) f] *)
Definition if_inherit (rp : Z) (f : K unit) : K unit :=
  r ← ld_proc rp;
  q ← notnull (pmq r);
  mq ← ld_mq q;
  if TEST_BIT (q_flags mq) MQ_PRTYINHERIT then f else mret ().

(** ** The kernel calls *)

Definition MRT_ksend (src dest prty mtype : Z) : K Z :=
  d ← ld_proc dest;
  if negb (MRT_is_process d) then mret E_BAD_PROC
  else if negb (MRT_is_realtime d) then mret E_MRT_BADPTYPE
  else
    full ← mq_full d;
    if negb (negb full) then mret E_MRT_MQFULL
    else
      cur ← gets proc_ptr;
      let finish := if_inherit dest (MRT_inherit inherit_fuel prty dest);; mret OK in
      if waits_from true dest cur d then
        laxity ← gets junk;
        hdr ← fill_hdr src dest mtype prty 0;
        KRN2USR dest (st_um_hdr (hdr laxity)) (pmhdr d) sizeof_mrt_mhdr_t (
          q ← notnull (pmq d);
          mq_stats q;;
          unblock_rcv dest;;
          finish)
      else
        oe ← MRT_mqe_alloc;
        match oe with
        | None => mret E_MRT_NOMQENT
        | Some e =>
            hdr ← fill_hdr src dest mtype prty 0;
            st_mqe e (λ m, m <| e_hdr ::= λ h, hdr (h_laxity h) |>);;
            m ← ld_mqe e;
            KRN2USR dest (st_um_hdr (e_hdr m)) (pmhdr d) sizeof_mrt_mhdr_t (
              q ← notnull (pmq d);
              rc ← MRT_mqe_app q e;
              if negb (rc =? 0) then mret E_MRT_MQFULL else finish)
        end.

(** The verification of the source of [rtk_receive]. *)
Definition check_source (ipc : mrt_ipc_t) : K Z :=
  if ipc_p_nr ipc =? MRT_ANYPROC then mret OK
  else
    s ← ld_proc (ipc_p_nr ipc);
    if negb (MRT_is_process s) then mret E_BAD_PROC
    else if negb (p_pid s =? ipc_pid ipc) then mret E_MRT_BADPTYPE
    else mret OK.

(** No message: the running process blocks. *)
Definition block_rcv (ipc : mrt_ipc_t) : K Z :=
  cur ← gets proc_ptr;
  if ipc_timeout ipc =? MRT_NOWAIT then mret E_TRY_AGAIN
  else
    (if negb (ipc_timeout ipc =? u32 MRT_FOREVER) then
       r ← ld_proc cur;
       q ← notnull (pmq r);
       mq ← ld_mq q;
       VTSET (ipcvt r) (ipc_timeout ipc) 1 MRT_ACT_RCVFR (q_index mq) (rt_priority (rt r))
     else mret ());;
    st_proc cur (λ r, r <| rt ::= λ a, a <| rt_flags ::= λ f, SET_BIT f MRT_MBX_RCV |> |>);;
    st_proc cur (λ r, r <| pfrom := Some (if ipc_p_nr ipc =? MRT_ANYPROC then cur else ipc_p_nr ipc) |>);;
    st_proc cur (λ r, r <| pmsg := ipc_msg ipc |> <| pmhdr := ipc_hdr ipc |>);;
    MRT_unready cur;;
    mret OK.

(** The sender of a request that has been received goes on. *)
Definition unblock_sender (mtype src : Z) : K unit :=
  cur ← gets proc_ptr;
  s ← ld_proc src;
  if (mtype =? MT_REQUEST) && bool_decide (pto s = Some cur) then
    i ← notnull (ipcvt s);
    MRT_vtimer_stop i;;
    st_proc src (λ r, r <| rt ::= λ a, a <| rt_flags ::= λ f, CLR_BIT f MRT_MBX_SND |> |>);;
    st_proc src (λ r, r <| pto := None |>);;
    s ← ld_proc src;
    if MRT_is_rtready s then MRT_ready src else mret ()
  else if (mtype =? MT_RQRCV) && bool_decide (pto s = Some cur) then
    st_proc src (λ r, r <| rt ::= λ a, a <| rt_flags ::= λ f, CLR_BIT f MRT_MBX_SND |> |>);;
    st_proc src (λ r, r <| pto := None |>)
  else mret ().

Definition rtk_receive (ipc : mrt_ipc_t) : K Z :=
  rc ← check_source ipc;
  if negb (rc =? OK) then mret rc
  else
    cur ← gets proc_ptr;
    r ← ld_proc cur;
    oe ← MRT_mqe_pick (pmq r) (ipc_p_nr ipc);
    match oe with
    | None => block_rcv ipc
    | Some e =>
        m ← ld_mqe e;
        KRN2USR cur (st_um_msg (e_m_u m)) (ipc_msg ipc) sizeof_mrt_msg_t (
          KRN2USR cur (st_um_hdr (e_hdr m)) (ipc_hdr ipc) sizeof_mrt_mhdr_t (
            unblock_sender (h_mtype (e_hdr m)) (mp_p_nr (h_src (e_hdr m)));;
            q ← notnull (pmq r);
            MRT_mqe_rmv q e;;
            MRT_mqe_rst e;;
            MRT_mqe_free e;;
            st_proc cur (λ r, r <| st ::= λ t, t <| st_msgrcvd ::= λ n, u32 (n + 1) |> |>);;
            mret OK))
    end.

(** The running process waits until [dest] has received its request. *)
Definition block_snd (ipc : mrt_ipc_t) (dest e : Z) : K unit :=
  cur ← gets proc_ptr;
  (if negb (ipc_timeout ipc =? u32 MRT_FOREVER) then
     r ← ld_proc cur;
     m ← ld_mqe e;
     VTSET (ipcvt r) (ipc_timeout ipc) 1 MRT_ACT_SNDTO (e_index m) (rt_priority (rt r))
   else mret ());;
  st_proc cur (λ r, r <| rt ::= λ a, a <| rt_flags ::= λ f, SET_BIT f MRT_MBX_SND |> |>);;
  st_proc cur (λ r, r <| pto := Some dest |>);;
  MRT_unready cur.

(** [MRT_inherit(proc_ptr->rt.priority, dest_ptr)] when the queue asks for it. *)
Definition inherit_cur (dest : Z) : K Z :=
  if_inherit dest (cur ← gets proc_ptr; c ← ld_proc cur;
                   MRT_inherit inherit_fuel (rt_priority (rt c)) dest);;
  mret OK.

Definition rtk_rqst (ipc : mrt_ipc_t) : K Z :=
  let dest := ipc_p_nr ipc in
  rc ← check_dest dest (ipc_pid ipc);
  if negb (rc =? OK) then mret rc
  else
    cur ← gets proc_ptr; c ← ld_proc cur; d ← ld_proc dest;
    let waiting := waits_from true dest cur d in
    if negb waiting && (ipc_timeout ipc =? MRT_NOWAIT) then mret E_TRY_AGAIN
    else
      transmit waiting dest MT_REQUEST (rt_priority (rt c)) (rt_deadline (rt c)) (ipc_msg ipc)
        "rtk_rqst: the msgq must not be full for proc !!"
        (inherit_cur dest) (λ e, block_snd ipc dest e;; inherit_cur dest).

Definition rtk_arqst (ipc : mrt_ipc_t) : K Z :=
  let dest := ipc_p_nr ipc in
  rc ← check_dest dest (ipc_pid ipc);
  if negb (rc =? OK) then mret rc
  else
    cur ← gets proc_ptr; c ← ld_proc cur; d ← ld_proc dest;
    transmit (waits_from true dest cur d) dest MT_AREQUEST (rt_priority (rt c)) (rt_deadline (rt c))
      (ipc_msg ipc) "rtk_arqst: the msgq must not be full for proc !!"
      (inherit_cur dest) (λ _, inherit_cur dest).

Definition disinherit_cur : K unit :=
  cur ← gets proc_ptr; if_inherit cur (MRT_disinherit cur).

Definition rtk_reply (ipc : mrt_ipc_t) : K Z :=
  let dest := ipc_p_nr ipc in
  rcode ← check_dest dest (ipc_pid ipc);
  if negb (rcode =? 0) then disinherit_cur;; mret rcode
  else
    cur ← gets proc_ptr; c ← ld_proc cur; d ← ld_proc dest;
    transmit (waits_from false dest cur d) dest MT_REPLY (rt_priority (rt c)) (rt_deadline (rt c))
      (ipc_msg ipc) "rtk_rply: the msgq must not be full for proc !!"
      (disinherit_cur;; mret OK) (λ _, disinherit_cur;; mret OK).

Definition rtk_uprqst (ipc : mrt_ipc_t) : K Z :=
  let dest := ipc_p_nr ipc in
  rc ← check_dest dest (ipc_pid ipc);
  if negb (rc =? OK) then mret rc
  else
    cur ← gets proc_ptr; d ← ld_proc dest;
    let finish := if_inherit dest (MRT_inherit inherit_fuel (ipc_priority ipc) dest);; mret OK in
    transmit (waits_from true dest cur d) dest MT_UPRQST (ipc_priority ipc) 0 (ipc_msg ipc)
      "rtk_uprqst: the msgq must not be full for proc !!" finish (λ _, finish).

Definition rtk_sign (ipc : mrt_ipc_t) : K Z :=
  let dest := ipc_p_nr ipc in
  rc ← check_dest dest (ipc_pid ipc);
  if negb (rc =? OK) then mret rc
  else
    cur ← gets proc_ptr; d ← ld_proc dest;
    transmit (waits_from true dest cur d) dest MT_SIGNAL (rt_priority (rt d)) (rt_deadline (rt d))
      (ipc_msg ipc) "rtk_sign: the msgq must not be full for proc !!" (mret OK) (λ _, mret OK).

(** The receiving half of [rtk_rqrcv]. *)
Definition rqrcv_wait (ipc : mrt_ipc_t) (dest : Z) : K Z :=
  cur ← gets proc_ptr;
  (if negb (ipc_timeout ipc =? u32 MRT_FOREVER) then
     r ← ld_proc cur;
     VTSET (ipcvt r) (ipc_timeout ipc) 1 MRT_ACT_SNDRCV 0 (rt_priority (rt r))
   else mret ());;
  st_proc cur (λ r, r <| rt ::= λ a, a <| rt_flags ::= λ f, SET_BIT f MRT_MBX_RCV |> |>);;
  st_proc cur (λ r, r <| pfrom := Some dest |> <| pmsg := ipc_msg2 ipc |> <| pmhdr := ipc_hdr ipc |>);;
  MRT_unready cur;;
  inherit_cur dest.

Definition set_ipcvt_param (p : Z) : K unit :=
  cur ← gets proc_ptr; r ← ld_proc cur; i ← notnull (ipcvt r); st_vt i (λ v, v <| vt_param := p |>).

Definition rtk_rqrcv (ipc : mrt_ipc_t) : K Z :=
  if ipc_timeout ipc =? MRT_NOWAIT then mret EINVAL
  else
    let dest := ipc_p_nr ipc in
    rc ← check_dest dest (ipc_pid ipc);
    if negb (rc =? OK) then mret rc
    else
      cur ← gets proc_ptr; c ← ld_proc cur; d ← ld_proc dest;
      transmit (waits_from true dest cur d) dest MT_RQRCV (rt_priority (rt c)) (rt_deadline (rt c))
        (ipc_msg ipc) "rtk_rqst: the msgq must not be full for proc !!"
        (set_ipcvt_param (-1);; rqrcv_wait ipc dest)
        (λ e, st_proc cur (λ r, r <| rt ::= λ a, a <| rt_flags ::= λ f, SET_BIT f MRT_MBX_SND |> |>);;
              st_proc cur (λ r, r <| pto := Some dest |>);;
              m ← ld_mqe e;
              set_ipcvt_param (e_index m);;
              rqrcv_wait ipc dest).
