(* ===== verification/Mailbox.v ===== *)
(** * Mailboxes (kernel/mrtmsg.c)

    The message queue of a real-time process as a mailbox: messages wait by
    priority, and in order of arrival within a priority; [rtk_arqst] posts a
    message from the pool of free entries and [rtk_receive] takes the first one
    the receiver accepts and returns its entry to the pool. *)

From stdpp Require Import base gmap strings numbers fin_maps functions list.
From S2P Require Import Prelude Lists Kernel Sched VTimer Inherit Sem Msg.
Local Open Scope Z_scope.

(** ** Picking a message *)

(** A receive from [src] takes messages of [src], or all. *)
Definition wanted (es : gmap Z MRT_mqe_t) (src e : Z) : bool :=
  match es !! e with
  | Some m => (src =? MRT_ANYPROC) || (src =? mp_p_nr (h_src (e_hdr m)))
  | None => false
  end.

(** The first wanted entry of the most urgent list that has one. *)
Fixpoint first_wanted (es : gmap Z MRT_mqe_t) (src : Z) (B : Z → list Z) (p : Z) (n : nat) : option (Z * Z) :=
  match n with
  | O => None
  | S n' =>
      match filter (λ e, wanted es src e = true) (B p) with
      | e :: _ => Some (p, e)
      | [] => first_wanted es src B (p + 1) n'
      end
  end.

Lemma mqe_walk_spec k src fuel : ∀ pre l, this_ok (lm k) →
  seg (links (lm k)) pre (LMqe <$> l) None → (∀ e, e ∈ l → is_Some (mqes k !! e)) → (length l < fuel)%nat →
  mqe_walk fuel (hd_or (LMqe <$> l) None) src k = Ok k (head (filter (λ e, wanted (mqes k) src e = true) l)).
Proof.
  induction fuel as [|fuel IH]; intros pre l Ht Hs He Hf; [lia|]. destruct l as [|e l]; [done|]. cbn [fmap list_fmap hd_or mqe_walk].
  cbn in Hs. destruct Hs as [(lk & Hlk & Hp & Hn) Hs]. destruct (He e) as [m Hm]; [by apply list_elem_of_here|].
  krun. rewrite (Ht _ _ Hlk). cbn [owner_of as_mqe]. krun. rewrite filter_cons.
  assert (wanted (mqes k) src e = ((src =? MRT_ANYPROC) || (src =? mp_p_nr (h_src (e_hdr m))))) as Ew by (unfold wanted; by rewrite Hm).
  rewrite Ew. destruct (_ || _); cbn [decide]; [by rewrite decide_True|rewrite decide_False by done]. krun. rewrite Hn.
  apply (IH (Some (LMqe e))); [done|done| |cbn in Hf; lia]. intros e' He'. apply He. by apply list_elem_of_further.
Qed.

Lemma mqe_scan_spec k Q q src B h : qinv (lm k) Q → this_ok (lm k) → plists (lm k) !! PMq q = Some h →
  (∀ p, Q (HP (PMq q) p) = LMqe <$> B p) → (∀ p e, e ∈ B p → 0 ≤ e < NR_MESSAGES ∧ is_Some (mqes k !! e)) →
  ∀ n p, 0 ≤ p → p + Z.of_nat n = 16 →
  mqe_scan q (bitmap h) p n src k = Ok k (snd <$> first_wanted (mqes k) src B p n).
Proof.
  intros Hq Ht Hh HQ HB. destruct Hq as [Hl Hp]. destruct (Hp _ _ Hh) as [Hd Hb _ _].
  induction n as [|n IH]; intros p Hp0 Hpn; [done|]. cbn [mqe_scan first_wanted].
  rewrite TEST_BIT_shift, Hb, HQ by done. destruct (B p) as [|e l] eqn:E.
  { rewrite bool_decide_false by (by intros []). apply IH; lia. }
  rewrite bool_decide_true by done. destruct (proj2 (Hd p)) as [ls Hls]; [lia|]. krun.
  destruct (li_list _ _ Hl _ _ Hls) as (_ & _ & Hfst & _). rewrite HQ in Hfst. rewrite Hfst, E.
  assert (Hnd : NoDup (B p)).
  { pose proof (li_nodup _ _ Hl (HP (PMq q) p)) as Hnd. rewrite HQ in Hnd. by apply NoDup_fmap_1 in Hnd. }
  pose proof (li_links _ _ Hl (HP (PMq q) p)) as Hlk. rewrite HQ, E in Hlk.
  assert (Hlen : (length (e :: l) < mqe_fuel)%nat).
  { assert (length (B p) ≤ 32)%nat; [|rewrite E in *; unfold mqe_fuel; lia].
    apply (NoDup_range_length 0 NR_MESSAGES); [done|]. intros x Hx. by apply (HB p). }
  erewrite bind_ok; [|apply (mqe_walk_spec k src mqe_fuel None (e :: l) Ht Hlk); [|done]].
  - destruct (filter _ (e :: l)) as [|e' l']; [apply IH; lia|done].
  - intros e' He'. apply (HB p). by rewrite E.
Qed.

Lemma first_wanted_Some es src B p n q e : first_wanted es src B p n = Some (q, e) →
  p ≤ q < p + Z.of_nat n ∧ ∃ l1 l2, B q = l1 ++ e :: l2 ∧ wanted es src e = true ∧ Forall (λ x, wanted es src x = false) l1.
Proof.
  revert p. induction n as [|n IH]; intros p; cbn; [done|]. destruct (filter _ (B p)) as [|x l] eqn:E.
  - intros (Hq & Hx)%IH. split; [lia|done].
  - intros [= <- <-]. split; [lia|]. clear IH. revert E. generalize (B p). intros b. induction b as [|y b IHb]; [done|].
    rewrite filter_cons. destruct (decide (wanted es src y = true)) as [Hy|Hy].
    + intros [= -> <-]. exists [], b. by split_and!.
    + intros (l1 & l2 & -> & Hx & Hl1)%IHb. exists (y :: l1), l2. split_and!; try done. constructor; [by apply not_true_is_false|done].
Qed.

Lemma first_wanted_None es src B p n : first_wanted es src B p n = None →
  ∀ q e, p ≤ q < p + Z.of_nat n → e ∈ B q → wanted es src e = false.
Proof.
  revert p. induction n as [|n IH]; intros p; cbn; [lia|]. destruct (filter _ (B p)) as [|x l] eqn:E; [|done].
  intros Hw q e Hq He. destruct (decide (q = p)) as [->|Hne]; [|by apply (IH _ Hw q); [lia|]].
  apply not_true_is_false. intros Ht. assert (He' : e ∈ filter (λ e, wanted es src e = true) (B p)) by (by apply list_elem_of_filter).
  rewrite E in He'. by apply elem_of_nil in He'.
Qed.

(** ** Mailboxes *)

(** The mailbox of process [d]: queue [q], entries [B] by priority, free entries
    [F]. *)
Record mailbox (k : kstate) (Q : lhead → list laddr) (d q : Z) (B : Z → list Z) (F : list Z) : Prop := {
  mb_q : qinv (lm k) Q;
  mb_this : this_ok (lm k);
  mb_owner : ∃ r, procs k !! d = Some r ∧ pmq r = Some q;
  mb_plist : is_Some (plists (lm k) !! PMq q);
  mb_hdr : is_Some (lists (lm k) !! HMqeL);
  mb_queue : ∀ p, Q (HP (PMq q) p) = LMqe <$> B p;
  mb_pool : Q HMqeL = LMqe <$> F;
  mb_mq : ∃ mq, msgQs k !! q = Some mq ∧
    ∀ p e, e ∈ B p → ∃ m, mqes k !! e = Some m ∧ mqe_pty mq m = p ∧ 0 ≤ p < 16 ∧ 0 ≤ e < NR_MESSAGES;
  mb_free : ∀ e, e ∈ F → is_Some (mqes k !! e) ∧ 0 ≤ e < NR_MESSAGES;
}.

Lemma mailbox_pick k Q d q B F src : mailbox k Q d q B F →
  MRT_mqe_pick (Some q) src k = Ok k (snd <$> first_wanted (mqes k) src B 0 16).
Proof.
  intros [Hq Ht _ [h Hh] _ HQ _ (mq & Hmq & HB) _]. unfold MRT_mqe_pick. rewrite (bind_ok _ _ k k q) by done.
  rewrite (bind_ok _ _ k k h) by (rewrite (lists_ok k _ _ _ (ld_plist_ok _ _ _ Hh)); by destruct k).
  assert (HB' : ∀ p e, e ∈ B p → 0 ≤ e < NR_MESSAGES ∧ is_Some (mqes k !! e)).
  { intros p e He. destruct (HB p e He) as (m & Hm & _ & _ & ?). split; [done|by exists m]. }
  destruct (Z.eqb_spec (p_inQ h) 0) as [H0|H0].
  - destruct (proj2 Hq _ _ Hh) as [_ _ Hin _]. assert (plen Q (PMq q) = 0%nat) as Hpl by lia.
    destruct (first_wanted (mqes k) src B 0 16) as [[p e]|] eqn:E; [|done].
    apply first_wanted_Some in E as (Hp & l1 & l2 & HBp & _). pose proof (proj1 (plen_0 _ _) Hpl p ltac:(lia)) as Hnil.
    rewrite HQ, HBp, fmap_app in Hnil. by destruct l1.
  - by apply (mqe_scan_spec k Q q src B h).
Qed.

(** ** Posting *)

Lemma unlinked_rmv m Q L l1 x l2 : linv m Q → Q L = l1 ++ x :: l2 → unlinked (<[L := l1 ++ l2]> Q) x.
Proof.
  intros Hl HQ L'. destruct (decide (L' = L)) as [->|HL].
  - rewrite fn_lookup_insert. pose proof (li_nodup _ _ Hl L) as Hnd. rewrite HQ, <- Permutation_middle in Hnd. by apply NoDup_cons in Hnd as [? _].
  - rewrite fn_lookup_insert_ne by done. intros Hx. apply HL, (li_disj _ _ Hl _ _ _ Hx). rewrite HQ. set_solver.
Qed.

(** The pool gives out its first entry. *)
Lemma mqe_alloc_spec k Q e F : qinv (lm k) Q → this_ok (lm k) → is_Some (lists (lm k) !! HMqeL) → Q HMqeL = LMqe <$> e :: F →
  ∃ m, MRT_mqe_alloc k = Ok (k <| lm := m |>) (Some e) ∧ qstep (lm k) m Q (<[HMqeL := LMqe <$> F]> Q) ∧ plists m = plists (lm k) ∧
    unlinked (<[HMqeL := LMqe <$> F]> Q) (LMqe e).
Proof.
  intros Hq Ht [l Hl] HQ. destruct (list_rmv_q (lm k) Q HMqeL [] (LMqe e) (LMqe <$> F)) as (m & Hrun & Hs & Hpl); [done|by eexists|done|done|].
  exists m. unfold MRT_mqe_alloc. krun. destruct (li_list _ _ (proj1 Hq) _ _ Hl) as (_ & _ & Hf & _). rewrite Hf, HQ. cbn [fmap list_fmap hd_or].
  erewrite bind_ok; [|apply lists_ok; exact Hrun].
  destruct (linv_in_links (lm k) Q HMqeL (LMqe e) (proj1 Hq)) as [lk Hlk]; [rewrite HQ; cbn; by apply list_elem_of_here|].
  destruct (proj2 (lframe_is_Some _ _ _ (proj2 Hs)) (ex_intro _ lk Hlk)) as [lk' Hlk'].
  krun. rewrite (this_ok_frame _ _ (proj2 Hs) Ht _ _ Hlk'). cbn [owner_of as_mqe]. krun. split; [done|]. split; [exact Hs|]. split; [done|].
  exact (unlinked_rmv (lm k) Q HMqeL [] (LMqe e) (LMqe <$> F) (proj1 Hq) HQ).
Qed.

Lemma mq_full_spec k q mq h d : pmq d = Some q → msgQs k !! q = Some mq → plists (lm k) !! PMq q = Some h →
  mq_full d k = Ok k (p_inQ h =? q_size mq).
Proof.
  intros Hd Hq Hh. unfold mq_full. rewrite Hd. krun.
  by rewrite (bind_ok _ _ k k h) by (rewrite (lists_ok k _ _ _ (ld_plist_ok _ _ _ Hh)); by destruct k).
Qed.

(** A destination that can take the message. *)
Record can_post (k : kstate) (d pid q : Z) (rd : proc) (mq : MRT_msgQ_t) (h : plist_t) : Prop := {
  cp_proc : procs k !! d = Some rd;
  cp_used : MRT_is_process rd = true;
  cp_pid : p_pid rd = pid;
  cp_rt : MRT_is_realtime rd = true;
  cp_pmq : pmq rd = Some q;
  cp_mq : msgQs k !! q = Some mq;
  cp_plist : plists (lm k) !! PMq q = Some h;
  cp_room : p_inQ h ≠ q_size mq;
}.

Lemma check_dest_spec k d pid q rd mq h : can_post k d pid q rd mq h → check_dest d pid k = Ok k OK.
Proof.
  intros [H1 H2 H3 H4 H5 H6 H7 H8]. unfold check_dest. krun. rewrite H2, H3, Z.eqb_refl, H4. cbn [negb].
  rewrite (bind_ok _ _ _ _ _ (mq_full_spec k q mq h rd H5 H6 H7)). by rewrite (proj2 (Z.eqb_neq _ _) H8).
Qed.

(** The entry a sender posts. *)
Definition posted (k : kstate) (rs rd : proc) (mtype prty deadline : Z) (body : mrt_msg_t) (m : MRT_mqe_t) : MRT_mqe_t :=
  mk_mqe (mk_mhdr (mk_mrtpid (p_pid rs) (p_nr rs)) (mk_mrtpid (p_pid rd) (p_nr rd)) mtype
      (u32 (c_messages (sv k) + 1)) (u32 (st_msgsent (st rs) + 1)) (c_ticks (sv k)) (prty mod 256) deadline (h_laxity (e_hdr m)))
    body (e_index m) (e_pvt m).

(** The part of a queue that messages do not change. *)
Definition mq_static (m : MRT_msgQ_t) : Z * Z := (q_size m, q_flags m).

(** What posting or taking the message of entry [e] leaves alone: the other
    entries, the processes up to their statistics and the attributes of the
    queues. *)
Record mb_frame (k k' : kstate) (e : Z) : Prop := {
  mf_mqes : ∃ m', mqes k' = <[e := m']> (mqes k);
  mf_procs : core <$> procs k' = core <$> procs k;
  mf_static : mq_static <$> msgQs k' = mq_static <$> msgQs k;
}.

(** The asynchronous senders up to their last step, when the destination does
    not wait. *)
Lemma transmit_queue k Q s d pid q B e F rs rd mq h m mtype prty deadline msg err deliv queued :
  mailbox k Q d q B (e :: F) → can_post k d pid q rd mq h →
  proc_ptr k = s → procs k !! s = Some rs → p_nr rs = s → s ≠ d →
  umap_D rs msg sizeof_mrt_msg_t ≠ 0 → mqes k !! e = Some m → 0 ≤ prty < 16 →
  let m' := posted k rs rd mtype prty deadline (um_msg (um k) (umap_D rs msg sizeof_mrt_msg_t)) m in
  let p := mqe_pty mq m' in
  ∃ k' Q', transmit false d mtype prty deadline msg err deliv queued k = queued e k' ∧
    mailbox k' Q' d q (<[p := B p ++ [e]]> B) F ∧ mqes k' !! e = Some m' ∧ um k' = um k ∧ proc_ptr k' = s ∧ mb_frame k k' e.
Proof.
  intros Hmb Hcp Hs Hrs Hnr Hsd Hmap He Hprty m' p. pose proof Hmb as [Hq Ht (rd0 & Hd0 & Hpq0) _ Hhdr HQ Hpool (mq0 & Hmq0 & HB) Hfree].
  destruct Hcp as [Hd _ _ _ Hpq Hmq Hh Hroom]. assert (mq0 = mq) as -> by congruence. assert (rd0 = rd) as -> by congruence. clear Hd0 Hpq0.
  unfold transmit. krun. rewrite Hs.
  destruct (mqe_alloc_spec k Q e F Hq Ht Hhdr Hpool) as (m1 & Hrun1 & Hs1 & Hpl1 & Hu1). rewrite (bind_ok _ _ _ _ _ Hrun1). clear Hrun1.
  set (Q1 := <[HMqeL := LMqe <$> F]> Q) in *.
  unfold fill_hdr, st_sv. krun. cbn. unfold USR2KRN. krun. cbn. rewrite Hnr. unfold numap. krun.
  set (phys := umap_D rs msg sizeof_mrt_msg_t) in *. change (umap_D (upd st _ rs) msg sizeof_mrt_msg_t) with phys.
  rewrite (proj2 (Z.eqb_neq _ _) Hmap). krun. unfold MRT_mqe_app. krun.
  match goal with |- ∃ _ _, (lists_ (ld_plist _) ≫= _) ?st = _ ∧ _ => set (k1 := st) end.
  assert (Hh1 : plists (lm k1) !! PMq q = Some h) by (cbn; by rewrite Hpl1).
  rewrite (bind_ok _ _ k1 k1 h) by (rewrite (lists_ok k1 _ _ _ (ld_plist_ok _ _ _ Hh1)); done).
  rewrite (proj2 (Z.eqb_neq _ _) Hroom).
  assert (Hm1 : mqes k1 = <[e := m']> (mqes k)) by (cbn; rewrite insert_insert_eq; unfold m', posted; rewrite Hnr; done).
  assert (Hme : mqes k1 !! e = Some m') by (rewrite Hm1; apply lookup_insert_eq). krun. fold p.
  assert (Hp : 0 ≤ p < 16).
  { unfold p, mqe_pty. destruct (TEST_BIT _ _); [|unfold MRT_PRIHIGHEST; lia]. cbn. rewrite Z.mod_small by lia. done. }
  destruct (MRT_plist_app_spec m1 Q1 (PMq q) (LMqe e) p) as (m2 & Hrun2 & Hs2); [apply Hs1|by exists h|done| |done|].
  { apply (lframe_is_Some _ _ _ (proj2 Hs1)), (linv_in_links _ _ HMqeL _ (proj1 Hq)). rewrite Hpool. by apply list_elem_of_here. }
  erewrite bind_ok; [|apply lists_ok; exact Hrun2]. krun. cbn [Z.eqb negb OK].
  set (Q2 := <[HP (PMq q) p := _]> Q1) in *.
  match goal with |- ∃ _ _, queued e ?st = _ ∧ _ => set (k2 := st) end.
  exists k2, Q2. split; [done|]. split; [|split; [exact Hme|]].
  2: { split; [done|]. split; [done|]. constructor.
       - exists m'. exact Hm1.
       - by apply (core_insert (procs k) s rs (λ r, r <| st ::= _ |>)).
       - cbn. rewrite fmap_insert. apply insert_id. by rewrite lookup_fmap, Hmq. }
  constructor.
  - apply Hs2.
  - eapply this_ok_frame, this_ok_frame, Ht; [apply Hs2|apply Hs1].
  - exists rd. split; [cbn; by rewrite lookup_insert_ne|done].
  - apply (fr_plists _ _ (proj2 Hs2)). by exists h.
  - apply Hs2, Hs1, Hhdr.
  - intros p'. unfold Q2, Q1. destruct (decide (p' = p)) as [->|Hne].
    + rewrite !fn_lookup_insert, fn_lookup_insert_ne, HQ, fmap_app by done. done.
    + rewrite !fn_lookup_insert_ne by congruence. apply HQ.
  - unfold Q2, Q1. by rewrite fn_lookup_insert_ne, fn_lookup_insert by done.
  - eexists. split; [apply lookup_insert_eq|]. intros p' e' He'. change (mqes k2) with (mqes k1). rewrite Hm1.
    assert (Hpt : ∀ x, mqe_pty (mq <| q_enqueued ::= λ n, s32 (n + 1) |>) x = mqe_pty mq x) by done.
    destruct (decide (e' = e)) as [->|Hne].
    + exists m'. rewrite lookup_insert_eq, Hpt. destruct (Hfree e (list_elem_of_here _ _)) as [_ Hrg].
      assert (p' = p) as ->; [|done]. destruct (decide (p' = p)) as [|Hpp]; [done|]. rewrite fn_lookup_insert_ne in He' by done.
      exfalso. apply (Hu1 (HP (PMq q) p')). unfold Q1. rewrite fn_lookup_insert_ne, HQ by done. by apply list_elem_of_fmap_2.
    + rewrite lookup_insert_ne by done. apply HB. destruct (decide (p' = p)) as [->|Hpp]; [|by rewrite fn_lookup_insert_ne in He'].
      rewrite fn_lookup_insert, elem_of_app, list_elem_of_singleton in He'. destruct He'; done.
  - intros e' He'. destruct (Hfree e') as [Hsome Hrg]; [by apply list_elem_of_further|]. split; [|done]. change (mqes k2) with (mqes k1).
    rewrite Hm1, lookup_insert_is_Some'. by right.
Qed.

(** ** Receiving *)

(** Entry [e] is rewritten; nothing but entries and lists changes. *)
Record entry_frame (k k' : kstate) (e : Z) : Prop := {
  ef_mqes : ∃ m', mqes k' = <[e := m']> (mqes k) ∧ ∀ m, mqes k !! e = Some m → e_index m' = e_index m;
  ef_procs : procs k' = procs k;
  ef_mqs : msgQs k' = msgQs k;
  ef_um : um k' = um k;
  ef_ptr : proc_ptr k' = proc_ptr k;
}.

Lemma entry_frame_trans k1 k2 k3 e : entry_frame k1 k2 e → entry_frame k2 k3 e → entry_frame k1 k3 e.
Proof.
  intros [(m1 & E1 & I1) ? ? ? ?] [(m2 & E2 & I2) ? ? ? ?]. constructor; try congruence. exists m2. rewrite E2, E1, insert_insert_eq.
  split; [done|]. intros m Hm. rewrite (I2 m1), (I1 m Hm); [done|]. rewrite E1. apply lookup_insert_eq.
Qed.

Lemma mqe_rst_spec k Q e : qinv (lm k) Q → this_ok (lm k) → is_Some (mqes k !! e) → unlinked Q (LMqe e) →
  is_Some (links (lm k) !! LMqe e) →
  ∃ k', MRT_mqe_rst e k = Ok k' () ∧ qstep (lm k) (lm k') Q Q ∧ entry_frame k k' e.
Proof.
  intros Hq Ht [m Hm] Hu [lk Hlk].
  destruct (link_rst_q (lm k) Q (LMqe e) lk (OMqe e) MRT_OBJMQE Hq Hlk) as (m' & Hrun & Hs); [by apply Ht in Hlk|done|].
  unfold MRT_mqe_rst. krun. erewrite lists_ok; [|exact Hrun]. eexists. split; [done|]. split; [exact Hs|].
  constructor; try done. cbn. rewrite !insert_insert_eq. eexists. split; [done|]. intros m1 Hm1. rewrite Hm in Hm1. by injection Hm1 as <-.
Qed.

Lemma mqe_free_spec k Q e : qinv (lm k) Q → this_ok (lm k) → is_Some (mqes k !! e) → unlinked Q (LMqe e) →
  is_Some (links (lm k) !! LMqe e) → is_Some (lists (lm k) !! HMqeL) →
  ∃ k', MRT_mqe_free e k = Ok k' () ∧ qstep (lm k) (lm k') Q (<[HMqeL := Q HMqeL ++ [LMqe e]]> Q) ∧ entry_frame k k' e.
Proof.
  intros Hq Ht Hm Hu Hlk HL. destruct (mqe_rst_spec k Q e Hq Ht Hm Hu Hlk) as (k1 & Hrun1 & Hs1 & Hf1).
  destruct (list_app_q (lm k1) Q HMqeL (LMqe e)) as (m2 & Hrun2 & Hs2 & _); [apply Hs1|by apply Hs1|done|by apply (lframe_is_Some _ _ _ (proj2 Hs1))|done|].
  unfold MRT_mqe_free. rewrite (bind_ok _ _ _ _ _ Hrun1). erewrite lists_ok; [|exact Hrun2]. eexists. split; [done|].
  split; [split; [apply Hs2|etrans; [apply Hs1|apply Hs2]]|]. destruct Hf1 as [H1 H2 H3 H4 H5]. by constructor.
Qed.

(** The picked entry leaves the mailbox for the pool. *)
Lemma take_entry k Q d q B F p e l1 l2 : mailbox k Q d q B F → B p = l1 ++ e :: l2 → 0 ≤ p < 16 →
  ∃ k' Q', (MRT_mqe_rmv q e;; MRT_mqe_rst e;; MRT_mqe_free e) k = Ok k' () ∧
    mailbox k' Q' d q (<[p := l1 ++ l2]> B) (F ++ [e]) ∧ procs k' = procs k ∧ um k' = um k ∧ mb_frame k k' e.
Proof.
  intros [Hq Ht Hown Hpl HL HQ Hpool (mq & Hmq & HB) Hfree] HBp Hp.
  destruct (HB p e) as (m & Hm & Hpt & _ & Hrg); [rewrite HBp; set_solver|].
  assert (HQp : Q (HP (PMq q) p) = (LMqe <$> l1) ++ LMqe e :: (LMqe <$> l2)) by (by rewrite HQ, HBp, fmap_app).
  destruct (MRT_plist_rmv_spec (lm k) Q (PMq q) (LMqe e) p _ _ Hq Hpl Hp HQp) as (m1 & Hrun1 & Hs1).
  set (Q1 := <[HP (PMq q) p := _]> Q) in *. assert (Hu1 : unlinked Q1 (LMqe e)) by (by eapply unlinked_rmv; [apply Hq|]).
  assert (Hlk : is_Some (links (lm k) !! LMqe e)) by (eapply linv_in_links; [apply Hq|rewrite HQp; set_solver]).
  unfold MRT_mqe_rmv. krun. rewrite Hpt. erewrite bind_ok; [|apply lists_ok; exact Hrun1]. krun.
  match goal with |- ∃ _ _, (MRT_mqe_rst e ≫= _) ?st = _ ∧ _ => set (k1 := st) end.
  destruct (mqe_rst_spec k1 Q1 e) as (k2 & Hrun2 & Hs2 & Hf2); [apply Hs1|by eapply this_ok_frame; [apply Hs1|]|by exists m|done|by apply (lframe_is_Some _ _ _ (proj2 Hs1))|].
  rewrite (bind_ok _ _ _ _ _ Hrun2).
  assert (Hlf2 : lframe (lm k) (lm k2)) by (etrans; [apply Hs1|apply Hs2]).
  destruct (mqe_free_spec k2 Q1 e) as (k3 & Hrun3 & Hs3 & Hf3);
    [apply Hs2|by eapply this_ok_frame| |done|by apply (lframe_is_Some _ _ _ Hlf2)|by apply Hlf2|].
  { destruct (ef_mqes _ _ _ Hf2) as (m2 & -> & _). exists m2. apply lookup_insert_eq. }
  pose proof (entry_frame_trans _ _ _ _ Hf2 Hf3) as [(m3 & Em & _) Ep Emq Eum Ept].
  assert (Hlf3 : lframe (lm k) (lm k3)) by (etrans; [exact Hlf2|apply Hs3]).
  set (Q3 := <[HMqeL := _]> Q1) in *. exists k3, Q3. split; [done|]. split; [|split_and!; [done|done|]].
  2: { constructor; [by exists m3|by rewrite Ep|]. rewrite Emq. cbn. rewrite fmap_insert. apply insert_id. by rewrite lookup_fmap, Hmq. }
  constructor.
  - apply Hs3.
  - by eapply this_ok_frame.
  - rewrite Ep. exact Hown.
  - by apply (fr_plists _ _ Hlf3).
  - by apply Hlf3.
  - intros p'. unfold Q3, Q1. rewrite (fn_lookup_insert_ne _ HMqeL) by done. destruct (decide (p' = p)) as [->|Hne].
    + by rewrite !fn_lookup_insert, fmap_app.
    + by rewrite !fn_lookup_insert_ne by congruence.
  - unfold Q3. rewrite fn_lookup_insert. unfold Q1. rewrite fn_lookup_insert_ne, Hpool, fmap_app by done. done.
  - eexists. rewrite Emq. split; [apply lookup_insert_eq|]. intros p' e' He'.
    assert (Hne : e' ≠ e).
    { intros ->. apply (Hu1 (HP (PMq q) p')). unfold Q1. destruct (decide (p' = p)) as [->|Hpp].
      - rewrite fn_lookup_insert in He'. rewrite fn_lookup_insert, <- fmap_app. by apply list_elem_of_fmap_2.
      - rewrite fn_lookup_insert_ne in He' by done. rewrite fn_lookup_insert_ne by congruence. rewrite HQ. by apply list_elem_of_fmap_2. }
    rewrite Em, lookup_insert_ne by done. apply HB. destruct (decide (p' = p)) as [->|Hpp]; [|by rewrite fn_lookup_insert_ne in He'].
    rewrite fn_lookup_insert in He'. rewrite HBp. rewrite elem_of_app, elem_of_cons. apply elem_of_app in He'. tauto.
  - intros e'. rewrite elem_of_app, list_elem_of_singleton, Em, lookup_insert_is_Some'. intros [He'| ->]; [|by split; [left|]].
    destruct (Hfree e' He'). split; [by right|done].
Qed.

Lemma seq3_ok {A} (m1 m2 m3 : K unit) (r : K A) k k' : (m1;; m2;; m3) k = Ok k' () → (m1;; m2;; m3;; r) k = r k'.
Proof.
  unfold mbind, M_bind. destruct (m1 k) as [k1 []| | |]; try done. destruct (m2 k1) as [k2 []| | |]; try done. by intros ->.
Qed.

(** The call [rtk_receive(ipc)] of [d] with its buffers mapped. *)
Record can_receive (k : kstate) (d : Z) (rd : proc) (ipc : mrt_ipc_t) : Prop := {
  cr_cur : proc_ptr k = d;
  cr_proc : procs k !! d = Some rd;
  cr_nr : p_nr rd = d;
  cr_src : check_source ipc k = Ok k OK;
  cr_msg : umap_D rd (ipc_msg ipc) sizeof_mrt_msg_t ≠ 0;
  cr_hdr : umap_D rd (ipc_hdr ipc) sizeof_mrt_mhdr_t ≠ 0;
}.

(** Only a sender that waits for this receive is touched by it. *)
Definition asynchronous (m : MRT_mqe_t) : Prop := h_mtype (e_hdr m) ≠ MT_REQUEST ∧ h_mtype (e_hdr m) ≠ MT_RQRCV.

Lemma receive_spec k Q d q B F rd ipc p e m : mailbox k Q d q B F → can_receive k d rd ipc →
  first_wanted (mqes k) (ipc_p_nr ipc) B 0 16 = Some (p, e) → mqes k !! e = Some m → asynchronous m →
  is_Some (procs k !! mp_p_nr (h_src (e_hdr m))) →
  ∃ k' Q', rtk_receive ipc k = Ok k' OK ∧ mailbox k' Q' d q (<[p := filter (λ x, x ≠ e) (B p)]> B) (F ++ [e]) ∧
    um k' = st_um_hdr (e_hdr m) (umap_D rd (ipc_hdr ipc) sizeof_mrt_mhdr_t)
              (st_um_msg (e_m_u m) (umap_D rd (ipc_msg ipc) sizeof_mrt_msg_t) (um k)) ∧ mb_frame k k' e.
Proof.
  intros Hmb [Hcur Hd Hnr Hsrc Hm1 Hm2] Hf He [Has1 Has2] [rs Hs]. destruct (mb_owner _ _ _ _ _ _ Hmb) as (rd' & Hd' & Hpq).
  assert (rd' = rd) as -> by congruence. destruct (first_wanted_Some _ _ _ _ _ _ _ Hf) as (Hp & l1 & l2 & HBp & _).
  assert (filter (λ x, x ≠ e) (B p) = l1 ++ l2) as ->.
  { rewrite HBp. apply filter_ne_middle. rewrite <- HBp.
    pose proof (li_nodup _ _ (proj1 (mb_q _ _ _ _ _ _ Hmb)) (HP (PMq q) p)) as Hnd. rewrite (mb_queue _ _ _ _ _ _ Hmb) in Hnd. by apply NoDup_fmap_1 in Hnd. }
  unfold rtk_receive. rewrite (bind_ok _ _ _ _ _ Hsrc). cbn [negb Z.eqb OK]. krun. rewrite Hcur. krun. rewrite Hpq.
  rewrite (bind_ok _ _ _ _ _ (mailbox_pick k Q d q B F (ipc_p_nr ipc) Hmb)), Hf. cbn [fmap option_fmap option_map snd]. krun.
  unfold KRN2USR, numap. krun. rewrite Hnr. krun. rewrite (proj2 (Z.eqb_neq _ _) Hm1). krun. rewrite Hnr. krun. rewrite (proj2 (Z.eqb_neq _ _) Hm2). krun.
  unfold unblock_sender. krun. rewrite (proj2 (Z.eqb_neq _ _) Has1), (proj2 (Z.eqb_neq _ _) Has2). cbn [andb]. krun.
  match goal with |- ∃ _ _, (MRT_mqe_rmv q e ≫= _) ?st = _ ∧ _ => set (k1 := st) end.
  assert (Hmb1 : mailbox k1 Q d q B F) by (destruct Hmb; by constructor).
  destruct (take_entry k1 Q d q B F p e l1 l2 Hmb1 HBp ltac:(lia)) as (k2 & Q2 & Hrun & Hmb2 & Ep & Eu & [Hfm Hfp Hfs]).
  rewrite (seq3_ok _ _ _ _ _ _ Hrun). krun.
  assert (Hd2 : procs k2 !! d = Some rd) by (by rewrite Ep). krun. eexists _, Q2. split; [done|]. split; [|split; [exact Eu|]].
  2: { constructor; [done| |done]. transitivity (core <$> procs k2); [by apply (core_insert (procs k2) d rd (λ r, r <| st ::= _ |>))|exact Hfp]. }
  destruct Hmb2 as [H1 H2 _ H4 H5 H6 H7 H8 H9]. constructor; try done. eexists. split; [apply lookup_insert_eq|done].
Qed.

(** ** The abstract mailbox *)

(** A message as its receiver sees it. *)
Record amsg := mk_amsg { am_src : Z; am_prty : Z; am_body : mrt_msg_t }.

(** Messages by priority in order of arrival, the number of free entries, and
    the message buffers of the processes. *)
Record abox := mk_abox { ab_box : Z → list amsg; ab_free : nat; ab_mem : Z → mrt_msg_t }.

Definition accepts (src : Z) (m : amsg) : bool := (src =? MRT_ANYPROC) || (src =? am_src m).

Fixpoint take_first (src : Z) (l : list amsg) : option (amsg * list amsg) :=
  match l with
  | [] => None
  | m :: l' =>
      if accepts src m then Some (m, l')
      else match take_first src l' with Some (x, r) => Some (x, m :: r) | None => None end
  end.

(** The first acceptable message of the most urgent list that has one, with the
    rest of that list. *)
Fixpoint abs_pick (src : Z) (box : Z → list amsg) (p : Z) (n : nat) : option (Z * amsg * list amsg) :=
  match n with
  | O => None
  | S n' =>
      match take_first src (box p) with
      | Some (m, r) => Some (p, m, r)
      | None => abs_pick src box (p + 1) n'
      end
  end.

Fixpoint count_from (box : Z → list amsg) (a c : nat) : nat :=
  match c with O => O | S c' => (length (box (Z.of_nat a)) + count_from box (S a) c')%nat end.

(** Calls: process [s] posts the body at [msg] to the owner under the process id
    [dpid]; the owner receives from [src] (with process id [spid]) or from anybody
    into its buffers at [msg] and [hdr]. *)
Inductive box_call := Post (s dpid msg : Z) | Recv (src spid msg hdr : Z).

Section box.
Context (d q pid size : Z) (order : bool) (own : proc) (senders : gmap Z proc).

Definition abs_post (rs : proc) (dpid msg : Z) (a : abox) : abox * Z :=
  if negb (dpid =? pid) then (a, E_BAD_DEST)
  else if Z.of_nat (count_from (ab_box a) 0 16) =? size then (a, E_MRT_MQFULL)
  else match ab_free a with
       | O => (a, E_MRT_NOMQENT)
       | S f =>
           let m := mk_amsg (p_nr rs) (rt_priority (rt rs)) (ab_mem a (umap_D rs msg sizeof_mrt_msg_t)) in
           let p := if order then am_prty m else MRT_PRIHIGHEST in
           (mk_abox (<[p := ab_box a p ++ [m]]> (ab_box a)) f (ab_mem a), OK)
       end.

(** With an unmapped buffer the message stays in the mailbox; its body has been
    copied all the same when only the buffer of the header is unmapped. *)
Definition abs_recv (src spid msg hdr : Z) (a : abox) : abox * (Z * option amsg) :=
  if negb (src =? MRT_ANYPROC) && negb (bool_decide (p_pid <$> senders !! src = Some spid)) then (a, (E_MRT_BADPTYPE, None))
  else match abs_pick src (ab_box a) 0 16 with
  | None => (a, (E_TRY_AGAIN, None))
  | Some (p, m, r) =>
      if umap_D own msg sizeof_mrt_msg_t =? 0 then (a, (EINVAL, None))
      else
        let mem := <[umap_D own msg sizeof_mrt_msg_t := am_body m]> (ab_mem a) in
        if umap_D own hdr sizeof_mrt_mhdr_t =? 0 then (mk_abox (ab_box a) (ab_free a) mem, (EINVAL, None))
        else (mk_abox (<[p := r]> (ab_box a)) (S (ab_free a)) mem, (OK, Some m))
  end.

Definition abs_box (c : box_call) (a : abox) : abox * (Z * option amsg) :=
  match c with
  | Post s dpid msg =>
      match senders !! s with
      | Some rs => let r := abs_post rs dpid msg a in (r.1, (r.2, None))
      | None => (a, (OK, None))
      end
  | Recv src spid msg hdr => abs_recv src spid msg hdr a
  end.

(** The kernel calls; after a receive the owner reads its buffers. *)
Definition run_box (c : box_call) : K (Z * option amsg) :=
  match c with
  | Post s dpid msg =>
      modify (λ k, k <| proc_ptr := s |>);;
      rc ← rtk_arqst (mk_ipc d dpid msg 0 0 MRT_NOWAIT 0);
      mret (rc, None)
  | Recv src spid msg hdr =>
      modify (λ k, k <| proc_ptr := d |>);;
      rc ← rtk_receive (mk_ipc src spid msg 0 hdr MRT_NOWAIT 0);
      if rc =? OK then
        r ← ld_proc d;
        u ← gets um;
        let h := um_hdr u (umap_D r hdr sizeof_mrt_mhdr_t) in
        mret (rc, Some (mk_amsg (mp_p_nr (h_src h)) (h_priority h) (um_msg u (umap_D r msg sizeof_mrt_msg_t))))
      else mret (rc, None)
  end.

(** The callers are known processes and what they post is mapped. *)
Definition box_legal (c : box_call) : Prop :=
  match c with
  | Post s _ msg => ∃ rs, senders !! s = Some rs ∧ umap_D rs msg sizeof_mrt_msg_t ≠ 0
  | Recv src _ _ _ => src = MRT_ANYPROC ∨ is_Some (senders !! src)
  end.

(** The owner is a real-time process with queue [q] that does not wait; the
    senders are processes. *)
Record box_procs : Prop := {
  bp_own : p_nr own = d ∧ MRT_is_process own = true ∧ p_pid own = pid ∧ MRT_is_realtime own = true ∧ pmq own = Some q ∧
    TEST_BIT (rt_flags (rt own)) MRT_MBX_RCV = false;
  bp_snd : ∀ s rs, senders !! s = Some rs → p_nr rs = s ∧ s ≠ d ∧ MRT_is_process rs = true ∧ 0 ≤ rt_priority (rt rs) < 16;
}.

(** Entry [e] holds message [m]. *)
Definition holds (k : kstate) (e : Z) (m : amsg) : Prop :=
  is_Some (senders !! am_src m) ∧ ∃ x, mqes k !! e = Some x ∧ asynchronous x ∧
    m = mk_amsg (mp_p_nr (h_src (e_hdr x))) (h_priority (e_hdr x)) (e_m_u x).

Record box_inv (k : kstate) (Q : lhead → list laddr) (B : Z → list Z) (F : list Z) (a : abox) : Prop := {
  bi_mb : mailbox k Q d q B F;
  bi_mq : ∃ mq, msgQs k !! q = Some mq ∧ q_size mq = size ∧ TEST_BIT (q_flags mq) MQ_PRTYORDER = order ∧
    TEST_BIT (q_flags mq) MQ_PRTYINHERIT = false;
  bi_box : ∀ p, Forall2 (holds k) (B p) (ab_box a p);
  bi_free : length F = ab_free a;
  bi_mem : um_msg (um k) = ab_mem a;
  bi_own : ∃ r, procs k !! d = Some r ∧ core r = core own;
  bi_snd : ∀ s rs, senders !! s = Some rs → ∃ r, procs k !! s = Some r ∧ core r = core rs;
}.
End box.

Lemma core_eq r r' : core r' = core r → r' = r <| st := st r' |> <| p_nextready := p_nextready r' |>.
Proof. destruct r, r'. unfold core, no_st. cbn. intros [=]. subst. reflexivity. Qed.

Lemma count_plen Q q (B : Z → list Z) (box : Z → list amsg) :
  (∀ p, Q (HP (PMq q) p) = LMqe <$> B p) → (∀ p, length (B p) = length (box p)) → plen Q (PMq q) = count_from box 0 16.
Proof.
  intros HQ Hl. assert (H : ∀ c a, plen_from Q (PMq q) a c = count_from box a c); [|apply H].
  induction c as [|c IH]; intros a; [done|]. cbn [plen_from count_from]. by rewrite IH, HQ, length_fmap, Hl.
Qed.

(** The scan of the entries finds the message the abstract mailbox picks. *)
Lemma pick_refines senders k src B box n : (∀ p, Forall2 (holds senders k) (B p) (box p)) → ∀ p,
  match first_wanted (mqes k) src B p n with
  | Some (q, e) => ∃ m r, abs_pick src box p n = Some (q, m, r) ∧ holds senders k e m ∧
      ∀ l1 l2, B q = l1 ++ e :: l2 → e ∉ l1 → Forall2 (holds senders k) (l1 ++ l2) r
  | None => abs_pick src box p n = None
  end.
Proof.
  intros HB. induction n as [|n IH]; intros p; [done|]. cbn [first_wanted abs_pick].
  assert (H : match filter (λ e, wanted (mqes k) src e = true) (B p) with
    | e :: _ => ∃ m r, take_first src (box p) = Some (m, r) ∧ holds senders k e m ∧
        ∀ l1 l2, B p = l1 ++ e :: l2 → e ∉ l1 → Forall2 (holds senders k) (l1 ++ l2) r
    | [] => take_first src (box p) = None end); [|by destruct (filter _ (B p)) as [|e l]; [rewrite H; apply IH|destruct H as (m & r & -> & H); eauto]].
  clear IH. generalize (HB p). generalize (B p), (box p). intros l ms H. induction H as [|e m l ms Hm H IH]; [done|].
  rewrite filter_cons. cbn [take_first]. destruct Hm as (Hs & x & Hx & Ha & Em).
  assert (wanted (mqes k) src e = accepts src m) as Ew by (unfold wanted; by rewrite Hx, Em).
  rewrite Ew. destruct (accepts src m) eqn:Ea.
  - rewrite decide_True by done. exists m, ms. split; [done|]. split; [split; [done|by eexists]|]. intros l1 l2 El Hni.
    destruct l1 as [|y l1]; [by injection El as ->|]. injection El as -> _.
    by destruct Hni; apply list_elem_of_here.
  - rewrite decide_False by done. destruct (filter _ l) as [|e' l'] eqn:Ef; [by rewrite IH|]. destruct IH as (m' & r & -> & Hm' & Hr).
    exists m', (m :: r). split; [done|]. split; [done|]. intros l1 l2 El Hni. destruct l1 as [|y l1]; [injection El as -> _|injection El as <- El].
    + assert (wanted (mqes k) src e' = true); [|congruence].
      assert (e' ∈ filter (λ e, wanted (mqes k) src e = true) l) as [? _]%list_elem_of_filter; [rewrite Ef; by apply list_elem_of_here|done].
    + subst l. constructor; [split; [done|by eexists]|]. apply Hr; [done|]. intros ?. by apply Hni, list_elem_of_further.
Qed.

Lemma mailbox_disj k Q d q B F e p : mailbox k Q d q B F → e ∈ F → e ∉ B p.
Proof.
  intros Hmb HF HB. assert (HMqeL = HP (PMq q) p); [|done]. apply (li_disj _ _ (proj1 (mb_q _ _ _ _ _ _ Hmb)) _ _ (LMqe e)).
  - rewrite (mb_pool _ _ _ _ _ _ Hmb). by apply list_elem_of_fmap_2.
  - rewrite (mb_queue _ _ _ _ _ _ Hmb). by apply list_elem_of_fmap_2.
Qed.

Lemma holds_frame senders k k' e l ms : mb_frame k k' e → e ∉ l → Forall2 (holds senders k) l ms → Forall2 (holds senders k') l ms.
Proof.
  intros [(m' & Em) _ _] Hni H. induction H as [|x m l ms (Hs & y & Hy & Hr) H IH]; [done|]. apply not_elem_of_cons in Hni as [Hx Hni].
  constructor; [|by apply IH]. split; [done|]. exists y. by rewrite Em, lookup_insert_ne.
Qed.

Lemma core_lookup (ps ps' : gmap Z proc) n r : core <$> ps' = core <$> ps → ps !! n = Some r →
  ∃ r', ps' !! n = Some r' ∧ core r' = core r.
Proof.
  intros Hp Hn. apply (f_equal (.!! n)) in Hp. rewrite !lookup_fmap, Hn in Hp.
  destruct (ps' !! n) as [r'|]; [|done]. apply (inj Some) in Hp. eauto.
Qed.

(** *** Every call refines the abstract mailbox *)
Section box_calls.
Context (d q pid size : Z) (order : bool) (own : proc) (senders : gmap Z proc).
Hypothesis Hbp : box_procs d q pid own senders.
#[local] Abbreviation inv := (box_inv d q size order own senders).

Lemma box_inv_ptr k Q B F a s : inv k Q B F a → inv (k <| proc_ptr := s |>) Q B F a.
Proof. intros [[] H2 H3 H4 H5 H6 H7]. by constructor. Qed.

Lemma static_mq k k' e mq : mb_frame k k' e → msgQs k !! q = Some mq →
  ∃ mq', msgQs k' !! q = Some mq' ∧ q_size mq' = q_size mq ∧ q_flags mq' = q_flags mq.
Proof.
  intros [_ _ Hs] Hq. apply (f_equal (.!! q)) in Hs. rewrite !lookup_fmap, Hq in Hs. destruct (msgQs k' !! q) as [mq'|]; [|done].
  injection Hs as ? ?. eauto.
Qed.

Lemma post_refines k Q B F a s rs dpid msg : inv k Q B F a → senders !! s = Some rs → umap_D rs msg sizeof_mrt_msg_t ≠ 0 →
  proc_ptr k = s →
  ∃ k' Q' B' F', rtk_arqst (mk_ipc d dpid msg 0 0 MRT_NOWAIT 0) k = Ok k' (abs_post pid size order rs dpid msg a).2 ∧
    inv k' Q' B' F' (abs_post pid size order rs dpid msg a).1.
Proof.
  intros Hinv Hrs Hmap Hs. pose proof Hinv as [Hmb (mq & Hmq & Hsz & Hord & Hinh) Hbox Hfree Hmem (rd & Hd & Hcd) Hsnd].
  destruct Hbp as [(Hnr & Hproc & Hpid & Hrt & Hpmq & Hnw) Hbs]. destruct (Hbs s rs Hrs) as (Hsnr & Hsd & _ & Hprty).
  destruct (Hsnd s rs Hrs) as (rs' & Hs' & Hcs). apply core_eq in Hcd, Hcs.
  destruct (mb_plist _ _ _ _ _ _ Hmb) as [h Hh].
  assert (Hcnt : p_inQ h = Z.of_nat (count_from (ab_box a) 0 16)).
  { rewrite (po_inQ _ _ _ _ (proj2 (mb_q _ _ _ _ _ _ Hmb) _ _ Hh)). f_equal. eapply count_plen; [apply Hmb|].
    intros p. eapply Forall2_length, Hbox. }
  assert (Hpd : MRT_is_process rd = true ∧ p_pid rd = pid ∧ MRT_is_realtime rd = true ∧ pmq rd = Some q ∧ p_nr rd = d ∧
    TEST_BIT (rt_flags (rt rd)) MRT_MBX_RCV = false) by (rewrite Hcd; done).
  destruct Hpd as (E1 & E2 & E3 & E4 & E5 & E6). unfold abs_post, rtk_arqst. cbn [ipc_p_nr ipc_pid ipc_msg].
  destruct (Z.eqb_spec dpid pid) as [->|Hpd]; cbn [negb].
  2: { exists k, Q, B, F. split; [|done]. unfold check_dest. krun. rewrite E1, E2, (proj2 (Z.eqb_neq pid dpid)) by done. done. }
  destruct (Z.eqb_spec (Z.of_nat (count_from (ab_box a) 0 16)) size) as [Hfull|Hroom].
  { exists k, Q, B, F. split; [|done]. unfold check_dest. krun. rewrite E1, E2, Z.eqb_refl, E3. cbn [negb].
    erewrite bind_ok; [|erewrite bind_ok; [|by apply (mq_full_spec k q mq h rd)]; by rewrite Hcnt, Hfull, Hsz, Z.eqb_refl]. done. }
  assert (Hcp : can_post k d pid q rd mq h) by (constructor; try done; congruence).
  rewrite (bind_ok _ _ _ _ _ (check_dest_spec k d pid q rd mq h Hcp)). cbn [Z.eqb negb OK]. krun. rewrite Hs. krun.
  assert (waits_from true d s rd = false) as -> by (unfold waits_from; by rewrite E6).
  destruct (ab_free a) as [|f] eqn:Ef.
  { apply length_zero_iff_nil in Hfree as ->. exists k, Q, B, []. split; [|done]. unfold transmit. krun.
    unfold MRT_mqe_alloc. destruct (mb_hdr _ _ _ _ _ _ Hmb) as [l Hl].
    destruct (li_list _ _ (proj1 (mb_q _ _ _ _ _ _ Hmb)) _ _ Hl) as (_ & _ & Hf & _). rewrite (mb_pool _ _ _ _ _ _ Hmb) in Hf. cbn in Hf. krun. by rewrite Hf. }
  destruct F as [|e F]; [done|]. injection Hfree as Hfree. destruct (mb_free _ _ _ _ _ _ Hmb e (list_elem_of_here _ _)) as [[m Hm] _].
  assert (Hsp : p_nr rs' = s ∧ umap_D rs' msg sizeof_mrt_msg_t ≠ 0 ∧ 0 ≤ rt_priority (rt rs') < 16) by (rewrite Hcs; done).
  destruct Hsp as (G1 & G2 & G3).
  destruct (transmit_queue k Q s d pid q B e F rs' rd mq h m MT_AREQUEST (rt_priority (rt rs')) (rt_deadline (rt rs')) msg
    "rtk_arqst: the msgq must not be full for proc !!" (inherit_cur d) (λ _, inherit_cur d) Hmb Hcp Hs Hs' G1 Hsd G2 Hm G3)
    as (k' & Q' & Hrun & Hmb' & He' & Hum & Hpt & Hfr).
  rewrite Hrun. destruct (static_mq k k' e mq Hfr Hmq) as (mq' & Hmq' & Esz & Efl).
  destruct (core_lookup _ _ d rd (mf_procs _ _ _ Hfr) Hd) as (rd' & Hd' & Ed').
  eexists k', Q', _, F. split.
  { unfold inherit_cur, if_inherit. krun. assert (pmq rd' = Some q) as -> by (apply core_eq in Ed'; rewrite Ed'; done). krun. by rewrite Efl, Hinh. }
  assert (Hp : mqe_pty mq (posted k rs' rd MT_AREQUEST (rt_priority (rt rs')) (rt_deadline (rt rs')) (um_msg (um k) (umap_D rs' msg sizeof_mrt_msg_t)) m) =
    if order then rt_priority (rt rs) else MRT_PRIHIGHEST).
  { unfold mqe_pty. rewrite Hord. destruct order; [|done]. cbn. rewrite Z.mod_small by lia. by rewrite Hcs. }
  cbn [fst]. constructor.
  - exact Hmb'.
  - exists mq'. by rewrite Esz, Efl.
  - intros p. cbn [ab_box am_prty]. rewrite Hp. set (p0 := if order then _ else _).
    assert (Hold : ∀ p, Forall2 (holds senders k') (B p) (ab_box a p)).
    { intros p1. eapply holds_frame; [done| |done]. eapply mailbox_disj; [exact Hmb|by apply list_elem_of_here]. }
    destruct (decide (p = p0)) as [->|Hne]; [rewrite !fn_lookup_insert|rewrite !fn_lookup_insert_ne by done; apply Hold].
    apply Forall2_app; [apply Hold|]. constructor; [|done]. split; [cbn; rewrite Hsnr; by eexists|]. eexists. split; [exact He'|]. split; [done|].
    cbn. rewrite Z.mod_small by lia. rewrite Hmem, Hcs. done.
  - done.
  - cbn. by rewrite Hum.
  - exists rd'. split; [done|]. rewrite Ed', Hcd. done.
  - intros s1 rs1 Hs1. destruct (Hsnd s1 rs1 Hs1) as (r1 & Hr1 & Er1). destruct (core_lookup _ _ s1 r1 (mf_procs _ _ _ Hfr) Hr1) as (r2 & Hr2 & Er2).
    exists r2. split; [done|congruence].
Qed.
Lemma recv_refines k Q B F a src spid msg hdr : inv k Q B F a → box_legal senders (Recv src spid msg hdr) →
  ∃ k' Q' B' F', run_box d (Recv src spid msg hdr) k = Ok k' (abs_recv own senders src spid msg hdr a).2 ∧
    inv k' Q' B' F' (abs_recv own senders src spid msg hdr a).1.
Proof.
  intros Hinv0 Hsrc. cbn [run_box]. rewrite (bind_ok _ _ _ _ _ (modify_ok _ _)).
  pose proof (box_inv_ptr k Q B F a d Hinv0) as Hinv. clear Hinv0. set (k0 := k <| proc_ptr := d |>) in *. assert (Hcur : proc_ptr k0 = d) by done.
  clearbody k0. clear k. rename k0 into k. pose proof Hinv as [Hmb Hmq Hbox Hfree Hmem (rd & Hd & Hcd) Hsnd].
  destruct Hbp as [(Hnr & Hproc & Hpid & Hrt & Hpmq & Hnw) Hbs]. pose proof Hcd as Hcd'. apply core_eq in Hcd'.
  assert (Hcs : check_source (mk_ipc src spid msg 0 hdr MRT_NOWAIT 0) k = Ok k
    (if negb (src =? MRT_ANYPROC) && negb (bool_decide (p_pid <$> senders !! src = Some spid)) then E_MRT_BADPTYPE else OK)).
  { unfold check_source. cbn [ipc_p_nr ipc_pid]. destruct Hsrc as [->|[rs Hrs]]; [done|].
    destruct (src =? MRT_ANYPROC); [done|]. destruct (Hsnd src rs Hrs) as (r & Hr & Er%core_eq). destruct (Hbs src rs Hrs) as (_ & _ & Hpr & _). krun.
    assert (MRT_is_process r = true ∧ p_pid r = p_pid rs) as [-> ->] by (rewrite Er; done). rewrite Hrs. cbn [negb andb fmap option_fmap option_map].
    destruct (Z.eqb_spec (p_pid rs) spid) as [->|Hne]; [by rewrite bool_decide_true|].
    rewrite bool_decide_false by congruence. done. }
  assert (Hru : p_nr rd = d ∧ pmq rd = Some q ∧ umap_D rd = umap_D own) by (rewrite Hcd'; done). destruct Hru as (E1 & E2 & E3).
  pose proof (pick_refines senders k src B (ab_box a) 16 Hbox 0) as Hpick. unfold abs_recv.
  destruct (negb (src =? MRT_ANYPROC) && negb _).
  { exists k, Q, B, F. split; [|done]. unfold rtk_receive. by rewrite bind_assoc, (bind_ok _ _ _ _ _ Hcs). }
  destruct (first_wanted (mqes k) src B 0 16) as [[p e]|] eqn:Ew.
  - destruct Hpick as (m & r & -> & Hm & Hrest). destruct Hm as ([rs Hrs] & x & Hx & Has & Em).
    destruct (Z.eqb_spec (umap_D own msg sizeof_mrt_msg_t) 0) as [Hmap|Hmap].
    { exists k, Q, B, F. split; [|done]. unfold rtk_receive. rewrite bind_assoc, (bind_ok _ _ _ _ _ Hcs). cbn [negb Z.eqb OK]. krun. rewrite Hcur. krun.
      rewrite E2, (bind_ok _ _ _ _ _ (mailbox_pick k Q d q B F src Hmb)), Ew. cbn [fmap option_fmap option_map snd]. krun.
      unfold KRN2USR, numap. krun. rewrite E1. krun. cbn [ipc_msg]. by rewrite E3, Hmap. }
    destruct (Z.eqb_spec (umap_D own hdr sizeof_mrt_mhdr_t) 0) as [Hhdr|Hhdr].
    { eexists _, Q, B, F. split; [|].
      { unfold rtk_receive. rewrite bind_assoc, (bind_ok _ _ _ _ _ Hcs). cbn [negb Z.eqb OK]. krun. rewrite Hcur. krun.
        rewrite E2, (bind_ok _ _ _ _ _ (mailbox_pick k Q d q B F src Hmb)), Ew. cbn [fmap option_fmap option_map snd]. krun.
        unfold KRN2USR, numap. krun. rewrite E1. krun. cbn [ipc_msg ipc_hdr]. rewrite E3, (proj2 (Z.eqb_neq _ _) Hmap). krun. rewrite E1. krun. rewrite E3, Hhdr. done. }
      cbn [fst]. destruct Hmb. constructor; try done; [|by exists rd].
      cbn. by rewrite Hmem, Em. }
    assert (Hcr : can_receive k d rd (mk_ipc src spid msg 0 hdr MRT_NOWAIT 0)) by (constructor; cbn [ipc_msg ipc_hdr]; rewrite ?E3; done).
    destruct (receive_spec k Q d q B F rd _ p e x Hmb Hcr Ew Hx Has) as (k' & Q' & Hrun & Hmb' & Hum & Hfr).
    { destruct (Hsnd _ rs Hrs) as (r1 & Hr1 & _). exists r1. by rewrite Em in Hr1. }
    rewrite (bind_ok _ _ _ _ _ Hrun). cbn [Z.eqb OK]. destruct (core_lookup _ _ d rd (mf_procs _ _ _ Hfr) Hd) as (rd' & Hd' & Ed').
    pose proof Ed' as Ed2. apply core_eq in Ed2. assert (E4 : umap_D rd' = umap_D own) by (rewrite Ed2; done).
    krun. eexists k', Q', _, _. split.
    { rewrite Hum, E4, E3. cbn [snd fst ipc_msg ipc_hdr st_um_hdr st_um_msg]. unfold st_um_hdr, st_um_msg. cbn. rewrite !fn_lookup_insert. by rewrite Em. }
    assert (Hold : ∀ l ms, e ∉ l → Forall2 (holds senders k) l ms → Forall2 (holds senders k') l ms) by (intros l ms Hl; by eapply holds_frame).
    destruct (first_wanted_Some _ _ _ _ _ _ _ Ew) as (Hp & l1 & l2 & HBp & _).
    assert (Hnd : NoDup (B p)).
    { pose proof (li_nodup _ _ (proj1 (mb_q _ _ _ _ _ _ Hmb)) (HP (PMq q) p)) as Hnd. rewrite (mb_queue _ _ _ _ _ _ Hmb) in Hnd. by apply NoDup_fmap_1 in Hnd. }
    cbn [fst]. constructor.
    + exact Hmb'.
    + destruct Hmq as (mq & Hmq & ? & ? & ?). destruct (static_mq k k' e mq Hfr Hmq) as (mq' & Hmq' & Esz & Efl). exists mq'. by rewrite Esz, Efl.
    + intros p'. cbn [ab_box]. destruct (decide (p' = p)) as [->|Hne].
      * rewrite !fn_lookup_insert, HBp, filter_ne_middle by (by rewrite <- HBp). rewrite HBp in Hnd. rewrite <- Permutation_middle in Hnd.
        apply NoDup_cons in Hnd as [Hni _]. apply Hold; [done|]. apply Hrest; [done|]. intros ?. apply Hni. by apply elem_of_app; left.
      * rewrite !fn_lookup_insert_ne by done. apply Hold; [|apply Hbox]. intros He.
        assert (HP (PMq q) p' = HP (PMq q) p) as [= ?]; [|done].
        apply (li_disj _ _ (proj1 (mb_q _ _ _ _ _ _ Hmb)) _ _ (LMqe e)); rewrite (mb_queue _ _ _ _ _ _ Hmb); apply list_elem_of_fmap_2; [done|].
        rewrite HBp. by apply elem_of_app; right; apply list_elem_of_here.
    + cbn. rewrite length_app, Hfree. cbn. lia.
    + rewrite Hum, E3, Em. cbn. by rewrite Hmem.
    + exists rd'. split; [done|]. by rewrite Ed'.
    + intros s1 rs1 Hs1. destruct (Hsnd s1 rs1 Hs1) as (r1 & Hr1 & Er1). destruct (core_lookup _ _ s1 r1 (mf_procs _ _ _ Hfr) Hr1) as (r2 & Hr2 & Er2).
      exists r2. split; [done|congruence].
  - rewrite Hpick. exists k, Q, B, F. split; [|done]. unfold rtk_receive. rewrite bind_assoc, (bind_ok _ _ _ _ _ Hcs).
    cbn [Z.eqb negb OK ipc_p_nr]. krun. rewrite Hcur. krun. rewrite E2, (bind_ok _ _ _ _ _ (mailbox_pick k Q d q B F src Hmb)), Ew. done.
Qed.
End box_calls.

(** *** Sequences of calls *)
Section box_runs.
Context (d q pid size : Z) (order : bool) (own : proc) (senders : gmap Z proc).

Fixpoint run_boxes (cs : list box_call) : K (list (Z * option amsg)) :=
  match cs with [] => mret [] | c :: cs' => r ← run_box d c; rs ← run_boxes cs'; mret (r :: rs) end.

Fixpoint abs_boxes (cs : list box_call) (a : abox) : abox * list (Z * option amsg) :=
  match cs with
  | [] => (a, [])
  | c :: cs' => let r := abs_box pid size order own senders c a in let rs := abs_boxes cs' r.1 in (rs.1, r.2 :: rs.2)
  end.

#[local] Abbreviation inv := (box_inv d q size order own senders).

Lemma run_box_spec k Q B F a c : box_procs d q pid own senders → inv k Q B F a → box_legal senders c →
  ∃ k' Q' B' F', run_box d c k = Ok k' (abs_box pid size order own senders c a).2 ∧
    inv k' Q' B' F' (abs_box pid size order own senders c a).1.
Proof.
  intros Hbp Hinv Hc. destruct c as [s dpid msg|src spid msg hdr]; [|by eapply recv_refines].
  destruct Hc as (rs & Hrs & Hmap). cbn [run_box abs_box]. rewrite Hrs. rewrite (bind_ok _ _ _ _ _ (modify_ok _ _)).
  destruct (post_refines d q pid size order own senders Hbp (k <| proc_ptr := s |>) Q B F a s rs dpid msg) as (k' & Q' & B' & F' & Hrun & Hinv');
    [by apply box_inv_ptr|done..|]. exists k', Q', B', F'. rewrite (bind_ok _ _ _ _ _ Hrun). done.
Qed.

Lemma run_boxes_spec cs : box_procs d q pid own senders → ∀ k Q B F a, inv k Q B F a → Forall (box_legal senders) cs →
  ∃ k' Q' B' F', run_boxes cs k = Ok k' (abs_boxes cs a).2 ∧ inv k' Q' B' F' (abs_boxes cs a).1.
Proof.
  intros Hbp. induction cs as [|c cs IH]; intros k Q B F a Hinv; cbn [run_boxes abs_boxes]; [eauto 10|].
  intros [Hc Hcs]%Forall_cons. destruct (run_box_spec k Q B F a c Hbp Hinv Hc) as (k1 & Q1 & B1 & F1 & Hrun & Hinv1).
  destruct (IH k1 Q1 B1 F1 _ Hinv1 Hcs) as (k2 & Q2 & B2 & F2 & Hrun2 & Hinv2).
  exists k2, Q2, B2, F2. cbn [fst snd]. by rewrite (bind_ok _ _ _ _ _ Hrun), (bind_ok _ _ _ _ _ Hrun2).
Qed.

(** *** Nothing is lost *)

Lemma count_from_other box p l c : ∀ a, p < Z.of_nat a → count_from (<[p := l]> box) a c = count_from box a c.
Proof.
  induction c as [|c IH]; intros a Hp; [done|]. cbn [count_from]. rewrite IH by lia. by rewrite fn_lookup_insert_ne by lia.
Qed.

Lemma count_from_insert box p l c : ∀ a, Z.of_nat a ≤ p < Z.of_nat a + Z.of_nat c →
  (count_from (<[p := l]> box) a c + length (box p) = count_from box a c + length l)%nat.
Proof.
  induction c as [|c IH]; intros a Hp; [lia|]. cbn [count_from]. destruct (decide (p = Z.of_nat a)) as [->|Hne].
  - rewrite fn_lookup_insert, count_from_other by lia. lia.
  - rewrite fn_lookup_insert_ne by done. specialize (IH (S a)). lia.
Qed.

Lemma take_first_length src l m r : take_first src l = Some (m, r) → length l = S (length r).
Proof.
  revert r. induction l as [|x l IH]; intros r; cbn; [done|]. destruct (accepts src x); [by intros [= -> ->]|].
  destruct (take_first src l) as [[y r']|]; [|done]. intros [= -> <-]. cbn. by rewrite (IH r').
Qed.

Lemma abs_pick_Some src box n p q' m r : abs_pick src box p n = Some (q', m, r) →
  p ≤ q' < p + Z.of_nat n ∧ take_first src (box q') = Some (m, r) ∧ ∀ p', p ≤ p' < q' → take_first src (box p') = None.
Proof.
  revert p. induction n as [|n IH]; intros p; cbn; [done|]. destruct (take_first src (box p)) as [[y r']|] eqn:E.
  - intros [= <- <- <-]. split_and!; [lia|lia|done|]. intros; lia.
  - intros (H1 & H2 & H3)%IH. split_and!; [lia|lia|done|]. intros p' Hp'. destruct (decide (p' = p)) as [->|Hne]; [done|]. apply H3. lia.
Qed.

Lemma abs_pick_None src box n p : abs_pick src box p n = None ↔ ∀ p', p ≤ p' < p + Z.of_nat n → take_first src (box p') = None.
Proof.
  revert p. induction n as [|n IH]; intros p; cbn [abs_pick]; [split; [intros; lia|done]|].
  destruct (take_first src (box p)) as [[y r']|] eqn:E.
  - split; [done|]. intros H. specialize (H p ltac:(lia)). congruence.
  - rewrite IH. split; intros H p' Hp'; [|apply H; lia]. destruct (decide (p' = p)) as [->|Hne]; [done|]. apply H. lia.
Qed.

Lemma abs_box_conserves c a : (∀ s rs, senders !! s = Some rs → 0 ≤ rt_priority (rt rs) < 16) →
  let a' := (abs_box pid size order own senders c a).1 in
  (count_from (ab_box a') 0 16 + ab_free a' = count_from (ab_box a) 0 16 + ab_free a)%nat.
Proof.
  intros Hp. destruct c as [s dpid msg|src spid msg hdr]; cbn [abs_box].
  - destruct (senders !! s) as [rs|] eqn:E; [|done]. unfold abs_post. destruct (negb _); [done|]. destruct (_ =? size); [done|].
    destruct (ab_free a) as [|f] eqn:Ef; cbn [fst ab_box ab_free am_prty]; [by rewrite Ef|].
    set (p := if order then _ else _). set (l := _ ++ _).
    assert (0 ≤ p < 16) by (specialize (Hp s rs E); unfold p, MRT_PRIHIGHEST; destruct order; lia).
    pose proof (count_from_insert (ab_box a) p l 16 0 ltac:(lia)) as Hc. unfold l in Hc at 2. rewrite length_app in Hc. cbn [length] in Hc. lia.
  - unfold abs_recv. destruct (_ && _); [done|]. destruct (abs_pick _ _ _ _) as [[[p m] r]|] eqn:E; [|done].
    destruct (umap_D own msg _ =? 0); [done|]. destruct (umap_D own hdr _ =? 0); [done|]. apply abs_pick_Some in E as (Hr & Ht & _).
    cbn [fst ab_box ab_free]. pose proof (count_from_insert (ab_box a) p r 16 0 ltac:(lia)) as Hc. apply take_first_length in Ht. lia.
Qed.
End box_runs.

(** C18: Take a real-time process that does not wait, whose message queue does not
    inherit priorities, and known senders. Any sequence of asynchronous requests by
    the senders with a mapped message, under any process identifier, and of receives
    by the process that do not wait ([MRT_NOWAIT]), from anybody or from one of the
    senders, under any identifier and into any buffers ([box_legal]), runs to
    completion and refines an abstract mailbox: a request is refused exactly when the
    identifier is wrong, the queue is at its size or no entry is free, and otherwise
    its message is filed by the priority of its sender and the order of arrival; a
    receive under a wrong identifier is refused, otherwise it hands over the first
    acceptable message of the most urgent list with the body its sender wrote, tells
    the caller to try again when there is none, and leaves the message where it is
    when a buffer is not mapped. Direct delivery to a waiting process, inheriting
    queues and requests with an unmapped message are not covered. *)
Theorem mailbox_refines d q pid size order own senders k Q B F a cs :
  box_procs d q pid own senders → box_inv d q size order own senders k Q B F a → Forall (box_legal senders) cs →
  ∃ k' Q' B' F', run_boxes d cs k = Ok k' (abs_boxes pid size order own senders cs a).2 ∧
    box_inv d q size order own senders k' Q' B' F' (abs_boxes pid size order own senders cs a).1.
Proof. intros. by eapply run_boxes_spec. Qed.

(** C19: No sequence of the requests and receives of [box_legal] (known senders,
    what they post is mapped, receives that do not wait, no priority inheritance; the
    ones that fail included) loses or duplicates a message queue entry: the entries in
    the mailbox and in the pool always add up to the same number. The condition that
    what is posted is mapped is needed, an entry is lost otherwise (Faults.v). *)
Theorem mailbox_conserves d q pid size order own senders k Q B F a cs :
  box_procs d q pid own senders → box_inv d q size order own senders k Q B F a → Forall (box_legal senders) cs →
  ∃ k' rs Q' F' h h', run_boxes d cs k = Ok k' rs ∧ plists (lm k) !! PMq q = Some h ∧ plists (lm k') !! PMq q = Some h' ∧
    Q' HMqeL = LMqe <$> F' ∧ linv (lm k') Q' ∧ p_inQ h' + Z.of_nat (length F') = p_inQ h + Z.of_nat (length F).
Proof.
  intros Hbp Hinv Hcs. destruct (run_boxes_spec d q pid size order own senders cs Hbp k Q B F a Hinv Hcs) as (k' & Q' & B' & F' & Hrun & Hinv').
  assert (Hc : (count_from (ab_box (abs_boxes pid size order own senders cs a).1) 0 16 + ab_free (abs_boxes pid size order own senders cs a).1 =
    count_from (ab_box a) 0 16 + ab_free a)%nat).
  { clear -Hbp. revert a. induction cs as [|c cs IH]; intros a; [done|]. cbn [abs_boxes fst]. rewrite IH. apply abs_box_conserves.
    intros s rs Hs. by apply (bp_snd _ _ _ _ _ Hbp s). }
  assert (Hin : ∀ k Q B F a, box_inv d q size order own senders k Q B F a → ∃ h, plists (lm k) !! PMq q = Some h ∧
    p_inQ h + Z.of_nat (length F) = Z.of_nat (count_from (ab_box a) 0 16 + ab_free a)).
  { clear. intros k Q B F a [Hmb _ Hbox Hfree _ _ _]. destruct (mb_plist _ _ _ _ _ _ Hmb) as [h Hh]. exists h. split; [done|].
    rewrite (po_inQ _ _ _ _ (proj2 (mb_q _ _ _ _ _ _ Hmb) _ _ Hh)), Hfree, Nat2Z.inj_add. do 2 f_equal. eapply count_plen; [apply Hmb|].
    intros p. eapply Forall2_length, Hbox. }
  destruct (Hin _ _ _ _ _ Hinv) as (h & Hh & Eh). destruct (Hin _ _ _ _ _ Hinv') as (h' & Hh' & Eh').
  exists k', (abs_boxes pid size order own senders cs a).2, Q', F', h, h'. split_and!; try done; [apply Hinv'|apply Hinv'|lia].
Qed.

(** C20: Take a queue that does not inherit priorities, of a process that does not
    wait. When no message of the sender is pending, the queue has room, an entry is
    free and the buffers are mapped, a message posted under the right identifier is
    what the owner receives from that sender next, with its priority and body, and
    the receive leaves the mailbox and the number of free entries as they were
    before the request. *)
Theorem post_recv_roundtrip d q pid size order own senders k Q B F a s rs msg rmsg rhdr :
  box_procs d q pid own senders → box_inv d q size order own senders k Q B F a →
  senders !! s = Some rs → umap_D rs msg sizeof_mrt_msg_t ≠ 0 →
  umap_D own rmsg sizeof_mrt_msg_t ≠ 0 → umap_D own rhdr sizeof_mrt_mhdr_t ≠ 0 →
  Z.of_nat (count_from (ab_box a) 0 16) ≠ size → F ≠ [] → abs_pick s (ab_box a) 0 16 = None →
  ∃ k' Q' B' F' box', run_boxes d [Post s pid msg; Recv s (p_pid rs) rmsg rhdr] k =
      Ok k' [(OK, None); (OK, Some (mk_amsg s (rt_priority (rt rs)) (um_msg (um k) (umap_D rs msg sizeof_mrt_msg_t))))] ∧
    box_inv d q size order own senders k' Q' B' F' box' ∧ (∀ p, ab_box box' p = ab_box a p) ∧ length F' = length F.
Proof.
  intros Hbp Hinv Hs Hmap Hrm Hrh Hroom HF Hnone. set (cs := [Post s pid msg; Recv s (p_pid rs) rmsg rhdr]).
  destruct (run_boxes_spec d q pid size order own senders cs Hbp k Q B F a Hinv) as (k' & Q' & B' & F' & Hrun & Hinv').
  { apply Forall_cons. split; [by exists rs|apply Forall_singleton; right; by exists rs]. }
  destruct (bp_snd _ _ _ _ _ Hbp s rs Hs) as (Hnr & _ & _ & Hprty).
  assert (Hfree : ab_free a ≠ O) by (rewrite <- (bi_free _ _ _ _ _ _ _ _ _ _ _ Hinv); by destruct F).
  destruct (ab_free a) as [|f] eqn:Ef; [done|]. set (body := um_msg (um k) (umap_D rs msg sizeof_mrt_msg_t)).
  set (m := mk_amsg s (rt_priority (rt rs)) body). set (p := if order then rt_priority (rt rs) else MRT_PRIHIGHEST).
  assert (Hp : 0 ≤ p < 16) by (unfold p, MRT_PRIHIGHEST; destruct order; lia).
  assert (Epost : abs_post pid size order rs pid msg a = (mk_abox (<[p := ab_box a p ++ [m]]> (ab_box a)) f (ab_mem a), OK)).
  { unfold abs_post. rewrite Z.eqb_refl. cbn [negb]. rewrite (proj2 (Z.eqb_neq _ _) Hroom), Ef, Hnr, <- (bi_mem _ _ _ _ _ _ _ _ _ _ _ Hinv). done. }
  assert (Etake : ∀ l, take_first s l = None → take_first s (l ++ [m]) = Some (m, l)).
  { intros l. induction l as [|x l IH]; cbn; [unfold accepts; cbn; by rewrite Z.eqb_refl, orb_true_r|].
    destruct (accepts s x); [done|]. destruct (take_first s l) as [[? ?]|]; [done|]. intros _. by rewrite IH. }
  rewrite abs_pick_None in Hnone.
  assert (Epick : abs_pick s (<[p := ab_box a p ++ [m]]> (ab_box a)) 0 16 = Some (p, m, ab_box a p)).
  { destruct (abs_pick s _ 0 16) as [[[q' m'] r]|] eqn:E.
    - apply abs_pick_Some in E as (Hq & Ht & _). destruct (decide (q' = p)) as [->|Hne].
      + rewrite fn_lookup_insert, Etake in Ht by (apply Hnone; lia). by injection Ht as <- <-.
      + rewrite fn_lookup_insert_ne, Hnone in Ht by (done || lia). done.
    - rewrite abs_pick_None in E. specialize (E p ltac:(lia)). rewrite fn_lookup_insert, Etake in E by (apply Hnone; lia). done. }
  cbn [cs abs_boxes abs_box] in Hrun, Hinv'. rewrite Hs, Epost in Hrun, Hinv'. cbn [fst snd] in Hrun, Hinv'. unfold abs_recv in Hrun, Hinv'.
  rewrite Hs, bool_decide_true, andb_false_r in Hrun, Hinv' by done.
  cbn [ab_box ab_free] in Hrun, Hinv'. rewrite Epick, (proj2 (Z.eqb_neq _ _) Hrm), (proj2 (Z.eqb_neq _ _) Hrh) in Hrun, Hinv'. cbn [fst snd] in Hrun, Hinv'.
  eexists k', Q', B', F', _. split; [exact Hrun|]. split; [exact Hinv'|]. split.
  - intros p'. cbn. destruct (decide (p' = p)) as [->|Hne]; [by rewrite fn_lookup_insert|by rewrite !fn_lookup_insert_ne].
  - rewrite (bi_free _ _ _ _ _ _ _ _ _ _ _ Hinv'), (bi_free _ _ _ _ _ _ _ _ _ _ _ Hinv). cbn. by rewrite Ef.
Qed.

(** ** The pool at boot *)

Lemma mpool_init_spec k Q : qinv (lm k) Q → this_ok (lm k) → is_Some (lists (lm k) !! HMqeL) → Q HMqeL = [] →
  (∀ i, 0 ≤ i < NR_MESSAGES → is_Some (mqes k !! i) ∧ is_Some (links (lm k) !! LMqe i) ∧ unlinked Q (LMqe i)) →
  ∃ k' Q', MRT_mpool_init k = Ok k' () ∧ qstep (lm k) (lm k') Q Q' ∧ Q' HMqeL = LMqe <$> seqZ 0 NR_MESSAGES ∧
    (∀ L, L ≠ HMqeL → Q' L = Q L) ∧ procs k' = procs k ∧ msgQs k' = msgQs k ∧ um k' = um k ∧
    ∀ i, 0 ≤ i < NR_MESSAGES → ∃ m, mqes k' !! i = Some m ∧ e_index m = i.
Proof.
  intros Hq Ht HL Hnil Hi. unfold MRT_mpool_init.
  set (I := λ (j : Z) (k' : kstate), ∃ Q', qstep (lm k) (lm k') Q Q' ∧ Q' HMqeL = LMqe <$> seqZ 0 j ∧ (∀ L, L ≠ HMqeL → Q' L = Q L) ∧
    procs k' = procs k ∧ msgQs k' = msgQs k ∧ um k' = um k ∧ (∀ i, is_Some (mqes k !! i) → is_Some (mqes k' !! i)) ∧
    ∀ i, 0 ≤ i < j → ∃ m, mqes k' !! i = Some m ∧ e_index m = i).
  edestruct (for_inv I) as (k' & Hrun & Q' & Hs & G1 & G2 & E1 & E2 & E3 & _ & E5); [| |exists k', Q'; split; [exact Hrun|]; split; [exact Hs|]; done].
  2: { exists Q. split; [by split|]. split_and!; try done. intros; lia. }
  intros j k0 Hj (Qj & [Hq0 Hf0] & G1 & G2 & E1 & E2 & E3 & E4 & E5). destruct (Hi j) as (Hm & Hlk & Hu); [unfold NR_MESSAGES in *; lia|].
  apply E4 in Hm as [m Hm]. krun.
  assert (Huj : unlinked Qj (LMqe j)).
  { intros L. destruct (decide (L = HMqeL)) as [->|Hne]; [|rewrite G2 by done; apply Hu].
    rewrite G1. intros (x & [= <-] & Hx%elem_of_seqZ)%list_elem_of_fmap_1. lia. }
  match goal with |- ∃ _, (MRT_mqe_rst j ≫= _) ?st = _ ∧ _ => set (k1 := st) end.
  destruct (mqe_free_spec k1 Qj j) as (k2 & Hrun & [Hq2 Hf2] & [(m2 & Em & Eix) F2 F3 F4 _]);
    [done|by eapply this_ok_frame|by eexists; apply lookup_insert_eq|done|by apply (lframe_is_Some _ _ _ Hf0)|by apply Hf0|].
  exists k2. split; [exact Hrun|]. eexists. split; [split; [exact Hq2|by etrans]|]. split_and!.
  - rewrite fn_lookup_insert, G1, seqZ_app, fmap_app by lia. done.
  - intros L HL'. rewrite fn_lookup_insert_ne by done. by apply G2.
  - by rewrite F2.
  - by rewrite F3.
  - by rewrite F4.
  - intros i Hsi. rewrite Em. cbn. rewrite !lookup_insert_is_Some'. auto.
  - intros i Hij. rewrite Em. destruct (decide (i = j)) as [->|Hne].
    + exists m2. rewrite lookup_insert_eq. split; [done|]. by rewrite (Eix _ (lookup_insert_eq _ _ _)).
    + rewrite lookup_insert_ne by done. cbn. rewrite lookup_insert_ne by done. apply E5. lia.
Qed.

(** *** A mailbox of two messages *)

Definition box_proc (n p : Z) : proc :=
  (rt_proc n p) <| p_pid := 10 * n |> <| p_map_D := mk_mem_map 0 (100 * n) 50 |> <| p_map_S := mk_mem_map 50 (100 * n + 50) 50 |>.
Definition box_own : proc := (box_proc 3 5) <| pmq := Some 0 |>.
Definition box_senders : gmap Z proc := {[ 4 := box_proc 4 2; 5 := box_proc 5 7 ]}.

Definition box_bss : kstate :=
  bss <| procs ::= λ ps, <[3 := box_own]> (<[4 := box_proc 4 2]> (<[5 := box_proc 5 7]> ps)) |>
      <| msgQs ::= <[0 := mk_msgQ 0 2 MQ_PRTYORDER 3 0 0]> |>
      <| um ::= λ u, u <| um_msg := λ a, [a mod 256] |> |>.

Definition box_a0 : abox := mk_abox (λ _, []) 32 (λ a, [a mod 256]).

Lemma box_bss_entries i : 0 ≤ i < NR_MESSAGES →
  is_Some (mqes box_bss !! i) ∧ is_Some (links (lm box_bss) !! LMqe i) ∧ unlinked (λ _, []) (LMqe i).
Proof.
  intros Hi. assert (Hc : forallb (λ i, bool_decide (is_Some (mqes box_bss !! i)) && bool_decide (is_Some (links (lm box_bss) !! LMqe i)))
    (seqZ 0 NR_MESSAGES) = true) by (vm_compute; reflexivity).
  rewrite forallb_forall in Hc. specialize (Hc i). apply andb_true_iff in Hc as [H1%bool_decide_eq_true H2%bool_decide_eq_true]; [|apply list_elem_of_In, elem_of_seqZ; lia].
  split; [done|]. split; [done|]. by intros L ?%elem_of_nil.
Qed.

Lemma box_bss_pool : ∃ k Q, MRT_mpool_init box_bss = Ok k () ∧ qstep (lm box_bss) (lm k) (λ _, []) Q ∧ Q HMqeL = LMqe <$> seqZ 0 NR_MESSAGES ∧
    (∀ L, L ≠ HMqeL → Q L = []) ∧ procs k = procs box_bss ∧ msgQs k = msgQs box_bss ∧ um k = um box_bss ∧
    ∀ i, 0 ≤ i < NR_MESSAGES → ∃ m, mqes k !! i = Some m ∧ e_index m = i.
Proof.
  apply (mpool_init_spec box_bss (λ _, [])); [apply bss_lm_qinv|apply this_ok_check; vm_compute; done|by eexists|done|].
  apply box_bss_entries.
Qed.

Lemma box_demo : ∃ k Q, MRT_mpool_init box_bss = Ok k () ∧ um_msg (um k) = um_msg (um box_bss) ∧ box_inv 3 0 2 true box_own box_senders k Q (λ _, []) (seqZ 0 NR_MESSAGES) box_a0.
Proof.
  destruct box_bss_pool as (k & Q & Hrun & [Hq Hf] & HQ & HQ' & E1 & E2 & E3 & E4). exists k, Q. split; [exact Hrun|].
  split; [by rewrite E3|]. constructor.
  - constructor; [done|eapply this_ok_frame; [done|apply this_ok_check; vm_compute; done]| |apply (fr_plists _ _ Hf); by eexists|apply Hf; by eexists| |done| |].
    + exists box_own. rewrite E1. split; reflexivity.
    + intros p. by apply HQ'.
    + exists (mk_msgQ 0 2 MQ_PRTYORDER 3 0 0). rewrite E2. split; [reflexivity|]. intros p e He. by destruct (not_elem_of_nil e).
    + intros e He%elem_of_seqZ. split; [|lia]. destruct (E4 e) as (m & -> & _); [lia|]. by eexists.
  - exists (mk_msgQ 0 2 MQ_PRTYORDER 3 0 0). rewrite E2. split_and!; reflexivity.
  - constructor.
  - done.
  - by rewrite E3.
  - exists box_own. rewrite E1. split; reflexivity.
  - intros s rs Hs. rewrite E1. unfold box_senders in Hs. rewrite lookup_insert_Some, lookup_singleton_Some in Hs.
    destruct Hs as [[<- <-]|[_ [<- <-]]]; eexists; split; reflexivity.
Qed.

Lemma box_demo_procs : box_procs 3 0 30 box_own box_senders.
Proof.
  constructor; [split_and!; reflexivity|]. intros s rs Hs. unfold box_senders in Hs. rewrite lookup_insert_Some, lookup_singleton_Some in Hs.
  destruct Hs as [[<- <-]|[_ [<- <-]]]; (split_and!; [reflexivity|done|reflexivity|cbn; lia|cbn; lia]).
Qed.

(** 5 posts under a wrong process id and then under the right one, 4 posts, a
    further request finds the queue full; receives with a wrong process id and into
    unmapped buffers fail; 4 is served first, then 5; then the mailbox is empty. *)
Definition box_script : list box_call :=
  [Post 5 31 16; Post 5 30 16; Post 4 30 32; Post 5 30 48; Recv 5 51 64 128; Recv MRT_ANYPROC 0 100000 128; Recv MRT_ANYPROC 0 64 100000;
   Recv MRT_ANYPROC 0 64 128; Recv 5 50 64 128; Recv MRT_ANYPROC 0 64 128].

Lemma box_script_legal : Forall (box_legal box_senders) box_script.
Proof.
  unfold box_script. rewrite !Forall_cons. unfold box_legal.
  assert (H4 : box_senders !! 4 = Some (box_proc 4 2)) by reflexivity. assert (H5 : box_senders !! 5 = Some (box_proc 5 7)) by reflexivity.
  split_and!; try done; try (by left); try (by right; exists (box_proc 5 7)); eexists; (split; [first [exact H4|exact H5]|done]).
Qed.

Lemma mpool_init_runs : ∃ k Q, MRT_mpool_init box_bss = Ok k () ∧ Q HMqeL = LMqe <$> seqZ 0 NR_MESSAGES ∧ linv (lm k) Q.
Proof.
  destruct (mpool_init_spec box_bss (λ _, [])) as (k & Q & Hrun & [Hq _] & HQ & _);
    [apply bss_lm_qinv|apply this_ok_check; vm_compute; done|by eexists|done| |exists k, Q; split; [exact Hrun|]; split; [exact HQ|apply Hq]].
  apply box_bss_entries.
Defined.

Lemma mailbox_refines_witness : ∃ k k', MRT_mpool_init box_bss = Ok k () ∧
  run_boxes 3 box_script k = Ok k' [(E_BAD_DEST, None); (OK, None); (OK, None); (E_MRT_MQFULL, None); (E_MRT_BADPTYPE, None); (EINVAL, None); (EINVAL, None);
    (OK, Some (mk_amsg 4 2 [32])); (OK, Some (mk_amsg 5 7 [16])); (E_TRY_AGAIN, None)].
Proof.
  destruct box_demo as (k & Q & Hrun & Hm & Hinv).
  destruct (mailbox_refines 3 0 30 2 true box_own box_senders k Q _ _ box_a0 box_script box_demo_procs Hinv box_script_legal) as (k' & Q' & B' & F' & Hrun' & _).
  exists k, k'. split; [exact Hrun|]. rewrite Hrun'. f_equal.
Defined.

Lemma mailbox_conserves_witness : ∃ k k' rs Q' F' h h', MRT_mpool_init box_bss = Ok k () ∧ run_boxes 3 (take 2 box_script) k = Ok k' rs ∧
  plists (lm k) !! PMq 0 = Some h ∧ plists (lm k') !! PMq 0 = Some h' ∧ Q' HMqeL = LMqe <$> F' ∧ linv (lm k') Q' ∧ p_inQ h' + Z.of_nat (length F') = p_inQ h + 32.
Proof.
  destruct box_demo as (k & Q & Hrun & Hm & Hinv).
  destruct (mailbox_conserves 3 0 30 2 true box_own box_senders k Q _ _ box_a0 (take 2 box_script) box_demo_procs Hinv (Forall_take _ _ _ box_script_legal))
    as (k' & rs & Q' & F' & h & h' & Hrest). exists k, k', rs, Q', F', h, h'. split; [exact Hrun|exact Hrest].
Defined.

Lemma post_recv_roundtrip_witness : ∃ k k', MRT_mpool_init box_bss = Ok k () ∧
  run_boxes 3 [Post 4 30 32; Recv 4 40 64 128] k = Ok k' [(OK, None); (OK, Some (mk_amsg 4 2 [32]))].
Proof.
  destruct box_demo as (k & Q & Hrun & Hm & Hinv).
  destruct (post_recv_roundtrip 3 0 30 2 true box_own box_senders k Q _ _ box_a0 4 (box_proc 4 2) 32 64 128 box_demo_procs Hinv)
    as (k' & Q' & B' & F' & box' & Hrun' & _); 
    [reflexivity|vm_compute; discriminate|vm_compute; discriminate|vm_compute; discriminate|vm_compute; discriminate|vm_compute; discriminate|reflexivity|].
  exists k, k'. split; [exact Hrun|]. change 40 with (p_pid (box_proc 4 2)). rewrite Hrun'. do 3 f_equal. by rewrite Hm.
Defined.
