(* ===== verification/Rtproc.v ===== *)
(** * Real-time processes (kernel/mrtproc.c)

    Reset of the real-time attributes, conversion of a MINIX process into a
    real-time process and back, sleep and wakeup, and [rtk_call], the entry of
    the real-time kernel calls. *)

From stdpp Require Import base gmap strings pretty numbers fin_maps functions list.
From S2P Require Import Prelude Lists Kernel Sched VTimer Inherit Sem Msg.
Local Open Scope Z_scope.

(** ** Reset *)

Definition MRT_pstat_rst (rp : Z) : K unit :=
  st_proc rp (λ r, r <| st := mk_rtstats 0 0 0 0 0 0 0 |>).

Definition MRT_pattr_rst (rp : Z) : K unit :=
  st_proc rp (λ r, r <| rt := mk_rtattrib 0 MRT_PRILOWEST MRT_PRILOWEST 0 0 0 HARDWARE |>
    <| mq := mk_mqattrib 0 0 |> <| pmq := None |> <| pvt := None |> <| ipcvt := None |>);;
  lists_ (MRT_list_rst (HSalloc rp));;
  lists_ (MRT_list_rst (HSlock rp));;
  st_proc rp (λ r, r <| pto := None |> <| pfrom := None |> <| psem := None |>
    <| pmsg := 0 |> <| pmhdr := 0 |>);;
  lists_ (MRT_link_rst (LProc rp) (OProc rp) MRT_OBJPROC).

Definition MRT_proc_rst (rp : Z) : K unit := MRT_pattr_rst rp;; MRT_pstat_rst rp.

(** The loop makes [NR_PROCS] rounds from the first task on. *)
Definition MRT_proc_init : K unit :=
  sv_set MRT_NEEDSCHED;;
  for_ (- NR_TASKS) (Z.to_nat NR_PROCS) MRT_proc_rst.

(** The slot of a process identifier: the first slot of the table with that pid,
    unless it is free. *)
Fixpoint pid_scan (n : Z) (fuel : nat) (pid : Z) : K (option Z) :=
  match fuel with
  | O => mret None
  | S fuel' =>
      r ← ld_proc n;
      if p_pid r =? pid then mret (if p_flags r =? P_SLOT_FREE then None else Some n)
      else pid_scan (n + 1) fuel' pid
  end.

Definition MRT_pid2pptr (pid : Z) : K (option Z) :=
  pid_scan (- NR_TASKS) (Z.to_nat (NR_TASKS + NR_PROCS)) pid.

(** ** Real-time processes and MINIX processes *)

(** [rp->pvt = NULL] is the condition of the [if] in the source. *)
Definition set2rt_periodic (rp : Z) : K unit :=
  r ← ld_proc rp;
  v ← MRT_vtimer_alloc (rt_period (rt r)) (rt_limit (rt r)) MRT_ACT_PERIODIC 0 (p_nr r) (rt_priority (rt r));
  st_proc rp (λ r, r <| pvt := v |>);;
  st_proc rp (λ r, r <| pvt := None |>);;
  st_proc rp (λ r, r <| rt ::= λ a, a <| rt_flags ::= λ f, SET_BIT f MRT_P_SLEEP |> |>);;
  r ← ld_proc rp;
  i ← notnull (pvt r);
  MRT_vtimer_ins i.

Definition rtk_set2rt : K Z :=
  rp ← gets proc_ptr;
  r ← ld_proc rp;
  if MRT_is_realtime r then mret E_MRT_BADPTYPE
  else
    freeQ ← lists_ (ld_list HFreeVt);
    if inQ freeQ =? 0 then mret E_MRT_NOVTIMER
    else if (inQ freeQ =? 1) && MRT_is_periodic r then mret E_MRT_NOVTIMER
    else
      mqeL ← lists_ (ld_list HMqeL);
      if inQ mqeL =? 0 then mret E_MRT_NOMSGQ
      else
        q ← MRT_msgQ_alloc (mqa_size (mq r)) (mqa_flags (mq r)) (p_nr r);
        st_proc rp (λ r, r <| pmq := q |>);;
        (match q with
         | None => panic "rtk_set2rt: a MQ must be free for proc" (p_nr r)
         | Some _ => mret ()
         end);;
        v ← MRT_vtimer_alloc 1 0 MRT_ACT_NONE 0 (p_nr r) (rt_priority (rt r));
        st_proc rp (λ r, r <| ipcvt := v |>);;
        (match v with
         | None => panic "rtk_set2rt: a VT for IPC must be free for proc" (p_nr r)
         | Some _ => mret ()
         end);;
        (if MRT_is_periodic r then set2rt_periodic rp else mret ());;
        lock_unready rp;;
        st_proc rp (λ r, r <| p_flags ::= λ f, SET_BIT f MRT_P_REALTIME |>);;
        MRT_ready rp;;
        mret OK.

(** Stops and frees a timer of a terminating process. *)
Definition stop_free (o : option Z) (clear : K unit) : K unit :=
  match o with
  | Some i => MRT_vtimer_stop i;; MRT_vtimer_free i;; clear
  | None => mret ()
  end.

(** The watchdog of the terminating process [rp] is told, and so are the
    processes [rp] was the watchdog of. *)
Definition set2nrt_watchdogs (rp : Z) : K unit :=
  r ← ld_proc rp;
  (if negb (rt_watchdog (rt r) =? HARDWARE) then
     w ← ld_proc (rt_watchdog (rt r));
     if MRT_is_realtime w
     then MRT_ksend (p_nr r) (rt_watchdog (rt r)) (rt_priority (rt r)) MT_KRNPROC;; mret ()
     else mret ()
   else mret ());;
  for_ (- NR_TASKS) (Z.to_nat NR_PROCS) (λ rtp,
    t ← ld_proc rtp;
    if (p_nr r =? rt_watchdog (rt t)) && MRT_is_realtime t then
      st_proc rtp (λ t, t <| rt ::= λ a, a <| rt_watchdog := HARDWARE |> |>);;
      MRT_ksend (p_nr r) (p_nr t) (rt_priority (rt t)) MT_KRNWDOG;; mret ()
    else mret ());;
  for_ 0 (Z.to_nat (NR_IRQ_VECTORS + NR_IRQ_SOFT)) (λ i,
    d ← ld_irqd i;
    if p_nr r =? iq_watchdog d then st_irqd i (λ d, d <| iq_watchdog := HARDWARE |>) else mret ()).

(** The loop that is to empty the message queue of a terminating process; the
    entry it picks stays in the queue. *)
Fixpoint drain_mq (fuel : nat) (q : Z) : K unit :=
  match fuel with
  | O => λ _, NoFuel
  | S fuel' =>
      oe ← MRT_mqe_pick (Some q) MRT_ANYPROC;
      match oe with
      | None => mret ()
      | Some e =>
          m ← ld_mqe e;
          let src := mp_p_nr (h_src (e_hdr m)) in
          s ← ld_proc src;
          (match ipcvt s with Some i => MRT_vtimer_stop i | None => mret () end);;
          st_proc src (λ r, r <| rt ::= λ a, a <| rt_flags ::= λ f, CLR_BIT f MRT_MBX_SND |> |>);;
          st_proc src (λ r, r <| pto := None |>);;
          s ← ld_proc src;
          (if MRT_is_rtready s then MRT_ready src else mret ());;
          st_proc src (λ r, r <| p_retreg := E_MRT_EXITING |>);;
          drain_mq fuel' q
      end
  end.

(** The messages [rp] has sent and that nobody has received. *)
Definition drop_sent (rp : Z) : K unit :=
  r ← ld_proc rp;
  for_ 0 (Z.to_nat NR_MESSAGES) (λ e,
    m ← ld_mqe e;
    if mp_p_nr (h_src (e_hdr m)) =? p_nr r then
      t ← ld_proc (mp_p_nr (h_dst (e_hdr m)));
      q ← notnull (pmq t);
      MRT_mqe_rmv q e;;
      MRT_mqe_rst e;;
      MRT_mqe_free e
    else mret ()).

Definition MRT_set2nrt (fuel : nat) (rp : Z) : K Z :=
  r ← ld_proc rp;
  if negb (MRT_is_realtime r) then mret E_MRT_BADPTYPE
  else
    (if MRT_is_rtready r then MRT_unready rp else mret ());;
    stop_free (pvt r) (st_proc rp (λ r, r <| pvt := None |>));;
    stop_free (ipcvt r) (st_proc rp (λ r, r <| ipcvt := None |>));;
    set2nrt_watchdogs rp;;
    r ← ld_proc rp;
    (match pmq r with
     | Some q => drain_mq fuel q;; MRT_msgQ_free q;; st_proc rp (λ r, r <| pmq := None |>)
     | None => mret ()
     end);;
    drop_sent rp;;
    slockL ← lists_ (ld_list (HSlock rp));
    (if negb (inQ slockL =? 0) then MRT_sem_unlock rp else mret ());;
    sallocL ← lists_ (ld_list (HSalloc rp));
    (if negb (inQ sallocL =? 0) then MRT_sem_empty rp else mret ());;
    st_proc rp (λ r, r <| rt ::= λ a, a <| rt_flags := 0 |> |>);;
    st_proc rp (λ r, r <| p_flags ::= λ f, CLR_BIT f MRT_P_REALTIME |>);;
    r ← ld_proc rp;
    (if p_flags r =? 0 then lock_ready rp else mret ());;
    mret OK.

Definition rtk_set2nrt (fuel : nat) : K Z := rp ← gets proc_ptr; MRT_set2nrt fuel rp.

(** ** Sleep and wakeup *)

Definition MRT_sleep (rp timeout : Z) : K Z :=
  r ← ld_proc rp;
  if negb (MRT_is_realtime r) then mret E_MRT_BADPTYPE
  else if timeout =? MRT_NOWAIT then mret OK
  else
    (if negb (timeout =? MRT_FOREVER) then
       i ← notnull (ipcvt r);
       st_vt i (λ v, v <| vt_nextexp := 0 |> <| vt_flags := VT_ALLOC |>);;
       lists_ (MRT_link_rst (LVt i) (OIpcvt rp) MRT_OBJVT);;
       VTSET (Some i) timeout 1 MRT_ACT_WAKEUP 0 (rt_priority (rt r))
     else mret ());;
    st_proc rp (λ r, r <| rt ::= λ a, a <| rt_flags ::= λ f, SET_BIT f MRT_P_SLEEP |> |>);;
    MRT_unready rp;;
    mret OK.

Definition rtk_sleep (parm_ptr : Z) : K Z :=
  rp ← gets proc_ptr;
  USR2KRN rp um_long parm_ptr sizeof_long (λ timeout, MRT_sleep rp timeout).

Definition MRT_wakeup (rp : Z) : K Z :=
  r ← ld_proc rp;
  i ← notnull (ipcvt r);
  MRT_vtimer_stop i;;
  r ← ld_proc rp;
  if negb (TEST_BIT (rt_flags (rt r)) MRT_P_SLEEP) then
    (if negb (rt_watchdog (rt r) =? HARDWARE) then
       cur ← gets proc_ptr; c ← ld_proc cur;
       MRT_ksend (p_nr c) (rt_watchdog (rt r)) (rt_priority (rt r)) MT_KRNDLINE;; mret ()
     else mret ());;
    mret E_MRT_UNSLEEP
  else
    st_proc rp (λ r, r <| rt ::= λ a, a <| rt_flags ::= λ f, CLR_BIT f MRT_P_SLEEP |> |>);;
    r ← ld_proc rp;
    if negb (MRT_is_rtready r) then mret E_MRT_UNREADY
    else MRT_ready rp;; mret OK.

Definition rtk_wakeup (parm_ptr : Z) : K Z :=
  cur ← gets proc_ptr;
  USR2KRN cur um_pid parm_ptr sizeof_mrtpid_t (λ mrtpid,
    let rp := mp_p_nr mrtpid in
    r ← ld_proc rp;
    if negb (MRT_is_process r) then mret E_BAD_PROC
    else if negb (p_pid r =? mp_pid mrtpid) then mret E_BAD_PROC
    else if negb (MRT_is_realtime r) then mret E_MRT_BADPTYPE
    else MRT_wakeup rp).

(** ** The other kernel calls *)

Definition MAXPRTSTR : Z := 80.

Definition rtk_print (parm_ptr : Z) : K Z :=
  rp ← gets proc_ptr;
  USR2KRN rp um_str parm_ptr MAXPRTSTR (λ s, printf s;; mret OK).

Definition rtk_semup (parm_ptr : Z) : K Z :=
  rp ← gets proc_ptr;
  USR2KRN rp um_long parm_ptr sizeof_long (λ semid, MRT_semup semid).

Definition rtk_semdown (parm_ptr : Z) : K Z :=
  rp ← gets proc_ptr;
  USR2KRN rp um_down parm_ptr sizeof_mrt_down_t (λ dw, MRT_semdown (dw_index dw) (dw_timeout dw)).

(** [fuel] bounds the loop of [rtk_set2nrt] over the message queue. *)
Definition MRTSET2RT : Z := 0.
Definition MRTRQST : Z := 5.
Definition MRTRQRCV : Z := 11.
Definition NRTKCALLS : Z := 14.

Definition MRT_kernel_ipc (rtk_nr : Z) (ipc : mrt_ipc_t) : K Z :=
  if rtk_nr =? 5 then rtk_rqst ipc
  else if rtk_nr =? 6 then rtk_reply ipc
  else if rtk_nr =? 7 then rtk_arqst ipc
  else if rtk_nr =? 8 then rtk_uprqst ipc
  else if rtk_nr =? 9 then rtk_sign ipc
  else if rtk_nr =? 10 then rtk_receive ipc
  else rtk_rqrcv ipc.

Definition MRT_kernel (fuel : nat) (rtk_nr parm_ptr : Z) : K Z :=
  if rtk_nr =? 0 then rtk_set2rt
  else if rtk_nr =? 1 then rtk_set2nrt fuel
  else if rtk_nr =? 2 then rtk_sleep parm_ptr
  else if rtk_nr =? 3 then rtk_wakeup parm_ptr
  else if rtk_nr =? 4 then rtk_print parm_ptr
  else if rtk_nr =? 12 then rtk_semup parm_ptr
  else rtk_semdown parm_ptr.

Definition rtk_call (fuel : nat) (rtk_nr parm_ptr : Z) : K Z :=
  rtmode ← sv_test MRT_RTMODE;
  if negb rtmode then mret E_MRT_NORTMODE
  else
    cur ← gets proc_ptr;
    r ← ld_proc cur;
    if negb (rtk_nr =? MRTSET2RT) && negb (MRT_is_realtime r) then mret E_MRT_BADPTYPE
    else if (rtk_nr <? 0) || (NRTKCALLS <=? rtk_nr) then
      printf ("rtk_call: bad RT-kernel call number " +:+ pretty rtk_nr +:+ nl);; mret E_BAD_FCN
    else if (MRTRQST <=? rtk_nr) && (rtk_nr <=? MRTRQRCV) then
      USR2KRN cur um_ipc parm_ptr sizeof_mrt_ipc_t (λ ipc,
        rcode ← MRT_kernel_ipc rtk_nr ipc; lock_pick_proc;; mret rcode)
    else
      rcode ← MRT_kernel fuel rtk_nr parm_ptr; lock_pick_proc;; mret rcode.

(** ** The idle process *)

Definition MRT_idle_init : K unit :=
  st_sv (λ v, v <| sv_idlecount := 0 |> <| c_idlelast := 0 |> <| c_idlemax := 1 |>).

Definition MRT_idle_handler : K unit :=
  st_sv (λ v, v <| c_idlelast := sv_idlecount v |>);;
  st_sv (λ v, v <| sv_idlecount := 0 |>);;
  st_sv (λ v, v <| c_idlemax := MAX (c_idlelast v) (c_idlemax v) |>).
