(* ===== verification/Irq.v ===== *)
(** * Interrupt descriptors (kernel/mrtirq.c, first part)

    Software interrupt allocation, descriptors, the queue of triggered
    descriptors, the execution of a handler and MINIX's virtual interrupt flag.
    The handlers themselves are reached through function pointers: a descriptor
    holds a code address and [run_handler] is what calling that address with an
    interrupt number does.  No other interrupt occurs while one is handled. *)

From stdpp Require Import base gmap strings pretty numbers fin_maps functions list.
From S2P Require Import Prelude Lists Kernel Sched VTimer Inherit Sem Msg Rtproc.
Local Open Scope Z_scope.

(** Addresses of the handlers the kernel installs itself. *)
Definition spurious_irq : Z := 1.
Definition clock_handler : Z := 2.
Definition MRT_idle_handler_addr : Z := 3.

Definition MRT_irqname (i : Z) : string :=
  match i with
  | 0 => "TIMER" | 1 => "KEYBOARD" | 2 => "PIC-CASCADE" | 3 => "SERIAL-PORT-2"
  | 4 => "SERIAL-PORT-1" | 6 => "DISKETTE" | 7 => "PARALLEL-PORT" | 14 => "HARD-DISK"
  | _ => "FREE"
  end.

(** ** CPU interrupt flag (klib386.s) *)
Definition MRT_lock : K unit := modify (λ k, k <| hw ::= λ h, h <| hw_IF := false |> |>).
Definition MRT_unlock : K unit := modify (λ k, k <| hw ::= λ h, h <| hw_IF := true |> |>).
Definition MRT_saveFlock : K bool := f ← gets (λ k, hw_IF (hw k)); MRT_lock;; mret f.
Definition MRT_saveFunlock : K bool := f ← gets (λ k, hw_IF (hw k)); MRT_unlock;; mret f.
Definition MRT_restoreF (f : bool) : K unit := modify (λ k, k <| hw ::= λ h, h <| hw_IF := f |> |>).

(** The same with the flag in the static variable of a function. *)
Definition saveF_static (i : flags_of) (save : K bool) : K unit :=
  f ← save; modify (λ k, k <| CPUflags ::= <[i := f]> |>).
Definition restoreF_static (i : flags_of) : K unit :=
  f ← gets (λ k, CPUflags k i); MRT_restoreF f.

(** ** Software interrupts *)

(** [for (i = 0; i < NR_IRQ_SOFT; i++)] up to the first clear bit. *)
Fixpoint soft_scan (use i : Z) (n : nat) : Z :=
  match n with
  | O => i
  | S n' => if TEST_BIT (Z.shiftl 1 i) use then soft_scan use (i + 1) n' else i
  end.

Definition MRT_softirq_alloc : K Z :=
  use ← gets soft_use;
  let i := soft_scan use 0 (Z.to_nat NR_IRQ_SOFT) in
  if i =? NR_IRQ_SOFT then mret E_MRT_NOSOFTIRQ
  else
    modify (λ k, k <| soft_use ::= λ u, SET_BIT u (Z.shiftl 1 i) |>);;
    mret (i + NR_IRQ_VECTORS).

Definition MRT_softirq_free (irq : Z) : K unit :=
  let i := irq - NR_IRQ_VECTORS in
  (if (i <? 0) || (i >? NR_IRQ_SOFT)
   then panic "invalid soft irq number in MRT_softirq_free" irq else mret ());;
  modify (λ k, k <| soft_use ::= λ u, CLR_BIT u (Z.shiftl 1 i) |>).

(** ** Descriptors *)

Definition irqd_clrstat (d : Z) : K unit :=
  st_irqd d (λ d, d <| iq_count := 0 |> <| iq_maxshower := 0 |> <| iq_mdl := 0 |>
                    <| iq_timestamp := 0 |> <| iq_maxlat := 0 |> <| iq_reenter := 0 |>).

Definition MRT_irqd_clr (d : Z) : K unit :=
  irqd_clrstat d;;
  st_irqd d (λ d, d <| iq_latency := 0 |> <| iq_shower := 0 |> <| iq_before := 0 |> <| iq_flags := 0 |>);;
  lists_ (MRT_link_rst (LIrqd d) (OIrqd d) MRT_OBJIRQD).

Definition MRT_irqd_rst (d : Z) : K unit :=
  st_irqd d (λ d, d <| iq_rthandler := spurious_irq |> <| iq_nrthandler := spurious_irq |>);;
  dd ← ld_irqd d;
  let i := iq_irq dd in
  st_irqd d (λ d, d <| iq_harmonic := 1 |> <| iq_period := 0 |> <| iq_task := HARDWARE |>
    <| iq_watchdog := HARDWARE |> <| iq_priority := MRT_PRILOWEST |> <| iq_pvt := None |>);;
  MRT_irqd_clr d;;
  if i <? NR_IRQ_VECTORS
  then st_irqd d (λ d, d <| iq_irqtype := 0 |> <| iq_name := MRT_irqname i |>)
  else st_irqd d (λ d, d <| iq_irqtype := MRT_SOFTIRQ |> <| iq_name := "SOFTIRQ" |>).

Definition MRT_irqd_free (d : Z) : K unit :=
  f ← MRT_saveFlock;
  dd ← ld_irqd d;
  (if NR_IRQ_VECTORS <=? iq_irq dd then MRT_softirq_free (iq_irq dd) else mret ());;
  MRT_irqd_rst d;;
  MRT_restoreF f.

Definition MRT_irqQ_init : K unit :=
  lists_ (MRT_plist_rst PIrq);;
  lists_ (MRT_list_rst HMnxQ);;
  for_ 0 (Z.to_nat MRT_NR_PRTY) (λ i, modify (λ k, k <| si_mask ::= <[i := 0]> |>)).

(** The masks of a hardware interrupt: level [priority] collects the masks of
    the more urgent levels, then the interrupt joins its own and the less urgent
    levels. *)
Definition irq_masks (irq priority : Z) : K unit :=
  for_ MRT_PRIHIGHEST (Z.to_nat priority) (λ p,
    modify (λ k, k <| si_mask ::= λ m, <[priority := Z.lor (m priority) (m p)]> m |>));;
  for_ priority (Z.to_nat (MRT_PRILOWEST + 1 - priority)) (λ p,
    modify (λ k, k <| si_mask ::= λ m, <[p := SET_BIT (m p) (Z.shiftl 1 irq)]> m |>)).

(** [p] is the caller's descriptor.  The source has two slips the compiler
    rejects (a missing [;] and [taskt_ptr] for [task_ptr]); what is meant is
    modelled.  [strncpy] copies 15 bytes of the name, and the sixteenth is the
    terminating null. *)
Definition MRT_irqd_set (irq : Z) (p : MRT_irqd_t) : K unit :=
  (if TEST_BIT (iq_irqtype p) MRT_SOFTIRQ then
     if (irq <? NR_IRQ_VECTORS) || (NR_IRQ_VECTORS + NR_IRQ_SOFT <=? irq)
     then panic "MRT_irqd_set: invalid SOFTIRQ number" irq else mret ()
   else
     if (irq <? 0) || (NR_IRQ_VECTORS <=? irq)
     then panic "MRT_irqd_set: invalid HARDIRQ number" irq else mret ());;
  if negb (irq =? 0) && (iq_priority p <=? MRT_PRIHIGHEST) then
    printf ("MRT_irqd_set: IRQ " +:+ pretty irq +:+ " prty (" +:+ pretty (iq_priority p) +:+ ") must be > than MRT_PRIHIGHEST" +:+ nl)
  else if iq_priority p >? MRT_PRILOWEST then
    printf ("MRT_irqd_set: IRQ " +:+ pretty irq +:+ " prty (" +:+ pretty (iq_priority p) +:+ ") must be <= to MRT_PRILOWEST" +:+ nl)
  else
    f ← MRT_saveFlock;
    (if TEST_BIT (iq_irqtype p) MRT_RTIRQ
     then st_irqd irq (λ d, d <| iq_rthandler := iq_rthandler p |>)
     else st_irqd irq (λ d, d <| iq_nrthandler := iq_nrthandler p |>));;
    st_irqd irq (λ d, d <| iq_flags := 0 |> <| iq_irq := irq |>);;
    irqtype ←
      (if negb (iq_task p =? HARDWARE) then
         t ← ld_proc (iq_task p);
         (if negb (MRT_is_process t) then panic "MRT_irqd_set: invalid TASK number " (iq_task p) else mret ());;
         (if negb (MRT_is_realtime t) then panic "MRT_irqd_set: task is not realtime " (iq_task p) else mret ());;
         st_irqd irq (λ d, d <| iq_task := iq_task p |>);;
         mret (SET_BIT (iq_irqtype p) (Z.land (iq_irqtype p) MRT_ISTMSG))
       else mret (CLR_BIT (iq_irqtype p) (Z.land (iq_irqtype p) MRT_ISTMSG)));
    st_irqd irq (λ d, d <| iq_priority := iq_priority p |>);;
    (if irq <? NR_IRQ_VECTORS then irq_masks irq (iq_priority p) else mret ());;
    st_irqd irq (λ d, d <| iq_irqtype := irqtype |> <| iq_period := iq_period p |> <| iq_name := String.substring 0 15 (iq_name p) |>);;
    (if irq <? NR_IRQ_VECTORS
     then modify (λ k, k <| hard_use ::= λ u, SET_BIT u (Z.shiftl 1 irq) |>) else mret ());;
    MRT_restoreF f.

(** ** The queue of triggered descriptors *)

Definition read_counter2 : K Z := t ← MRT_read_timer2; mret (Z.land t 0xFFFF).

(** A missed deadline: the descriptor is triggered again before it was served. *)
Definition irqd_missed (d : Z) : K unit :=
  st_irqd d (λ d, d <| iq_mdl ::= λ n, u32 (n + 1) |>);;
  dd ← ld_irqd d;
  if negb (iq_watchdog dd =? HARDWARE)
  then MRT_ksend HARDWARE (iq_watchdog dd) (iq_priority dd) MT_KRNDLINE;; mret ()
  else mret ().

Definition MRT_irqd_enQ (d : Z) : K unit :=
  dd ← ld_irqd d;
  if TEST_BIT (iq_flags dd) MRT_ENQUEUED then irqd_missed d
  else if TEST_BIT (iq_flags dd) MRT_DISABLED then mret ()
  else
    sv_set MRT_NEWINT;;
    v ← gets sv;
    if negb (TEST_BIT (iq_irqtype dd) MRT_RTIRQ) &&
       (TEST_BIT (sv_virtual_PIC v) (Z.shiftl 1 (iq_irq dd)) || TEST_BIT (sv_flags v) MRT_MINIXCLI)
    then lists_ (MRT_list_app HMnxQ (LIrqd d))
    else
      (if TEST_BIT (iq_irqtype dd) MRT_SOFTIRQ && TEST_BIT (sv_flags v) MRT_LATENCY &&
          TEST_BIT (iq_flags dd) MRT_LATCALC
       then c ← read_counter2; st_irqd d (λ d, d <| iq_before := c |>)
       else mret ());;
      st_irqd d (λ d, d <| iq_flags ::= λ f, SET_BIT f MRT_ENQUEUED |>);;
      lists_ (MRT_plist_app PIrq (LIrqd d) (iq_priority dd)).

Definition MRT_irqd_deQ (d : Z) : K unit :=
  dd ← ld_irqd d;
  (if negb (TEST_BIT (iq_flags dd) MRT_ENQUEUED)
   then panic "MRT_irqd_deQ: interrupt descriptor was not enqueued " (iq_irq dd) else mret ());;
  lists_ (MRT_plist_rmv PIrq (LIrqd d) (iq_priority dd));;
  st_irqd d (λ d, d <| iq_flags ::= λ f, CLR_BIT f MRT_ENQUEUED |>).

(** ** Running handlers *)
Section handlers.
Context (run_handler : Z → Z → K Z).

(** The handler between saving and restoring priority level and masks. *)
Definition handler_call (d : Z) : K Z :=
  st_irqd d (λ d, d <| iq_flags ::= λ f, SET_BIT f MRT_HANDLOCKED |>);;
  saveF_static F_MRT_do_handler MRT_saveFunlock;;
  dd ← ld_irqd d;
  retval ←
    (if negb (TEST_BIT (iq_irqtype dd) MRT_RTIRQ) then run_handler (iq_nrthandler dd) (iq_irq dd)
     else
       r ← run_handler (iq_rthandler dd) (iq_irq dd);
       dd ← ld_irqd d;
       (if TEST_BIT (iq_irqtype dd) MRT_ISTMSG
        then MRT_ksend HARDWARE (iq_task dd) (iq_priority dd) MT_KRNIRQ;; mret () else mret ());;
       mret r);
  restoreF_static F_MRT_do_handler;;
  st_irqd d (λ d, d <| iq_flags ::= λ f, CLR_BIT f MRT_HANDLOCKED |>);;
  mret retval.

Definition irq_latency (d : Z) : K unit :=
  v ← gets sv;
  dd ← ld_irqd d;
  if TEST_BIT (sv_flags v) MRT_LATENCY && TEST_BIT (iq_flags dd) MRT_LATCALC then
    after ← read_counter2;
    st_irqd d (λ d, d <| iq_latency :=
      if iq_before d >? after then iq_before d - after else u32 (0xFFFF - after + iq_before d) |>);;
    st_irqd d (λ d, d <| iq_maxlat := MAX (iq_latency d) (iq_maxlat d) |>)
  else mret ().

(** A task waits for the lock the handler held. *)
Definition irq_taskwait (d : Z) : K unit :=
  dd ← ld_irqd d;
  if TEST_BIT (iq_flags dd) MRT_TASKWAIT then
    st_irqd d (λ d, d <| iq_flags ::= λ f, CLR_BIT f MRT_TASKWAIT |>);;
    st_irqd d (λ d, d <| iq_flags ::= λ f, SET_BIT f MRT_TASKLOCKED |>);;
    let rp := iq_task dd in
    st_proc rp (λ r, r <| rt ::= λ a, a <| rt_flags ::= λ f, CLR_BIT f MRT_LOCK_WAIT |> |>);;
    MRT_ready rp;;
    sv_set MRT_NEEDSCHED
  else mret ().

(** The masks after the handler has returned [retval]. *)
Definition irq_unmask (d PICmask retval : Z) : K unit :=
  st_sv (λ v, v <| sv_real_PIC := PICmask |>);;
  dd ← ld_irqd d;
  if retval =? MRT_IRQ_ENABLED then
    st_sv (λ v, v <| sv_real_PIC ::= λ p, CLR_BIT p (Z.shiftl 1 (iq_irq dd)) |>);;
    v ← gets sv;
    if negb (TEST_BIT (sv_flags v) MRT_PRTYMASK) then MRT_set_PIC (sv_real_PIC v) else mret ()
  else mret ().

(** The statistics of a served descriptor. *)
Definition irq_stats (d : Z) : K unit :=
  dd ← ld_irqd d;
  if TEST_BIT (iq_irqtype dd) MRT_SOFTIRQ then
    ticks ← gets (λ k, c_ticks (sv k));
    st_irqd d (λ d, d <| iq_count ::= λ n, u32 (n + 1) |> <| iq_timestamp := ticks |>)
  else if TEST_BIT (iq_irqtype dd) MRT_TDIRQ then
    st_irqd d (λ d, d <| iq_flags ::= λ f, CLR_BIT f MRT_TDTRIGGER |>);;
    st_irqd d (λ d, d <| iq_maxshower := MAX (iq_maxshower d) (iq_shower d) |>);;
    st_irqd d (λ d, d <| iq_shower := 0 |>)
  else mret ().

Definition MRT_do_handler (d : Z) : K unit :=
  v ← gets sv;
  let prtylvl := sv_prtylvl v in
  let PICmask := sv_real_PIC v in
  dd ← ld_irqd d;
  MRT_prtylvl_set (iq_priority dd);;
  retval ← handler_call d;
  irq_unmask d PICmask retval;;
  MRT_prtylvl_set prtylvl;;
  irq_latency d;;
  irq_taskwait d;;
  irq_stats d.

(** ** MINIX's virtual interrupt flag and masks *)

Definition lock : K unit :=
  f ← MRT_saveFlock;
  sv_set MRT_MINIXCLI;;
  rtmode ← sv_test MRT_RTMODE;
  if negb rtmode then MRT_restoreF f;; MRT_lock else MRT_restoreF f.

Fixpoint unlock_loop (fuel : nat) : K unit :=
  match fuel with
  | O => λ _, NoFuel
  | S fuel' =>
      l ← lists_ (ld_list HMnxQ);
      match first l with
      | None => mret ()
      | Some plk =>
          lists_ (MRT_list_rmv HMnxQ plk);;
          o ← this_of plk; d ← as_irqd o;
          MRT_do_handler d;;
          unlock_loop fuel'
      end
  end.

Definition unlock (fuel : nat) : K unit :=
  saveF_static F_unlock MRT_saveFlock;;
  sv_clr MRT_MINIXCLI;;
  rtmode ← sv_test MRT_RTMODE;
  if negb (negb rtmode) then unlock_loop fuel;; restoreF_static F_unlock
  else restoreF_static F_unlock;; MRT_unlock.

Definition enable_irq (irq : Z) : K unit :=
  f ← MRT_saveFlock;
  st_sv (λ v, v <| sv_virtual_PIC ::= λ p, CLR_BIT p (Z.shiftl 1 irq) |>);;
  rtmode ← sv_test MRT_RTMODE;
  d ← ld_irqd irq;
  (if negb rtmode || negb (TEST_BIT (iq_irqtype d) MRT_RTIRQ) then MRT_set_irq irq else mret ());;
  MRT_restoreF f.

Definition disable_irq (irq : Z) : K Z :=
  f ← MRT_saveFlock;
  st_sv (λ v, v <| sv_virtual_PIC ::= λ p, SET_BIT p (Z.shiftl 1 irq) |>);;
  rtmode ← sv_test MRT_RTMODE;
  d ← ld_irqd irq;
  (if negb rtmode || negb (TEST_BIT (iq_irqtype d) MRT_RTIRQ) then MRT_set_irq irq else mret ());;
  MRT_restoreF f;;
  mret 1.

(** ** Locking a handler out of a critical section *)

Definition soft_only (irq : Z) : K unit :=
  if (irq <? NR_IRQ_VECTORS) || (NR_IRQ_VECTORS + NR_IRQ_SOFT <=? irq)
  then panic "MRT_irqd_lock: invalid IRQ number" irq else mret ().

Definition MRT_irqd_lock (irq : Z) : K unit :=
  soft_only irq;;
  f ← MRT_saveFlock;
  d ← ld_irqd irq;
  (if TEST_BIT (iq_flags d) MRT_HANDLOCKED then
     st_irqd irq (λ d, d <| iq_flags ::= λ f, SET_BIT f MRT_TASKWAIT |>);;
     cur ← gets proc_ptr;
     st_proc cur (λ r, r <| rt ::= λ a, a <| rt_flags ::= λ f, SET_BIT f MRT_LOCK_WAIT |> |>);;
     MRT_unready cur
   else mret ());;
  MRT_restoreF f.

Definition MRT_irqd_unlock (irq : Z) : K unit :=
  soft_only irq;;
  saveF_static F_MRT_irqd_unlock MRT_saveFlock;;
  st_irqd irq (λ d, d <| iq_flags ::= λ f, CLR_BIT f MRT_TASKLOCKED |>);;
  d ← ld_irqd irq;
  (if TEST_BIT (iq_flags d) MRT_HANDWAIT then
     st_irqd irq (λ d, d <| iq_flags ::= λ f, CLR_BIT f MRT_HANDWAIT |>);;
     st_irqd irq (λ d, d <| iq_flags ::= λ f, SET_BIT f MRT_HANDLOCKED |>);;
     MRT_do_handler irq
   else mret ());;
  restoreF_static F_MRT_irqd_unlock.
End handlers.
