(* ===== verification/Dispatch.v ===== *)
(** * Timer actions, deferred interrupts and interrupt dispatch

    kernel/mrtvt.c: the actions of expired timers and [MRT_vtimer_run];
    kernel/mrtirq.c: [MRT_flush_int], which runs expired timers and triggered
    descriptors up to the current priority level, and [MRT_IRQ_dispatch], the
    common entry of all hardware interrupts. *)

From stdpp Require Import base gmap strings pretty numbers fin_maps functions list.
From S2P Require Import Prelude Lists Kernel Sched VTimer Inherit Sem Msg Rtproc Irq.
Local Open Scope Z_scope.

Definition CONTINUE : Z := 0.

(** ** Timer actions: [pvt] is the expired timer *)

Definition MRT_act_none (pvt : Z) : K Z := mret CONTINUE.

(** [MRT_wakeup(rp) == OK] asks for a reschedule. *)
Definition wakeup_resched (rp : Z) : K unit :=
  rc ← MRT_wakeup rp; if rc =? OK then sv_set MRT_NEEDSCHED else mret ().

Definition MRT_act_sched (pvt : Z) : K Z :=
  v ← ld_vt pvt;
  if negb (vt_param v =? HARDWARE) then wakeup_resched (vt_param v);; mret 1 else mret CONTINUE.

Definition MRT_act_msgown (pvt : Z) : K Z :=
  v ← ld_vt pvt;
  r ← ld_proc (vt_owner v);
  MRT_ksend HARDWARE (vt_owner v) (rt_priority (rt r)) MT_KRNTOUT;;
  mret CONTINUE.

Definition MRT_act_msgwdog (pvt : Z) : K Z :=
  v ← ld_vt pvt;
  r ← ld_proc (vt_owner v);
  MRT_ksend (vt_owner v) (rt_watchdog (rt r)) (rt_priority (rt r)) MT_KRNTOUT;;
  mret CONTINUE.

Definition MRT_act_irqtrig (pvt : Z) : K Z :=
  v ← ld_vt pvt;
  d ← ld_irqd (vt_param v);
  (if negb (TEST_BIT (iq_irqtype d) MRT_TDIRQ) then MRT_irqd_enQ (vt_param v)
   else if TEST_BIT (iq_flags d) MRT_TDTRIGGER || TEST_BIT (iq_irqtype d) MRT_SOFTIRQ
   then MRT_irqd_enQ (vt_param v) else mret ());;
  mret CONTINUE.

(** The end of a timeout: ready when nothing else blocks the process, with a
    reschedule. *)
Definition timed_out (rp : Z) : K unit :=
  r ← ld_proc rp;
  (if MRT_is_rtready r then MRT_ready rp;; sv_set MRT_NEEDSCHED else mret ());;
  st_proc rp (λ r, r <| p_retreg := E_MRT_TIMEOUT |>).

Definition clr_rt_flag (rp b : Z) : K unit :=
  st_proc rp (λ r, r <| rt ::= λ a, a <| rt_flags ::= λ f, CLR_BIT f b |> |>).

(** [MRT_mqe_rmv(rp->pto->pmq, pmqe); MRT_mqe_free(pmqe)] *)
Definition retract (dp pmqe : Z) : K unit :=
  d ← ld_proc dp; q ← notnull (pmq d); MRT_mqe_rmv q pmqe;; MRT_mqe_free pmqe.

Definition MRT_act_sndto (pvt : Z) : K Z :=
  v ← ld_vt pvt;
  let rp := vt_owner v in
  r ← ld_proc rp;
  dp ← notnull (pto r);
  retract dp (vt_param v);;
  MRT_disinherit dp;;
  clr_rt_flag rp MRT_MBX_SND;;
  st_proc rp (λ r, r <| pto := None |>);;
  timed_out rp;;
  mret CONTINUE.

Definition MRT_act_rcvfr (pvt : Z) : K Z :=
  v ← ld_vt pvt;
  let rp := vt_owner v in
  clr_rt_flag rp MRT_MBX_RCV;;
  st_proc rp (λ r, r <| pfrom := None |>);;
  timed_out rp;;
  mret CONTINUE.

Definition MRT_act_wakeup (pvt : Z) : K Z :=
  v ← ld_vt pvt; wakeup_resched (vt_owner v);; mret 1.

Definition MRT_act_debug (pvt : Z) : K Z :=
  v ← ld_vt pvt;
  printf ("[" +:+ pretty (vt_param v) +:+ "] ");;
  mret CONTINUE.

Definition MRT_act_sndrcv (pvt : Z) : K Z :=
  v ← ld_vt pvt;
  let rp := vt_owner v in
  r ← ld_proc rp;
  (if TEST_BIT (rt_flags (rt r)) MRT_MBX_SND then
     dp ← notnull (pto r);
     retract dp (vt_param v);;
     st_proc rp (λ r, r <| pto := None |>);;
     clr_rt_flag rp MRT_MBX_SND
   else mret ());;
  r ← ld_proc rp;
  bpip ← sv_test MRT_BPIP;
  (if negb bpip then mret () else dp ← notnull (pfrom r); MRT_disinherit dp);;
  clr_rt_flag rp MRT_MBX_RCV;;
  st_proc rp (λ r, r <| pfrom := None |>);;
  timed_out rp;;
  mret CONTINUE.

Definition MRT_act_stop (pvt : Z) : K Z :=
  v ← ld_vt pvt;
  let rp := vt_param v in
  r ← ld_proc rp;
  (if MRT_is_realtime r then
     st_proc rp (λ r, r <| p_flags ::= λ f, SET_BIT f P_STOP |>);; sv_set MRT_NEEDSCHED
   else mret ());;
  mret CONTINUE.

Definition MRT_act_down (pvt : Z) : K Z :=
  v ← ld_vt pvt;
  let rp := vt_owner v in
  MRT_sproc_rmv (vt_param v) rp;;
  clr_rt_flag rp MRT_SEM_DOWN;;
  timed_out rp;;
  mret CONTINUE.

Definition MRT_vtaction (action pvt : Z) : K Z :=
  if action =? MRT_ACT_NONE then MRT_act_none pvt
  else if action =? MRT_ACT_SCHED then MRT_act_sched pvt
  else if action =? MRT_ACT_MSGOWN then MRT_act_msgown pvt
  else if action =? MRT_ACT_MSGWDOG then MRT_act_msgwdog pvt
  else if action =? MRT_ACT_IRQTRIG then MRT_act_irqtrig pvt
  else if action =? MRT_ACT_SNDTO then MRT_act_sndto pvt
  else if action =? MRT_ACT_RCVFR then MRT_act_rcvfr pvt
  else if action =? MRT_ACT_WAKEUP then MRT_act_wakeup pvt
  else if action =? MRT_ACT_DEBUG then MRT_act_debug pvt
  else if action =? MRT_ACT_PERIODIC then MRT_act_wakeup pvt
  else if action =? MRT_ACT_SNDRCV then MRT_act_sndrcv pvt
  else if action =? MRT_ACT_STOP then MRT_act_stop pvt
  else MRT_act_down pvt.

Definition MRT_vtimer_run (pvt : Z) : K unit :=
  ticks ← gets (λ k, c_ticks (sv k));
  st_vt pvt (λ v, v <| vt_timestamp := ticks |>);;
  v ← ld_vt pvt;
  (if (vt_action v <? 0) || (MRT_NBRVTACT <=? vt_action v)
   then panic "MRT_vtimer_run: bad action type for vtimer" (vt_index v) else mret ());;
  rc ← MRT_vtaction (vt_action v) pvt;
  (if rc =? CONTINUE then
     v ← ld_vt pvt;
     lists_ (MRT_plist_rmv PExp (LVt pvt) (vt_priority v));;
     st_vt pvt (λ v, v <| vt_expired ::= λ n, u32 (n + 1) |>)
   else mret ());;
  v ← ld_vt pvt;
  if (vt_expired v <? vt_limit v) || (vt_limit v =? 0) then MRT_vtimer_ins pvt else mret ().

(** [for (plk = pls->first; plk != NULL; plk = pls->first)] *)
Fixpoint MRT_vtimer_flush (fuel : nat) (pty : Z) : K unit :=
  match fuel with
  | O => λ _, NoFuel
  | S fuel' =>
      l ← lists_ (ld_list (HP PExp pty));
      match first l with
      | None => mret ()
      | Some plk => o ← this_of plk; pvt ← as_vt o; MRT_vtimer_run pvt;; MRT_vtimer_flush fuel' pty
      end
  end.

(** The software interrupts of MINIX's clock and of the idle counter. *)
Definition soft_descriptor (handler task priority period : Z) (name : string) : MRT_irqd_t :=
  mk_irqd 0 0 0 0 0 0 0 1 None 0 0 0 0 handler handler period task HARDWARE priority
    (Z.lor MRT_RTIRQ (Z.lor MRT_TDIRQ MRT_SOFTIRQ)) name.

Definition MRT_vtimer_MINIX (per : Z) : K unit :=
  s ← MRT_softirq_alloc;
  st_sv (λ v, v <| sv_MINIX_soft := s |>);;
  (if s <? 0 then panic "clock_task: could not set MINIX CLOCK software IRQ" s else mret ());;
  MRT_irqd_set s (soft_descriptor clock_handler HARDWARE MRT_PRILOWEST per "MINIX-CLOCK").

Definition MRT_vtimer_IDLE (prty : Z) : K unit :=
  refresh ← gets (λ k, sv_refresh (sv k));
  s ← MRT_softirq_alloc;
  st_sv (λ v, v <| sv_IDLE_soft := s |>);;
  (if s <? 0 then panic "MRT_vtimer_IDLE: could not set IDEL Refresh soft IRQ" s else mret ());;
  MRT_irqd_set s (soft_descriptor MRT_idle_handler_addr IDLE prty refresh "IDLE-REFRESH").

(** ** Flushing and dispatching *)
Section handlers.
Context (run_handler : Z → Z → K Z).

Fixpoint MRT_irqd_flush (fuel : nat) (pty : Z) : K unit :=
  match fuel with
  | O => λ _, NoFuel
  | S fuel' =>
      l ← lists_ (ld_list (HP PIrq pty));
      match first l with
      | None => mret ()
      | Some plk =>
          o ← this_of plk; d ← as_irqd o;
          dd ← ld_irqd d;
          (if TEST_BIT (iq_flags dd) MRT_TASKLOCKED then
             st_irqd d (λ d, d <| iq_flags ::= λ f, SET_BIT f MRT_HANDWAIT |>);;
             sv_set MRT_NEEDSCHED
           else
             MRT_do_handler run_handler d;;
             MRT_irqd_deQ d);;
          MRT_irqd_flush fuel' pty
      end
  end.

Definition resched : K unit :=
  n ← sv_test MRT_NEEDSCHED; if negb (negb n) then lock_pick_proc else mret ().

(** The loop of [MRT_flush_int] from priority [p]; [fuel] bounds the rounds,
    [lfuel] the length of one list. *)
Fixpoint flush_loop (fuel lfuel : nat) (p : Z) : K unit :=
  match fuel with
  | O => λ _, NoFuel
  | S fuel' =>
      v ← gets sv;
      exp ← lists_ (ld_plist PExp);
      irq ← lists_ (ld_plist PIrq);
      if (p <=? sv_prtylvl v) && (negb (bitmap exp =? 0) || negb (bitmap irq =? 0)) then
        (if TEST_BIT (bitmap exp) (Z.shiftl 1 p) then MRT_vtimer_flush lfuel p else mret ());;
        irq ← lists_ (ld_plist PIrq);
        (if TEST_BIT (bitmap irq) (Z.shiftl 1 p) then MRT_irqd_flush lfuel p else mret ());;
        resched;;
        new ← sv_test MRT_NEWINT;
        if negb (negb new) then sv_clr MRT_NEWINT;; flush_loop fuel' lfuel (MRT_PRIHIGHEST + 1)
        else flush_loop fuel' lfuel (p + 1)
      else mret ()
  end.

Definition MRT_flush_int (fuel lfuel : nat) : K unit :=
  sv_set MRT_FLUSHLCK;;
  sv_clr MRT_NEWINT;;
  flush_loop fuel lfuel (MRT_PRIHIGHEST + 1);;
  sv_clr MRT_FLUSHLCK.

(** The timer branch: the tick itself is [MRT_tick] of VTimer.v. *)
Definition timer_irq (d : Z) : K unit :=
  oneshot ← sv_test MRT_ONESHOT;
  (if negb (negb oneshot) then modify (λ k, k <| earliest := 0 |>);; MRT_clock_handler;; mret ()
   else MRT_tick);;
  ticks ← gets (λ k, c_ticks (sv k));
  st_irqd d (λ d, d <| iq_timestamp := ticks |>).

(** An event driven interrupt urgent enough to be served at once. *)
Definition serve_now (d : Z) : K Z :=
  dd ← ld_irqd d;
  (if TEST_BIT (iq_flags dd) MRT_ENQUEUED then irqd_missed d else mret ());;
  dd ← ld_irqd d;
  retval ←
    (if TEST_BIT (iq_flags dd) MRT_TASKLOCKED then
       st_irqd d (λ d, d <| iq_flags ::= λ f, SET_BIT f MRT_HANDWAIT |>);;
       sv_set MRT_NEEDSCHED;;
       mret MRT_IRQ_DISABLED
     else MRT_do_handler run_handler d;; mret MRT_IRQ_ENABLED);
  resched;;
  mret retval.

Definition device_irq (d : Z) : K Z :=
  ticks ← gets (λ k, c_ticks (sv k));
  st_irqd d (λ d, d <| iq_timestamp := ticks |>);;
  dd ← ld_irqd d;
  if TEST_BIT (iq_irqtype dd) MRT_TDIRQ then
    st_irqd d (λ d, d <| iq_flags ::= λ f, SET_BIT f MRT_TDTRIGGER |>);;
    st_irqd d (λ d, d <| iq_shower ::= λ n, u32 (n + 1) |>);;
    mret MRT_IRQ_ENABLED
  else
    v ← gets sv;
    if iq_priority dd >? sv_prtylvl v then MRT_irqd_enQ d;; mret MRT_IRQ_DISABLED
    else if negb (TEST_BIT (iq_irqtype dd) MRT_RTIRQ) && TEST_BIT (sv_flags v) MRT_MINIXCLI
    then MRT_irqd_enQ d;; mret MRT_IRQ_DISABLED
    else serve_now d.

Definition MRT_IRQ_dispatch (irq : Z) : K Z :=
  MRT_reset_irq irq;;
  st_sv (λ v, v <| c_interrupts ::= λ n, u32 (n + 1) |>);;
  ree ← gets k_reenter;
  st_irqd irq (λ d, d <| iq_count ::= λ n, u32 (n + 1) |> <| iq_reenter := MAX (iq_reenter d) ree |>);;
  dd ← ld_irqd irq;
  if TEST_BIT (iq_flags dd) MRT_DISABLED then mret MRT_IRQ_ENABLED
  else
    v ← gets sv;
    (if TEST_BIT (sv_flags v) MRT_LATENCY && TEST_BIT (iq_flags dd) MRT_LATCALC
     then t ← MRT_read_timer2; st_irqd irq (λ d, d <| iq_before := t |>) else mret ());;
    retval ← (if irq =? CLOCK_IRQ then timer_irq irq;; mret MRT_IRQ_ENABLED else device_irq irq);
    (if retval =? MRT_IRQ_ENABLED then MRT_set_irq irq else mret ());;
    mret retval.
End handlers.
