(* ===== verification/MiniIpc.v ===== *)
(** * MINIX message passing (kernel/proc.c, kernel/system.c [inform])

    The rendezvous of the MINIX kernel: [mini_send] and [mini_rec], the system
    call entry, interrupt messages, two interrupt handlers and the queue of held-up
    interrupts. *)

From stdpp Require Import base gmap strings pretty numbers fin_maps functions list.
From S2P Require Import Prelude Lists Kernel Sched VTimer Inherit Sem Msg Rtproc Irq.
Local Open Scope Z_scope.

Definition SEND : Z := 1.
Definition RECEIVE : Z := 2.
Definition BOTH : Z := 3.
Definition HARD_INT : Z := 2.
Definition KSIG : Z := 64.
Definition FLOPPY : Z := -5.

(** ** Message buffers *)

(** [CopyMess]: [cp_mess] adds the offset to the click base of the data segment
    and overwrites the source field. *)
Definition mess_addr (r : proc) (off : Z) : Z :=
  u32 (u32 (Z.shiftl (mem_phys (p_map_D r)) CLICK_SHIFT) + off).

Definition CopyMess (src : Z) (sp : proc) (sm : Z) (dp : proc) (dm : Z) : K unit :=
  modify (λ k, k <| um ::= λ u, u <| um_mess ::= λ f,
    <[mess_addr dp dm := (f (mess_addr sp sm)) <| m_source := src |>]> f |> |>).

(** A message of source HARDWARE and type [HARD_INT] in the buffer [m_ptr] of a
    task. *)
Definition hard_int (rp m_ptr : Z) : K unit :=
  r ← ld_proc rp;
  modify (λ k, k <| um ::= λ u, u <| um_mess ::= λ f,
    <[mess_addr r m_ptr := (f (mess_addr r m_ptr)) <| m_source := HARDWARE |> <| m_type := HARD_INT |>]> f |> |>).

Definition set_flags (n : Z) (f : Z → Z) : K unit := st_proc n (λ r, r <| p_flags ::= f |>).

(** ** Sending *)

(** Which destinations a user process may send to. *)
Definition send_allowed (caller dest : Z) : K bool :=
  rtmode ← sv_test MRT_RTMODE;
  if negb rtmode then mret (negb (isuserp caller && negb (issysmrt dest)))
  else if negb (isuserp caller) then mret true
  else if negb (issysmrt dest) then mret false
  else
    r ← ld_proc caller;
    (if MRT_is_realtime r && negb (dest =? MRTTASK)
     then
       d ← ld_proc dest;
       printf ("mini_send(): a RT-process(" +:+ pretty (p_pid r) +:+ ") is " +:+
         "calling MINIX system call (dest PID)" +:+ pretty (p_pid d) +:+ nl)
     else mret ());;
    mret true.

(** The message lies in the data or stack segment or in the gap between them. *)
Definition mess_in_range (r : proc) (m_ptr : Z) : bool :=
  let vlo := Z.shiftr m_ptr CLICK_SHIFT in
  let vhi := Z.shiftr (u32 (m_ptr + MESS_SIZE - 1)) CLICK_SHIFT in
  negb ((vlo <? mem_vir (p_map_D r)) || (vlo >? vhi) ||
        (u32 (mem_vir (p_map_S r) + mem_len (p_map_S r)) <=? vhi)).

(** The loop of the deadlock check from [next_ptr]: true when it meets
    [caller_ptr]. *)
Fixpoint deadlock_from (fuel : nat) (next_ptr caller_ptr : Z) : K bool :=
  match fuel with
  | O => λ _, NoFuel
  | S fuel' =>
      if next_ptr =? caller_ptr then mret true
      else
        r ← ld_proc next_ptr;
        if TEST_BIT (p_flags r) SENDING then deadlock_from fuel' (p_sendto r) caller_ptr
        else mret false
  end.

Definition deadlock (fuel : nat) (dest caller_ptr : Z) : K bool :=
  d ← ld_proc dest;
  if TEST_BIT (p_flags d) SENDING then deadlock_from fuel (p_sendto d) caller_ptr else mret false.

(** [while (next_ptr->p_sendlink != NIL_PROC) next_ptr = next_ptr->p_sendlink] *)
Fixpoint callerq_last (fuel : nat) (next_ptr : Z) : K Z :=
  match fuel with
  | O => λ _, NoFuel
  | S fuel' =>
      r ← ld_proc next_ptr;
      match p_sendlink r with
      | Some n => callerq_last fuel' n
      | None => mret next_ptr
      end
  end.

(** Every loop follows a chain of distinct processes, of which there are 43. *)
Definition ipc_fuel : nat := 64.

(** The destination waits for this message. *)
Definition is_waiting (caller : Z) (d : proc) : bool :=
  (Z.land (p_flags d) (Z.lor RECEIVING SENDING) =? RECEIVING) &&
  ((p_getfrom d =? ANY) || (p_getfrom d =? caller)).

Definition block_sender (caller dest m_ptr : Z) : K unit :=
  st_proc caller (λ r, r <| p_messbuf := m_ptr |>);;
  r ← ld_proc caller;
  (if p_flags r =? 0 then unready caller else mret ());;
  set_flags caller (λ f, Z.lor f SENDING);;
  st_proc caller (λ r, r <| p_sendto := dest |>);;
  d ← ld_proc dest;
  (match p_callerq d with
   | None => st_proc dest (λ r, r <| p_callerq := Some caller |>)
   | Some q => t ← callerq_last ipc_fuel q; st_proc t (λ r, r <| p_sendlink := Some caller |>)
   end);;
  st_proc caller (λ r, r <| p_sendlink := None |>).

Definition mini_send (caller dest m_ptr : Z) : K Z :=
  ok ← send_allowed caller dest;
  if negb ok then mret E_BAD_DEST
  else
    d ← ld_proc dest;
    if TEST_BIT (p_flags d) P_SLOT_FREE then mret E_BAD_DEST
    else
      c ← ld_proc caller;
      if negb (mess_in_range c m_ptr) then mret EFAULT
      else
        dl ← deadlock ipc_fuel dest caller;
        if negb (negb dl) then mret ELOCKED
        else
          (if is_waiting (p_nr c) d then
             CopyMess (p_nr c) c m_ptr d (p_messbuf d);;
             set_flags dest (λ f, Z.land f (Z.lnot RECEIVING));;
             d ← ld_proc dest;
             if p_flags d =? 0 then ready dest else mret ()
           else block_sender caller dest m_ptr);;
          mret OK.

Definition lock_mini_send (caller dest m_ptr : Z) : K Z := locked (mini_send caller dest m_ptr).

(** ** Signals for the memory manager *)

(** [m_addr] is the address of the static message of system.c. *)
Fixpoint inform_scan (m_addr rp : Z) (n : nat) : K unit :=
  match n with
  | O => mret ()
  | S n' =>
      r ← ld_proc rp;
      if TEST_BIT (p_flags r) PENDING then
        h ← ld_proc HARDWARE;
        modify (λ k, k <| um ::= λ u, u <| um_mess ::= λ f,
          <[mess_addr h m_addr := mk_message (m_source (f (mess_addr h m_addr))) KSIG [p_nr r; p_pending r]]> f |> |>);;
        modify (λ k, k <| sig_procs ::= λ s, s32 (s - 1) |>);;
        rc ← lock_mini_send HARDWARE MM_PROC_NR m_addr;
        (if negb (rc =? OK) then panic "can't inform MM" NO_NUM else mret ());;
        st_proc rp (λ r, r <| p_pending := 0 |>);;
        set_flags rp (λ f, Z.land f (Z.lnot PENDING));;
        lock_pick_proc
      else inform_scan m_addr (rp + 1) n'
  end.
Definition inform (m_addr : Z) : K unit := inform_scan m_addr 0 (Z.to_nat NR_PROCS).

(** ** Receiving *)

(** The search of the caller queue for a sender [src] accepts: the sender and
    the process before it. *)
Fixpoint find_sender (fuel : nat) (prev sender : option Z) (src : Z) : K (option (option Z * Z)) :=
  match fuel with
  | O => λ _, NoFuel
  | S fuel' =>
      match sender with
      | None => mret None
      | Some s =>
          r ← ld_proc s;
          if (src =? ANY) || (src =? p_nr r) then mret (Some (prev, s))
          else find_sender fuel' (Some s) (p_sendlink r) src
      end
  end.

Definition accept_sender (caller m_ptr : Z) (prev : option Z) (s : Z) : K unit :=
  r ← ld_proc s;
  c ← ld_proc caller;
  CopyMess (p_nr r) r (p_messbuf r) c m_ptr;;
  (if bool_decide (p_callerq c = Some s)
   then st_proc caller (λ c, c <| p_callerq := p_sendlink r |>)
   else p ← notnull prev; st_proc p (λ p, p <| p_sendlink := p_sendlink r |>));;
  set_flags s (λ f, Z.land f (Z.lnot SENDING));;
  r ← ld_proc s;
  if p_flags r =? 0 then ready s else mret ().

Definition block_receiver (m_addr caller src m_ptr : Z) : K Z :=
  st_proc caller (λ r, r <| p_getfrom := src |> <| p_messbuf := m_ptr |>);;
  r ← ld_proc caller;
  (if p_flags r =? 0 then unready caller else mret ());;
  set_flags caller (λ f, Z.lor f RECEIVING);;
  n ← gets sig_procs;
  (if (n >? 0) && (p_nr r =? MM_PROC_NR) && (src =? ANY) then inform m_addr else mret ());;
  mret OK.

Definition mini_rec (m_addr caller src m_ptr : Z) : K Z :=
  c ← ld_proc caller;
  if negb (TEST_BIT (p_flags c) SENDING) then
    found ← find_sender ipc_fuel None (p_callerq c) src;
    match found with
    | Some (prev, s) => accept_sender caller m_ptr prev s;; mret OK
    | None =>
        if p_int_blocked c && isrxhardware src then
          hard_int caller m_ptr;;
          st_proc caller (λ c, c <| p_int_blocked := false |>);;
          mret OK
        else block_receiver m_addr caller src m_ptr
    end
  else block_receiver m_addr caller src m_ptr.

Definition sys_call (m_addr function src_dest m_ptr : Z) : K Z :=
  rp ← gets proc_ptr;
  if negb (isoksrc_dest src_dest) then mret E_BAD_SRC
  else if isuserp rp && negb (function =? BOTH) then mret E_NO_PERM
  else if TEST_BIT function SEND then
    n ← mini_send rp src_dest m_ptr;
    if (function =? SEND) || negb (n =? OK) then mret n
    else mini_rec m_addr rp src_dest m_ptr
  else mini_rec m_addr rp src_dest m_ptr.

(** ** Interrupt messages *)
Section handlers.
Context (run_handler : Z → Z → K Z) (fuel : nat).

Definition floppy_trace (r : proc) (s : string) : K unit :=
  if p_nr r =? FLOPPY then printf s else mret ().

(** Another process-switching function is active: [rp] goes to the held queue. *)
Definition hold (rp : Z) : K unit :=
  lock;;
  r ← ld_proc rp;
  (if negb (p_int_held r) then
     st_proc rp (λ r, r <| p_int_held := true |>);;
     h ← gets held_head;
     (match h with
      | Some _ => t ← gets held_tail; t ← notnull t; st_proc t (λ r, r <| p_nextheld := Some rp |>)
      | None => modify (λ k, k <| held_head := Some rp |>)
      end);;
     modify (λ k, k <| held_tail := Some rp |>);;
     st_proc rp (λ r, r <| p_nextheld := None |>)
   else mret ());;
  unlock run_handler fuel;;
  floppy_trace r "HELD ".

Definition interrupt (task : Z) : K unit :=
  let rp := task in
  ree ← gets k_reenter;
  sw ← gets switching;
  r ← ld_proc rp;
  if negb (ree =? 0) || sw then hold rp
  else if negb (Z.land (p_flags r) (Z.lor RECEIVING SENDING) =? RECEIVING) || negb (isrxhardware (p_getfrom r)) then
    st_proc rp (λ r, r <| p_int_blocked := true |>);;
    floppy_trace r "BLOCKED "
  else
    hard_int rp (p_messbuf r);;
    set_flags rp (λ f, Z.land f (Z.lnot RECEIVING));;
    st_proc rp (λ r, r <| p_int_blocked := false |>);;
    h ← gets rdy_head;
    (match h TASK_Q with
     | Some _ => t ← gets rdy_tail; t ← notnull (t TASK_Q); st_proc t (λ r, r <| p_nextready := Some rp |>)
     | None => modify (λ k, k <| rdy_head ::= <[TASK_Q := Some rp]> |>);; modify (λ k, k <| proc_ptr := rp |>)
     end);;
    modify (λ k, k <| rdy_tail ::= <[TASK_Q := Some rp]> |>);;
    st_proc rp (λ r, r <| p_nextready := None |>);;
    floppy_trace r "READY ".

(** The handlers of the floppy driver (kernel/floppy.c) and of interrupts no
    driver has asked for (kernel/i8259.c). *)
Definition f_handler (irq : Z) : K Z :=
  printf "[F]";;
  interrupt FLOPPY;;
  printf "[f]";;
  mret 0.

Definition spurious_irq_handler (irq : Z) : K Z :=
  (if (irq <? 0) || (NR_IRQ_VECTORS <=? irq) then panic "invalid call to spurious_irq" irq else mret ());;
  printf ("spurious irq " +:+ pretty irq +:+ nl);;
  mret 1.

Fixpoint unhold_loop (n : nat) (rp : Z) : K unit :=
  match n with
  | O => λ _, NoFuel
  | S n' =>
      r ← ld_proc rp;
      modify (λ k, k <| held_head := p_nextheld r |>);;
      (match p_nextheld r with
       | None => modify (λ k, k <| held_tail := None |>)
       | Some _ => mret ()
       end);;
      st_proc rp (λ r, r <| p_int_held := false |>);;
      unlock run_handler fuel;;
      interrupt (p_nr r);;
      lock;;
      h ← gets held_head;
      match h with
      | None => mret ()
      | Some rp' => unhold_loop n' rp'
      end
  end.

Definition unhold : K unit :=
  sw ← gets switching;
  if negb (negb sw) then mret ()
  else h ← gets held_head; rp ← notnull h; unhold_loop fuel rp.
End handlers.
