(* ===== verification/Interrupts.v ===== *)
(** * Interrupts are served (kernel/mrtirq.c)

    Theorems on the interrupt side of the kernel: the pool of software
    interrupts; the lists of triggered descriptors and of MINIX's pending
    interrupts, which are served completely, in order and once each; [lock] and
    [unlock], MINIX's virtual interrupt flag; and [MRT_IRQ_dispatch], which
    serves an interrupt at once or defers it.  The handlers are arbitrary functions
    that keep the contract [Handlers]; the handlers of the floppy driver and of
    spurious interrupts are shown to keep it. *)

From stdpp Require Import base gmap strings numbers fin_maps functions list.
From S2P Require Import Prelude Lists Kernel Sched VTimer Inherit Sem Msg Rtproc Irq Dispatch MiniIpc.
Local Open Scope Z_scope.

(** ** Software interrupts *)

Lemma soft_scan_spec use n : ∀ i, 0 ≤ i →
  (soft_scan use i n = i + Z.of_nat n ∧ ∀ j, i ≤ j < i + Z.of_nat n → Z.testbit use j = true) ∨
  (i ≤ soft_scan use i n < i + Z.of_nat n ∧ Z.testbit use (soft_scan use i n) = false ∧
   ∀ j, i ≤ j < soft_scan use i n → Z.testbit use j = true).
Proof.
  induction n as [|n IH]; intros i Hi; cbn [soft_scan]; [left; split; [lia|intros; lia]|].
  assert (TEST_BIT (Z.shiftl 1 i) use = Z.testbit use i) as ->.
  { rewrite <- TEST_BIT_shift by done. unfold TEST_BIT. by rewrite Z.land_comm. }
  destruct (Z.testbit use i) eqn:E.
  - destruct (IH (i + 1) ltac:(lia)) as [(-> & H)|(H1 & H2 & H3)].
    + left. split; [lia|]. intros j Hj. destruct (decide (j = i)) as [->|]; [done|apply H; lia].
    + right. split; [lia|]. split; [done|]. intros j Hj. destruct (decide (j = i)) as [->|]; [done|apply H3; lia].
  - right. split; [lia|]. split; [done|]. intros; lia.
Qed.

(** C21: [MRT_softirq_alloc] hands out the lowest numbered software interrupt
    that is free and marks exactly that one as used, so that it is never handed
    out twice, and [MRT_softirq_free] gives it back; when all are in use the
    caller gets [E_MRT_NOSOFTIRQ] and nothing changes. *)
Theorem softirq_alloc_free k :
  (MRT_softirq_alloc k = Ok k E_MRT_NOSOFTIRQ ∧ ∀ i, 0 ≤ i < NR_IRQ_SOFT → Z.testbit (soft_use k) i = true) ∨
  ∃ i k', 0 ≤ i < NR_IRQ_SOFT ∧ Z.testbit (soft_use k) i = false ∧ (∀ j, 0 ≤ j < i → Z.testbit (soft_use k) j = true) ∧
    MRT_softirq_alloc k = Ok k' (NR_IRQ_VECTORS + i) ∧
    (∀ j, 0 ≤ j → Z.testbit (soft_use k') j = (i =? j) || Z.testbit (soft_use k) j) ∧
    MRT_softirq_free (NR_IRQ_VECTORS + i) k' = Ok k ().
Proof.
  unfold MRT_softirq_alloc. rewrite (bind_ok _ _ _ _ _ (gets_ok _ _)).
  destruct (soft_scan_spec (soft_use k) (Z.to_nat NR_IRQ_SOFT) 0 ltac:(lia)) as [(-> & H)|(H1 & H2 & H3)].
  - left. split; [done|]. intros i Hi. apply H. unfold NR_IRQ_SOFT in *. lia.
  - right. set (i := soft_scan _ _ _) in *. exists i. rewrite (proj2 (Z.eqb_neq i NR_IRQ_SOFT)) by (unfold NR_IRQ_SOFT in *; lia). krun.
    eexists. split; [unfold NR_IRQ_SOFT in *; lia|]. split; [done|]. split; [done|]. split; [by rewrite Z.add_comm|]. split.
    + intros j Hj. cbn. by rewrite SET_BIT_shift by lia.
    + unfold MRT_softirq_free. replace (NR_IRQ_VECTORS + i - NR_IRQ_VECTORS) with i by lia.
      rewrite (proj2 (Z.ltb_ge i 0)), Z.gtb_ltb, (proj2 (Z.ltb_ge NR_IRQ_SOFT i)) by (unfold NR_IRQ_SOFT in *; lia). cbn [orb]. krun.
      f_equal. assert (E : CLR_BIT (SET_BIT (soft_use k) (Z.shiftl 1 i)) (Z.shiftl 1 i) = soft_use k);
        [|transitivity (k <| soft_use := CLR_BIT (SET_BIT (soft_use k) (Z.shiftl 1 i)) (Z.shiftl 1 i) |>); [done|rewrite E; by destruct k]].
      apply Z.bits_inj'. intros n Hn. rewrite CLR_BIT_shift, SET_BIT_shift by lia. destruct (Z.eqb_spec i n) as [<-|]; [by rewrite H2|done].
Qed.

(** ** Handlers *)

(** The state outside the list store, the descriptors, the system variables, the
    hardware and the saved interrupt flags: what the code around a handler does
    not touch. *)
Definition outside (k : kstate) :=
  ((procs k, sems k, vtimers k, mqes k, msgQs k), (earliest k, maxper k, T2curr k, latch k, si_mask k, hard_use k, soft_use k),
   (proc_ptr k, bill_ptr k, rdy_head k, rdy_tail k, held_head k, held_tail k), (k_reenter k, switching k, sig_procs k, um k, junk k, console k)).

(** [k'] differs from [k] by bookkeeping of the interrupt code only. *)
Definition quiet (k k' : kstate) : Prop := outside k' = outside k.

#[export] Instance quiet_equiv : Equivalence quiet.
Proof. unfold quiet. split; [by intros ?|by intros ??|]. intros k1 k2 k3 H1 H2. by rewrite H2, H1. Qed.

(** What the code relies on when it calls an interrupt handler through a function
    pointer: a handler that is [known] at its address and interrupt number
    returns, and it leaves the interrupt descriptors, the queues of pending
    interrupts, the saved interrupt flags and MINIX's virtual interrupt flag as
    they are.  Everything else is up to it, also the other queues; [I] is an
    invariant of the drivers. *)
Class Handlers (run_handler : Z → Z → K Z) (known : Z → Z → Prop) (I : kstate → Prop) : Prop := {
  handlers_quiet k k' : quiet k k' → I k → I k';
  handlers_run addr irq k Q : known addr irq → I k → qinv (lm k) Q →
    ∃ k' r Q', run_handler addr irq k = Ok k' r ∧ I k' ∧ qstep (lm k) (lm k') Q Q' ∧ (∀ p, Q' (HP PIrq p) = Q (HP PIrq p)) ∧
      Q' HMnxQ = Q HMnxQ ∧ irqtab k' = irqtab k ∧ CPUflags k' = CPUflags k ∧
      TEST_BIT (sv_flags (sv k')) MRT_MINIXCLI = TEST_BIT (sv_flags (sv k)) MRT_MINIXCLI;
}.

Definition handler_addr (d : MRT_irqd_t) : Z :=
  if TEST_BIT (iq_irqtype d) MRT_RTIRQ then iq_rthandler d else iq_nrthandler d.

(** The handler a descriptor runs, its argument and its priority. *)
Definition entry (d : MRT_irqd_t) : Z * Z * Z := (handler_addr d, iq_irq d, iq_priority d).
Definition entries (tab : gmap Z MRT_irqd_t) (ds : list Z) : list (Z * Z * Z) := omap (λ d, entry <$> tab !! d) ds.

(** [k'] is reached from [k] by calling exactly these handlers in this order, each
    at its priority level and with interrupts enabled; between the calls there is
    only bookkeeping. *)
Inductive calls (run_handler : Z → Z → K Z) : list (Z * Z * Z) → kstate → kstate → Prop :=
  | calls_none k k' : quiet k k' → calls run_handler [] k k'
  | calls_run addr irq p es k ka kb r k' :
      quiet k ka → sv_prtylvl (sv ka) = p mod 256 → hw_IF (hw ka) = true → run_handler addr irq ka = Ok kb r →
      calls run_handler es kb k' → calls run_handler ((addr, irq, p) :: es) k k'.

Lemma calls_quiet run es k0 k k' : quiet k0 k → calls run es k k' → calls run es k0 k'.
Proof. intros H0 Hc. destruct Hc; [constructor; by etrans|]. econstructor; [by etrans|done..]. Qed.

Lemma calls_app run es es' k k1 k' : calls run es k k1 → calls run es' k1 k' → calls run (es ++ es') k k'.
Proof. intros Hc H. induction Hc; [by eapply calls_quiet|]. econstructor; [done..|]. by apply IHHc. Qed.

Lemma calls_end run es k k1 k' : calls run es k k1 → quiet k1 k' → calls run es k k'.
Proof. intros Hc Hq. rewrite <- (app_nil_r es). eapply calls_app; [done|by constructor]. Qed.

(** A descriptor that is not locked by a task, and whose handler is all there is
    to run: it wakes no task, by message or by the lock. *)
Definition plain (d : MRT_irqd_t) : Prop :=
  TEST_BIT (iq_irqtype d) MRT_ISTMSG = false ∧ TEST_BIT (iq_flags d) MRT_TASKWAIT = false ∧ TEST_BIT (iq_flags d) MRT_TASKLOCKED = false.

(** The part of a descriptor that serving it does not change. *)
Definition irqd_static (d : MRT_irqd_t) := (iq_irq d, iq_irqtype d, iq_priority d, iq_rthandler d, iq_nrthandler d, iq_task d, iq_watchdog d).

Lemma static_entry d d' : irqd_static d' = irqd_static d → entry d' = entry d.
Proof. unfold irqd_static, entry, handler_addr. by intros [= -> -> -> -> -> _ _]. Qed.

(** What serving an interrupt leaves as it is. *)
Record iframe (k k' : kstate) (Q Q' : lhead → list laddr) : Prop := {
  if_q : qstep (lm k) (lm k') Q Q';
  if_irqQ : ∀ p, Q' (HP PIrq p) = Q (HP PIrq p);
  if_mnxQ : Q' HMnxQ = Q HMnxQ;
  if_cli : TEST_BIT (sv_flags (sv k')) MRT_MINIXCLI = TEST_BIT (sv_flags (sv k)) MRT_MINIXCLI;
  if_IF : hw_IF (hw k') = hw_IF (hw k);
  if_CPU : ∀ i, i ≠ F_MRT_do_handler → CPUflags k' i = CPUflags k i;
}.

(** The bookkeeping that leaves the lists alone. *)
Record still (k k' : kstate) : Prop := {
  st_quiet : quiet k k';
  st_lm : lm k' = lm k;
  st_cli : sv_flags (sv k') = sv_flags (sv k);
  st_IF : hw_IF (hw k') = hw_IF (hw k);
  st_CPU : CPUflags k' = CPUflags k;
}.

Lemma iframe_still_l k0 k k' Q Q' : still k0 k → iframe k k' Q Q' → iframe k0 k' Q Q'.
Proof. intros [_ El Ec Ei Ep] []. split; rewrite <- ?El, <- ?Ec, <- ?Ei; try done. intros i Hi. rewrite <- Ep. auto. Qed.
Lemma iframe_still_r k k1 k' Q Q' : iframe k k1 Q Q' → still k1 k' → iframe k k' Q Q'.
Proof. intros [] [_ El Ec Ei Ep]. split; rewrite ?El, ?Ec, ?Ei; try done. intros i Hi. rewrite Ep. auto. Qed.
#[export] Instance still_trans : Transitive still.
Proof. intros k1 k2 k3 [A1 A2 A3 A4 A5] [B1 B2 B3 B4 B5]. split; [by etrans|congruence..]. Qed.

(** What serving descriptor [d] does to the descriptor and to the priority. *)
Record serve_frame (k k' : kstate) (d : Z) (dd dd' : MRT_irqd_t) : Prop := {
  sf_tab : irqtab k' = <[d := dd']> (irqtab k);
  sf_static : irqd_static dd' = irqd_static dd;
  sf_plain : plain dd → plain dd';
  sf_enq : TEST_BIT (iq_flags dd') MRT_ENQUEUED = TEST_BIT (iq_flags dd) MRT_ENQUEUED;
  sf_count : TEST_BIT (iq_irqtype dd) MRT_SOFTIRQ = true → iq_count dd' = u32 (iq_count dd + 1);
  sf_hard : TEST_BIT (iq_irqtype dd) MRT_SOFTIRQ = false → iq_count dd' = iq_count dd;
  sf_lvl : sv_prtylvl (sv k') = sv_prtylvl (sv k) mod 256;
}.

Lemma prtylvl_set_run k p : ∃ k', MRT_prtylvl_set p k = Ok k' () ∧ still k k' ∧ irqtab k' = irqtab k ∧
  sv_prtylvl (sv k') = p mod 256.
Proof.
  unfold MRT_prtylvl_set, st_sv, sv_test, MRT_set_PIC. krun. cbn.
  destruct (TEST_BIT _ _); krun; eexists; (split; [reflexivity|]); by split_and!.
Qed.

(** The flags after the handler has run. *)
Definition unlocked (f : Z) : Z := CLR_BIT (SET_BIT f MRT_HANDLOCKED) MRT_HANDLOCKED.

(** The descriptors [ds] wait in list [L]. *)
Record waiting (k : kstate) (Q : lhead → list laddr) (L : lhead) (ds : list Z) : Prop := {
  wa_q : qinv (lm k) Q;
  wa_this : this_ok (lm k);
  wa_list : Q L = LIrqd <$> ds;
  wa_hdr : is_Some (lists (lm k) !! L);
}.

Lemma waiting_nodup k Q L ds : waiting k Q L ds → NoDup ds.
Proof. intros Hp. pose proof (li_nodup _ _ (proj1 (wa_q _ _ _ _ Hp)) L) as H. rewrite (wa_list _ _ _ _ Hp) in H. by apply NoDup_fmap_1 in H. Qed.

Lemma waiting_head k Q L ds : waiting k Q L ds → ∃ l, lists_ (ld_list L) k = Ok k l ∧ first l = LIrqd <$> head ds.
Proof.
  intros [[Hl _] _ HL [l Hls]]. exists l. split; [by apply k_ld_list_ok|]. destruct (li_list _ _ Hl _ _ Hls) as (_ & _ & -> & _). rewrite HL.
  by destruct ds.
Qed.

Lemma waiting_this k Q L d ds : waiting k Q L (d :: ds) → ∃ lk, links (lm k) !! LIrqd d = Some lk ∧ this lk = OIrqd d.
Proof.
  intros [[Hl _] Ht HL _]. destruct (linv_in_links (lm k) Q L (LIrqd d) Hl) as [lk Hlk]; [rewrite HL; by apply list_elem_of_here|].
  exists lk. split; [done|]. by rewrite (Ht _ _ Hlk).
Qed.

Lemma waiting_step k k' Q Q' L ds ds' : waiting k Q L ds → qstep (lm k) (lm k') Q Q' → Q' L = LIrqd <$> ds' → waiting k' Q' L ds'.
Proof. intros [Hq Ht HL Hh] Hs HL'. constructor; [apply Hs|by eapply this_ok_frame; [apply Hs|]|done|by apply Hs]. Qed.

(** A descriptor that can be served: it is [plain] and its handler is known. *)
Definition servable (known : Z → Z → Prop) (tab : gmap Z MRT_irqd_t) (d : Z) : Prop :=
  ∃ dd, tab !! d = Some dd ∧ plain dd ∧ known (handler_addr dd) (iq_irq dd).

(** [ds] are triggered at priority [p]. *)
Definition triggered (k : kstate) (p : Z) (ds : list Z) : Prop :=
  ∀ d dd, d ∈ ds → irqtab k !! d = Some dd → TEST_BIT (iq_flags dd) MRT_ENQUEUED = true ∧ iq_priority dd = p.

Lemma entries_frame tab tab' ds : (∀ x, x ∈ ds → tab' !! x = tab !! x) → entries tab' ds = entries tab ds.
Proof.
  intros H. unfold entries. induction ds as [|x ds IH]; [done|]. cbn. rewrite H, IH; [done| |by apply list_elem_of_here].
  intros y Hy. apply H. by apply list_elem_of_further.
Qed.

Lemma entries_static tab tab' ds :
  (∀ d, d ∈ ds → ∃ dd dd', tab !! d = Some dd ∧ tab' !! d = Some dd' ∧ irqd_static dd' = irqd_static dd) → entries tab' ds = entries tab ds.
Proof.
  intros H. unfold entries. induction ds as [|x ds IH]; [done|]. cbn. destruct (H x) as (dd & dd' & -> & -> & Hs); [by apply list_elem_of_here|]. cbn.
  rewrite (static_entry _ _ Hs), IH; [done|]. intros y Hy. apply H. by apply list_elem_of_further.
Qed.

Lemma servable_static known (tab tab' : gmap Z MRT_irqd_t) d dd dd' : servable known tab d → tab !! d = Some dd → tab' !! d = Some dd' →
  irqd_static dd' = irqd_static dd → (∀ b, Z.land MRT_ENQUEUED b = 0 → TEST_BIT (iq_flags dd') b = TEST_BIT (iq_flags dd) b) → servable known tab' d.
Proof.
  intros (dx & Hdx & Hpl & Hkn) Hd Hd' Hs Hf. rewrite Hd in Hdx. injection Hdx as <-. exists dd'. split; [done|].
  pose proof (static_entry _ _ Hs) as [= -> -> _]. split; [|done]. unfold plain in *. rewrite !Hf by reflexivity. by injection Hs as _ -> _ _ _ _ _.
Qed.

Section serving.
Context {run : Z → Z → K Z} {known : Z → Z → Prop} {I : kstate → Prop} `{Hdrv : !Handlers run known I}.

Lemma handler_call_run k Q d dd : irqtab k !! d = Some dd → TEST_BIT (iq_irqtype dd) MRT_ISTMSG = false →
  known (handler_addr dd) (iq_irq dd) → sv_prtylvl (sv k) = iq_priority dd mod 256 → I k → qinv (lm k) Q →
  ∃ k' r Q', handler_call run d k = Ok k' r ∧ I k' ∧ calls run [entry dd] k k' ∧ iframe k k' Q Q' ∧
    irqtab k' = <[d := dd <| iq_flags ::= unlocked |>]> (irqtab k).
Proof.
  intros Hd Hist Hkn Hp HI Hq. unfold handler_call, saveF_static, restoreF_static, MRT_saveFunlock, MRT_unlock, MRT_restoreF. krun.
  match goal with |- ∃ _ _ _, _ ?st = _ ∧ _ => set (ka := st) end.
  destruct (handlers_run (handler_addr dd) (iq_irq dd) ka Q Hkn) as (kb & r & Q' & Hb & HIb & Hs & H1 & H2 & Ht & Hc & Hcli);
    [by apply (handlers_quiet k)|done|].
  assert (Hdb : irqtab kb !! d = Some (dd <| iq_flags ::= λ f, SET_BIT f MRT_HANDLOCKED |>)) by (rewrite Ht; apply lookup_insert_eq).
  assert (Hend : ∃ k', (retval ← mret r; (f ← gets (λ k, CPUflags k F_MRT_do_handler); modify (λ k, k <| hw ::= λ h, h <| hw_IF := f |> |>));;
    st_irqd d (λ d, d <| iq_flags ::= λ f, CLR_BIT f MRT_HANDLOCKED |>);; mret retval) kb = Ok k' r ∧ I k' ∧ calls run [entry dd] k k' ∧ iframe k k' Q Q' ∧
    irqtab k' = <[d := dd <| iq_flags ::= unlocked |>]> (irqtab k)).
  { krun. eexists. split; [reflexivity|]. split; [by apply (handlers_quiet kb)|]. split; [|split].
    - apply (calls_run _ _ _ _ _ _ ka kb r); [done|done|done|done|by constructor].
    - split; cbn; try done; rewrite ?Hc; [by cbn; rewrite fn_lookup_insert|]. intros i Hi. cbn. by rewrite fn_lookup_insert_ne.
    - cbn. rewrite Ht. cbn. by rewrite insert_insert_eq. }
  destruct Hend as (k' & Hend & Hrest). exists k', r, Q'. split; [|exact Hrest]. rewrite <- Hend. clear Hend Hrest.
  unfold handler_addr in Hb. cbn. destruct (TEST_BIT (iq_irqtype dd) MRT_RTIRQ) eqn:E; cbn [negb] in *.
  - krun. rewrite (bind_ok _ _ _ _ _ Hb). krun. cbn. rewrite Hist. by krun.
  - by rewrite (bind_ok _ _ _ _ _ Hb).
Qed.

Lemma irq_latency_run k d dd : irqtab k !! d = Some dd →
  ∃ k' dd', irq_latency d k = Ok k' () ∧ still k k' ∧ sv k' = sv k ∧ irqtab k' = <[d := dd']> (irqtab k) ∧
    irqd_static dd' = irqd_static dd ∧ iq_flags dd' = iq_flags dd ∧ iq_count dd' = iq_count dd.
Proof.
  intros Hd. unfold irq_latency, read_counter2, MRT_read_timer2. krun. destruct (_ && _).
  - krun. eexists _, _. split; [reflexivity|]. split; [done|]. split; [done|]. split; [cbn; rewrite insert_insert_eq; reflexivity|]. done.
  - exists k, dd. split; [done|]. split; [done|]. split; [done|]. split; [|done]. by rewrite insert_id.
Qed.

Lemma irq_unmask_run k d dd m r : irqtab k !! d = Some dd →
  ∃ k', irq_unmask d m r k = Ok k' () ∧ still k k' ∧ irqtab k' = irqtab k.
Proof.
  intros Hd. unfold irq_unmask, MRT_set_PIC, st_sv. krun. destruct (_ =? _); [|eexists; split; [reflexivity|done]].
  krun. destruct (negb _); krun; eexists; (split; [reflexivity|]); done.
Qed.

Lemma irq_stats_run k d dd : irqtab k !! d = Some dd →
  ∃ k' dd', irq_stats d k = Ok k' () ∧ still k k' ∧ sv k' = sv k ∧ irqtab k' = <[d := dd']> (irqtab k) ∧ irqd_static dd' = irqd_static dd ∧
    (∀ b, Z.land MRT_TDTRIGGER b = 0 → TEST_BIT (iq_flags dd') b = TEST_BIT (iq_flags dd) b) ∧
    (TEST_BIT (iq_irqtype dd) MRT_SOFTIRQ = true → iq_count dd' = u32 (iq_count dd + 1)) ∧
    (TEST_BIT (iq_irqtype dd) MRT_SOFTIRQ = false → iq_count dd' = iq_count dd).
Proof.
  intros Hd. unfold irq_stats. krun. destruct (TEST_BIT (iq_irqtype dd) MRT_SOFTIRQ); [|destruct (TEST_BIT (iq_irqtype dd) MRT_TDIRQ)]; krun.
  - eexists _, _. split; [reflexivity|]. split_and!; try done.
  - eexists _, _. split; [reflexivity|]. split; [done|]. split; [done|]. split; [cbn; rewrite !insert_insert_eq; reflexivity|].
    split_and!; try done. intros b Hb. cbn. by apply CLR_BIT_other.
  - exists k, dd. split_and!; try done. by rewrite insert_id.
Qed.

Lemma do_handler_spec k Q d dd : irqtab k !! d = Some dd → plain dd → known (handler_addr dd) (iq_irq dd) → I k → qinv (lm k) Q →
  ∃ k' dd' Q', MRT_do_handler run d k = Ok k' () ∧ I k' ∧ calls run [entry dd] k k' ∧ iframe k k' Q Q' ∧ serve_frame k k' d dd dd'.
Proof.
  intros Hd (Hist & Htw & Htl) Hkn HI Hq. unfold MRT_do_handler. krun.
  destruct (prtylvl_set_run k (iq_priority dd)) as (k1 & Hr1 & Hs1 & Ht1 & Hl1). rewrite (bind_ok _ _ _ _ _ Hr1).
  destruct (handler_call_run k1 Q d dd) as (k2 & r & Q' & Hr2 & HI2 & Hc2 & Hf2 & Ht2); [by rewrite Ht1|done|done|done| |by rewrite (st_lm _ _ Hs1)|].
  { eapply handlers_quiet; [apply Hs1|done]. }
  rewrite (bind_ok _ _ _ _ _ Hr2). set (dd1 := dd <| iq_flags ::= unlocked |>) in *.
  rewrite Ht1 in Ht2. assert (Hd2 : irqtab k2 !! d = Some dd1) by (rewrite Ht2; apply lookup_insert_eq).
  destruct (irq_unmask_run k2 d dd1 (sv_real_PIC (sv k)) r Hd2) as (k3 & Hr3 & Hs3 & Ht3). rewrite (bind_ok _ _ _ _ _ Hr3). clear Hr1 Hr2 Hr3.
  destruct (prtylvl_set_run k3 (sv_prtylvl (sv k))) as (k4 & Hr4 & Hs4 & Ht4 & Hl4). rewrite (bind_ok _ _ _ _ _ Hr4). clear Hr4.
  assert (Hd4 : irqtab k4 !! d = Some dd1) by (by rewrite Ht4, Ht3).
  destruct (irq_latency_run k4 d dd1 Hd4) as (k5 & dd2 & Hr5 & Hs5 & Ev5 & Ht5 & Es & Ef & Ec). rewrite (bind_ok _ _ _ _ _ Hr5). clear Hr5.
  assert (Hd5 : irqtab k5 !! d = Some dd2) by (rewrite Ht5; apply lookup_insert_eq).
  assert (Hfl : ∀ b, Z.land MRT_HANDLOCKED b = 0 → TEST_BIT (iq_flags dd2) b = TEST_BIT (iq_flags dd) b).
  { intros b Hb. rewrite Ef. cbn. unfold unlocked. by rewrite CLR_BIT_other, SET_BIT_other. }
  unfold irq_taskwait. krun. rewrite (Hfl MRT_TASKWAIT), Htw by reflexivity. krun.
  destruct (irq_stats_run k5 d dd2 Hd5) as (k6 & dd3 & Hr6 & Hs6 & Ev6 & Ht6 & Es6 & Hf6 & Hn6 & Hm6).
  exists k6, dd3, Q'. split; [exact Hr6|].
  assert (still k2 k6) as Hs26 by (etrans; [apply Hs3|]; etrans; [apply Hs4|]; by etrans).
  assert (Es' : irqd_static dd3 = irqd_static dd) by (by rewrite Es6, Es). split; [eapply handlers_quiet; [apply Hs26|done]|].
  split; [eapply calls_quiet, calls_end; [apply Hs1|exact Hc2|apply Hs26]|]. split; [eapply iframe_still_l, iframe_still_r; done|].
  assert (iq_irqtype dd2 = iq_irqtype dd) as Ety by (by injection Es). rewrite Ety in Hn6, Hm6. rewrite Ec in Hn6, Hm6. constructor; try done.
  - by rewrite Ht6, Ht5, Ht4, Ht3, Ht2, !insert_insert_eq.
  - intros _. unfold plain. injection Es' as ? -> ? ? ? ? ?. rewrite !Hf6, !Hfl by reflexivity. done.
  - by rewrite Hf6, Hfl by reflexivity.
  - by rewrite Ev6, Ev5.
Qed.

(** *** The queue of triggered descriptors is served *)

Lemma irqd_flush_spec p ds : 0 ≤ p < 16 → ∀ fuel k Q, waiting k Q (HP PIrq p) ds → (∀ d, d ∈ ds → servable known (irqtab k) d) → triggered k p ds →
  is_Some (plists (lm k) !! PIrq) → 0 ≤ sv_prtylvl (sv k) < 256 → I k → (length ds < fuel)%nat →
  ∃ k' Q', MRT_irqd_flush run fuel p k = Ok k' () ∧ calls run (entries (irqtab k) ds) k k' ∧ I k' ∧ waiting k' Q' (HP PIrq p) [] ∧
    (∀ q, q ≠ p → Q' (HP PIrq q) = Q (HP PIrq q)) ∧ Q' HMnxQ = Q HMnxQ ∧ sv_prtylvl (sv k') = sv_prtylvl (sv k) ∧
    hw_IF (hw k') = hw_IF (hw k) ∧ (∀ d, d ∉ ds → irqtab k' !! d = irqtab k !! d) ∧
    ∀ d, d ∈ ds → ∃ dd dd', irqtab k !! d = Some dd ∧ irqtab k' !! d = Some dd' ∧ TEST_BIT (iq_flags dd') MRT_ENQUEUED = false ∧
      irqd_static dd' = irqd_static dd ∧ (TEST_BIT (iq_irqtype dd) MRT_SOFTIRQ = true → iq_count dd' = u32 (iq_count dd + 1)).
Proof.
  intros Hp. induction ds as [|d ds IH]; intros fuel k Q Hw Hsv Htr Hpl Hlvl HI Hf; (destruct fuel as [|fuel]; [cbn in Hf; lia|]); cbn [MRT_irqd_flush].
  { destruct (waiting_head _ _ _ _ Hw) as (l & Hl & Hfst). rewrite (bind_ok _ _ _ _ _ Hl), Hfst. exists k, Q. split; [done|].
    split; [by constructor|]. split_and!; try done. by intros d ?%elem_of_nil. }
  destruct (waiting_head _ _ _ _ Hw) as (l & Hl & Hfst). rewrite (bind_ok _ _ _ _ _ Hl), Hfst. cbn [head fmap option_fmap option_map].
  destruct (waiting_this _ _ _ _ _ Hw) as (lk & Hlk & Hth). krun. rewrite Hth. cbn [as_irqd]. krun.
  destruct (Hsv d) as (dd & Hd & Hpd & Hkn); [by apply list_elem_of_here|]. destruct (Htr d dd) as [Henq Hpty]; [by apply list_elem_of_here|done|].
  krun. rewrite (proj2 (proj2 Hpd)).
  destruct (do_handler_spec k Q d dd Hd Hpd Hkn HI (wa_q _ _ _ _ Hw)) as (k1 & dd1 & Q1 & Hrun1 & HI1 & Hc1 & [F1 F2 F3 _ F5 F6] & [T1 T2 T3 T4 T5 T6 T7]).
  krun. rewrite (bind_ok _ _ _ _ _ Hrun1).
  assert (Hd1 : irqtab k1 !! d = Some dd1) by (rewrite T1; apply lookup_insert_eq).
  assert (S3 : iq_priority dd1 = p) by (by injection T2 as ? ? -> ? ? ? ?).
  unfold MRT_irqd_deQ. krun. rewrite T4, Henq. cbn [negb]. krun. rewrite S3.
  pose proof (waiting_nodup _ _ _ _ Hw) as [Hni Hnd]%NoDup_cons.
  assert (Hw1 : waiting k1 Q1 (HP PIrq p) (d :: ds)) by (eapply waiting_step; [done..|]; rewrite F2; apply Hw).
  destruct (MRT_plist_rmv_spec (lm k1) Q1 PIrq (LIrqd d) p [] (LIrqd <$> ds)) as (m2 & Hrun2 & Hs2); [apply F1|by apply (fr_plists _ _ (proj2 F1))|done|apply Hw1|].
  erewrite bind_ok; [|apply lists_ok; exact Hrun2]. krun.
  match goal with |- ∃ _ _, MRT_irqd_flush _ _ _ ?st = _ ∧ _ => set (k2 := st) end. cbn [app] in Hs2. set (Q2 := <[HP PIrq p := _]> Q1) in *.
  assert (Htab : ∀ x, x ≠ d → irqtab k2 !! x = irqtab k !! x) by (intros x Hx; cbn; rewrite lookup_insert_ne, T1, lookup_insert_ne by done; done).
  assert (Hw2 : waiting k2 Q2 (HP PIrq p) ds) by (eapply waiting_step; [exact Hw1|exact Hs2|unfold Q2; by rewrite fn_lookup_insert]).
  assert (Hq12 : quiet k1 k2) by done. assert (Hne : ∀ x, x ∈ ds → x ≠ d) by (intros x Hx ->; done).
  destruct (IH fuel k2 Q2 Hw2) as (k' & Q' & Hrun & Hc & HI' & G1 & G2 & G3 & G5 & G7 & G8 & G9).
  - intros x Hx. destruct (Hsv x) as (dx & ?); [by apply list_elem_of_further|]. exists dx. by rewrite Htab by auto.
  - intros x dx Hx. rewrite Htab by auto. apply Htr. by apply list_elem_of_further.
  - apply (fr_plists _ _ (proj2 Hs2)). by apply (fr_plists _ _ (proj2 F1)).
  - cbn. rewrite T7. by rewrite Z.mod_small.
  - by apply (handlers_quiet k1).
  - cbn in Hf. lia.
  - exists k', Q'. split; [exact Hrun|]. split; [|split; [done|split; [done|split_and!]]].
    + unfold entries in *. cbn [omap list_omap]. rewrite Hd. cbn [fmap option_fmap option_map]. apply (calls_app _ [_] _ _ k2); [by eapply calls_end|].
      fold (entries (irqtab k) ds). rewrite <- (entries_frame (irqtab k) (irqtab k2)) by auto. exact Hc.
    + intros q Hq. rewrite G2 by done. unfold Q2. rewrite fn_lookup_insert_ne by congruence. apply F2.
    + rewrite G3. unfold Q2. by rewrite fn_lookup_insert_ne.
    + rewrite G5. cbn. rewrite T7. by apply Z.mod_small.
    + by rewrite G7.
    + intros x [Hx Hxs]%not_elem_of_cons. rewrite G8 by done. by apply Htab.
    + intros x [->|Hx]%elem_of_cons.
      * exists dd. eexists. split; [done|]. rewrite G8 by done. split; [apply lookup_insert_eq|]. split; [apply CLR_BIT_same|]. split; [exact T2|exact T5].
      * destruct (G9 x Hx) as (dx & dx' & Hdx & ?). exists dx, dx'. rewrite <- Htab by auto. done.
Qed.

(** *** MINIX's pending interrupts *)

Lemma unlock_loop_spec ds : ∀ fuel k Q, waiting k Q HMnxQ ds → (∀ d, d ∈ ds → servable known (irqtab k) d) →
  0 ≤ sv_prtylvl (sv k) < 256 → I k → (length ds < fuel)%nat →
  ∃ k' Q', unlock_loop run fuel k = Ok k' () ∧ calls run (entries (irqtab k) ds) k k' ∧ I k' ∧ waiting k' Q' HMnxQ [] ∧
    (∀ p, Q' (HP PIrq p) = Q (HP PIrq p)) ∧ sv_prtylvl (sv k') = sv_prtylvl (sv k) ∧
    TEST_BIT (sv_flags (sv k')) MRT_MINIXCLI = TEST_BIT (sv_flags (sv k)) MRT_MINIXCLI ∧ CPUflags k' F_unlock = CPUflags k F_unlock.
Proof.
  induction ds as [|d ds IH]; intros fuel k Q Hw Hsv Hlvl HI Hf; (destruct fuel as [|fuel]; [cbn in Hf; lia|]); cbn [unlock_loop];
    destruct (waiting_head _ _ _ _ Hw) as (l & Hl & Hfst); rewrite (bind_ok _ _ _ _ _ Hl), Hfst; cbn [head fmap option_fmap option_map].
  { exists k, Q. split; [done|]. split; [by constructor|]. by split_and!. }
  destruct (Hsv d) as (dd & Hd & Hpd & Hkn); [by apply list_elem_of_here|].
  destruct (waiting_this _ _ _ _ _ Hw) as (lk & Hlk & Hth). pose proof (waiting_nodup _ _ _ _ Hw) as [Hni Hnd]%NoDup_cons.
  destruct (list_rmv_q (lm k) Q HMnxQ [] (LIrqd d) (LIrqd <$> ds)) as (m1 & Hrun1 & Hs1 & _); [apply Hw|first [done|apply Hw]..|].
  erewrite bind_ok; [|apply lists_ok; exact Hrun1].
  destruct (proj2 (lframe_is_Some _ _ _ (proj2 Hs1)) (ex_intro _ lk Hlk)) as [lk1 Hlk1].
  pose proof (this_ok_frame _ _ (proj2 Hs1) (wa_this _ _ _ _ Hw)) as Ht1. cbn [app] in Hs1. set (Q1 := <[HMnxQ := _]> Q) in *.
  krun. rewrite (Ht1 _ _ Hlk1). cbn [owner_of as_irqd]. krun.
  match goal with |- ∃ _ _, (MRT_do_handler _ _ ≫= _) ?st = _ ∧ _ => set (k1 := st) end.
  assert (Hw1 : waiting k1 Q1 HMnxQ ds) by (eapply waiting_step; [exact Hw|exact Hs1|unfold Q1; by rewrite fn_lookup_insert]).
  destruct (do_handler_spec k1 Q1 d dd Hd Hpd Hkn) as (k2 & dd2 & Q2 & Hrun2 & HI2 & Hc2 & [F1 F2 F3 F4 F5 F6] & [T1 T2 T3 T4 T5 T6 T7]);
    [by apply (handlers_quiet k)|apply Hw1|].
  rewrite (bind_ok _ _ _ _ _ Hrun2). assert (Hne : ∀ x, x ∈ ds → x ≠ d) by (intros x Hx ->; done).
  assert (Htab : ∀ x, x ≠ d → irqtab k2 !! x = irqtab k !! x) by (intros x Hx; rewrite T1, lookup_insert_ne by done; done).
  destruct (IH fuel k2 Q2) as (k' & Q' & Hrun & Hc & HI' & G1 & G2 & G5 & G6 & G7).
  - eapply waiting_step; [exact Hw1|done|]. rewrite F3. apply Hw1.
  - intros x Hx. destruct (Hsv x) as (dx & ?); [by apply list_elem_of_further|]. exists dx. by rewrite Htab by auto.
  - rewrite T7. cbn. by rewrite Z.mod_small.
  - done.
  - cbn in Hf. lia.
  - exists k', Q'. split; [exact Hrun|]. split; [|split; [done|split; [done|split_and!]]].
    + unfold entries in *. cbn [omap list_omap]. rewrite Hd. cbn [fmap option_fmap option_map]. apply (calls_app _ [_] _ _ k2); [by apply (calls_quiet _ _ k k1)|].
      fold (entries (irqtab k) ds). rewrite <- (entries_frame (irqtab k) (irqtab k2)) by auto. exact Hc.
    + intros p. rewrite G2, F2. unfold Q1. by rewrite fn_lookup_insert_ne.
    + rewrite G5, T7. cbn. by apply Z.mod_small.
    + by rewrite G6, F4.
    + by rewrite G7, F6.
Qed.
End serving.

(** ** Dispatch *)

(** The interrupt controller's two masks keep [irq] out, or let it in. *)
Definition masked (k : kstate) (irq : Z) (b : bool) : Prop :=
  Z.testbit (sv_real_PIC (sv k)) irq = b ∧ Z.testbit (hw_PIC (hw k)) irq = b.

(** An event driven hardware interrupt that is not the clock's, with a descriptor
    of its own that is neither disabled nor already waiting. *)
Record hw_event (k : kstate) (d : Z) (dd : MRT_irqd_t) : Prop := {
  he_tab : irqtab k !! d = Some dd;
  he_num : 0 ≤ d < NR_IRQ_VECTORS ∧ d ≠ CLOCK_IRQ ∧ iq_irq dd = d;
  he_type : TEST_BIT (iq_irqtype dd) MRT_TDIRQ = false ∧ TEST_BIT (iq_irqtype dd) MRT_SOFTIRQ = false;
  he_flags : TEST_BIT (iq_flags dd) MRT_DISABLED = false ∧ TEST_BIT (iq_flags dd) MRT_ENQUEUED = false;
  he_prty : 0 ≤ iq_priority dd < 16;
}.

(** The descriptor of an interrupt that has arrived. *)
Definition arrived (dd dd' : MRT_irqd_t) : Prop :=
  irqd_static dd' = irqd_static dd ∧ iq_flags dd' = iq_flags dd ∧ iq_count dd' = u32 (iq_count dd + 1).

Lemma dispatch_enter run k d dd : hw_event k d dd →
  ∃ k1 dd1, MRT_IRQ_dispatch run d k = (retval ← device_irq run d; (if retval =? MRT_IRQ_ENABLED then MRT_set_irq d else mret ());; mret retval) k1 ∧
    irqtab k1 = <[d := dd1]> (irqtab k) ∧ arrived dd dd1 ∧ still k k1 ∧ sv_prtylvl (sv k1) = sv_prtylvl (sv k) ∧ masked k1 d true ∧
    ∀ i, 0 ≤ i → masked k i true → masked k1 i true.
Proof.
  intros [Hd (Hn & Hclk & Hirq) Ht (Hdis & Henq) _].
  assert (Hm : ∀ x i, 0 ≤ i → i = d ∨ Z.testbit x i = true → Z.testbit (SET_BIT x (Z.shiftl 1 d)) i = true).
  { intros x i Hi [->|Hx]; rewrite SET_BIT_shift by lia; [by rewrite Z.eqb_refl|by rewrite Hx, orb_true_r]. }
  unfold MRT_IRQ_dispatch, MRT_reset_irq, MRT_disable_irq, st_sv, MRT_read_timer2. krun. cbn. rewrite Hdis. krun. destruct (_ && _); krun.
  all: rewrite (proj2 (Z.eqb_neq _ _) Hclk); eexists _, _; (split; [reflexivity|]).
  all: split; [cbn; rewrite ?insert_insert_eq; reflexivity|]; split; [done|]; split; [done|]; split; [done|].
  all: split; [split; cbn; apply Hm; auto; lia|intros i Hi [H1 H2]; split; cbn; apply Hm; auto].
Qed.

(** The time stamp [device_irq] begins with. *)
Lemma device_irq_enter {A} run k d dd (m : Z → K A) : irqtab k !! d = Some dd → TEST_BIT (iq_irqtype dd) MRT_TDIRQ = false →
  ∃ k1 dd1, (device_irq run d ≫= m) k =
      ((if iq_priority dd >? sv_prtylvl (sv k) then MRT_irqd_enQ d;; mret MRT_IRQ_DISABLED
        else if negb (TEST_BIT (iq_irqtype dd) MRT_RTIRQ) && TEST_BIT (sv_flags (sv k)) MRT_MINIXCLI then MRT_irqd_enQ d;; mret MRT_IRQ_DISABLED
        else serve_now run d) ≫= m) k1 ∧
    irqtab k1 = <[d := dd1]> (irqtab k) ∧ irqd_static dd1 = irqd_static dd ∧ iq_flags dd1 = iq_flags dd ∧ iq_count dd1 = iq_count dd ∧ still k k1 ∧ sv k1 = sv k ∧ hw k1 = hw k.
Proof.
  intros Hd Htd. unfold device_irq. krun. cbn. rewrite Htd. krun. cbn. eexists _, _. split; [reflexivity|]. by split_and!.
Qed.

(** A MINIX interrupt under [lock]. *)
Lemma enQ_minix k Q d dd pre : irqtab k !! d = Some dd → TEST_BIT (iq_irqtype dd) MRT_RTIRQ = false → TEST_BIT (iq_flags dd) MRT_DISABLED = false →
  TEST_BIT (iq_flags dd) MRT_ENQUEUED = false → TEST_BIT (sv_flags (sv k)) MRT_MINIXCLI = true → waiting k Q HMnxQ pre → unlinked Q (LIrqd d) →
  is_Some (links (lm k) !! LIrqd d) →
  ∃ k', MRT_irqd_enQ d k = Ok k' () ∧ waiting k' (<[HMnxQ := LIrqd <$> (pre ++ [d])]> Q) HMnxQ (pre ++ [d]) ∧ lframe (lm k) (lm k') ∧ quiet k k' ∧
    irqtab k' = irqtab k ∧ hw k' = hw k ∧ CPUflags k' = CPUflags k ∧ sv_prtylvl (sv k') = sv_prtylvl (sv k) ∧ sv_real_PIC (sv k') = sv_real_PIC (sv k) ∧
    ∀ b, Z.land MRT_NEWINT b = 0 → TEST_BIT (sv_flags (sv k')) b = TEST_BIT (sv_flags (sv k)) b.
Proof.
  intros Hd Hrt Hdis Hen Hcli Hw Hu Hlk.
  unfold MRT_irqd_enQ, sv_set, st_sv. krun. rewrite Hen, Hdis. krun. rewrite Hrt. cbn. rewrite SET_BIT_other, Hcli, orb_true_r by reflexivity. cbn [negb andb].
  destruct (list_app_q (lm k) Q HMnxQ (LIrqd d)) as (m1 & Hrun1 & Hs1 & _); [apply Hw|apply Hw|done|done|done|].
  erewrite lists_ok; [|exact Hrun1]. eexists. split; [reflexivity|]. rewrite (wa_list _ _ _ _ Hw) in Hs1. rewrite fmap_app.
  split; [eapply waiting_step; [exact Hw|exact Hs1|by rewrite fn_lookup_insert, fmap_app]|]. split; [apply Hs1|]. split_and!; try done.
  intros b Hb. cbn. by apply SET_BIT_other.
Qed.

(** The interrupts [ds] arrive one after the other; what the dispatcher returns. *)
Fixpoint arrive (run_handler : Z → Z → K Z) (ds : list Z) : K (list Z) :=
  match ds with
  | [] => mret []
  | d :: ds' => r ← MRT_IRQ_dispatch run_handler d; rs ← arrive run_handler ds'; mret (r :: rs)
  end.

(** A MINIX interrupt arrives under [lock]. *)
Lemma dispatch_locked run k Q d dd pre : hw_event k d dd → TEST_BIT (iq_irqtype dd) MRT_RTIRQ = false → TEST_BIT (sv_flags (sv k)) MRT_MINIXCLI = true →
  waiting k Q HMnxQ pre → unlinked Q (LIrqd d) → is_Some (links (lm k) !! LIrqd d) →
  ∃ k' dd', MRT_IRQ_dispatch run d k = Ok k' MRT_IRQ_DISABLED ∧ waiting k' (<[HMnxQ := LIrqd <$> (pre ++ [d])]> Q) HMnxQ (pre ++ [d]) ∧ lframe (lm k) (lm k') ∧
    quiet k k' ∧ irqtab k' = <[d := dd']> (irqtab k) ∧ arrived dd dd' ∧ hw_IF (hw k') = hw_IF (hw k) ∧ CPUflags k' = CPUflags k ∧
    sv_prtylvl (sv k') = sv_prtylvl (sv k) ∧ (∀ b, Z.land MRT_NEWINT b = 0 → TEST_BIT (sv_flags (sv k')) b = TEST_BIT (sv_flags (sv k)) b) ∧
    masked k' d true ∧ ∀ i, 0 ≤ i → masked k i true → masked k' i true.
Proof.
  intros Hev Hrt Hcli Hw Hu Hlk. destruct (dispatch_enter run k d dd Hev) as (k1 & dd1 & -> & Et1 & (As & Af & Ac) & [Sq Sl Sf Si Sc] & El1 & Hm & Hms).
  destruct Hev as [Hd (Hn & Hclk & Hirq) (Htd & Hso) (Hdis & Henq) Hp].
  assert (Ety : iq_irqtype dd1 = iq_irqtype dd) by (by injection As).
  destruct (device_irq_enter run k1 d dd1 (λ retval, (if retval =? MRT_IRQ_ENABLED then MRT_set_irq d else mret ());; mret retval)) as
    (k2 & dd2 & -> & Et2 & As2 & Af2 & Ac2 & [Sq2 Sl2 Sf2 Si2 Sc2] & Ev2 & Eh2); [rewrite Et1; apply lookup_insert_eq|by rewrite Ety|].
  assert (Hd2 : irqtab k2 !! d = Some dd2) by (rewrite Et2; apply lookup_insert_eq). assert (Ety2 : iq_irqtype dd2 = iq_irqtype dd) by (injection As2; congruence).
  destruct (enQ_minix k2 Q d dd2 pre Hd2) as (k3 & Hrun & Hw3 & Hlf & Hq3 & Et3 & Eh3 & Ec3 & El3 & Ep3 & Ef3);
    [by rewrite Ety2|by rewrite Af2, Af|by rewrite Af2, Af|by rewrite Sf2, Sf| |done|by rewrite Sl2, Sl|].
  { destruct Hw. by constructor; rewrite ?Sl2, ?Sl. }
  assert (Hgo : (MRT_irqd_enQ d;; mret MRT_IRQ_DISABLED) k2 = Ok k3 MRT_IRQ_DISABLED) by (by rewrite (bind_ok _ _ _ _ _ Hrun)).
  exists k3, dd2. split.
  { rewrite Ety, Hrt, Sf, Hcli. cbn [negb andb]. destruct (_ >? _); rewrite (bind_ok _ _ _ _ _ Hgo); reflexivity. }
  assert (Hpic : ∀ i, masked k1 i true → masked k3 i true) by (intros i; unfold masked; by rewrite Ep3, Eh3, Ev2, Eh2).
  split; [done|]. split; [by rewrite <- Sl, <- Sl2|]. split; [by do 2 (etrans; [done|])|]. split; [by rewrite Et3, Et2, Et1, insert_insert_eq|].
  split_and!.
  - unfold arrived. rewrite As2, Af2, Ac2. by rewrite As.
  - congruence.
  - congruence.
  - congruence.
  - intros b Hb. rewrite Ef3 by done. congruence.
  - auto.
  - auto.
Qed.

Lemma hw_event_frame k k' d dd : hw_event k d dd → irqtab k' !! d = irqtab k !! d → hw_event k' d dd.
Proof. intros [] H. constructor; by rewrite ?H. Qed.

Lemma arrive_spec run ds : ∀ pre k Q, waiting k Q HMnxQ pre → TEST_BIT (sv_flags (sv k)) MRT_MINIXCLI = true → NoDup ds →
  (∀ d, d ∈ ds → unlinked Q (LIrqd d) ∧ is_Some (links (lm k) !! LIrqd d) ∧ ∃ dd, hw_event k d dd ∧ TEST_BIT (iq_irqtype dd) MRT_RTIRQ = false) →
  ∃ k' Q', arrive run ds k = Ok k' (replicate (length ds) MRT_IRQ_DISABLED) ∧ waiting k' Q' HMnxQ (pre ++ ds) ∧ (∀ L, L ≠ HMnxQ → Q' L = Q L) ∧
    quiet k k' ∧ hw_IF (hw k') = hw_IF (hw k) ∧ CPUflags k' = CPUflags k ∧ sv_prtylvl (sv k') = sv_prtylvl (sv k) ∧
    (∀ b, Z.land MRT_NEWINT b = 0 → TEST_BIT (sv_flags (sv k')) b = TEST_BIT (sv_flags (sv k)) b) ∧
    (∀ i, 0 ≤ i → masked k i true → masked k' i true) ∧ (∀ d, d ∉ ds → irqtab k' !! d = irqtab k !! d) ∧
    ∀ d, d ∈ ds → masked k' d true ∧ ∃ dd dd', irqtab k !! d = Some dd ∧ irqtab k' !! d = Some dd' ∧ arrived dd dd'.
Proof.
  induction ds as [|d ds IH]; intros pre k Q Hw Hcli Hnd Hds; cbn [arrive].
  { exists k, Q. rewrite app_nil_r. split_and!; try done. by intros d ?%elem_of_nil. }
  apply NoDup_cons in Hnd as [Hni Hnd]. destruct (Hds d) as (Hu & Hlk & dd & Hev & Hrt); [by apply list_elem_of_here|].
  destruct (dispatch_locked run k Q d dd pre Hev Hrt Hcli Hw Hu Hlk) as (k1 & dd1 & Hrun1 & Hw1 & Hlf1 & Hq1 & Et1 & Ha1 & Ei1 & Ec1 & El1 & Ef1 & Hm1 & Hms1).
  rewrite (bind_ok _ _ _ _ _ Hrun1). set (Q1 := <[HMnxQ := _]> Q) in *. assert (Hne : ∀ x, x ∈ ds → x ≠ d) by (intros x Hx ->; done).
  assert (Htab : ∀ x, x ≠ d → irqtab k1 !! x = irqtab k !! x) by (intros x Hx; by rewrite Et1, lookup_insert_ne).
  destruct (IH (pre ++ [d]) k1 Q1 Hw1) as (k' & Q' & Hrun & Hw' & G1 & G2 & G3 & G4 & G5 & G6 & G7 & G8 & G9); [by rewrite Ef1|done| |].
  { intros x Hx. destruct (Hds x) as (Hux & Hlx & dx & Hevx & Hrtx); [by apply list_elem_of_further|].
    split; [|split; [by apply (lframe_is_Some _ _ _ Hlf1)|exists dx; split; [eapply hw_event_frame; [done|auto]|done]]].
    intros L. unfold Q1. destruct (decide (L = HMnxQ)) as [->|HLne]; [|rewrite fn_lookup_insert_ne by done; apply Hux].
    rewrite fn_lookup_insert, fmap_app, elem_of_app. change (LIrqd <$> [d]) with [LIrqd d].
    rewrite list_elem_of_singleton. intros [Hq|[= ->]]; [|by apply Hne in Hx].
    apply (Hux HMnxQ). by rewrite (wa_list _ _ _ _ Hw). }
  rewrite (bind_ok _ _ _ _ _ Hrun). exists k', Q'. rewrite <- app_assoc in Hw'. split; [done|]. split; [exact Hw'|]. split_and!.
  - intros L HL. rewrite G1 by done. unfold Q1. by rewrite fn_lookup_insert_ne.
  - by etrans.
  - congruence.
  - congruence.
  - congruence.
  - intros b Hb. by rewrite G6, Ef1.
  - auto.
  - intros x [Hx Hxs]%not_elem_of_cons. by rewrite G8, Htab.
  - intros x [->|Hx]%elem_of_cons.
    + split; [apply G7; [apply Hev|done]|]. exists dd, dd1. by rewrite G8, Et1, lookup_insert_eq, (he_tab _ _ _ Hev).
    + destruct (G9 x Hx) as (Hmx & dx & dx' & Hdx & Hrest). split; [done|]. exists dx, dx'. by rewrite <- Htab by auto.
Qed.

(** Triggering a real-time descriptor of the hardware or one that is not measured. *)
Lemma enQ_rt k Q d dd ds : irqtab k !! d = Some dd → TEST_BIT (iq_irqtype dd) MRT_RTIRQ = true →
  TEST_BIT (iq_irqtype dd) MRT_SOFTIRQ && TEST_BIT (iq_flags dd) MRT_LATCALC = false → TEST_BIT (iq_flags dd) MRT_ENQUEUED = false →
  TEST_BIT (iq_flags dd) MRT_DISABLED = false → 0 ≤ iq_priority dd < 16 → waiting k Q (HP PIrq (iq_priority dd)) ds → triggered k (iq_priority dd) ds →
  is_Some (plists (lm k) !! PIrq) → unlinked Q (LIrqd d) → is_Some (links (lm k) !! LIrqd d) →
  ∃ k' Q', MRT_irqd_enQ d k = Ok k' () ∧ waiting k' Q' (HP PIrq (iq_priority dd)) (ds ++ [d]) ∧ triggered k' (iq_priority dd) (ds ++ [d]) ∧
    irqtab k' = <[d := dd <| iq_flags ::= λ f, SET_BIT f MRT_ENQUEUED |>]> (irqtab k) ∧ is_Some (plists (lm k') !! PIrq) ∧
    quiet k k' ∧ sv_prtylvl (sv k') = sv_prtylvl (sv k) ∧ sv_real_PIC (sv k') = sv_real_PIC (sv k) ∧ hw k' = hw k.
Proof.
  intros Hd Hrt Hlat Henq Hdis Hp Hw Htr HPl Hu Hlk. unfold MRT_irqd_enQ, sv_set, st_sv. krun. rewrite Henq, Hdis. krun. rewrite Hrt.
  assert (∀ b c, TEST_BIT (iq_irqtype dd) MRT_SOFTIRQ && b && c = TEST_BIT (iq_irqtype dd) MRT_SOFTIRQ && c && b) as -> by (intros; by rewrite <- !andb_assoc, (andb_comm b)).
  rewrite Hlat. cbn [negb andb]. krun.
  destruct (MRT_plist_app_spec (lm k) Q PIrq (LIrqd d) (iq_priority dd)) as (m2 & Hrun2 & Hs2); [apply Hw|done..|].
  erewrite lists_ok; [|exact Hrun2]. eexists _, _. split; [reflexivity|].
  assert (Hni : d ∉ ds) by (intros Hin; apply (Hu (HP PIrq (iq_priority dd))); rewrite (wa_list _ _ _ _ Hw); by apply list_elem_of_fmap_2).
  split; [eapply waiting_step; [exact Hw|exact Hs2|by rewrite fn_lookup_insert, (wa_list _ _ _ _ Hw), fmap_app]|].
  split; [|split; [done|split; [by apply (fr_plists _ _ (proj2 Hs2))|done]]].
  intros x dx [Hin| ->%list_elem_of_singleton]%elem_of_app; cbn.
  - rewrite lookup_insert_ne by (intros ->; done). by apply Htr.
  - rewrite lookup_insert_eq. intros [= <-]. split; [by apply SET_BIT_same|done].
Qed.


(** C22: [MRT_irqd_flush] serves the triggered interrupt descriptors of a
    priority to the end: the handler of each is called exactly once, in the order in
    which they were triggered, at the priority of its descriptor and with
    interrupts enabled, and nothing else but the handlers changes the kernel outside
    the interrupt code; the list is empty afterwards, the other queues of
    interrupts are as before, the descriptors are no longer marked as enqueued, and
    the priority level and the interrupt flag are restored.  The handlers are any
    that keep the contract [Handlers]; the descriptors send no message to a task
    and no task waits for or holds their lock ([plain]). *)
Theorem irqd_flush_serves run known I p ds fuel k Q : Handlers run known I → 0 ≤ p < 16 → waiting k Q (HP PIrq p) ds →
  (∀ d, d ∈ ds → servable known (irqtab k) d) → triggered k p ds →
  is_Some (plists (lm k) !! PIrq) → 0 ≤ sv_prtylvl (sv k) < 256 → I k → (length ds < fuel)%nat →
  ∃ k' Q', MRT_irqd_flush run fuel p k = Ok k' () ∧ calls run (entries (irqtab k) ds) k k' ∧ I k' ∧ waiting k' Q' (HP PIrq p) [] ∧
    (∀ q, q ≠ p → Q' (HP PIrq q) = Q (HP PIrq q)) ∧ Q' HMnxQ = Q HMnxQ ∧ sv_prtylvl (sv k') = sv_prtylvl (sv k) ∧
    hw_IF (hw k') = hw_IF (hw k) ∧ (∀ d, d ∉ ds → irqtab k' !! d = irqtab k !! d) ∧
    ∀ d, d ∈ ds → ∃ dd dd', irqtab k !! d = Some dd ∧ irqtab k' !! d = Some dd' ∧ TEST_BIT (iq_flags dd') MRT_ENQUEUED = false ∧
      irqd_static dd' = irqd_static dd ∧ (TEST_BIT (iq_irqtype dd) MRT_SOFTIRQ = true → iq_count dd' = u32 (iq_count dd + 1)).
Proof. intros Hdrv Hp. by apply (irqd_flush_spec (Hdrv := Hdrv)). Qed.

(** C23: MINIX's virtual interrupt flag in real-time mode: event driven hardware
    interrupts of MINIX drivers that arrive between [lock] and [unlock], each once,
    are only counted, masked and queued by [MRT_IRQ_dispatch], whatever their
    priority, and no handler runs; [unlock] then calls their handlers, each once and
    in the order of arrival.  Neither call changes the interrupt flag of the
    processor, so real-time interrupts go on.  The handlers keep the contract
    [Handlers] and the descriptors are [plain]. *)
Theorem virtual_cli run known I ds fuel k Q : Handlers run known I → TEST_BIT (sv_flags (sv k)) MRT_RTMODE = true → I k → waiting k Q HMnxQ [] → NoDup ds →
  (∀ d, d ∈ ds → unlinked Q (LIrqd d) ∧ is_Some (links (lm k) !! LIrqd d) ∧ servable known (irqtab k) d ∧
     ∃ dd, hw_event k d dd ∧ TEST_BIT (iq_irqtype dd) MRT_RTIRQ = false) →
  0 ≤ sv_prtylvl (sv k) < 256 → (length ds < fuel)%nat →
  ∃ k1 k2 Q2, (lock;; arrive run ds) k = Ok k1 (replicate (length ds) MRT_IRQ_DISABLED) ∧ quiet k k1 ∧ hw_IF (hw k1) = hw_IF (hw k) ∧
    (∀ d, d ∈ ds → masked k1 d true ∧ ∃ dd dd1, irqtab k !! d = Some dd ∧ irqtab k1 !! d = Some dd1 ∧ arrived dd dd1) ∧
    unlock run fuel k1 = Ok k2 () ∧ calls run (entries (irqtab k) ds) k1 k2 ∧ I k2 ∧ waiting k2 Q2 HMnxQ [] ∧
    (∀ p, Q2 (HP PIrq p) = Q (HP PIrq p)) ∧ sv_prtylvl (sv k2) = sv_prtylvl (sv k) ∧
    hw_IF (hw k2) = hw_IF (hw k) ∧ TEST_BIT (sv_flags (sv k2)) MRT_MINIXCLI = false.
Proof.
  intros Hdrv Hrt HI Hw Hnd Hds Hlvl Hf. unfold lock, unlock, saveF_static, restoreF_static, MRT_saveFlock, MRT_lock, MRT_restoreF, sv_set, sv_clr, sv_test, st_sv. krun. cbn.
  rewrite SET_BIT_other, Hrt by reflexivity. cbn [negb]. krun.
  match goal with |- ∃ _ _ _, arrive _ ds ?st = _ ∧ _ => set (k0 := st) end.
  destruct (arrive_spec run ds [] k0 Q) as (k1 & Q1 & Hrun1 & Hw1 & F1 & F2 & F3 & F4 & F5 & F6 & F7 & F8 & F9); [by destruct Hw|cbn; by apply SET_BIT_same|done| |].
  { intros d Hd. destruct (Hds d Hd) as (? & ? & _ & dd & [] & ?). split_and!; try done. by exists dd. }
  assert (Hrt1 : TEST_BIT (sv_flags (sv k1)) MRT_RTMODE = true) by (rewrite F6 by reflexivity; cbn; by rewrite SET_BIT_other).
  exists k1. krun. cbn. rewrite CLR_BIT_other, Hrt1 by reflexivity. cbn [negb]. krun.
  match goal with |- context [(unlock_loop _ _ ≫= _) ?st] => set (k1' := st) end.
  destruct (unlock_loop_spec (Hdrv := Hdrv) ds fuel k1' Q1) as (k2 & Q2 & Hrun2 & Hc2 & HI2 & Hw2 & G2 & G5 & G6 & G7);
    [by destruct Hw1| |cbn; rewrite F5; exact Hlvl|by apply (handlers_quiet k1), (handlers_quiet k)|done|].
  { intros d Hd. destruct (Hds d Hd) as (_ & _ & Hsv & _). destruct (F9 d Hd) as (_ & ddx & dd1 & H1 & H2 & As & Af & _).
    eapply servable_static; [done..|]. intros b _. by rewrite Af. }
  rewrite (bind_ok _ _ _ _ _ Hrun2). krun. eexists _, Q2. split; [exact Hrun1|]. split; [done|]. split; [by rewrite F3|].
  split; [done|]. split; [reflexivity|]. split.
  { apply (calls_quiet _ _ k1 k1'); [done|]. apply (calls_end _ _ _ k2); [|done].
    rewrite <- (entries_static (irqtab k) (irqtab k1') ds); [exact Hc2|]. intros d Hd. destruct (F9 d Hd) as (_ & dd & dd' & H1 & H2 & As & _). eauto. }
  split; [by apply (handlers_quiet k2)|]. split; [by destruct Hw2|]. split_and!.
  - intros p. rewrite G2. by apply F1.
  - cbn. rewrite G5. cbn. by rewrite F5.
  - cbn. rewrite G7. cbn. by rewrite fn_lookup_insert, F3.
  - cbn. rewrite G6. cbn. apply CLR_BIT_same.
Qed.

(** C24: An event driven real-time interrupt that is less urgent than what the
    processor runs, and is not already waiting, is deferred by [MRT_IRQ_dispatch]:
    it is counted, joins the end of the list of its priority and stays masked, and
    no handler runs before the list is flushed, when its handler is called once,
    after those already waiting.  The handlers keep the contract [Handlers] and the
    descriptors are [plain]. *)
Theorem dispatch_defers run known I k Q d dd ds : Handlers run known I → I k → hw_event k d dd → TEST_BIT (iq_irqtype dd) MRT_RTIRQ = true →
  waiting k Q (HP PIrq (iq_priority dd)) ds → triggered k (iq_priority dd) ds → (∀ x, x ∈ ds ++ [d] → servable known (irqtab k) x) →
  is_Some (plists (lm k) !! PIrq) → unlinked Q (LIrqd d) → is_Some (links (lm k) !! LIrqd d) → 0 ≤ sv_prtylvl (sv k) < iq_priority dd →
  ∃ k1 k2, MRT_IRQ_dispatch run d k = Ok k1 MRT_IRQ_DISABLED ∧ quiet k k1 ∧ hw_IF (hw k1) = hw_IF (hw k) ∧ masked k1 d true ∧
    (∃ dd1, irqtab k1 !! d = Some dd1 ∧ iq_count dd1 = u32 (iq_count dd + 1) ∧ TEST_BIT (iq_flags dd1) MRT_ENQUEUED = true) ∧
    MRT_irqd_flush run (S (S (length ds))) (iq_priority dd) k1 = Ok k2 () ∧ calls run (entries (irqtab k) (ds ++ [d])) k1 k2.
Proof.
  intros Hdrv HI Hev Hrt Hw Htr Hsv HPl Hu Hlk Hlt.
  destruct (dispatch_enter run k d dd Hev) as (k1 & dd1 & -> & Et1 & (As & Af & Ac) & [Sq Sl Sf Si Sc] & El1 & Hm & _).
  destruct Hev as [Hd (Hn & Hclk & Hirq) (Htd & Hso) (Hdis & Henq) Hp]. assert (Ety : iq_irqtype dd1 = iq_irqtype dd) by (by injection As).
  destruct (device_irq_enter run k1 d dd1 (λ retval, (if retval =? MRT_IRQ_ENABLED then MRT_set_irq d else mret ());; mret retval)) as
    (k2 & dd2 & -> & Et2 & As2 & Af2 & Ac2 & [Sq2 Sl2 Sf2 Si2 Sc2] & Ev2 & Eh2); [rewrite Et1; apply lookup_insert_eq|by rewrite Ety|].
  rewrite As in As2. rewrite Af in Af2. assert (iq_priority dd1 = iq_priority dd) as -> by (by injection As). rewrite El1, Z.gtb_ltb, (proj2 (Z.ltb_lt _ _) (proj2 Hlt)).
  assert (Hni : d ∉ ds) by (intros Hin; apply (Hu (HP PIrq (iq_priority dd))); rewrite (wa_list _ _ _ _ Hw); by apply list_elem_of_fmap_2).
  rewrite Et1, insert_insert_eq in Et2. assert (Hd2 : irqtab k2 !! d = Some dd2) by (rewrite Et2; apply lookup_insert_eq).
  assert (Hx : ∀ x, x ≠ d → irqtab k2 !! x = irqtab k !! x) by (intros x Hx; by rewrite Et2, lookup_insert_ne).
  assert (Ep2 : iq_priority dd2 = iq_priority dd) by (by injection As2). assert (Ety2 : iq_irqtype dd2 = iq_irqtype dd) by (by injection As2).
  destruct (enQ_rt k2 Q d dd2 ds Hd2) as (k3 & Q3 & Hrun3 & Hw3 & Htr3 & Et3 & HPl3 & Hq3 & Elv3 & Epic & Ehw); rewrite ?Ep2, ?Ety2, ?Af2, ?Hso; try done.
  { destruct Hw. by constructor; rewrite ?Sl2, ?Sl. }
  { intros x dx Hin. rewrite Hx by (intros ->; done). by apply Htr. }
  { by rewrite Sl2, Sl. }
  { by rewrite Sl2, Sl. }
  rewrite Ep2 in *. krun. rewrite (bind_ok _ _ _ _ _ Hrun3). krun. cbn [Z.eqb MRT_IRQ_DISABLED MRT_IRQ_ENABLED]. krun.
  set (dd3 := dd2 <| iq_flags ::= _ |>) in *. assert (Et4 : irqtab k3 = <[d := dd3]> (irqtab k)) by (by rewrite Et3, Et2, insert_insert_eq).
  assert (As3 : irqd_static dd3 = irqd_static dd) by (by rewrite <- As2).
  destruct (irqd_flush_spec (Hdrv := Hdrv) (iq_priority dd) (ds ++ [d]) Hp (S (S (length ds))) k3 Q3 Hw3) as (k4 & Q4 & Hrun4 & Hc4 & _).
  { intros x Hin. destruct (decide (x = d)) as [->|Hxd]; [|unfold servable; rewrite Et4, lookup_insert_ne by done; by apply Hsv].
    eapply servable_static; [by apply Hsv|exact Hd|rewrite Et4; apply lookup_insert_eq|exact As3|]. intros b Hb. unfold dd3. cbn. by rewrite Af2, SET_BIT_other. }
  { done. }
  { done. }
  { rewrite Elv3, Ev2, El1. lia. }
  { by apply (handlers_quiet k2), (handlers_quiet k1), (handlers_quiet k). }
  { rewrite length_app. cbn. lia. }
  exists k3, k4. split; [done|]. split; [do 2 (etrans; [done|]); done|]. split; [congruence|].
  split; [unfold masked; by rewrite Epic, Ehw, Ev2, Eh2|]. split.
  { exists dd3. rewrite Et4, lookup_insert_eq. split; [done|]. split; [cbn; congruence|]. by apply SET_BIT_same. }
  split; [exact Hrun4|]. rewrite <- (entries_static (irqtab k) (irqtab k3) (ds ++ [d])); [exact Hc4|].
  intros x Hin. destruct (Hsv x Hin) as (dx & Hdx & _). destruct (decide (x = d)) as [->|Hxd].
  - exists dd, dd3. by rewrite Et4, lookup_insert_eq.
  - exists dx, dx. by rewrite Et4, lookup_insert_ne.
Qed.

(** C25: An event driven interrupt that is at least as urgent as what the
    processor runs, and that is not a MINIX interrupt under [lock], is served by
    [MRT_IRQ_dispatch] at once: its handler is called once, at the priority of the
    descriptor and with interrupts enabled; the interrupt is counted, the queues of
    interrupts are as before, and the priority level and the interrupt flag are
    restored.  From there on the dispatcher only calls the scheduler, when the
    handler or somebody before has asked for it, and unmasks the interrupt.  The
    handlers keep the contract [Handlers] and the descriptor is [plain]. *)
Theorem dispatch_serves run known I k Q d dd : Handlers run known I → I k → qinv (lm k) Q → hw_event k d dd → servable known (irqtab k) d →
  TEST_BIT (iq_irqtype dd) MRT_RTIRQ = true ∨ TEST_BIT (sv_flags (sv k)) MRT_MINIXCLI = false → iq_priority dd ≤ sv_prtylvl (sv k) < 256 →
  ∃ k1 Q1 dd1, MRT_IRQ_dispatch run d k = (resched;; MRT_set_irq d;; mret MRT_IRQ_ENABLED) k1 ∧ calls run [entry dd] k k1 ∧ I k1 ∧
    iframe k k1 Q Q1 ∧ sv_prtylvl (sv k1) = sv_prtylvl (sv k) ∧
    irqtab k1 = <[d := dd1]> (irqtab k) ∧ irqd_static dd1 = irqd_static dd ∧ iq_count dd1 = u32 (iq_count dd + 1) ∧
    (TEST_BIT (sv_flags (sv k1)) MRT_NEEDSCHED = false →
     ∃ k2, MRT_IRQ_dispatch run d k = Ok k2 MRT_IRQ_ENABLED ∧ still k1 k2 ∧ masked k2 d false).
Proof.
  intros Hdrv HI Hq Hev Hsv Hcli Hle.
  destruct (dispatch_enter run k d dd Hev) as (k1 & dd1 & Hrun1 & Et1 & (As & Af & Ac) & Hs1 & El1 & _ & _).
  destruct Hev as [Hd (Hn & Hclk & Hirq) (Htd & Hso) (Hdis & Henq) Hp]. assert (Ety : iq_irqtype dd1 = iq_irqtype dd) by (by injection As).
  destruct (device_irq_enter run k1 d dd1 (λ retval, (if retval =? MRT_IRQ_ENABLED then MRT_set_irq d else mret ());; mret retval)) as
    (k2 & dd2 & Hrun2 & Et2 & As2 & Af2 & Ac2 & Hs2 & Ev2 & Eh2); [rewrite Et1; apply lookup_insert_eq|by rewrite Ety|].
  rewrite Et1, insert_insert_eq in Et2. rewrite As in As2. rewrite Af in Af2. assert (Hd2 : irqtab k2 !! d = Some dd2) by (rewrite Et2; apply lookup_insert_eq).
  assert (Ety2 : iq_irqtype dd2 = iq_irqtype dd) by (by injection As2). assert (Hs12 : still k k2) by (by etrans).
  destruct (servable_static known (irqtab k) (irqtab k2) d dd dd2 Hsv Hd Hd2 As2) as (dx & Hdx & Hpl & Hkn); [intros b _; by rewrite Af2|].
  rewrite Hd2 in Hdx. injection Hdx as <-.
  destruct (do_handler_spec (Hdrv := Hdrv) k2 Q d dd2 Hd2 Hpl Hkn) as (k3 & dd3 & Q3 & Hrun3 & HI3 & Hc3 & Hf3 & [T1 T2 T3 T4 T5 T6 T7]);
    [eapply handlers_quiet; [apply Hs12|done]|by rewrite (st_lm _ _ Hs12)|].
  assert (Hgo : MRT_IRQ_dispatch run d k = (resched;; MRT_set_irq d;; mret MRT_IRQ_ENABLED) k3).
  { rewrite Hrun1, Hrun2. assert (iq_priority dd1 = iq_priority dd) as -> by (by injection As). rewrite El1, Z.gtb_ltb, (proj2 (Z.ltb_ge _ _)) by lia.
    rewrite Ety, (st_cli _ _ Hs1). assert (negb (TEST_BIT (iq_irqtype dd) MRT_RTIRQ) && TEST_BIT (sv_flags (sv k)) MRT_MINIXCLI = false) as ->.
    { destruct Hcli as [->| ->]; [done|by rewrite andb_false_r]. }
    unfold serve_now. krun. rewrite Af2, Henq. krun. rewrite (proj2 (proj2 Hpl)). krun. rewrite (bind_ok _ _ _ _ _ Hrun3). krun.
    reflexivity. }
  exists k3, Q3, dd3. split; [exact Hgo|]. rewrite <- (static_entry _ _ As2). split; [eapply calls_quiet; [apply Hs12|done]|]. split; [done|].
  split; [by eapply iframe_still_l|]. split; [rewrite T7, Ev2, El1; apply Z.mod_small; lia|]. split; [by rewrite T1, Et2, insert_insert_eq|]. split; [by rewrite T2|].
  split; [rewrite T6; [congruence|by rewrite Ety2]|]. intros Hns. rewrite Hgo. unfold resched, sv_test. krun. rewrite Hns. cbn [negb]. krun.
  unfold MRT_set_irq, MRT_enable_irq, st_sv. krun. eexists. split; [reflexivity|]. split; [done|].
  split; cbn; rewrite CLR_BIT_shift, Z.eqb_refl by lia; done.
Qed.

(** C7: [MRT_irqd_flush] does not return when the first descriptor of the list is
    locked by a task: it marks the handler as waiting, leaves the descriptor where
    it is and looks at it again, for ever.  Whatever the handlers are and however
    many rounds are allowed, the loop is still running. *)
Theorem flush_locked_hangs run fuel : ∀ p d ds k Q dd, waiting k Q (HP PIrq p) (d :: ds) → irqtab k !! d = Some dd →
  TEST_BIT (iq_flags dd) MRT_TASKLOCKED = true → MRT_irqd_flush run fuel p k = NoFuel.
Proof.
  induction fuel as [|fuel IH]; intros p d ds k Q dd Hw Hd Htl; [done|]. cbn [MRT_irqd_flush].
  destruct (waiting_head _ _ _ _ Hw) as (l & Hl & Hfst). rewrite (bind_ok _ _ _ _ _ Hl), Hfst. cbn [head fmap option_fmap option_map].
  destruct (waiting_this _ _ _ _ _ Hw) as (lk & Hlk & Hth). krun. rewrite Hth. cbn [as_irqd]. krun. rewrite Htl. unfold sv_set, st_sv. krun.
  eapply (IH p d ds); [by destruct Hw|apply lookup_insert_eq|]. cbn. by rewrite SET_BIT_other.
Qed.

(** ** Handlers of the kernel's drivers keep the contract *)

Definition f_handler_addr : Z := 4.

(** The floppy driver's handler and that of spurious interrupts at their
    addresses; [inner] are the handlers [interrupt] may come to run itself. *)
Definition drivers (inner : Z → Z → K Z) (fuel : nat) (addr irq : Z) : K Z :=
  if addr =? f_handler_addr then f_handler inner fuel irq
  else if addr =? spurious_irq then spurious_irq_handler irq
  else undef WildPtr.

Definition driver_known (addr irq : Z) : Prop :=
  addr = f_handler_addr ∨ (addr = spurious_irq ∧ 0 ≤ irq < NR_IRQ_VECTORS).

(** The interrupt has come while a process was running, and the tail of MINIX's
    task queue is a process. *)
Record driver_inv (k : kstate) : Prop := {
  di_outer : k_reenter k = 0 ∧ switching k = false;
  di_task : is_Some (procs k !! FLOPPY);
  di_tail h : rdy_head k TASK_Q = Some h → ∃ t, rdy_tail k TASK_Q = Some t ∧ is_Some (procs k !! t);
}.

Lemma floppy_trace_run r s k : ∃ c, floppy_trace r s k = Ok (k <| console := c |>) ().
Proof. unfold floppy_trace, printf. destruct (_ =? _); [by eexists|]. exists (console k). by destruct k. Qed.

(** [interrupt] outside the kernel's own code. *)
Lemma interrupt_run inner fuel k : driver_inv k →
  ∃ k', interrupt inner fuel FLOPPY k = Ok k' () ∧ driver_inv k' ∧ lm k' = lm k ∧ irqtab k' = irqtab k ∧ CPUflags k' = CPUflags k ∧ sv k' = sv k.
Proof.
  intros [[Hre Hsw] [r Hr] Htail]. unfold interrupt. krun. rewrite Hre, Hsw. cbn [Z.eqb negb orb].
  assert (Hin : ∀ (n m : Z) (x : proc) (ps : gmap Z proc), is_Some (ps !! n) → is_Some (<[m := x]> ps !! n)).
  { intros n m x ps Hn. destruct (decide (n = m)) as [->|]; [rewrite lookup_insert_eq|rewrite lookup_insert_ne by done]; eauto. }
  destruct (_ || _).
  { krun. edestruct floppy_trace_run as [c ->]. eexists. split; [reflexivity|]. split; [|done].
    constructor; cbn; [done|apply Hin; eauto|]. intros h Hh. destruct (Htail h Hh) as (t & ? & ?). eauto. }
  unfold hard_int, set_flags. krun. cbn.
  match goal with |- ∃ _, (?m ≫= _) ?st = _ ∧ _ => set (k1 := st); assert (∃ k2, m k1 = Ok k2 () ∧ k_reenter k2 = 0 ∧ switching k2 = false ∧
    is_Some (procs k2 !! FLOPPY) ∧ lm k2 = lm k ∧ irqtab k2 = irqtab k ∧ CPUflags k2 = CPUflags k ∧ sv k2 = sv k) as (k2 & Hrun2 & E1 & E2 & [r2 Hr2] & E3) end.
  { destruct (rdy_head k TASK_Q) as [h|] eqn:Eh.
    - destruct (Htail h eq_refl) as (t & Ht & Hp). unfold k1. krun.
      destruct (Hin t FLOPPY (r <| p_flags ::= λ f, Z.land f (Z.lnot RECEIVING) |> <| p_int_blocked := false |>) _
        (Hin t FLOPPY (r <| p_flags ::= λ f, Z.land f (Z.lnot RECEIVING) |>) _ Hp)) as [rt1 Hrt1].
      erewrite (st_proc_ok _ _ rt1); [|exact Hrt1]. eexists. split; [reflexivity|]. split_and!; try done. cbn. do 3 apply Hin. eauto.
    - krun. eexists. split; [reflexivity|]. split_and!; try done. cbn. do 2 apply Hin. eauto. }
  rewrite (bind_ok _ _ _ _ _ Hrun2). krun. edestruct floppy_trace_run as [c ->]. eexists. split; [reflexivity|]. split; [|done].
  constructor; cbn; [done|apply Hin; eauto|]. intros h Hh. exists FLOPPY. rewrite fn_lookup_insert. split; [done|]. apply Hin. eauto.
Qed.

#[export] Instance drivers_keep inner fuel : Handlers (drivers inner fuel) driver_known driver_inv.
Proof.
  split.
  - intros k k' Hq [[D1 D2] D3 D4]. unfold quiet, outside in Hq. simplify_eq Hq. intros. split; [split; congruence|congruence|].
    intros h Hh. destruct (D4 h) as (t & ? & ?); [congruence|]. exists t. split; congruence.
  - intros addr irq k Q Hk HI Hq. unfold drivers. destruct Hk as [->|[-> Hirq]]; cbn [Z.eqb Pos.eqb f_handler_addr spurious_irq].
    + unfold f_handler, printf. krun. set (k0 := k <| console ::= _ |>). assert (HI0 : driver_inv k0) by (destruct HI; by constructor).
      destruct (interrupt_run inner fuel k0 HI0) as (k1 & Hrun & HI1 & El & Et & Ec & Ev). rewrite (bind_ok _ _ _ _ _ Hrun). krun. eexists _, _, Q.
      split; [reflexivity|]. split; [destruct HI1; by constructor|]. split_and!; try done; cbn; rewrite ?El, ?Ev; try done.
    + unfold spurious_irq_handler, printf. rewrite (proj2 (Z.ltb_ge irq 0)), (proj2 (Z.leb_gt NR_IRQ_VECTORS irq)) by lia. cbn [orb]. krun.
      eexists _, _, Q. split; [reflexivity|]. split; [destruct HI; by constructor|]. by split_and!.
Qed.

(** *** The floppy drive and an interrupt nobody asked for *)

(** Interrupts 6 and 5 of MINIX drivers, both of priority 14; [rt] makes them
    real-time interrupts of priority 6. *)
Definition irq_desc (n : Z) (rt : bool) : MRT_irqd_t :=
  let addr := if n =? 6 then f_handler_addr else spurious_irq in
  mk_irqd 0 0 0 0 0 0 n 1 None 0 0 0 0 addr addr 0 HARDWARE HARDWARE (if rt then 6 else 14) (if rt then MRT_RTIRQ else 0) "irq".

Definition irq_bss (rt : bool) (lvl : Z) : kstate :=
  bss <| sv ::= λ v, v <| sv_flags := MRT_RTMODE |> <| sv_prtylvl := lvl |> |>
      <| irqtab ::= λ t, <[6 := irq_desc 6 rt]> (<[5 := irq_desc 5 rt]> t) |>.

(** No handler runs another one here. *)
Definition no_inner (addr irq : Z) : K Z := undef WildPtr.

Lemma irq_bss_waiting rt lvl L : is_Some (lists (lm bss) !! L) → waiting (irq_bss rt lvl) (λ _, []) L [].
Proof. intros HL. constructor; [apply bss_lm_qinv|apply this_ok_check; vm_compute; done|done|done]. Qed.

Lemma irq_bss_inv rt lvl : driver_inv (irq_bss rt lvl).
Proof. constructor; [done|by eexists|done]. Qed.

Lemma irq_bss_event rt lvl d : d = 6 ∨ d = 5 →
  hw_event (irq_bss rt lvl) d (irq_desc d rt) ∧ servable driver_known (irqtab (irq_bss rt lvl)) d ∧ unlinked (λ _, []) (LIrqd d) ∧
  is_Some (links (lm (irq_bss rt lvl)) !! LIrqd d).
Proof.
  intros Hd. assert (Ht : irqtab (irq_bss rt lvl) !! d = Some (irq_desc d rt)) by (destruct Hd as [->| ->]; reflexivity). split; [|split; [|split]].
  - destruct Hd as [->| ->]; (constructor; [exact Ht|by split_and!| |by split_and!|]); destruct rt; (split; [|]); (done || lia || reflexivity).
  - exists (irq_desc d rt). split; [exact Ht|]. destruct Hd as [->| ->], rt; (split; [by split_and!|]); (by left) || (by right).
  - by intros L ?%elem_of_nil.
  - destruct Hd as [->| ->]; by eexists.
Qed.

Lemma irqd_flush_serves_witness : ∃ k k', MRT_irqd_enQ 6 (irq_bss true 15) = Ok k () ∧ MRT_irqd_flush (drivers no_inner 0) 2 6 k = Ok k' () ∧
  calls (drivers no_inner 0) [(f_handler_addr, 6, 6)] k k' ∧ p_int_blocked <$> procs k' !! FLOPPY = Some true.
Proof.
  destruct (irq_bss_event true 15 6 (or_introl eq_refl)) as (Hev & Hsv & Hu & Hlk).
  destruct (enQ_rt (irq_bss true 15) (λ _, []) 6 (irq_desc 6 true) []) as (k & Q & Hrun & Hw & Htr & Et & HPl & Hq & Elv & _ & _);
    [reflexivity..|cbn; lia|apply irq_bss_waiting; by eexists|by intros d dd ?%elem_of_nil|by eexists|done|done|].
  destruct (irqd_flush_serves (drivers no_inner 0) driver_known driver_inv 6 [6] 2 k Q) as (k' & Q' & Hrun' & Hc & _);
    [apply _|lia|exact Hw| |exact Htr|done|rewrite Elv; cbn; lia|apply (handlers_quiet (Handlers := drivers_keep no_inner 0) (irq_bss true 15)); [done|apply irq_bss_inv]|cbn; lia|].
  { intros d ->%list_elem_of_singleton. rewrite Et.
    eapply servable_static; [exact Hsv|reflexivity|apply lookup_insert_eq|reflexivity|]. intros b Hb. by apply SET_BIT_other. }
  exists k, k'. split; [exact Hrun|]. split; [exact Hrun'|]. split; [rewrite Et in Hc; exact Hc|].
  assert (H : (MRT_irqd_enQ 6;; MRT_irqd_flush (drivers no_inner 0) 2 6) (irq_bss true 15) = Ok k' ()) by (by rewrite (bind_ok _ _ _ _ _ Hrun)).
  change k' with (state_of bss (Ok k' ())). rewrite <- H. vm_compute. reflexivity.
Defined.

Lemma virtual_cli_witness : ∃ k1 k2, (lock;; arrive (drivers no_inner 0) [6; 5]) (irq_bss false 15) = Ok k1 [MRT_IRQ_DISABLED; MRT_IRQ_DISABLED] ∧
  console k1 = [] ∧ unlock (drivers no_inner 0) 3 k1 = Ok k2 () ∧ calls (drivers no_inner 0) [(f_handler_addr, 6, 14); (spurious_irq, 5, 14)] k1 k2 ∧
  console k2 = ["spurious irq 5" +:+ nl; "[f]"; "BLOCKED "; "[F]"].
Proof.
  destruct (virtual_cli (drivers no_inner 0) driver_known driver_inv [6; 5] 3 (irq_bss false 15) (λ _, [])) as (k1 & k2 & Q2 & H1 & H2 & _ & _ & H3 & H4 & _);
    [apply _|reflexivity|apply irq_bss_inv|apply irq_bss_waiting; by eexists|apply (bool_decide_unpack _); reflexivity| |cbn; lia|cbn; lia|].
  { intros d Hd. destruct (irq_bss_event false 15 d) as (Hev & Hsv & Hu & Hlk); [set_solver|]. split_and!; try done. by exists (irq_desc d false). }
  exists k1, k2. split; [exact H1|]. split; [by simplify_eq H2|]. split; [exact H3|]. split; [exact H4|].
  assert (H : (lock;; arrive (drivers no_inner 0) [6; 5];; unlock (drivers no_inner 0) 3) (irq_bss false 15) = Ok k2 ()).
  { rewrite <- bind_assoc. by rewrite (bind_ok _ _ _ _ _ H1). }
  change k2 with (state_of bss (Ok k2 ())). rewrite <- H. vm_compute. reflexivity.
Defined.

Lemma dispatch_defers_witness : ∃ k1 k2, MRT_IRQ_dispatch (drivers no_inner 0) 6 (irq_bss true 3) = Ok k1 MRT_IRQ_DISABLED ∧
  masked k1 6 true ∧ MRT_irqd_flush (drivers no_inner 0) 2 6 k1 = Ok k2 () ∧ calls (drivers no_inner 0) [(f_handler_addr, 6, 6)] k1 k2.
Proof.
  destruct (irq_bss_event true 3 6 (or_introl eq_refl)) as (Hev & Hsv & Hu & Hlk).
  destruct (dispatch_defers (drivers no_inner 0) driver_known driver_inv (irq_bss true 3) (λ _, []) 6 (irq_desc 6 true) [])
    as (k1 & k2 & H1 & _ & _ & H2 & _ & H3 & H4);
    [apply _|apply irq_bss_inv|done|reflexivity|apply irq_bss_waiting; by eexists|by intros d dd ?%elem_of_nil|by intros d ->%list_elem_of_singleton
    |by eexists|done|done|cbn; lia|].
  exists k1, k2. split; [exact H1|]. split; [exact H2|]. split; [exact H3|exact H4].
Defined.

Lemma dispatch_serves_witness : ∃ k1, MRT_IRQ_dispatch (drivers no_inner 0) 6 (irq_bss true 6) = (resched;; MRT_set_irq 6;; mret MRT_IRQ_ENABLED) k1 ∧
  calls (drivers no_inner 0) [(f_handler_addr, 6, 6)] (irq_bss true 6) k1 ∧ sv_prtylvl (sv k1) = 6 ∧
  console (state_of bss (MRT_IRQ_dispatch (drivers no_inner 0) 6 (irq_bss true 6))) = ["[f]"; "BLOCKED "; "[F]"].
Proof.
  destruct (irq_bss_event true 6 6 (or_introl eq_refl)) as (Hev & Hsv & Hu & Hlk).
  destruct (dispatch_serves (drivers no_inner 0) driver_known driver_inv (irq_bss true 6) (λ _, []) 6 (irq_desc 6 true))
    as (k1 & Q1 & dd1 & H1 & H2 & _ & _ & H3 & _); [apply _|apply irq_bss_inv|apply bss_lm_qinv|exact Hev|exact Hsv|by left|cbn; lia|].
  exists k1. split; [exact H1|]. split; [exact H2|]. split; [exact H3|]. vm_compute. reflexivity.
Defined.

(** The floppy descriptor is locked by a task and triggered. *)
Lemma flush_locked_hangs_witness : ∃ k, MRT_irqd_enQ 6 ((irq_bss true 15) <| irqtab ::= <[6 := (irq_desc 6 true) <| iq_flags := MRT_TASKLOCKED |>]> |>) = Ok k () ∧
  ∀ fuel, MRT_irqd_flush (drivers no_inner 0) fuel 6 k = NoFuel.
Proof.
  set (dd := (irq_desc 6 true) <| iq_flags := MRT_TASKLOCKED |>). set (k0 := (irq_bss true 15) <| irqtab ::= <[6 := dd]> |>).
  destruct (enQ_rt k0 (λ _, []) 6 dd []) as (k & Q & Hrun & Hw & Htr & Et & _);
    [apply lookup_insert_eq|reflexivity..|cbn; lia|by destruct (irq_bss_waiting true 15 (HP PIrq 6)); [by eexists|constructor]
    |by intros d ? ?%elem_of_nil|by eexists|by intros L ?%elem_of_nil|by eexists|].
  exists k. split; [exact Hrun|]. intros fuel.
  apply (flush_locked_hangs (drivers no_inner 0) fuel 6 6 [] k Q (dd <| iq_flags ::= λ f, SET_BIT f MRT_ENQUEUED |>)); [exact Hw|rewrite Et; apply lookup_insert_eq|reflexivity].
Defined.
