(* ===== verification/Blocking.v ===== *)
(** * Processes that wait (kernel/mrtproc.c, mrtmsg.c, mrtvt.c, mrtirq.c)

    [MRT_sleep] and [MRT_wakeup], and a receive with a timeout followed through
    four components: the kernel call that blocks the process and arms its timer,
    the clock ticks that let the timer expire, the flush of the expired timers
    and the timer action that unblocks the process. *)

From stdpp Require Import base gmap strings numbers fin_maps functions list.
From S2P Require Import Prelude Lists Kernel Sched VTimer Inherit Sem Semaphore Msg Mailbox Rtproc Irq Dispatch.
Local Open Scope Z_scope.

(** ** Sleeping *)

(** A ready real-time process: its place in the ready list, and its timer at
    rest. *)
Record ready_rt (k : kstate) (Q : lhead → list laddr) (n : Z) (r : proc) (l1 l2 : list laddr) : Prop := {
  rr_rdy : rdy_inv k Q;
  rr_proc : procs k !! n = Some r;
  rr_rt : MRT_is_realtime r = true;
  rr_status : status r = 0;
  rr_prty : 0 ≤ rt_priority (rt r) < 16;
  rr_list : Q (HP PRdy (rt_priority (rt r))) = l1 ++ LProc n :: l2;
  rr_run : may_run r;
  rr_vt : idle_vt k Q r;
}.

(** A status bit of a ready process is clear. *)
Lemma status_clear r b : status r = 0 → Z.land MRT_P_STATUS b = b → Z.land (rt_flags (rt r)) b = 0.
Proof. unfold status. intros H Hb. by rewrite <- Hb, Z.land_assoc, H, Z.land_0_l. Qed.

Lemma clr_set f b : Z.land f b = 0 → CLR_BIT (SET_BIT f b) b = f.
Proof.
  intros H. unfold CLR_BIT, SET_BIT. rewrite Z.land_lor_distr_l, Z.land_lnot_diag, Z.lor_0_r.
  apply Z.bits_inj'. intros n Hn. rewrite Z.land_spec, Z.lnot_spec by done. apply (f_equal (λ z, Z.testbit z n)) in H.
  rewrite Z.land_spec, Z.bits_0 in H. destruct (Z.testbit f n), (Z.testbit b n); done.
Qed.

(** Blocking with flag [b]: the first half of every blocking call. *)
Lemma block_spec k Q n r l1 l2 (r' : proc) : rdy_inv k Q → procs k !! n = Some r' → rt_priority (rt r') = rt_priority (rt r) →
  0 ≤ rt_priority (rt r) < 16 → Q (HP PRdy (rt_priority (rt r))) = l1 ++ LProc n :: l2 →
  ∃ m Q', MRT_unready n k = Ok (k <| lm := m |>) () ∧ qstep (lm k) m Q Q' ∧ rdy_inv (k <| lm := m |>) Q' ∧ unlinked Q' (LProc n) ∧
    Q' (HP PRdy (rt_priority (rt r))) = l1 ++ l2 ∧ ∀ L, L ≠ HP PRdy (rt_priority (rt r)) → Q' L = Q L.
Proof.
  intros Hi Hn Hp Hr HQ. rewrite <- Hp in Hr, HQ |- *. destruct (MRT_rdyQ_rmv_spec k Q n r' l1 l2 Hi Hn Hr HQ) as (m & Hrun & Hs & Hi' & Hu).
  exists m, (<[HP PRdy (rt_priority (rt r')) := l1 ++ l2]> Q). split; [exact Hrun|]. split; [exact Hs|]. split; [exact Hi'|]. split; [exact Hu|].
  split; [by rewrite fn_lookup_insert|]. intros L HL. by rewrite fn_lookup_insert_ne.
Qed.

Lemma rdy_inv_prios k k' Q : rdy_inv k Q → lm k' = lm k → (∀ n r, procs k !! n = Some r → ∃ r', procs k' !! n = Some r' ∧ rt_priority (rt r') = rt_priority (rt r)) →
  rdy_inv k' Q.
Proof.
  intros [H1 H2 H3 H4] El Hp. constructor; rewrite ?El; try done. intros p x Hx. destruct (H4 p x Hx) as (n & r & -> & Hn & Hr).
  destruct (Hp n r Hn) as (r' & ? & ?). exists n, r'. split_and!; try done. congruence.
Qed.

Lemma idle_vt_step k k' Q Q' r r' : idle_vt k Q r → ipcvt r' = ipcvt r → vtimers k' = vtimers k → lframe (lm k) (lm k') →
  (∀ j, unlinked Q (LVt j) → unlinked Q' (LVt j)) → idle_vt k' Q' r'.
Proof.
  intros (j & v & Hj & Hv & Hfl & Hl & Hu) E1 E2 Hlf HQ. exists j, v. rewrite E1, E2. split_and!; try done; [|by apply HQ].
  by apply (lframe_is_Some _ _ _ Hlf).
Qed.

Definition asleep (r : proc) : proc := r <| rt ::= λ a, a <| rt_flags ::= λ f, SET_BIT f MRT_P_SLEEP |> |>.

(** A process that sleeps. *)
Record sleeping (k : kstate) (Q : lhead → list laddr) (n : Z) (r : proc) : Prop := {
  sl_rdy : rdy_inv k Q;
  sl_proc : procs k !! n = Some (asleep r);
  sl_rt : MRT_is_realtime r = true;
  sl_status : status r = 0;
  sl_prty : 0 ≤ rt_priority (rt r) < 16;
  sl_link : is_Some (links (lm k) !! LProc n);
  sl_out : unlinked Q (LProc n);
  sl_run : may_run r;
  sl_vt : idle_vt k Q r;
}.

(** A list of processes that changes does not touch the timers. *)
Lemma timers_unlinked Q Q' L j : (∀ L', L' ≠ L → Q' L' = Q L') → LVt j ∉ Q' L → unlinked Q (LVt j) → unlinked Q' (LVt j).
Proof. intros HQ Hv Hu L'. destruct (decide (L' = L)) as [->|HL]; [apply Hv|rewrite HQ by done; apply Hu]. Qed.

Lemma ready_no_timer k Q p j : rdy_inv k Q → LVt j ∉ Q (HP PRdy p).
Proof. intros Hi Hj. by destruct (ri_proc _ _ Hi _ _ Hj) as (? & ? & ? & _). Qed.

Lemma proc_update_rdy k Q n r r' : rdy_inv k Q → procs k !! n = Some r → rt_priority (rt r') = rt_priority (rt r) →
  rdy_inv (k <| procs ::= <[n := r']> |>) Q.
Proof.
  intros Hi Hn Hp. apply (rdy_inv_prios k); [done|done|]. intros m q Hm. cbn. destruct (decide (m = n)) as [->|Hne].
  - exists r'. rewrite lookup_insert_eq. split; [done|]. congruence.
  - exists q. by rewrite lookup_insert_ne.
Qed.

Lemma rdy_inv_lm k Q m' : rdy_inv k Q → qstep (lm k) m' Q Q → rdy_inv (k <| lm := m' |>) Q.
Proof.
  intros [P1 P2 P3 P4] Hs. constructor; [apply Hs|by apply (fr_plists _ _ (proj2 Hs))|by eapply this_ok_frame; [apply Hs|]|exact P4].
Qed.

Lemma sleep_spec k Q n r l1 l2 : ready_rt k Q n r l1 l2 →
  ∃ k' Q', MRT_sleep n MRT_FOREVER k = Ok k' OK ∧ sleeping k' Q' n r ∧ procs k' = <[n := asleep r]> (procs k) ∧
    Q' (HP PRdy (rt_priority (rt r))) = l1 ++ l2 ∧ ∀ L, L ≠ HP PRdy (rt_priority (rt r)) → Q' L = Q L.
Proof.
  intros [Hrdy Hn Hrt Hst Hp HQ Hrun Hvt]. set (k0 := k <| procs ::= <[n := asleep r]> |>).
  assert (Hrdy0 : rdy_inv k0 Q) by (by eapply proc_update_rdy).
  destruct (block_spec k0 Q n r l1 l2 (asleep r) Hrdy0 (lookup_insert_eq _ _ _) eq_refl Hp HQ) as (m1 & Q1 & Hrun1 & Hs1 & Hrdy1 & Hu1 & EQ1 & EQ1').
  exists (k0 <| lm := m1 |>), Q1. split_and!; try done.
  - unfold MRT_sleep. krun. rewrite Hrt. change (MRT_FOREVER =? MRT_NOWAIT) with false. change (MRT_FOREVER =? MRT_FOREVER) with true. cbn [negb]. krun.
    by rewrite (bind_ok _ _ _ _ _ Hrun1).
  - constructor; try done.
    + apply lookup_insert_eq.
    + apply (lframe_is_Some _ _ _ (proj2 Hs1)), (linv_in_links _ _ (HP PRdy (rt_priority (rt r))) _ (proj1 (ri_q _ _ Hrdy))).
      rewrite HQ. by apply elem_of_app; right; apply list_elem_of_here.
    + eapply (idle_vt_step k); [exact Hvt|done|done|apply Hs1|]. intros j. apply (timers_unlinked _ _ _ _ EQ1'). by apply (ready_no_timer (k0 <| lm := m1 |>)).
Qed.

Lemma asleep_awake r : status r = 0 → (asleep r) <| rt ::= λ a, a <| rt_flags ::= λ f, CLR_BIT f MRT_P_SLEEP |> |> = r.
Proof.
  intros Hst. pose proof (status_clear r MRT_P_SLEEP Hst eq_refl) as Hsl. unfold asleep.
  destruct r as [? ? ? ? ? ? ? ? ? ? ? ? ? ? ? ? ? a ? ? ? ? ? ? ? ? ? ?], a. unfold upd. cbn in *. do 2 f_equal. by apply clr_set.
Qed.

Lemma wakeup_spec k Q n r : sleeping k Q n r →
  ∃ k' Q', MRT_wakeup n k = Ok k' OK ∧ ready_rt k' Q' n r (Q (HP PRdy (rt_priority (rt r)))) [] ∧ procs k' = <[n := r]> (procs k) ∧
    ∀ L, L ≠ HP PRdy (rt_priority (rt r)) → Q' L = Q L.
Proof.
  intros [Hrdy Hn Hrt Hst Hp Hlk Hu Hrun Hvt].
  destruct (stop_idle k Q r) as (j & v & m2 & Hj & Hv & Hfl & Hrun2 & Hs2); [apply Hrdy|apply Hrdy|exact Hvt|].
  set (k2 := k <| vtimers ::= _ |> <| lm := m2 |>) in *. set (k3 := k2 <| procs ::= <[n := r]> |>).
  assert (Hrdy3 : rdy_inv k3 Q) by (eapply (proc_update_rdy k2 Q n (asleep r) r); [by apply (rdy_inv_lm (k <| vtimers ::= _ |>)); [destruct Hrdy|]|exact Hn|done]).
  destruct (MRT_rdyQ_app_spec k3 Q n r Hrdy3) as (m4 & Hrun4 & Hs4 & Hrdy4);
    [apply lookup_insert_eq|done|done|by apply (lframe_is_Some _ _ _ (proj2 Hs2))|done|].
  set (k4 := k3 <| lm := m4 |>) in *. set (Q2 := <[HP PRdy _ := _]> Q) in *.
  assert (EQ2 : ∀ L, L ≠ HP PRdy (rt_priority (rt r)) → Q2 L = Q L) by (intros L HL; unfold Q2; by rewrite fn_lookup_insert_ne).
  exists k4, Q2. split_and!; try done.
  - assert (Hn2 : procs k2 !! n = Some (asleep r)) by exact Hn. unfold MRT_wakeup. krun. change (ipcvt (asleep r)) with (ipcvt r). krun.
    rewrite (bind_ok _ _ _ _ _ Hrun2). krun.
    change (TEST_BIT (rt_flags (rt (asleep r))) MRT_P_SLEEP) with (TEST_BIT (SET_BIT (rt_flags (rt r)) MRT_P_SLEEP) MRT_P_SLEEP).
    rewrite SET_BIT_same by done. cbn [negb]. krun. rewrite (asleep_awake r Hst). unfold MRT_is_rtready.
    change (Z.land (rt_flags (rt r)) MRT_P_STATUS) with (status r). rewrite Hst. cbn [Z.eqb negb]. erewrite bind_ok; [|exact Hrun4]. done.
  - constructor; try done.
    + apply lookup_insert_eq.
    + unfold Q2. by rewrite fn_lookup_insert.
    + destruct Hvt as (j' & v' & Hj' & _ & _ & Hl' & Hu'). assert (j' = j) as -> by congruence.
      exists j, (v <| vt_nextexp := 0 |> <| vt_flags := VT_ALLOC |>). split_and!; [done|cbn; by rewrite lookup_insert_eq|done| |].
      * by apply (lframe_is_Some _ _ _ (proj2 Hs4)), (lframe_is_Some _ _ _ (proj2 Hs2)).
      * eapply timers_unlinked; [exact EQ2|by apply (ready_no_timer k4)|done].
Qed.

Lemma wakeup_refused k Q n r l1 l2 : ready_rt k Q n r l1 l2 → rt_watchdog (rt r) = HARDWARE →
  ∃ k', MRT_wakeup n k = Ok k' E_MRT_UNSLEEP ∧ rdy_inv k' Q ∧ procs k' = procs k.
Proof.
  intros [Hrdy Hn Hrt Hst Hp HQ Hrun Hvt] Hw. pose proof (status_clear r MRT_P_SLEEP Hst eq_refl) as Hsl.
  destruct (stop_idle k Q r) as (j & v & m2 & Hj & Hv & Hfl & Hrun2 & Hs2); [apply Hrdy|apply Hrdy|exact Hvt|].
  set (k1 := k <| vtimers ::= _ |>) in *. exists (k1 <| lm := m2 |>). split; [|split; [by apply rdy_inv_lm; [destruct Hrdy|]|done]].
  unfold MRT_wakeup. krun. rewrite (bind_ok _ _ _ _ _ Hrun2). krun. unfold TEST_BIT. rewrite Hsl. cbn [Z.eqb negb]. rewrite Hw.
  change (HARDWARE =? HARDWARE) with true. cbn [negb]. krun. reflexivity.
Qed.


(** ** Waiting with a timeout *)

Fixpoint ticks (n : nat) : K unit := match n with O => mret () | S n' => MRT_tick;; ticks n' end.

(** What the clock leaves alone. *)
Record tframe (k k' : kstate) : Prop := {
  tf_procs : procs k' = procs k;
  tf_flags : sv_flags (sv k') = sv_flags (sv k);
  tf_vt : vt_core <$> vtimers k' = vt_core <$> vtimers k;
  tf_lm : lframe (lm k) (lm k');
}.
#[export] Instance tframe_preorder : PreOrder tframe.
Proof. split; [by constructor|]. intros k1 k2 k3 [] []. constructor; try congruence. by etrans. Qed.

Lemma vtframe_tframe k k' : vtframe k k' → tframe k k'.
Proof. intros [E V L]. constructor; [by rewrite E|by rewrite E|done|done]. Qed.

Lemma ticked_tframe k k' : vtframe (ticked k) k' → tframe k k'.
Proof. intros H%vtframe_tframe. etrans; [|exact H]. by constructor. Qed.

Lemma tframe_vt k k' i v : tframe k k' → vtimers k !! i = Some v → ∃ v', vtimers k' !! i = Some v' ∧ vt_core v' = vt_core v.
Proof.
  intros [_ _ H _] Hv. apply (f_equal (.!! i)) in H. rewrite !lookup_fmap, Hv in H. destruct (vtimers k' !! i) as [v'|]; [|done].
  apply (inj Some) in H. eauto.
Qed.

Lemma vt_core_eq v v' : vt_core v' = vt_core v → v' = v <| vt_flags := vt_flags v' |> <| vt_nextexp := vt_nextexp v' |>.
Proof. destruct v, v'. unfold vt_core. cbn. intros [=]. subst. reflexivity. Qed.

Lemma exp_cases H : (∃ q, H = HP PExp q) ∨ ∀ q, H ≠ HP PExp q.
Proof. destruct H; try (right; by intros q [=]). match goal with P : phead |- _ => destruct P end; [right; by intros q [=]|left; by eexists|right; by intros q [=]..]. Qed.

(** One timer runs: nothing happens before its time; then it is in the expired
    list of its priority. *)
Lemma ticks_before k Q i u m : vt_good k Q [(i, u)] → Z.of_nat m < u →
  ∃ k' Q', ticks m k = Ok k' () ∧ vt_good k' Q' [(i, u - Z.of_nat m)] ∧ tframe k k' ∧ (∀ H, H ≠ HActQ → Q' H = Q H).
Proof.
  revert k Q u. induction m as [|m IH]; intros k Q u Hg Hm.
  { exists k, Q. replace (u - Z.of_nat 0) with u by lia. split; [done|]. split; [exact Hg|]. done. }
  cbn [ticks]. destruct (MRT_tick_spec k Q [(i, u)] Hg) as (k1 & Q1 & Hrun1 & [Hg1 Hf1 He1 Ho1]). rewrite (bind_ok _ _ _ _ _ Hrun1).
  assert (Hrest : rest [(i, u)] = [(i, u - 1)]) by (unfold rest; change (decr [(i, u)]) with [(i, u - 1)]; rewrite filter_cons_True by (cbn; lia); done).
  assert (Hdue : due [(i, u)] = []) by (unfold due; change (decr [(i, u)]) with [(i, u - 1)]; rewrite filter_cons_False by (cbn; lia); done).
  rewrite Hrest in Hg1. destruct (IH k1 Q1 (u - 1) Hg1 ltac:(lia)) as (k' & Q' & Hrun & Hg' & Hf & HQ).
  exists k', Q'. split; [exact Hrun|]. replace (u - Z.of_nat (S m)) with (u - 1 - Z.of_nat m) by lia. split; [exact Hg'|].
  split; [etrans; [by apply ticked_tframe|done]|]. intros H HH. rewrite HQ by done. destruct (exp_cases H) as [[q ->]|Hne]; [|by apply Ho1].
  rewrite He1, Hdue. apply app_nil_r.
Qed.

Lemma ticks_fire k Q i u v : vt_good k Q [(i, u)] → vtimers k !! i = Some v → 1 ≤ u →
  ∃ k' Q', ticks (Z.to_nat u) k = Ok k' () ∧ vt_good k' Q' [] ∧ tframe k k' ∧
    Q' (HP PExp (vt_priority v)) = Q (HP PExp (vt_priority v)) ++ [LVt i] ∧
    (∀ H, H ≠ HActQ → H ≠ HP PExp (vt_priority v) → Q' H = Q H).
Proof.
  intros Hg Hv Hu. assert (Hsplit : ∀ m k0, ticks (S m) k0 = (ticks m;; MRT_tick) k0).
  { induction m as [|m IH]; intros k0; [cbn [ticks]; unfold mbind, M_bind; cbn; by destruct (MRT_tick k0) as [? []| | |]|].
    change (ticks (S (S m)) k0) with ((MRT_tick;; ticks (S m)) k0). cbn [ticks]. rewrite bind_assoc.
    unfold mbind at 1, M_bind. destruct (MRT_tick k0) as [k1 []| | |] eqn:E; try (unfold mbind, M_bind; by rewrite E).
    rewrite (bind_ok _ _ _ _ _ E). apply IH. }
  destruct (ticks_before k Q i u (Z.to_nat (u - 1)) Hg ltac:(lia)) as (k1 & Q1 & Hrun1 & Hg1 & Hf1 & HQ1).
  replace (Z.to_nat u) with (S (Z.to_nat (u - 1))) by lia. rewrite Hsplit, (bind_ok _ _ _ _ _ Hrun1).
  replace (u - Z.of_nat (Z.to_nat (u - 1))) with 1 in Hg1 by lia.
  destruct (MRT_tick_spec k1 Q1 [(i, 1)] Hg1) as (k2 & Q2 & Hrun2 & [Hg2 Hf2 He2 Ho2]).
  destruct (tframe_vt _ _ _ _ Hf1 Hv) as (v1 & Hv1 & Ev1). assert (Ep : vt_priority v1 = vt_priority v) by (by apply (f_equal vt_priority) in Ev1).
  assert (Hexp : ∀ p, expired_at (vtimers k1) p (due [(i, 1)]) = if decide (p = vt_priority v) then [LVt i] else []).
  { intros p. unfold due. change (decr [(i, 1)]) with [(i, 0)]. rewrite filter_cons_True, filter_nil by done. unfold expired_at.
    rewrite filter_cons, filter_nil. change (prio_of (vtimers k1) (i, 0).1) with (prio_of (vtimers k1) i). unfold prio_of. rewrite Hv1. cbn [from_option]. rewrite Ep. destruct (decide (vt_priority v = p)), (decide (p = vt_priority v)); congruence || done. }
  exists k2, Q2. split; [exact Hrun2|]. split; [exact Hg2|]. split; [etrans; [done|by apply ticked_tframe]|]. split.
  - rewrite He2, HQ1, Hexp, decide_True by done. done.
  - intros H HH HP'. rewrite <- HQ1 by done. destruct (exp_cases H) as [[q ->]|Hne]; [|by apply Ho2].
    rewrite He2, Hexp, decide_False by congruence. apply app_nil_r.
Qed.

Lemma act_Q_other Q L H : H ≠ HActQ → act_Q Q L H = Q H.
Proof. intros. unfold act_Q. by rewrite fn_lookup_insert_ne. Qed.

(** Arming an idle timer when no other one runs. *)
Lemma vtset_good k Q i v t act par pty : vt_good k Q [] → vtimers k !! i = Some v → 1 ≤ t < 2 ^ 31 → 0 ≤ pty < 16 →
  is_Some (links (lm k) !! LVt i) → unlinked Q (LVt i) →
  ∃ k' v', VTSET (Some i) t 1 act par pty k = Ok k' () ∧ vt_good k' (act_Q Q [(i, t)]) [(i, t)] ∧
    qstep (lm k) (lm k') Q (act_Q Q [(i, t)]) ∧ procs k' = procs k ∧ proc_ptr k' = proc_ptr k ∧ sv k' = sv k ∧
    vtimers k' !! i = Some v' ∧ (vt_action v', vt_limit v', vt_owner v', vt_expired v', vt_priority v') = (act, 1, vt_owner v, vt_expired v, pty).
Proof.
  intros [[H1 H2 H3 H4 H5 H6] _ Hpr Hmode] Hv Ht Hp Hl Hu. unfold VTSET. krun. assert (u32 t = t) as -> by (apply u32_small; unfold small; lia).
  set (v0 := v <| vt_period := t |> <| vt_limit := 1 |> <| vt_action := act |> <| vt_param := par |> <| vt_priority := pty |>).
  set (k0 := k <| vtimers ::= <[i := v0]> |>).
  assert (Hi0 : vt_inv k0 Q []).
  { constructor; try done.
    - intros j. cbn. rewrite lookup_insert_is_Some'. intros [<-|Hj]; [apply H5; by exists v|by apply H5].
    - destruct H6 as [A1 A2 A3 A4 A5]. by constructor. }
  destruct (MRT_vtimer_ins_spec k0 Q [] i v0 Hi0) as (k1 & Hrun & Hinv & Hf & Hs); [apply lookup_insert_eq|unfold small; cbn; lia|done|done|].
  change (vt_insert i (vt_period v0) []) with [(i, t)] in *.
  assert (Hv0 : vtimers k0 !! i = Some v0) by apply lookup_insert_eq.
  destruct (tframe_vt k0 k1 i v0 (vtframe_tframe _ _ Hf) Hv0) as (v' & Hv' & Ev').
  exists k1, v'. split; [exact Hrun|]. pose proof (vf_eq _ _ Hf) as Eq. split_and!; try done; try (by rewrite Eq).
  - constructor; [done|by constructor; [cbn; lia|]| |by rewrite Eq].
    eapply vtframe_good_prio; [exact Hf|]. intros j w. cbn. rewrite lookup_insert_Some. intros [[<- <-]|[_ ?]]; [done|by apply (Hpr j)].
  - apply (f_equal (λ v, (vt_action v, vt_limit v, vt_owner v, vt_expired v, vt_priority v))) in Ev'. exact Ev'.
Qed.

Lemma status_cleared f b : Z.land f MRT_P_STATUS = b → Z.land (CLR_BIT f b) MRT_P_STATUS = 0.
Proof.
  intros H. unfold CLR_BIT. by rewrite <- Z.land_assoc, (Z.land_comm (Z.lnot b)), Z.land_assoc, H, Z.land_lnot_diag.
Qed.

(** The process after its receive has timed out. *)
Definition rcv_timed_out (r : proc) : proc :=
  r <| rt ::= λ a, a <| rt_flags ::= λ f, CLR_BIT f MRT_MBX_RCV |> |> <| pfrom := None |> <| p_retreg := E_MRT_TIMEOUT |>.

(** The expired timer [i] of the receive that process [n] waits in. *)
Record rcv_expired (k : kstate) (Q : lhead → list laddr) (i n : Z) (r : proc) : Prop := {
  rx_rdy : rdy_inv k Q;
  rx_exp : is_Some (plists (lm k) !! PExp);
  rx_list : Q (HP PExp (rt_priority (rt r))) = [LVt i];
  rx_vt : ∃ v, vtimers k !! i = Some v ∧ 0 ≤ vt_expired v < 2 ^ 31 ∧
    (vt_action v, vt_limit v, vt_owner v, vt_priority v) = (MRT_ACT_RCVFR, 1, n, rt_priority (rt r));
  rx_proc : procs k !! n = Some r;
  rx_status : status r = MRT_MBX_RCV;
  rx_prty : 0 ≤ rt_priority (rt r) < 16;
  rx_link : is_Some (links (lm k) !! LProc n);
  rx_out : unlinked Q (LProc n);
  rx_run : may_run r;
}.

Lemma flush_rcvfr k Q i n r : rcv_expired k Q i n r → let p := rt_priority (rt r) in
  ∃ k' Q', MRT_vtimer_flush 2 p k = Ok k' () ∧ rdy_inv k' Q' ∧ Q' (HP PRdy p) = Q (HP PRdy p) ++ [LProc n] ∧ Q' (HP PExp p) = [] ∧
    (∀ L, L ≠ HP PRdy p → L ≠ HP PExp p → Q' L = Q L) ∧ procs k' = <[n := rcv_timed_out r]> (procs k) ∧
    TEST_BIT (sv_flags (sv k')) MRT_NEEDSCHED = true.
Proof.
  intros [Hrdy Hexp HL (v & Hv & Hex & [= Ea Elim Eo Ep]) Hn Hst Hpr Hlk Hu Hrun] p. fold p in HL, Ep.
  destruct Hexp as [h Hh]. destruct (proj2 (po_dom _ _ _ _ (proj2 (ri_q _ _ Hrdy) _ _ Hh) p)) as [l Hl]; [done|].
  destruct (li_list _ _ (proj1 (ri_q _ _ Hrdy)) _ _ Hl) as (_ & _ & Hf & _). rewrite HL in Hf.
  destruct (linv_in_links (lm k) Q (HP PExp p) (LVt i) (proj1 (ri_q _ _ Hrdy))) as [lk Hlki]; [rewrite HL; by apply list_elem_of_here|].
  cbn [MRT_vtimer_flush]. krun. rewrite Hf. cbn [hd_or]. krun. rewrite (ri_this _ _ Hrdy _ _ Hlki). cbn [owner_of as_vt]. krun.
  unfold MRT_vtimer_run. krun. set (v1 := v <| vt_timestamp := _ |>).
  assert (E1 : vt_action v1 = MRT_ACT_RCVFR ∧ vt_limit v1 = 1 ∧ vt_owner v1 = n ∧ vt_priority v1 = p ∧ vt_expired v1 = vt_expired v) by done.
  destruct E1 as (Ea1 & El1 & Eo1 & Ep1 & Ee1). rewrite Ea1. change ((MRT_ACT_RCVFR <? 0) || (MRT_NBRVTACT <=? MRT_ACT_RCVFR)) with false. krun.
  change (MRT_vtaction MRT_ACT_RCVFR i) with (MRT_act_rcvfr i). unfold MRT_act_rcvfr, clr_rt_flag, timed_out, sv_set, st_sv. krun. rewrite Eo1. krun.
  set (r1 := r <| rt ::= _ |> <| pfrom := None |>).
  assert (Hr1 : MRT_is_rtready r1 = true) by (apply Z.eqb_eq; by apply (status_cleared (rt_flags (rt r)))). rewrite Hr1. cbv iota. rewrite bind_assoc.
  match goal with |- context [(_ ≫= _) ?st] => set (k1 := st) end.
  assert (Hrdy1 : rdy_inv k1 Q).
  { apply (rdy_inv_prios k); [done|done|]. intros m q Hm. cbn. destruct (decide (m = n)) as [->|Hne].
    - exists r1. rewrite lookup_insert_eq. split; [done|]. rewrite Hn in Hm. by injection Hm as <-.
    - exists q. by rewrite !lookup_insert_ne. }
  assert (Hn1 : procs k1 !! n = Some r1) by apply lookup_insert_eq.
  destruct (MRT_rdyQ_app_spec k1 Q n r1 Hrdy1 Hn1) as (m2 & Hrun2 & Hs2 & Hrdy2); [done..|]. change (rt_priority (rt r1)) with p in *.
  erewrite bind_ok; [|exact Hrun2]. krun. change (CONTINUE =? CONTINUE) with true. cbv iota. krun. rewrite Ep1.
  set (Q2 := <[HP PRdy p := _]> Q) in *. change (lm k1) with (lm k) in Hs2.
  destruct (MRT_plist_rmv_spec m2 Q2 PExp (LVt i) p [] []) as (m3 & Hrun3 & Hs3);
    [apply Hs2|apply (fr_plists _ _ (proj2 Hs2)); by exists h|done|unfold Q2; rewrite fn_lookup_insert_ne by done; exact HL|].
  erewrite bind_ok; [|apply lists_ok; exact Hrun3]. krun. set (v2 := v1 <| vt_expired ::= _ |>). assert (Ex2 : vt_expired v2 = vt_expired v + 1) by (cbn; apply Z.mod_small; lia).
  assert (El2 : vt_limit v2 = 1) by done. rewrite Ex2, El2, (proj2 (Z.ltb_ge _ _)) by lia. cbn [orb Z.eqb]. krun.
  set (Q3 := <[HP PExp p := _]> Q2) in *.
  assert (is_Some (lists m3 !! HP PExp p)) as [l3 Hl3] by (apply Hs3, Hs2; by eexists).
  destruct (li_list _ _ (proj1 (proj1 Hs3)) _ _ Hl3) as (_ & _ & Hf3 & _). assert (HQ3 : Q3 (HP PExp p) = []) by (unfold Q3; by rewrite fn_lookup_insert).
  rewrite HQ3 in Hf3. krun. rewrite Hf3. eexists _, Q3. split; [reflexivity|]. split_and!.
  - destruct Hrdy2 as [P1 P2 P3 P4]. constructor.
    + apply Hs3.
    + by apply (fr_plists _ _ (proj2 Hs3)).
    + by eapply this_ok_frame; [apply Hs3|].
    + intros q x. unfold Q3. rewrite fn_lookup_insert_ne by done. intros Hx. destruct (P4 q x Hx) as (m & w & -> & Hm & Hw).
      cbn in Hm |- *. destruct (decide (m = n)) as [->|Hne].
      * rewrite lookup_insert_eq in Hm. injection Hm as <-. eexists n, _. split; [done|]. rewrite lookup_insert_eq. split; [done|]. exact Hw.
      * rewrite !lookup_insert_ne in Hm by done. exists m, w. rewrite !lookup_insert_ne by done. done.
  - unfold Q3, Q2. rewrite fn_lookup_insert_ne, fn_lookup_insert by done. done.
  - exact HQ3.
  - intros L HL1 HL2. unfold Q3, Q2. by rewrite !fn_lookup_insert_ne.
  - cbn. by rewrite !insert_insert_eq.
  - cbn. by apply SET_BIT_same.
Qed.

(** The process while it waits. *)
Definition rcv_waiting (ipc : mrt_ipc_t) (n : Z) (r : proc) : proc :=
  r <| rt ::= λ a, a <| rt_flags ::= λ f, SET_BIT f MRT_MBX_RCV |> |> <| pfrom := Some n |> <| pmsg := ipc_msg ipc |> <| pmhdr := ipc_hdr ipc |>.

Lemma status_waiting r b : status r = 0 → Z.land b MRT_P_STATUS = b → Z.land (SET_BIT (rt_flags (rt r)) b) MRT_P_STATUS = b.
Proof. unfold status, SET_BIT. intros H Hb. by rewrite Z.land_lor_distr_l, H, Hb. Qed.

(** A process that calls [rtk_receive] with a timeout when no message waits. *)
Record rcv_call (k : kstate) (Q : lhead → list laddr) (n : Z) (r : proc) (l1 l2 : list laddr) (i : Z) (ipc : mrt_ipc_t) : Prop := {
  rc_ready : ready_rt k Q n r l1 l2;
  rc_cur : proc_ptr k = n;
  rc_good : vt_good k Q [];
  rc_vt : ipcvt r = Some i;
  rc_owner : ∃ v, vtimers k !! i = Some v ∧ vt_owner v = n ∧ 0 ≤ vt_expired v < 2 ^ 31;
  rc_ipc : ipc_p_nr ipc = MRT_ANYPROC;
  rc_time : 1 ≤ ipc_timeout ipc < 2 ^ 31;
  rc_empty : MRT_mqe_pick (pmq r) MRT_ANYPROC k = Ok k None;
  rc_mq : ∃ q mq, pmq r = Some q ∧ msgQs k !! q = Some mq;
  rc_exp : Q (HP PExp (rt_priority (rt r))) = [];
}.

(** The call blocks the process and starts its timer. *)
Lemma receive_blocks k Q n r l1 l2 i ipc : rcv_call k Q n r l1 l2 i ipc → let p := rt_priority (rt r) in
  ∃ k1 Q1, rtk_receive ipc k = Ok k1 OK ∧ procs k1 = <[n := rcv_waiting ipc n r]> (procs k) ∧ rdy_inv k1 Q1 ∧ vt_good k1 Q1 [(i, ipc_timeout ipc)] ∧
    unlinked Q1 (LProc n) ∧ is_Some (links (lm k1) !! LProc n) ∧ Q1 (HP PRdy p) = l1 ++ l2 ∧ Q1 (HP PExp p) = [] ∧
    ∃ v, vtimers k1 !! i = Some v ∧ 0 ≤ vt_expired v < 2 ^ 31 ∧ (vt_action v, vt_limit v, vt_owner v, vt_priority v) = (MRT_ACT_RCVFR, 1, n, p).
Proof.
  intros [[Hrdy Hn Hrt Hst Hp HQ Hrun (i' & v' & Hi' & Hv' & Hfl & Hlk & Hu)] Hcur Hg Hvt (v & Hv & Hown & Hex) Hany Ht Hpick (q & mq & Hq & Hmq) HQe] p.
  fold p in HQ, HQe. assert (i' = i) as -> by congruence. clear Hi'. unfold rtk_receive, check_source. rewrite Hany, Z.eqb_refl. krun. cbn [Z.eqb OK negb].
  krun. rewrite Hcur. krun. rewrite (bind_ok _ _ _ _ _ Hpick). unfold block_rcv. rewrite (proj2 (Z.eqb_neq (ipc_timeout ipc) MRT_NOWAIT)) by (unfold MRT_NOWAIT; lia).
  rewrite (proj2 (Z.eqb_neq (ipc_timeout ipc) (u32 MRT_FOREVER))) by (change (u32 MRT_FOREVER) with (2 ^ 32 - 1); lia). cbn [negb]. krun. rewrite Hcur. krun. rewrite Hvt.
  destruct (vtset_good k Q i v (ipc_timeout ipc) MRT_ACT_RCVFR (q_index mq) p Hg Hv Ht Hp Hlk Hu)
    as (k1 & w & Hrun1 & Hg1 & Hs1 & Ep1 & Ec1 & Es1 & Hw & [= Wa Wl Wo We Wp]).
  rewrite (bind_ok _ _ _ _ _ Hrun1). assert (Hn1 : procs k1 !! n = Some r) by (by rewrite Ep1). krun. rewrite Hany, Z.eqb_refl.
  set (r2 := rcv_waiting ipc n r). match goal with |- context [(MRT_unready n ≫= _) ?st] => set (k2 := st) end.
  assert (Ep2 : procs k2 = <[n := r2]> (procs k)) by (cbn; by rewrite Ep1, !insert_insert_eq).
  assert (HQ1 : ∀ L, L ≠ HActQ → act_Q Q [(i, ipc_timeout ipc)] L = Q L) by (intros L HL; by apply act_Q_other).
  set (Q1 := act_Q Q _) in *.
  assert (Hrdy2 : rdy_inv k2 Q1).
  { destruct Hrdy as [P1 P2 P3 P4]. constructor; [apply Hs1|by apply (fr_plists _ _ (proj2 Hs1))|by eapply this_ok_frame; [apply Hs1|]|].
    intros q0 x. rewrite HQ1 by done. intros Hx. destruct (P4 q0 x Hx) as (m & y & -> & Hm & Hy). rewrite Ep2. destruct (decide (m = n)) as [->|Hne].
    - exists n, r2. rewrite lookup_insert_eq. split_and!; try done. rewrite Hn in Hm. injection Hm as <-. exact Hy.
    - exists m, y. by rewrite lookup_insert_ne. }
  destruct (block_spec k2 Q1 n r l1 l2 r2 Hrdy2) as (m3 & Q3 & Hrun3 & Hs3 & Hrdy3 & Hu3 & EQ3 & EQ3');
    [rewrite Ep2; apply lookup_insert_eq|done|done|by rewrite HQ1|].
  rewrite (bind_ok _ _ _ _ _ Hrun3). krun. exists (k2 <| lm := m3 |>), Q3. split; [done|]. split; [exact Ep2|]. split; [exact Hrdy3|]. split_and!; try done.
  - destruct Hg1 as [Hi1 H2 H3 H4]. constructor; [|done|exact H3|exact H4].
    assert (Hi2 : vt_inv k2 Q1 [(i, ipc_timeout ipc)]) by (destruct Hi1 as [? ? ? ? ? []]; by constructor).
    apply (vt_inv_other k2 m3 Q1 Q3); [exact Hi2|exact Hs3|]. by apply EQ3'.
  - apply (lframe_is_Some _ _ _ (proj2 Hs3)), (lframe_is_Some _ _ _ (proj2 Hs1)), (linv_in_links _ _ (HP PRdy p) _ (proj1 (ri_q _ _ Hrdy))).
    rewrite HQ. by apply elem_of_app; right; apply list_elem_of_here.
  - rewrite EQ3', HQ1 by done. exact HQe.
  - exists w. rewrite Wa, Wl, Wo, We, Wp, Hown. split; [exact Hw|]. done.
Qed.


Lemma pick_empty k q src h : plists (lm k) !! PMq q = Some h → p_inQ h = 0 → MRT_mqe_pick (Some q) src k = Ok k None.
Proof.
  intros Hh H0. unfold MRT_mqe_pick. rewrite (bind_ok _ _ k k q) by done.
  rewrite (bind_ok _ _ k k h) by (rewrite (lists_ok k _ _ _ (ld_plist_ok _ _ _ Hh)); by destruct k). by rewrite H0.
Qed.

(** *** Process 3 *)

(** Process 3 of priority 5 runs, has queue 0 and timer 3. *)
Definition wait_bss : kstate :=
  bss <| procs ::= <[3 := (rt_proc 3 5) <| ipcvt := Some 3 |> <| pmq := Some 0 |> <| rt ::= λ a, a <| rt_watchdog := HARDWARE |> |>]> |>
      <| vtimers ::= <[3 := mk_vtimer 0 0 0 0 MRT_PRILOWEST 3 3 VT_ALLOC 0 0 0]> |>
      <| proc_ptr := 3 |>.

Lemma vt_bss_table i v : vtimers bss !! i = Some v → 0 ≤ i < NR_VTIMERS ∧ v = mk_vtimer 0 0 0 0 MRT_PRILOWEST i HARDWARE 0 0 0 0.
Proof. intros (j & [= -> ->] & Hj%elem_of_seqZ)%elem_of_list_to_map_2%list_elem_of_fmap. split; [lia|done]. Qed.

Lemma wait_ready : ∃ k Q r, MRT_ready 3 wait_bss = Ok k () ∧ ready_rt k Q 3 r [] [] ∧ rt_watchdog (rt r) = HARDWARE ∧ rt_priority (rt r) = 5 ∧
  rcv_call k Q 3 r [] [] 3 (mk_ipc MRT_ANYPROC 0 64 0 128 7 0).
Proof.
  assert (H0 : rdy_inv wait_bss (λ _, [])).
  { destruct bss_sched_inv as [[] _ _ _]. constructor; try done. by intros p x Hx%elem_of_nil. }
  destruct (MRT_rdyQ_app_spec wait_bss (λ _, []) 3 _ H0 eq_refl) as (m & Hrun & Hs & Hi); [reflexivity|cbn; lia|by eexists|by intros ? Hx%elem_of_nil|].
  set (k := wait_bss <| lm := m |>) in *. cbn in Hs, Hi. set (Q := <[HP PRdy 5 := [LProc 3]]> (λ _, [])) in *.
  assert (Ev : vtimers k = <[3 := mk_vtimer 0 0 0 0 MRT_PRILOWEST 3 3 VT_ALLOC 0 0 0]> (vtimers bss)) by reflexivity.
  assert (Hu : ∀ j, unlinked Q (LVt j)).
  { intros j L. unfold Q. destruct (decide (L = HP PRdy 5)) as [->|HL]; [|rewrite fn_lookup_insert_ne by done; apply not_elem_of_nil].
    rewrite fn_lookup_insert. by intros ?%list_elem_of_singleton. }
  assert (Hlk : is_Some (links (lm k) !! LVt 3)) by (apply (lframe_is_Some _ _ _ (proj2 Hs)); by eexists).
  assert (Hr : ready_rt k Q 3 ((rt_proc 3 5) <| ipcvt := Some 3 |> <| pmq := Some 0 |> <| rt ::= λ a, a <| rt_watchdog := HARDWARE |> |>) [] []).
  { constructor; [exact Hi|reflexivity|reflexivity|reflexivity|cbn; lia|unfold Q; by rewrite fn_lookup_insert|reflexivity|].
    exists 3. eexists. split; [reflexivity|]. split; [reflexivity|]. split; [reflexivity|]. split; [exact Hlk|apply Hu]. }
  eexists k, Q, _. split; [exact Hrun|]. split; [exact Hr|]. split; [reflexivity|]. split; [reflexivity|].
  constructor; [exact Hr|reflexivity| |reflexivity| |reflexivity|cbn; lia| |exists 0; eexists; split; reflexivity|unfold Q; by rewrite fn_lookup_insert_ne].
  - destruct Hi as [I1 I2 I3 I4]. constructor; [|constructor| |reflexivity].
    + constructor; [exact I1|exact I3|apply Hs; by eexists|apply (fr_plists _ _ (proj2 Hs)); by eexists| |].
      * intros i Hx. rewrite Ev, lookup_insert_is_Some' in Hx.
        destruct Hx as [<-|[v Hv%vt_bss_table]]; [unfold NR_VTIMERS; lia|apply Hv].
      * constructor; [unfold Q; by rewrite fn_lookup_insert_ne|done|reflexivity|reflexivity|constructor].
    + intros i v. rewrite Ev, lookup_insert_Some. intros [[<- <-]|[_ Hv%vt_bss_table]]; [vm_compute; split; congruence|].
      destruct Hv as [_ ->]. vm_compute. split; congruence.
  - eexists. split; [reflexivity|]. split; [reflexivity|]. cbn. lia.
  - assert (is_Some (plists (lm k) !! PMq 0)) as [h Hh] by (apply (fr_plists _ _ (proj2 Hs)); by eexists).
    assert (H0' : p_inQ h = 0).
    { rewrite (po_inQ _ _ _ _ (proj2 (ri_q _ _ Hi) _ _ Hh)). rewrite (proj2 (plen_0 _ _)); [done|]. intros p _. unfold Q. by rewrite fn_lookup_insert_ne. }
    exact (pick_empty k 0 MRT_ANYPROC h Hh H0').
Qed.


