(* ===== verification/Faults.v ===== *)
(** * Defects (kernel/mrtproc.c, mrtvt.c, mrtirq.c, mrtmsg.c, mrtlib.c)

    Runs of the kernel from its initialised state that end in a panic, in
    undefined behaviour, in a loop or in a corrupted list, and the entry an
    erroneous request loses.  Each is a closed run of the definitions of the other
    files, except the last one, which holds in general. *)

From stdpp Require Import base gmap strings numbers fin_maps functions list.
From S2P Require Import Prelude Lists Kernel Sched VTimer Inherit Sem Semaphore Msg Mailbox Rtproc Irq Dispatch MiniIpc Interrupts Blocking.
Local Open Scope Z_scope.

(** ** The booted kernel *)

(** The initialisation of the queues and pools, in the order of [MRT_restart]
    (kernel/mrttask.c). *)
Definition boot : K unit :=
  MRT_rdyQ_init;; MRT_timerQ_init;; MRT_vtimer_init;; MRT_irqQ_init;; MRT_msgQ_init;; MRT_mpool_init;; MRT_spool_init.

(** The processor goes to process [n]. *)
Definition run_as (n : Z) : K unit := modify (λ k, k <| proc_ptr := n |>).

(** A MINIX process whose real-time attributes have been set. *)
Definition user (n p flags period : Z) : proc :=
  (bss_proc n) <| p_flags := 0 |> <| p_pid := 10 * n |> <| mq := mk_mqattrib 4 MQ_PRTYORDER |>
    <| rt ::= λ a, a <| rt_flags := flags |> <| rt_period := period |> <| rt_priority := p |> <| rt_baseprty := p |> <| rt_watchdog := HARDWARE |> |>.

(** Process 5 is to be periodic, 6 and 7 are not. *)
Definition users : kstate :=
  bss <| procs ::= λ ps, <[5 := user 5 4 MRT_P_PERIODIC 10]> (<[6 := user 6 3 0 0]> (<[7 := user 7 3 0 0]> ps)) |>
      <| sv ::= λ v, v <| sv_flags := MRT_RTMODE |> |>.

(** Process [n] runs and becomes a real-time process. *)
Definition become_rt (n : Z) : K Z := lock_ready n;; run_as n;; rtk_set2rt.

(** ** Timeouts *)

(** Process 3 takes semaphore 0; 4 waits for it two ticks and gives up; 3 ups the
    semaphore. *)
Definition down_timeout : K Z :=
  MRT_ready 3;; MRT_ready 4;; run_as 3;; MRT_semdown 0 (u32 MRT_FOREVER);; run_as 4;; MRT_semdown 0 2;;
  ticks 2;; MRT_vtimer_flush 4 2;; run_as 3;; MRT_semup 0.

(** A timed out down leaves the semaphore counting a process that no longer
    waits ([MRT_act_down] does not undo the decrement): the next up finds the
    value negative and nobody waiting, and panics. *)
Theorem down_timeout_panics :
  down_timeout sem_bss = Panic "MRT_semup: value<0 but any process waiting on semaphore " 0.
Proof. vm_compute. reflexivity. Qed.

(** Process 6 sleeps for three ticks. *)
Definition timed_sleep (n : nat) : K unit := boot;; become_rt 6;; MRT_sleep 6 3;; ticks n.

(** A sleep with a timeout ends in undefined behaviour when the timeout
    expires: [MRT_sleep] resets the link of the timer with the address of the
    process's timer pointer, which the clock handler then takes for a timer. *)
Theorem timed_sleep_faults : is_ok (timed_sleep 2 users) = true ∧ timed_sleep 3 users = Undef WrongType.
Proof. split; vm_compute; reflexivity. Qed.

(** Process 6 sleeps and its timer is set to wake it up after two ticks. *)
Definition wakeup_timer (fuel : nat) : K unit :=
  boot;; become_rt 6;; MRT_sleep 6 MRT_FOREVER;;
  r ← ld_proc 6; VTSET (ipcvt r) 2 1 MRT_ACT_WAKEUP 0 3;; ticks 2;; MRT_vtimer_flush fuel 3.

(** The wakeup action does not take its timer out of the expired queue (only
    actions that return [CONTINUE] do): flushing the list of this one timer has
    not ended after sixty four rounds. *)
Theorem wakeup_timer_loops : wakeup_timer 64 users = NoFuel.
Proof. vm_compute. reflexivity. Qed.

(** ** Changing between real-time and MINIX processes *)

(** A periodic process dereferences a null pointer when it becomes real-time:
    the test of the allocated timer is an assignment of [NULL]. *)
Example periodic_set2rt_faults : (boot;; become_rt 5) users = Undef NullPtr.
Proof. vm_compute. reflexivity. Qed.

(** A process whose message queue is not empty does not get out of
    [rtk_set2nrt]: the loop picks the first message without removing it. *)
Example set2nrt_loops :
  (boot;; become_rt 6;; become_rt 7;; MRT_ksend 7 6 3 MT_KRNTOUT;; run_as 6;; rtk_set2nrt 64) users = NoFuel.
Proof. vm_compute. reflexivity. Qed.

(** [MRT_proc_init] makes [NR_PROCS] rounds from the first task on and does not
    reach the last [NR_TASKS] process slots. *)
Example proc_init_misses :
  let k := users <| procs ::= <[25 := user 25 4 MRT_P_PERIODIC 10]> |> in
  match MRT_proc_init k with
  | Ok k' _ => bool_decide (rt_period ∘ rt <$> procs k' !! 5 = Some 0) && bool_decide (rt_period ∘ rt <$> procs k' !! 25 = Some 10)
  | _ => false
  end = true.
Proof. vm_compute. reflexivity. Qed.

(** ** Lists *)

(** 5 holds the inheriting mutex 1 and waits for semaphore 0 at priority 7; 4, of
    priority 2, waits for the mutex, and 5 inherits its priority. *)
Definition inherit_bss : kstate :=
  sem_bss <| sv ::= λ v, v <| sv_flags := Z.lor MRT_RTMODE MRT_BPIP |> |>
          <| sems ::= <[1 := mk_sem 1 1 5 (Z.lor SEM_PRTYORDER (Z.lor SEM_MUTEX SEM_PRTYINHERIT)) 3 0 0 None "mutex"]> |>.

Definition inherit_waiting : K Z :=
  let forever := u32 MRT_FOREVER in
  MRT_ready 3;; MRT_ready 4;; MRT_ready 5;;
  run_as 3;; MRT_semdown 0 forever;; run_as 5;; MRT_semdown 1 forever;; MRT_semdown 0 forever;;
  run_as 4;; MRT_semdown 1 forever;; run_as 3;; MRT_semup 0.

(** [MRT_inherit] does not move a process that waits on a semaphore ordered by
    priority; [MRT_semup] then removes it from the list of its new priority: it is
    ready, is still in the list of the semaphore, and a counter is negative. *)
Example inherit_corrupts_semaphore :
  match inherit_waiting inherit_bss with
  | Ok k _ => bool_decide (first <$> lists (lm k) !! HP (PSem 0) 7 = Some (Some (LProc 5))) &&
              bool_decide (first <$> lists (lm k) !! HP PRdy 2 = Some (Some (LProc 5))) &&
              bool_decide (inQ <$> lists (lm k) !! HP (PSem 0) 2 = Some (-1))
  | _ => false
  end = true.
Proof. vm_compute. reflexivity. Qed.

(** Interrupt 5 of a MINIX driver is time driven, 6 is the floppy drive's. *)
Definition mnx_bss : kstate :=
  (irq_bss false 15) <| irqtab ::= <[5 := (irq_desc 5 false) <| iq_irqtype := MRT_TDIRQ |>]> |>.

(** A descriptor that is triggered again while it waits in MINIX's pending
    queue is appended a second time, since only the other queue marks its members:
    the interrupt between the two is lost and its handler never runs. *)
Theorem pending_twice_loses :
  match (lock;; MRT_irqd_enQ 5;; MRT_irqd_enQ 6;; MRT_irqd_enQ 5;; unlock (drivers no_inner 0) 64) mnx_bss with
  | Ok k _ => bool_decide (console k = ["spurious irq 5" +:+ nl; "spurious irq 5" +:+ nl]) && bool_decide (first <$> lists (lm k) !! HMnxQ = Some None)
  | _ => false
  end = true.
Proof. vm_compute. reflexivity. Qed.

(** ** The pool of message queue entries *)

(** C40: A request whose message buffer does not map into the memory of the
    caller is refused with [EINVAL] after its entry has been taken from the pool:
    the entry is then in no list and is lost. *)
Theorem arqst_leaks_entry d q pid size order own senders k Q B e F a s rs msg :
  box_procs d q pid own senders → box_inv d q size order own senders k Q B (e :: F) a → senders !! s = Some rs → proc_ptr k = s →
  umap_D rs msg sizeof_mrt_msg_t = 0 → Z.of_nat (count_from (ab_box a) 0 16) ≠ size →
  ∃ k' Q', rtk_arqst (mk_ipc d pid msg 0 0 MRT_NOWAIT 0) k = Ok k' EINVAL ∧ qinv (lm k') Q' ∧ Q' HMqeL = LMqe <$> F ∧ unlinked Q' (LMqe e).
Proof.
  intros [(Hnr & Hproc & Hpid & Hrt & Hpmq & Hnw) Hbs] [Hmb (mq & Hmq & Hsz & _) Hbox _ _ (rd & Hd & Hcd%core_eq) Hsnd] Hrs Hs Hmap Hroom.
  destruct (Hsnd s rs Hrs) as (rs' & Hs' & Hcs%core_eq). destruct (mb_plist _ _ _ _ _ _ Hmb) as [h Hh].
  assert (Hpd : MRT_is_process rd = true ∧ p_pid rd = pid ∧ MRT_is_realtime rd = true ∧ pmq rd = Some q ∧
    TEST_BIT (rt_flags (rt rd)) MRT_MBX_RCV = false) by (rewrite Hcd; done). destruct Hpd as (E1 & E2 & E3 & E4 & E6).
  assert (Hsp : p_nr rs' = s ∧ umap_D rs' msg sizeof_mrt_msg_t = 0) by (rewrite Hcs; split; [exact (proj1 (Hbs s rs Hrs))|exact Hmap]). destruct Hsp as [G1 G2].
  assert (Hcp : can_post k d pid q rd mq h).
  { constructor; try done. rewrite (po_inQ _ _ _ _ (proj2 (mb_q _ _ _ _ _ _ Hmb) _ _ Hh)), (count_plen Q q B (ab_box a)); [congruence|apply Hmb|].
    intros p. eapply Forall2_length, Hbox. }
  unfold rtk_arqst. cbn [ipc_p_nr ipc_pid ipc_msg]. rewrite (bind_ok _ _ _ _ _ (check_dest_spec k d pid q rd mq h Hcp)). cbn [Z.eqb negb OK]. krun. rewrite Hs. krun.
  pose proof (proj1 (proj2 (Hbs s rs Hrs))) as Hsd.   assert (waits_from true d s rd = false) as -> by (unfold waits_from; by rewrite E6).
  destruct (mb_free _ _ _ _ _ _ Hmb e (list_elem_of_here _ _)) as [[m Hm] _].
  destruct (mqe_alloc_spec k Q e F) as (m1 & Hrun1 & Hs1 & _ & Hu1); [apply Hmb..|].
  unfold transmit. krun. rewrite Hs, (bind_ok _ _ _ _ _ Hrun1). unfold fill_hdr, st_sv. krun. cbn. unfold USR2KRN. krun. cbn. rewrite G1. unfold numap. krun.
  change (umap_D (upd st _ rs') msg sizeof_mrt_msg_t) with (umap_D rs' msg sizeof_mrt_msg_t). rewrite G2. cbn [Z.eqb].
  eexists _, _. split; [reflexivity|]. split; [apply Hs1|]. split; [apply fn_lookup_insert|exact Hu1].
Qed.

Lemma arqst_leaks_entry_witness : ∃ k k' Q', MRT_mpool_init box_bss = Ok k () ∧
  rtk_arqst (mk_ipc 3 30 (2 ^ 20) 0 0 MRT_NOWAIT 0) (k <| proc_ptr := 4 |>) = Ok k' EINVAL ∧ unlinked Q' (LMqe 0) ∧ qinv (lm k') Q'.
Proof.
  destruct box_demo as (k & Q & Hrun & _ & Hinv). pose proof (box_inv_ptr _ _ _ _ _ _ k Q _ _ _ 4 Hinv) as Hinv'.
  destruct (arqst_leaks_entry 3 0 30 2 true box_own box_senders (k <| proc_ptr := 4 |>) Q _ 0 (seqZ 1 31) box_a0 4 (box_proc 4 2) (2 ^ 20) box_demo_procs Hinv')
    as (k' & Q' & H1 & H2 & _ & H3); [reflexivity|reflexivity|reflexivity|vm_compute; discriminate|].
  exists k, k', Q'. split; [exact Hrun|]. split; [exact H1|]. split; [exact H3|exact H2].
Defined.
