(* ===== verification/Rendezvous.v ===== *)
(** * The rendezvous protocol (kernel/proc.c)

    The message passing of MiniIpc.v keeps the queues of waiting senders and the
    graph of who waits to send to whom consistent: the deadlock check ends and
    is exact, senders are served in order of arrival, and nobody waits for a
    message that is already on offer. *)

From stdpp Require Import base gmap strings numbers fin_maps functions list relations.
From S2P Require Import Prelude Lists Kernel Sched VTimer Inherit Sem Msg Rtproc Irq MiniIpc.
Local Open Scope Z_scope.

(** * Correctness of the rendezvous *)

(** ** Flags *)
Lemma test_SENDING f : TEST_BIT f SENDING = Z.testbit f 2.
Proof. by apply (TEST_BIT_shift f 2). Qed.
Lemma test_RECEIVING f : TEST_BIT f RECEIVING = Z.testbit f 3.
Proof. by apply (TEST_BIT_shift f 3). Qed.
Lemma set_SENDING f q : 0 ≤ q → Z.testbit (Z.lor f SENDING) q = (2 =? q) || Z.testbit f q.
Proof. intros. by apply (SET_BIT_shift f 2). Qed.
Lemma set_RECEIVING f q : 0 ≤ q → Z.testbit (Z.lor f RECEIVING) q = (3 =? q) || Z.testbit f q.
Proof. intros. by apply (SET_BIT_shift f 3). Qed.
Lemma clr_SENDING f q : 0 ≤ q → Z.testbit (Z.land f (Z.lnot SENDING)) q = negb (2 =? q) && Z.testbit f q.
Proof. intros. by apply (CLR_BIT_shift f 2). Qed.
Lemma clr_RECEIVING f q : 0 ≤ q → Z.testbit (Z.land f (Z.lnot RECEIVING)) q = negb (3 =? q) && Z.testbit f q.
Proof. intros. by apply (CLR_BIT_shift f 3). Qed.

Lemma waiting_bits f : (Z.land f (Z.lor RECEIVING SENDING) =? RECEIVING) = Z.testbit f 3 && negb (Z.testbit f 2).
Proof.
  apply eq_true_iff_eq. rewrite Z.eqb_eq, andb_true_iff, negb_true_iff. split.
  - intros E. split.
    + apply (f_equal (λ z, Z.testbit z 3)) in E. rewrite Z.land_spec in E. cbn in E. by rewrite andb_true_r in E.
    + apply (f_equal (λ z, Z.testbit z 2)) in E. rewrite Z.land_spec in E. cbn in E. by rewrite andb_true_r in E.
  - intros [H3 H2]. apply Z.bits_inj'. intros q Hq. rewrite Z.land_spec.
    change (Z.lor RECEIVING SENDING) with (Z.lor (Z.shiftl 1 3) (Z.shiftl 1 2)). change RECEIVING with (Z.shiftl 1 3).
    rewrite Z.lor_spec, !Z.shiftl_1_l, !Z.pow2_bits_eqb by done.
    destruct (Z.eqb_spec 3 q) as [<-|]; [by rewrite H3|]. destruct (Z.eqb_spec 2 q) as [<-|]; [by rewrite H2|].
    by rewrite andb_false_r.
Qed.

(** ** The send graph *)

Definition sending (r : proc) : bool := Z.testbit (p_flags r) 2.
Definition receiving (r : proc) : bool := Z.testbit (p_flags r) 3.

(** [x] waits to send to [y]. *)
Definition sends (ps : gmap Z proc) (x y : Z) : Prop :=
  ∃ r, ps !! x = Some r ∧ sending r = true ∧ p_sendto r = y.

Definition send_acyclic (ps : gmap Z proc) : Prop := ∀ x, ¬ tc (sends ps) x x.

(** Who waits sends to somebody of the table. *)
Definition sends_to_proc (ps : gmap Z proc) : Prop := ∀ x y, sends ps x y → is_Some (ps !! y).

Lemma sends_det ps x y z : sends ps x y → sends ps x z → y = z.
Proof. intros (r & Hr & _ & <-) (r' & Hr' & _ & <-). congruence. Qed.

Lemma tc_step ps x y z : sends ps x y → tc (sends ps) x z ↔ y = z ∨ tc (sends ps) y z.
Proof.
  intros Hxy. split.
  - inversion 1 as [? ? Hz|? y' ? Hy Ht]; subst; [left; by eapply sends_det|right; by rewrite (sends_det _ _ _ _ Hxy Hy)].
  - intros [<-|Ht]; [by apply tc_once|by eapply tc_l].
Qed.

Lemma tc_sends ps x y : tc (sends ps) x y → ∃ r, ps !! x = Some r ∧ sending r = true.
Proof. by intros [? ? (r & Hr & E & _)|? ? ? (r & Hr & E & _) _]; exists r. Qed.

(** The check follows a path of distinct processes: 43 steps at most. *)
Lemma deadlock_from_spec k c : ptab (procs k) → send_acyclic (procs k) → sends_to_proc (procs k) →
  ∀ fuel vis x, NoDup vis → (∀ v, v ∈ vis → tc (sends (procs k)) v x) → is_Some (procs k !! x) →
  (43 < fuel + length vis)%nat →
  ∃ b, deadlock_from fuel x c k = Ok k b ∧ (b = true ↔ x = c ∨ tc (sends (procs k)) x c).
Proof.
  intros Hp Hac Hto. induction fuel as [|fuel IH]; intros vis x Hnd Hvis [r Hr] Hfu.
  { assert (length vis ≤ 43)%nat; [|lia]. apply (NoDup_range_length (- NR_TASKS) NR_PROCS); [done|].
    intros v Hv. apply Hp. destruct (tc_sends _ _ _ (Hvis v Hv)) as (rv & Hrv & _). eauto. }
  cbn [deadlock_from]. destruct (Z.eqb_spec x c) as [->|Hne]; [exists true; split; [done|]; by split; [left|]|].
  krun. rewrite test_SENDING. destruct (Z.testbit (p_flags r) 2) eqn:Es.
  - assert (Hs : sends (procs k) x (p_sendto r)) by (by exists r).
    destruct (IH (x :: vis) (p_sendto r)) as (b & Hrun & Hb).
    + apply NoDup_cons. split; [|done]. intros Hx. by apply (Hac x), Hvis.
    + intros v [->|Hv]%elem_of_cons; [by apply tc_once|]. eapply tc_r; [by apply Hvis|done].
    + by eapply Hto.
    + cbn. lia.
    + exists b. split; [done|]. rewrite Hb, (tc_step _ _ _ _ Hs). naive_solver.
  - exists false. split; [done|]. split; [done|]. intros [?|(r' & Hr' & E)%tc_sends]; [done|].
    assert (r' = r) as -> by congruence. unfold sending in E. congruence.
Qed.

Lemma deadlock_spec k d c : ptab (procs k) → send_acyclic (procs k) → sends_to_proc (procs k) → is_Some (procs k !! d) →
  ∃ b, deadlock ipc_fuel d c k = Ok k b ∧ (b = true ↔ tc (sends (procs k)) d c).
Proof.
  intros Hp Hac Hto [r Hr]. unfold deadlock. krun. rewrite test_SENDING. destruct (Z.testbit (p_flags r) 2) eqn:Es.
  - assert (Hs : sends (procs k) d (p_sendto r)) by (by exists r).
    destruct (deadlock_from_spec k c Hp Hac Hto ipc_fuel [] (p_sendto r)) as (b & Hrun & Hb);
      [constructor|by intros v ?%elem_of_nil|by eapply Hto|unfold ipc_fuel; cbn; lia|].
    exists b. split; [done|]. by rewrite Hb, (tc_step _ _ _ _ Hs).
  - exists false. split; [done|]. split; [done|].
    intros (r' & Hr' & E)%tc_sends. assert (r' = r) as -> by congruence. unfold sending in E. congruence.
Qed.

(** ** The queues of waiting senders *)

(** From [o] the processes [l] are linked through [p_sendlink] and lead to [e]. *)
Fixpoint schain (ps : gmap Z proc) (o : option Z) (l : list Z) (e : option Z) : Prop :=
  match l with
  | [] => o = e
  | x :: l' => o = Some x ∧ ∃ r, ps !! x = Some r ∧ schain ps (p_sendlink r) l' e
  end.

Lemma schain_frame ps ps' o l e :
  (∀ x, x ∈ l → p_sendlink <$> ps' !! x = p_sendlink <$> ps !! x) → schain ps o l e → schain ps' o l e.
Proof.
  revert o. induction l as [|x l IH]; intros o Hf; cbn; [done|]. intros (-> & r & Hr & Hc). split; [done|].
  pose proof (Hf x (list_elem_of_here _ _)) as Hx. rewrite Hr in Hx. destruct (ps' !! x) as [r'|]; [|done].
  cbn in Hx. injection Hx as Hx. exists r'. split; [done|]. rewrite Hx. apply IH; [|done].
  intros y Hy. apply Hf. by apply list_elem_of_further.
Qed.

Lemma schain_app ps o l1 l2 e : schain ps o (l1 ++ l2) e ↔ ∃ o', schain ps o l1 o' ∧ schain ps o' l2 e.
Proof.
  revert o. induction l1 as [|x l1 IH]; intros o; cbn.
  - split; [by exists o|]. by intros (? & -> & ?).
  - split.
    + intros (-> & r & Hr & (o' & H1 & H2)%IH). exists o'. split; [|done]. split; [done|]. by exists r.
    + intros (o' & (-> & r & Hr & H1) & H2). split; [done|]. exists r. split; [done|]. apply IH. by exists o'.
Qed.

Lemma schain_snoc_end ps o l t e : schain ps o (l ++ [t]) e → ∃ r, ps !! t = Some r ∧ p_sendlink r = e.
Proof. intros (o' & _ & (_ & r & Hr & He))%schain_app. by exists r. Qed.

(** A sender a receive from [src] accepts. *)
Definition accepts (src x : Z) : bool := (src =? ANY) || (src =? x).

Record ipc_inv (ps : gmap Z proc) (W : Z → list Z) : Prop := {
  ii_nr : ∀ n r, ps !! n = Some r → p_nr r = n;
  ii_q : ∀ n r, ps !! n = Some r → schain ps (p_callerq r) (W n) None;
  ii_send : ∀ x d, x ∈ W d ↔ sends ps x d;
  ii_nodup : ∀ d, NoDup (W d);
  ii_to : sends_to_proc ps;
  ii_acyclic : send_acyclic ps;
  (** a process that waits for a message and not to send has no acceptable sender queued *)
  ii_wait : ∀ d r x, ps !! d = Some r → receiving r = true → sending r = false →
    x ∈ W d → accepts (p_getfrom r) x = false;
  (** a process that waits to send and for a message waits for the answer *)
  ii_both : ∀ d r, ps !! d = Some r → receiving r = true → sending r = true → p_getfrom r = p_sendto r;
}.

(** Processes in the MINIX ready queues are not blocked. *)
Definition rdy_free (ps : gmap Z proc) (R : readyq → list Z) : Prop :=
  ∀ q n r, n ∈ R q → ps !! n = Some r → p_flags r = 0.

Lemma ipc_disjoint ps W x d d' : ipc_inv ps W → x ∈ W d → x ∈ W d' → d = d'.
Proof. intros Hi. rewrite !(ii_send _ _ Hi). apply sends_det. Qed.

(** Updates that touch neither links nor the right to send. *)
Lemma ipc_inv_update ps ps' W : ipc_inv ps W →
  (∀ n, is_Some (ps' !! n) ↔ is_Some (ps !! n)) →
  (∀ n r r', ps !! n = Some r → ps' !! n = Some r' →
     p_nr r' = p_nr r ∧ p_callerq r' = p_callerq r ∧ p_sendlink r' = p_sendlink r ∧
     sending r' = sending r ∧ p_sendto r' = p_sendto r ∧
     (receiving r' = true →
        receiving r = true ∧ p_getfrom r' = p_getfrom r ∨
        if sending r then p_getfrom r' = p_sendto r
        else ∀ x, x ∈ W n → accepts (p_getfrom r') x = false)) →
  ipc_inv ps' W.
Proof.
  intros [Hnr Hq Hs Hnd Hto Hac Hw Hb] Hdom Hupd.
  assert (Hback : ∀ n r', ps' !! n = Some r' → ∃ r, ps !! n = Some r).
  { intros n r' Hr'. apply Hdom. eauto. }
  assert (Hsends : ∀ x y, sends ps' x y ↔ sends ps x y).
  { intros x y. split.
    - intros (r' & Hr' & E & <-). destruct (Hback _ _ Hr') as (r & Hr). destruct (Hupd _ _ _ Hr Hr') as (_ & _ & _ & E1 & E2 & _).
      exists r. split_and!; congruence.
    - intros (r & Hr & E & <-). destruct (proj2 (Hdom x)) as [r' Hr']; [eauto|]. destruct (Hupd _ _ _ Hr Hr') as (_ & _ & _ & E1 & E2 & _).
      exists r'. split_and!; congruence. }
  constructor.
  - intros n r' Hr'. destruct (Hback _ _ Hr') as (r & Hr). destruct (Hupd _ _ _ Hr Hr') as (-> & _). by apply Hnr.
  - intros n r' Hr'. destruct (Hback _ _ Hr') as (r & Hr). destruct (Hupd _ _ _ Hr Hr') as (_ & -> & _).
    apply (schain_frame ps); [|by apply Hq]. intros x _. destruct (ps !! x) as [rx|] eqn:Ex.
    + destruct (proj2 (Hdom x)) as [rx' Hrx']; [eauto|]. destruct (Hupd _ _ _ Ex Hrx') as (_ & _ & E & _). rewrite Hrx'. cbn. by rewrite E.
    + destruct (ps' !! x) as [rx'|] eqn:Ex'; [|done]. destruct (Hback _ _ Ex'). congruence.
  - intros x d. rewrite Hsends. apply Hs.
  - done.
  - intros x y [r Hr]%Hsends%Hto. apply Hdom. eauto.
  - intros x Hx. apply (Hac x). revert Hx. generalize x at 1 3. intros a. induction 1 as [? ? ?%Hsends|? ? ? ?%Hsends ? IH]; [by apply tc_once|by eapply tc_l].
  - intros d r' x Hr' Hrc Hsn Hx. destruct (Hback _ _ Hr') as (r & Hr). destruct (Hupd _ _ _ Hr Hr') as (_ & _ & _ & E & _ & [[Hrc' ->]|Hn]); [done| |].
    + eapply Hw; eauto; congruence.
    + rewrite <- E, Hsn in Hn. by apply Hn.
  - intros d r' Hr' Hrc Hsn. destruct (Hback _ _ Hr') as (r & Hr). destruct (Hupd _ _ _ Hr Hr') as (_ & _ & _ & E & -> & [[Hrc' ->]|Hn]); [done| |].
    + eapply Hb; eauto; congruence.
    + by rewrite <- E, Hsn in Hn.
Qed.

(** ** A sender joins a queue *)

(** Paths with one more edge, from [c], that had none, to [d]. *)
Lemma tc_add_edge (R R' : relation Z) c d : (∀ x y, R' x y → R x y ∨ x = c ∧ y = d) → ¬ rtc R d c →
  ∀ a b, tc R' a b → tc R a b ∨ rtc R a c ∧ rtc R d b.
Proof.
  intros Hs Hdc a b. induction 1 as [a b [?|[-> ->]]%Hs|a a' b [?|[-> ->]]%Hs Ht [IH|[IH1 IH2]]].
  - left. by apply tc_once.
  - right. done.
  - left. by eapply tc_l.
  - right. split; [by eapply rtc_l|done].
  - right. split; [done|by apply tc_rtc].
  - done.
Qed.

Record enqueued (ps ps' : gmap Z proc) (W : Z → list Z) (c d : Z) : Prop := {
  en_dom : ∀ n, is_Some (ps' !! n) ↔ is_Some (ps !! n);
  en_upd : ∀ n r r', ps !! n = Some r → ps' !! n = Some r' →
    p_nr r' = p_nr r ∧
    p_callerq r' = (if bool_decide (n = d ∧ W d = []) then Some c else p_callerq r) ∧
    (n = c → sending r' = true ∧ receiving r' = false ∧ p_sendto r' = d ∧ p_sendlink r' = None) ∧
    (n ≠ c → p_flags r' = p_flags r ∧ p_sendto r' = p_sendto r ∧ p_getfrom r' = p_getfrom r ∧
       p_sendlink r' = (if bool_decide (list.last (W d) = Some n) then Some c else p_sendlink r));
}.

Lemma ipc_inv_enqueue ps ps' W c d rc rd : ipc_inv ps W → enqueued ps ps' W c d →
  ps !! c = Some rc → ps !! d = Some rd → c ≠ d → sending rc = false → ¬ tc (sends ps) d c →
  (receiving rd = true → sending rd = false → accepts (p_getfrom rd) c = false) →
  ipc_inv ps' (<[d := W d ++ [c]]> W).
Proof.
  intros [Hnr Hq Hs Hnd Hto Hac Hw Hb] [Hdom Hupd] Hc Hd Hcd Hns Hdl Hacc.
  assert (Hback : ∀ n r', ps' !! n = Some r' → ∃ r, ps !! n = Some r) by (intros n r' Hr'; apply Hdom; eauto).
  assert (Hfwd : ∀ n r, ps !! n = Some r → ∃ r', ps' !! n = Some r') by (intros n r Hr; apply Hdom; eauto).
  assert (Hnoc : ∀ x, ¬ sends ps c x) by (intros x (r & Hr & E & _); congruence).
  assert (Hsends : ∀ x y, sends ps' x y ↔ sends ps x y ∨ x = c ∧ y = d).
  { intros x y. split.
    - intros (r' & Hr' & E & <-). destruct (Hback _ _ Hr') as (r & Hr). destruct (Hupd _ _ _ Hr Hr') as (_ & _ & H1 & H2).
      destruct (decide (x = c)) as [->|Hx]; [right; split; [done|by apply H1]|left]. destruct (H2 Hx) as (E1 & E2 & _).
      exists r. unfold sending in *. split_and!; congruence.
    - intros [(r & Hr & E & <-)|[-> ->]].
      + destruct (Hfwd _ _ Hr) as (r' & Hr'). destruct (Hupd _ _ _ Hr Hr') as (_ & _ & _ & H2).
        destruct (H2 ltac:(intros ->; congruence)) as (E1 & E2 & _). exists r'. unfold sending in *. split_and!; congruence.
      + destruct (Hfwd _ _ Hc) as (r' & Hr'). destruct (Hupd _ _ _ Hc Hr') as (_ & _ & H1 & _).
        destruct (H1 eq_refl) as (? & _ & ? & _). by exists r'. }
  assert (HcW : ∀ n, c ∉ W n) by (intros n ?%Hs; by eapply Hnoc).
  constructor.
  - intros n r' Hr'. destruct (Hback _ _ Hr') as (r & Hr). destruct (Hupd _ _ _ Hr Hr') as (-> & _). by apply Hnr.
  - intros n r' Hr'. destruct (Hback _ _ Hr') as (r & Hr). destruct (Hupd _ _ _ Hr Hr') as (_ & -> & _).
    assert (Hlink : ∀ l : list Z, c ∉ l → (∀ t, list.last (W d) = Some t → t ∉ l) → ∀ x, x ∈ l → p_sendlink <$> ps' !! x = p_sendlink <$> ps !! x).
    { intros l Hcl Htl x Hx. destruct (ps !! x) as [rx|] eqn:Ex.
      - destruct (Hfwd _ _ Ex) as (rx' & Hrx'). rewrite Hrx'. destruct (Hupd _ _ _ Ex Hrx') as (_ & _ & _ & H2).
        destruct H2 as (_ & _ & _ & E); [by intros ->|]. cbn. f_equal. rewrite E, bool_decide_false; [done|]. intros El. by apply (Htl x).
      - destruct (ps' !! x) as [rx'|] eqn:Ex'; [|done]. destruct (Hback _ _ Ex'). congruence. }
    destruct (decide (n = d)) as [->|Hn].
    + rewrite fn_lookup_insert. destruct (Hfwd _ _ Hc) as (rc' & Hrc'). destruct (Hupd _ _ _ Hc Hrc') as (_ & _ & H1 & _).
      destruct (H1 eq_refl) as (_ & _ & _ & Elc). specialize (Hq _ _ Hr). specialize (Hnd d).
      destruct (snoc_cases (W d)) as [E|(l & t & E)]; rewrite E in *.
      * rewrite bool_decide_true by done. cbn. split; [done|]. by exists rc'.
      * rewrite bool_decide_false by (intros [_ ?]; by destruct l). destruct (schain_snoc_end _ _ _ _ _ Hq) as (rt0 & Ht & Et).
        destruct (Hfwd _ _ Ht) as (rt' & Ht'). destruct (Hupd _ _ _ Ht Ht') as (_ & _ & _ & H2).
        assert (Htc : t ≠ c) by (intros ->; apply (HcW d); rewrite E; set_solver).
        destruct (H2 Htc) as (_ & _ & _ & Elt). rewrite bool_decide_true in Elt by (by rewrite last_snoc).
        apply schain_app in Hq as (o' & Hq1 & Hq2). rewrite <- app_assoc. apply schain_app. exists o'. split.
        -- apply (schain_frame ps); [|done]. apply Hlink; [specialize (HcW d); rewrite E in HcW; set_solver|].
           intros t'. rewrite last_snoc. intros [= <-]. apply NoDup_app in Hnd. set_solver.
        -- cbn in Hq2 |- *. destruct Hq2 as [-> _]. split; [done|]. exists rt'. split; [done|]. rewrite Elt. split; [done|]. by exists rc'.
    + rewrite fn_lookup_insert_ne, bool_decide_false by (done || tauto).
      apply (schain_frame ps); [|by apply Hq]. apply Hlink; [done|].
      intros t Ht Htn. apply Hn. apply last_Some_elem_of in Ht. apply Hs in Ht, Htn. by eapply sends_det.
  - intros x y. rewrite Hsends. destruct (decide (y = d)) as [->|Hy].
    + rewrite fn_lookup_insert, elem_of_app, list_elem_of_singleton, Hs. tauto.
    + rewrite fn_lookup_insert_ne, Hs by done. tauto.
  - intros n. destruct (decide (n = d)) as [->|Hn]; [|by rewrite fn_lookup_insert_ne]. rewrite fn_lookup_insert.
    apply NoDup_app. split_and!; [done| |apply NoDup_singleton]. intros x Hx ->%list_elem_of_singleton. by apply (HcW d).
  - intros x y [Hxy|[-> ->]]%Hsends; apply Hdom; eauto.
  - intros x Hx. apply (tc_add_edge (sends ps) (sends ps') c d) in Hx; [|intros; by apply Hsends|intros [->|?]%rtc_tc; done].
    destruct Hx as [Hx|[H1 H2]]; [by apply (Hac x)|].
    assert (Hr : rtc (sends ps) d c) by (by etrans). apply rtc_tc in Hr as [->|?]; done.
  - intros n r' x Hr' Hrc Hsn. destruct (Hback _ _ Hr') as (r & Hr). destruct (Hupd _ _ _ Hr Hr') as (_ & _ & H1 & H2).
    destruct (decide (n = c)) as [->|Hnc]; [destruct (H1 eq_refl) as (? & _); congruence|].
    destruct (H2 Hnc) as (E1 & _ & -> & _). unfold sending, receiving in Hrc, Hsn. rewrite E1 in Hrc, Hsn.
    destruct (decide (n = d)) as [->|Hn].
    + rewrite fn_lookup_insert, elem_of_app, list_elem_of_singleton. assert (r = rd) as -> by congruence.
      intros [Hx| ->]; [by eapply Hw|by apply Hacc].
    + rewrite fn_lookup_insert_ne by done. by eapply Hw.
  - intros n r' Hr' Hrc Hsn. destruct (Hback _ _ Hr') as (r & Hr). destruct (Hupd _ _ _ Hr Hr') as (_ & _ & H1 & H2).
    destruct (decide (n = c)) as [->|Hnc]; [destruct (H1 eq_refl) as (_ & ? & _); congruence|].
    destruct (H2 Hnc) as (E1 & -> & -> & _). unfold sending, receiving in Hrc, Hsn. rewrite E1 in Hrc, Hsn. by eapply Hb.
Qed.

(** ** A sender leaves a queue *)

Record dequeued (ps ps' : gmap Z proc) (c x : Z) (l1 : list Z) (nx : option Z) : Prop := {
  dq_dom : ∀ n, is_Some (ps' !! n) ↔ is_Some (ps !! n);
  dq_upd : ∀ n r r', ps !! n = Some r → ps' !! n = Some r' →
    p_nr r' = p_nr r ∧ p_sendto r' = p_sendto r ∧ p_getfrom r' = p_getfrom r ∧
    p_flags r' = (if bool_decide (n = x) then Z.land (p_flags r) (Z.lnot SENDING) else p_flags r) ∧
    p_callerq r' = (if bool_decide (n = c ∧ l1 = []) then nx else p_callerq r) ∧
    p_sendlink r' = (if bool_decide (list.last l1 = Some n) then nx else p_sendlink r);
}.

Lemma ipc_inv_dequeue ps ps' W c x l1 l2 rx : ipc_inv ps W → ptab ps → W c = l1 ++ x :: l2 → ps !! x = Some rx →
  dequeued ps ps' c x l1 (p_sendlink rx) → ipc_inv ps' (<[c := l1 ++ l2]> W).
Proof.
  intros Hinv Hpt HW Hx [Hdom Hupd]. pose proof Hinv as [Hnr Hq Hs Hnd Hto Hac Hw Hb].
  assert (Hback : ∀ n r', ps' !! n = Some r' → ∃ r, ps !! n = Some r) by (intros n r' Hr'; apply Hdom; eauto).
  assert (Hfwd : ∀ n r, ps !! n = Some r → ∃ r', ps' !! n = Some r') by (intros n r Hr; apply Hdom; eauto).
  assert (Hxc : sends ps x c) by (apply Hs; rewrite HW; set_solver).
  assert (Hfl : ∀ n r r', ps !! n = Some r → ps' !! n = Some r' →
     receiving r' = receiving r ∧ sending r' = negb (bool_decide (n = x)) && sending r).
  { intros n r r' Hr Hr'. destruct (Hupd _ _ _ Hr Hr') as (_ & _ & _ & E & _). unfold receiving, sending. rewrite E.
    destruct (bool_decide_reflect (n = x)); [|done]. by rewrite !clr_SENDING. }
  assert (Hsends : ∀ a b, sends ps' a b ↔ sends ps a b ∧ a ≠ x).
  { intros a b. split.
    - intros (r' & Hr' & E & <-). destruct (Hback _ _ Hr') as (r & Hr). destruct (Hfl _ _ _ Hr Hr') as [_ E2].
      rewrite E2, andb_true_iff, negb_true_iff, bool_decide_eq_false in E. split; [|tauto]. exists r. split_and!; [done|tauto|].
      destruct (Hupd _ _ _ Hr Hr') as (_ & -> & _). done.
    - intros [(r & Hr & E & <-) Hne]. destruct (Hfwd _ _ Hr) as (r' & Hr'). destruct (Hfl _ _ _ Hr Hr') as [_ E2].
      exists r'. rewrite E2, bool_decide_false, E by done. split_and!; try done. destruct (Hupd _ _ _ Hr Hr') as (_ & -> & _). done. }
  pose proof (Hnd c) as Hndc. rewrite HW in Hndc.
  assert (Hx12 : x ∉ l1 ++ l2) by (rewrite <- Permutation_middle in Hndc; by apply NoDup_cons in Hndc as [? _]).
  assert (Hnd12 : NoDup (l1 ++ l2)) by (rewrite <- Permutation_middle in Hndc; by apply NoDup_cons in Hndc as [_ ?]).
  assert (Hlink : ∀ l : list Z, (∀ t, list.last l1 = Some t → t ∉ l) → ∀ y, y ∈ l → p_sendlink <$> ps' !! y = p_sendlink <$> ps !! y).
  { intros l Htl y Hy. destruct (ps !! y) as [ry|] eqn:Ey.
    - destruct (Hfwd _ _ Ey) as (ry' & Hry'). rewrite Hry'. destruct (Hupd _ _ _ Ey Hry') as (_ & _ & _ & _ & _ & E).
      cbn. f_equal. rewrite E, bool_decide_false; [done|]. intros El. by apply (Htl y).
    - destruct (ps' !! y) as [ry'|] eqn:Ey'; [|done]. destruct (Hback _ _ Ey'). congruence. }
  constructor.
  - intros n r' Hr'. destruct (Hback _ _ Hr') as (r & Hr). destruct (Hupd _ _ _ Hr Hr') as (-> & _). by apply Hnr.
  - intros n r' Hr'. destruct (Hback _ _ Hr') as (r & Hr). destruct (Hupd _ _ _ Hr Hr') as (_ & _ & _ & _ & -> & _).
    specialize (Hq _ _ Hr). destruct (decide (n = c)) as [->|Hn].
    + rewrite fn_lookup_insert. rewrite HW in Hq. apply schain_app in Hq as (o & Hq1 & (-> & rx' & Hrx' & Hq2)).
      assert (rx' = rx) as -> by congruence.
      destruct (snoc_cases l1) as [->|(l & t & ->)].
      * rewrite bool_decide_true by done. cbn. apply (schain_frame ps); [|done]. by apply Hlink.
      * rewrite bool_decide_false by (intros [_ ?]; by destruct l).
        apply schain_app in Hq1 as (o & Hq0 & (-> & rt0 & Ht & Et)).
        destruct (Hfwd _ _ Ht) as (rt' & Ht'). destruct (Hupd _ _ _ Ht Ht') as (_ & _ & _ & _ & _ & Elt).
        rewrite bool_decide_true in Elt by (by rewrite last_snoc).
        rewrite <- app_assoc in Hnd12 |- *. apply NoDup_app in Hnd12 as (_ & Hd & [Htl2 _]%NoDup_cons).
        apply schain_app. exists (Some t). split.
        -- apply (schain_frame ps); [|done]. apply Hlink. intros t'. rewrite last_snoc. intros [= <-] Htl. apply (Hd t Htl). set_solver.
        -- cbn. split; [done|]. exists rt'. split; [done|]. rewrite Elt. apply (schain_frame ps); [|done]. apply Hlink.
           intros t'. rewrite last_snoc. by intros [= <-].
    + rewrite fn_lookup_insert_ne, bool_decide_false by (done || tauto).
      apply (schain_frame ps); [|done]. apply Hlink. intros t Ht Htn. apply Hn. apply last_Some_elem_of in Ht.
      eapply ipc_disjoint; [done..|]. rewrite HW. set_solver.
  - intros a b. rewrite Hsends, <- Hs. destruct (decide (b = c)) as [->|Hbc].
    + rewrite fn_lookup_insert, HW. set_solver.
    + rewrite fn_lookup_insert_ne by done. split; [|tauto]. intros Ha. split; [done|]. intros ->. apply Hbc.
      eapply sends_det; [by apply Hs|done].
  - intros n. destruct (decide (n = c)) as [->|Hn]; [by rewrite fn_lookup_insert|by rewrite fn_lookup_insert_ne].
  - intros a b [Hab _]%Hsends. apply Hdom. by eapply Hto.
  - intros a Ha. apply (Hac a). revert Ha. generalize a at 1 3. intros a'. induction 1 as [? ? [? _]%Hsends|? ? ? [? _]%Hsends ? IH]; [by apply tc_once|by eapply tc_l].
  - intros n r' y Hr' Hrc Hsn Hy. destruct (Hback _ _ Hr') as (r & Hr). destruct (Hfl _ _ _ Hr Hr') as [E1 E2].
    destruct (Hupd _ _ _ Hr Hr') as (_ & _ & -> & _).
    assert (HyW : y ∈ W n).
    { destruct (decide (n = c)) as [->|Hn]; [rewrite fn_lookup_insert in Hy; rewrite HW; set_solver|by rewrite fn_lookup_insert_ne in Hy]. }
    destruct (decide (n = x)) as [->|Hnx].
    + destruct Hxc as (rx' & Hrx' & Hsx & Hto'). assert (rx' = r) as -> by congruence. rewrite (Hb _ _ Hr), Hto' by congruence.
      unfold accepts. apply orb_false_iff. rewrite !Z.eqb_neq. split.
      * intros ->. destruct (Hpt ANY) as [_ ?]; [apply (Hto x); by exists r|]. unfold ANY in *. lia.
      * intros ->. apply (Hac x). eapply tc_l; [by exists r|]. apply tc_once. by apply Hs.
    + rewrite bool_decide_false in E2 by done. cbn in E2. eapply Hw; eauto; congruence.
  - intros n r' Hr' Hrc Hsn. destruct (Hback _ _ Hr') as (r & Hr). destruct (Hfl _ _ _ Hr Hr') as [E1 E2].
    destruct (Hupd _ _ _ Hr Hr') as (_ & -> & -> & _). rewrite E2, andb_true_iff in Hsn. eapply Hb; [done|congruence|tauto].
Qed.

(** ** Running the operations *)

Record ipc_ok (k : kstate) (Q : lhead → list laddr) (R : readyq → list Z) (W : Z → list Z) : Prop := {
  io_sched : sched_inv k Q R;
  io_ipc : ipc_inv (procs k) W;
  io_free : rdy_free (procs k) R;
}.

(** The scheduler does not read the fields of message passing. *)
Lemma sched_inv_procs k k' Q R : sched_inv k Q R →
  lm k' = lm k → rdy_head k' = rdy_head k → rdy_tail k' = rdy_tail k →
  (∀ n, is_Some (procs k' !! n) ↔ is_Some (procs k !! n)) →
  (∀ n r r', procs k !! n = Some r → procs k' !! n = Some r' →
    p_nextready r' = p_nextready r ∧ rt r' = rt r ∧ p_stguard r' = p_stguard r) →
  sched_inv k' Q R.
Proof.
  intros [[Hq Hpl Ht Hp] [Hh Htl Hc Hn Hcl] Hpt Hg] Elm Eh Et Hdom Hupd.
  assert (Hback : ∀ n r', procs k' !! n = Some r' → ∃ r, procs k !! n = Some r) by (intros n r' Hr'; apply Hdom; eauto).
  assert (Hfwd : ∀ n r, procs k !! n = Some r → ∃ r', procs k' !! n = Some r') by (intros n r Hr; apply Hdom; eauto).
  constructor.
  - constructor; rewrite ?Elm; try done. intros p x Hx. destruct (Hp _ _ Hx) as (n & r & -> & Hr & <-).
    destruct (Hfwd _ _ Hr) as (r' & Hr'). exists n, r'. split_and!; try done. by destruct (Hupd _ _ _ Hr Hr') as (_ & -> & _).
  - constructor; rewrite ?Eh, ?Et; try done. intros q. apply (chain_frame (procs k)); [|done]. intros x Hx.
    destruct (chain_lookup _ _ _ _ (Hc q) Hx) as [r Hr]. destruct (Hfwd _ _ Hr) as (r' & Hr').
    rewrite Hr, Hr'. cbn. by destruct (Hupd _ _ _ Hr Hr') as (-> & _).
  - intros n Hs. by apply Hpt, Hdom.
  - intros n r' Hr' Htask. destruct (Hback _ _ Hr') as (r & Hr). destruct (Hupd _ _ _ Hr Hr') as (_ & _ & ->). by eapply Hg.
Qed.

(** A change of the table that only touches slot [n]. *)
Lemma insert_dom (ps : gmap Z proc) n r x m : ps !! n = Some r → is_Some (<[n := x]> ps !! m) ↔ is_Some (ps !! m).
Proof. intros Hn. rewrite lookup_insert_is_Some'. naive_solver. Qed.

Lemma core_ipc r r' : core r' = core r →
  p_nr r' = p_nr r ∧ p_flags r' = p_flags r ∧ p_callerq r' = p_callerq r ∧ p_sendlink r' = p_sendlink r ∧
  p_sendto r' = p_sendto r ∧ p_getfrom r' = p_getfrom r ∧ p_messbuf r' = p_messbuf r ∧ p_map_D r' = p_map_D r.
Proof.
  intros E. split_and!; [by apply (f_equal p_nr) in E|by apply (f_equal p_flags) in E|by apply (f_equal p_callerq) in E|
    by apply (f_equal p_sendlink) in E|by apply (f_equal p_sendto) in E|by apply (f_equal p_getfrom) in E|
    by apply (f_equal p_messbuf) in E|by apply (f_equal p_map_D) in E].
Qed.

Lemma qframe_pair k k' n r r' : qframe k k' → procs k !! n = Some r → procs k' !! n = Some r' → core r' = core r.
Proof. intros Hf Hr Hr'. destruct (qframe_lookup _ _ _ _ Hf Hr) as (r0 & Hr0 & E). congruence. Qed.

Lemma ipc_inv_qframe k k' W : qframe k k' → ipc_inv (procs k) W → ipc_inv (procs k') W.
Proof.
  intros Hf Hi. apply (ipc_inv_update (procs k)); [done|intros n; by apply qframe_is_Some|]. intros n r r' Hr Hr'.
  destruct (core_ipc r r') as (? & E & ? & ? & ? & ? & _); [by eapply qframe_pair|]. unfold sending, receiving. rewrite E.
  split_and!; try done. intros Hrc. by left.
Qed.

(** Making a process ready. *)
Lemma ready_ok k Q R W n r : ipc_ok k Q R W → procs k !! n = Some r → n ∉ R (rq_of n) → p_flags r = 0 →
  ∃ k', ready n k = Ok k' () ∧ ipc_ok k' Q (abs_ready n R) W ∧ qframe k k'.
Proof.
  intros [Hs Hi Hf] Hn Hnin H0. destruct (ready_spec k R n) as (k' & Hrun & HR & Hq & _); [apply Hs|by eexists|done|].
  exists k'. split; [done|]. split; [|done]. constructor.
  - by eapply sched_inv_qframe.
  - by eapply ipc_inv_qframe.
  - intros q m rm Hm Hrm. assert (is_Some (procs k !! m)) as [r0 Hr0] by (apply (qframe_is_Some _ _ _ Hq); eauto).
    destruct (core_ipc r0 rm) as (_ & -> & _); [by eapply qframe_pair|].
    unfold abs_ready in Hm. destruct (decide (q = rq_of n)) as [->|Hq'].
    + rewrite fn_lookup_insert in Hm. assert (m = n ∨ m ∈ R (rq_of n)) as [->|Hm'].
      { destruct (decide (rq_of n = USER_Q)) as [E|]; [rewrite E; rewrite elem_of_cons in Hm; done|].
        rewrite elem_of_app, list_elem_of_singleton in Hm. tauto. }
      * congruence.
      * by eapply Hf.
    + rewrite fn_lookup_insert_ne in Hm by done. by eapply Hf.
Qed.

(** Blocking the process that runs. *)
Lemma unready_ok k Q R W n r : ipc_ok k Q R W → procs k !! n = Some r →
  ∃ k', unready n k = Ok k' () ∧ ipc_ok k' Q (abs_unready n R) W ∧ qframe k k' ∧ ∀ q, n ∉ abs_unready n R q.
Proof.
  intros [Hs Hi Hf] Hn. destruct (unready_spec k Q R n r) as (k' & Hrun & HR & Hq & _);
    [apply Hs|apply Hs|apply Hs|done|intros; by eapply (si_guard _ _ _ Hs)|].
  exists k'. split; [done|].
  assert (Hsub : ∀ q m, m ∈ abs_unready n R q → m ∈ R q ∧ m ≠ n).
  { intros q m. unfold abs_unready. destruct (decide (q = rq_of n)) as [->|Hq'].
    - rewrite fn_lookup_insert. intros [? ?]%list_elem_of_filter. done.
    - rewrite fn_lookup_insert_ne by done. intros Hm. split; [done|]. intros ->. apply Hq'. symmetry.
      eapply rq_class; [apply Hs|done]. }
  split_and!; [|done|intros q Hq'%Hsub; tauto]. constructor.
  - by eapply sched_inv_qframe.
  - by eapply ipc_inv_qframe.
  - intros q m rm [Hm _]%Hsub Hrm. assert (is_Some (procs k !! m)) as [r0 Hr0] by (apply (qframe_is_Some _ _ _ Hq); eauto).
    destruct (core_ipc r0 rm) as (_ & -> & _); [by eapply qframe_pair|]. by eapply Hf.
Qed.

(** Every queue is shorter than the fuel. *)
Lemma queue_short ps W d : ptab ps → ipc_inv ps W → (length (W d) ≤ 43)%nat.
Proof.
  intros Hp Hi. apply (NoDup_range_length (- NR_TASKS) NR_PROCS); [apply Hi|].
  intros x (r & Hr & _)%(ii_send _ _ Hi). apply Hp. eauto.
Qed.

Lemma callerq_last_spec fuel k x l t : schain (procs k) (Some x) (l ++ [t]) None → (length l < fuel)%nat →
  callerq_last fuel x k = Ok k t.
Proof.
  revert x l. induction fuel as [|fuel IH]; intros x l Hc Hf; [lia|]. cbn [callerq_last].
  destruct l as [|y l]; cbn in Hc; destruct Hc as ([= <-] & r & Hr & Hc); krun.
  - by rewrite Hc.
  - cbn in Hf. destruct l as [|z l]; cbn in Hc |- *; destruct Hc as (E & Hc); rewrite E.
    + apply (IH t []); [by split|cbn; lia].
    + apply (IH z (z :: l)); [by split|cbn in *; lia].
Qed.

Lemma find_sender_spec fuel k src : (∀ n r, procs k !! n = Some r → p_nr r = n) → ∀ l prev o,
  schain (procs k) o l None → (length l < fuel)%nat →
  (find_sender fuel prev o src k = Ok k None ∧ Forall (λ x, accepts src x = false) l) ∨
  ∃ l1 x l2, l = l1 ++ x :: l2 ∧ accepts src x = true ∧ Forall (λ x, accepts src x = false) l1 ∧
    find_sender fuel prev o src k = Ok k (Some (if list.last l1 is Some p then Some p else prev, x)).
Proof.
  intros Hnr. induction fuel as [|fuel IH]; intros l prev o Hc Hf; [lia|]. cbn [find_sender].
  destruct l as [|x l]; cbn in Hc; [left; rewrite Hc; split; [done|constructor]|].
  destruct Hc as (-> & r & Hr & Hc). krun. rewrite (Hnr _ _ Hr). change ((src =? ANY) || (src =? x)) with (accepts src x).
  destruct (accepts src x) eqn:E.
  - right. exists [], x, l. done.
  - cbn in Hf. destruct (IH l (Some x) (p_sendlink r) Hc) as [[Hrun Hall]|(l1 & y & l2 & -> & Hy & Hall & Hrun)]; [lia| |].
    + left. split; [done|by constructor].
    + right. exists (x :: l1), y, l2. split_and!; try done; [by constructor|]. rewrite Hrun. do 3 f_equal.
      destruct (snoc_cases l1) as [->|(l' & t & ->)]; [done|]. by rewrite last_snoc, (app_comm_cons l'), last_snoc.
Qed.

(** Which destinations: the console is the only state it writes. *)
Lemma send_allowed_spec k c d r rd : procs k !! c = Some r → procs k !! d = Some rd →
  ∃ con, send_allowed c d k = Ok (k <| console := con |>) (negb (isuserp c && negb (issysmrt d))).
Proof.
  intros Hr Hrd. unfold send_allowed, sv_test. krun. assert (k = k <| console := console k |>) as Ek by (by destruct k).
  destruct (TEST_BIT _ _); cbn [negb]; [|by exists (console k); rewrite <- Ek].
  destruct (isuserp c); cbn [negb andb]; [|by exists (console k); rewrite <- Ek].
  destruct (issysmrt d); cbn [negb]; [|by exists (console k); rewrite <- Ek].
  krun. unfold printf. destruct (_ && _); krun; [by eexists|]. by exists (console k); rewrite <- Ek.
Qed.

#[local] Arguments callerq_last : simpl never.
#[local] Arguments find_sender : simpl never.
#[local] Arguments deadlock_from : simpl never.

(** One slot changes, and with it neither links nor the right to send. *)
Lemma ipc_ok_insert k k' Q R W n r r' : ipc_ok k Q R W → procs k !! n = Some r → procs k' = <[n := r']> (procs k) →
  lm k' = lm k → rdy_head k' = rdy_head k → rdy_tail k' = rdy_tail k →
  p_nextready r' = p_nextready r → rt r' = rt r → p_stguard r' = p_stguard r →
  p_nr r' = p_nr r → p_callerq r' = p_callerq r → p_sendlink r' = p_sendlink r →
  sending r' = sending r → p_sendto r' = p_sendto r →
  (receiving r' = true →
     receiving r = true ∧ p_getfrom r' = p_getfrom r ∨
     if sending r then p_getfrom r' = p_sendto r else ∀ x, x ∈ W n → accepts (p_getfrom r') x = false) →
  (p_flags r' = p_flags r ∨ ∀ q, n ∉ R q) →
  ipc_ok k' Q R W.
Proof.
  intros [Hs Hi Hf] Hn Ep ? ? ? ? ? ? ? ? ? ? ? Hrc Hfl.
  assert (Hdom : ∀ m, is_Some (procs k' !! m) ↔ is_Some (procs k !! m)) by (intros m; rewrite Ep; by eapply insert_dom).
  assert (Hcase : ∀ m x x', procs k !! m = Some x → procs k' !! m = Some x' → (m = n ∧ x = r ∧ x' = r') ∨ (m ≠ n ∧ x' = x)).
  { intros m x x' Hx. rewrite Ep. destruct (decide (m = n)) as [->|Hm].
    - rewrite lookup_insert_eq. intros [= <-]. left. split_and!; [done|congruence|done].
    - rewrite lookup_insert_ne by done. right. split; [done|congruence]. }
  constructor.
  - apply (sched_inv_procs k); try done. intros m x x' Hx Hx'. destruct (Hcase _ _ _ Hx Hx') as [(-> & -> & ->)|[_ ->]]; done.
  - apply (ipc_inv_update (procs k)); try done. intros m x x' Hx Hx'.
    destruct (Hcase _ _ _ Hx Hx') as [(-> & -> & ->)|[_ ->]]; split_and!; try done. by left.
  - intros q m x' Hm Hx'. destruct (proj1 (Hdom m)) as [x Hx]; [eauto|].
    destruct (Hcase _ _ _ Hx Hx') as [(-> & -> & ->)|[_ ->]]; [|by eapply Hf].
    destruct Hfl as [->|Hfl]; [by eapply Hf|]. by destruct (Hfl q).
Qed.

(** Fields the invariants do not mention. *)
Lemma ipc_ok_other k k' Q R W : ipc_ok k Q R W → procs k' = procs k → lm k' = lm k → rdy_head k' = rdy_head k →
  rdy_tail k' = rdy_tail k → ipc_ok k' Q R W.
Proof.
  intros [Hs Hi Hf] Ep El Eh Et. constructor; rewrite ?Ep; [|done..].
  apply (sched_inv_procs k); try done; rewrite Ep; [done|]. intros n r r' Hr Hr'. assert (r' = r) as -> by congruence. done.
Qed.

Lemma block_sender_spec k Q R W c d m rc rd : ipc_ok k Q R W → procs k !! c = Some rc → p_flags rc = 0 →
  procs k !! d = Some rd → c ≠ d → ¬ tc (sends (procs k)) d c →
  (receiving rd = true → sending rd = false → accepts (p_getfrom rd) c = false) →
  ∃ k' R' rc', block_sender c d m k = Ok k' () ∧ ipc_ok k' Q R' (<[d := W d ++ [c]]> W) ∧
    um k' = um k ∧ sig_procs k' = sig_procs k ∧ procs k' !! c = Some rc' ∧
    p_flags rc' = SENDING ∧ p_sendto rc' = d ∧ p_messbuf rc' = m.
Proof.
  intros Hok Hc Hfl Hd Hcd Hdl Hacc. unfold block_sender. krun. cbn. rewrite Hfl. cbn.
  set (rc0 := rc <| p_messbuf := m |>). set (k0 := k <| procs ::= <[c := rc0]> |>).
  assert (Hok0 : ipc_ok k0 Q R W).
  { eapply (ipc_ok_insert k k0 Q R W c rc rc0); try done; by left. }
  destruct (unready_ok k0 Q R W c rc0 Hok0) as (k1 & Hrun & Hok1 & Hq & Hnot); [apply lookup_insert_eq|]. set (R1 := abs_unready c R) in *.
  rewrite (bind_ok _ _ _ _ _ Hrun). clear Hrun.
  destruct (qframe_lookup _ _ c rc0 Hq) as (rc1 & Hc1 & Ec); [apply lookup_insert_eq|].
  destruct (qframe_lookup _ _ d rd Hq) as (rd1 & Hd1 & Ed); [cbn; by rewrite lookup_insert_ne|].
  destruct (core_ipc _ _ Ec) as (_ & Ecf & _ & _ & _ & _ & Ecm & _). destruct (core_ipc _ _ Ed) as (_ & Edf & Edq & _ & _ & Edg & _).
  cbn in Ecf, Ecm. rewrite Hfl in Ecf.
  assert (Hsends : ∀ x y, sends (procs k1) x y ↔ sends (procs k) x y).
  { intros x y. rewrite <- (ii_send _ _ (io_ipc _ _ _ _ Hok1)). apply (ii_send _ _ (io_ipc _ _ _ _ Hok)). }
  assert (Hdl1 : ¬ tc (sends (procs k1)) d c).
  { intros Ht. apply Hdl. clear -Ht Hsends. induction Ht as [? ? ?%Hsends|? ? ? ?%Hsends]; [by apply tc_once|by eapply tc_l]. }
  assert (Hacc1 : receiving rd1 = true → sending rd1 = false → accepts (p_getfrom rd1) c = false).
  { unfold receiving, sending. by rewrite Edf, Edg. }
  unfold set_flags. krun. cbn.
  pose proof (ii_q _ _ (io_ipc _ _ _ _ Hok1) d rd1 Hd1) as Hch.
  assert (Hum : um k1 = um k) by (by rewrite (qf_um _ _ Hq)). assert (Hsig : sig_procs k1 = sig_procs k) by (by rewrite (qf_sig _ _ Hq)).
  assert (HcW : ∀ n, c ∉ W n).
  { intros n (r & Hr & E & _)%(ii_send _ _ (io_ipc _ _ _ _ Hok)). assert (r = rc) as -> by congruence. unfold sending in E. by rewrite Hfl in E. }
  (* the state reached, whatever the queue looked like *)
  assert (Hfin : ∀ k2 rc2, procs k2 !! c = Some rc2 → p_flags rc2 = Z.lor (p_flags rc1) SENDING → p_sendto rc2 = d →
    p_messbuf rc2 = p_messbuf rc1 → lm k2 = lm k1 → rdy_head k2 = rdy_head k1 → rdy_tail k2 = rdy_tail k1 → um k2 = um k1 →
    sig_procs k2 = sig_procs k1 → enqueued (procs k1) (procs k2) W c d →
    (∀ n r r', procs k1 !! n = Some r → procs k2 !! n = Some r' →
       p_nextready r' = p_nextready r ∧ rt r' = rt r ∧ p_stguard r' = p_stguard r) →
    ∃ k' R' rc', (Ok k2 () : res kstate unit) = Ok k' () ∧ ipc_ok k' Q R' (<[d := W d ++ [c]]> W) ∧
    um k' = um k ∧ sig_procs k' = sig_procs k ∧ procs k' !! c = Some rc' ∧
    p_flags rc' = SENDING ∧ p_sendto rc' = d ∧ p_messbuf rc' = m).
  { intros k2 rc2 Hc2 Ef Eto Em El Eh Et Eu Eg Hen Hsc. exists k2, R1, rc2.
    split_and!; try congruence; [|rewrite Ef, Ecf; done]. destruct Hok1 as [Hs1 Hi1 Hf1]. constructor.
    - apply (sched_inv_procs k1); try done. apply Hen.
    - eapply ipc_inv_enqueue; try done. unfold sending. by rewrite Ecf.
    - intros q n r' Hn Hr'. destruct (proj1 (en_dom _ _ _ _ _ Hen n)) as [r Hr]; [eauto|].
      destruct (en_upd _ _ _ _ _ Hen _ _ _ Hr Hr') as (_ & _ & _ & H2). destruct H2 as (-> & _); [intros ->; by apply (Hnot q)|]. by eapply Hf1. }
  destruct (snoc_cases (W d)) as [EW|(l & t & EW)]; rewrite EW in Hch.
  - cbn in Hch. rewrite Hch. krun. eapply Hfin; [apply lookup_insert_eq|reflexivity..| |]; cbn.
    + constructor.
      * intros n. rewrite !(lookup_insert_is_Some' _ _ n). naive_solver.
      * intros n r r' Hr Hr'. rewrite EW. destruct (decide (n = c)) as [->|Hnc].
        { rewrite lookup_insert_eq in Hr'. injection Hr' as <-. assert (r = rc1) as -> by congruence.
          rewrite bool_decide_false by naive_solver. split_and!; try done. intros _. unfold sending, receiving. cbn. by rewrite Ecf. }
        rewrite lookup_insert_ne in Hr' by done. destruct (decide (n = d)) as [->|Hnd].
        { rewrite lookup_insert_eq in Hr'. injection Hr' as <-. assert (r = rd1) as -> by congruence.
          rewrite bool_decide_true by done. split_and!; try done. }
        rewrite !lookup_insert_ne in Hr' by done. assert (r' = r) as -> by congruence. rewrite bool_decide_false by naive_solver.
        split_and!; try done.
    + intros n r r' Hr Hr'. destruct (decide (n = c)) as [->|Hnc].
      { rewrite lookup_insert_eq in Hr'. injection Hr' as <-. assert (r = rc1) as -> by congruence. done. }
      rewrite lookup_insert_ne in Hr' by done. destruct (decide (n = d)) as [->|Hnd].
      { rewrite lookup_insert_eq in Hr'. injection Hr' as <-. assert (r = rd1) as -> by congruence. done. }
      rewrite !lookup_insert_ne in Hr' by done. assert (r' = r) as -> by congruence. done.
  - destruct (schain_snoc_end _ _ _ _ _ Hch) as (rt1 & Ht & Et).
    assert (Htd : sends (procs k1) t d) by (apply (ii_send _ _ (io_ipc _ _ _ _ Hok1)); rewrite EW; set_solver).
    assert (Htc : t ≠ c) by (intros ->; apply (HcW d); rewrite EW; set_solver).
    assert (Htd' : t ≠ d) by (intros ->; apply (ii_acyclic _ _ (io_ipc _ _ _ _ Hok1) d); by apply tc_once).
    assert (∃ q0, p_callerq rd1 = Some q0) as (q0 & Eq).
    { destruct l as [|x l]; cbn in Hch; destruct Hch as [-> _]; eauto. }
    rewrite Eq. set (k2 := upd procs (insert c _) (upd procs (insert c _) k1)).
    assert (Hlast : callerq_last ipc_fuel q0 k2 = Ok k2 t).
    { apply (callerq_last_spec _ _ _ l); [|].
      - rewrite <- Eq. apply (schain_frame (procs k1)); [|done]. intros x Hx. cbn. rewrite !lookup_insert_ne; [done|intros <-; rewrite <- EW in Hx; by apply (HcW d)..].
      - pose proof (queue_short _ _ d (si_ptab _ _ _ (io_sched _ _ _ _ Hok1)) (io_ipc _ _ _ _ Hok1)) as Hlen.
        rewrite EW, length_app in Hlen. cbn in Hlen. unfold ipc_fuel. lia. }
    krun. rewrite (bind_ok _ _ _ _ _ Hlast). unfold k2. krun.
    eapply Hfin; [apply lookup_insert_eq|reflexivity..| |]; cbn.
    + constructor.
      * intros n. rewrite !(lookup_insert_is_Some' _ _ n). naive_solver.
      * intros n r r' Hr Hr'. rewrite EW, last_snoc, (bool_decide_false (n = d ∧ _)) by (intros [_ ?]; by destruct l).
        destruct (decide (n = c)) as [->|Hnc].
        { rewrite lookup_insert_eq in Hr'. injection Hr' as <-. assert (r = rc1) as -> by congruence.
          split_and!; try done. intros _. unfold sending, receiving. cbn. by rewrite Ecf. }
        rewrite lookup_insert_ne in Hr' by done. destruct (decide (n = t)) as [->|Hnt].
        { rewrite lookup_insert_eq in Hr'. injection Hr' as <-. assert (r = rt1) as -> by congruence.
          rewrite bool_decide_true by done. split_and!; try done. }
        rewrite !lookup_insert_ne in Hr' by done. assert (r' = r) as -> by congruence. rewrite bool_decide_false by naive_solver.
        split_and!; try done.
    + intros n r r' Hr Hr'. destruct (decide (n = c)) as [->|Hnc].
      { rewrite lookup_insert_eq in Hr'. injection Hr' as <-. assert (r = rc1) as -> by congruence. done. }
      rewrite lookup_insert_ne in Hr' by done. destruct (decide (n = t)) as [->|Hnt].
      { rewrite lookup_insert_eq in Hr'. injection Hr' as <-. assert (r = rt1) as -> by congruence. done. }
      rewrite !lookup_insert_ne in Hr' by done. assert (r' = r) as -> by congruence. done.
Qed.

(** User memory after a message went from buffer [a] to buffer [b]. *)
Definition copied (u : umem) (src a b : Z) : umem :=
  u <| um_mess ::= λ f, <[b := (f a) <| m_source := src |>]> f |>.

(** A blocked process is not in a ready queue. *)
Lemma blocked_not_ready k Q R W n r q : ipc_ok k Q R W → procs k !! n = Some r → p_flags r ≠ 0 → n ∉ R q.
Proof. intros [_ _ Hf] Hn H0 Hin. apply H0. by eapply Hf. Qed.

(** [set_flags n f], then [ready] when nothing blocks [n] any more. *)
Lemma unblock_spec k Q R W n r : ipc_ok k Q R W → procs k !! n = Some r → (∀ q, n ∉ R q) →
  ∃ k' r', (if p_flags r =? 0 then ready n else mret ()) k = Ok k' () ∧ ipc_ok k' Q (if p_flags r =? 0 then abs_ready n R else R) W ∧
    qframe k k' ∧ procs k' !! n = Some r' ∧ core r' = core r.
Proof.
  intros Hok Hn Hnot. destruct (Z.eqb_spec (p_flags r) 0) as [E|E].
  - destruct (ready_ok k Q R W n r Hok Hn (Hnot _) E) as (k' & Hrun & Hok' & Hq).
    destruct (qframe_lookup _ _ _ _ Hq Hn) as (r' & Hr' & Ec). by exists k', r'.
  - by exists k, r.
Qed.

(** What [mini_send] returns. *)
Definition send_result (k : kstate) (c d : Z) (rc rd : proc) (m : Z) (locked : bool) : Z :=
  if isuserp c && negb (issysmrt d) then E_BAD_DEST
  else if TEST_BIT (p_flags rd) P_SLOT_FREE then E_BAD_DEST
  else if negb (mess_in_range rc m) then EFAULT
  else if locked then ELOCKED
  else OK.

Lemma is_waiting_bits c r : is_waiting c r = receiving r && negb (sending r) && accepts (p_getfrom r) c.
Proof. unfold is_waiting. by rewrite waiting_bits. Qed.

Lemma mini_send_spec k Q R W c d m rc rd : ipc_ok k Q R W → procs k !! c = Some rc → p_flags rc = 0 →
  procs k !! d = Some rd → c ≠ d →
  ∃ k' R' locked, mini_send c d m k = Ok k' (send_result k c d rc rd m locked) ∧
    (locked = true ↔ tc (sends (procs k)) d c) ∧ sig_procs k' = sig_procs k ∧
    (if negb (send_result k c d rc rd m locked =? OK) then procs k' = procs k ∧ um k' = um k ∧ ipc_ok k' Q R W
     else if is_waiting c rd then
       um k' = copied (um k) c (mess_addr rc m) (mess_addr rd (p_messbuf rd)) ∧ ipc_ok k' Q R' W ∧
       (∃ rd', procs k' !! d = Some rd' ∧ p_flags rd' = Z.land (p_flags rd) (Z.lnot RECEIVING)) ∧
       ∃ rc', procs k' !! c = Some rc' ∧ core rc' = core rc
     else um k' = um k ∧ ipc_ok k' Q R' (<[d := W d ++ [c]]> W) ∧
       ∃ rc', procs k' !! c = Some rc' ∧ p_flags rc' = SENDING ∧ p_sendto rc' = d ∧ p_messbuf rc' = m).
Proof.
  intros Hok Hc Hfl Hd Hcd. unfold mini_send.
  destruct (send_allowed_spec k c d rc rd Hc Hd) as (con & Hal). rewrite (bind_ok _ _ _ _ _ Hal). clear Hal.
  set (k0 := k <| console := con |>). assert (Hok0 : ipc_ok k0 Q R W) by (by eapply ipc_ok_other).
  pose proof (ii_nr _ _ (io_ipc _ _ _ _ Hok) _ _ Hc) as Hnr.
  destruct (deadlock_spec k0 d c) as (b & Hdl & Hb); [apply Hok0|apply Hok0|apply Hok0|by exists rd|].
  unfold send_result. destruct (isuserp c && negb (issysmrt d)); cbn [negb]; [by exists k0, R, b|].
  krun. destruct (TEST_BIT (p_flags rd) P_SLOT_FREE); [by exists k0, R, b|]. krun.
  destruct (mess_in_range rc m); cbn [negb]; [|by exists k0, R, b]. rewrite (bind_ok _ _ _ _ _ Hdl). clear Hdl.
  destruct b; cbn [negb]; [by exists k0, R, true|]. rewrite Hnr. destruct (is_waiting c rd) eqn:Ew.
  - rewrite is_waiting_bits, !andb_true_iff, negb_true_iff in Ew. destruct Ew as [[Erc Esn] _].
    assert (Hnz : p_flags rd ≠ 0) by (intros E; unfold receiving in Erc; by rewrite E in Erc).
    unfold CopyMess, set_flags. krun. set (k1 := upd procs _ _). set (rd1 := upd p_flags _ rd).
    assert (Hok1 : ipc_ok k1 Q R W).
    { eapply (ipc_ok_insert k0 k1 Q R W d rd rd1); try done; unfold sending, receiving;
        rewrite ?(eq_refl : p_flags rd1 = Z.land (p_flags rd) (Z.lnot RECEIVING)), ?clr_RECEIVING by done; try done.
      - right. intros q. by eapply blocked_not_ready. }
    destruct (unblock_spec k1 Q R W d rd1 Hok1) as (k2 & rd2 & Hrun & Hok2 & Hq & Hd2 & Ed2).
    { apply lookup_insert_eq. } { intros q. by eapply (blocked_not_ready k0). }
    rewrite (bind_ok _ _ _ _ _ Hrun). eexists k2, _, false. split; [done|]. split; [done|]. split; [by rewrite (qf_sig _ _ Hq)|]. cbn [negb Z.eqb].
    split_and!; [by rewrite (qf_um _ _ Hq)|exact Hok2| |].
    + exists rd2. split; [done|]. destruct (core_ipc _ _ Ed2) as (_ & -> & _). done.
    + destruct (qframe_lookup _ _ c rc Hq) as (rc2 & Hc2 & Ec2); [cbn; by rewrite lookup_insert_ne|]. eauto.
  - rewrite is_waiting_bits in Ew.
    destruct (block_sender_spec k0 Q R W c d m rc rd) as (k2 & R2 & rc2 & Hrun & Hok2 & Hum & Hsig & Hc2 & Hf2 & Ht2 & Hm2); try done.
    { intros Ht. by apply Hb in Ht. }
    { intros E1 E2. by rewrite E1, E2 in Ew. }
    rewrite (bind_ok _ _ _ _ _ Hrun). exists k2, R2, false.
    split; [done|]. split; [done|]. split; [done|]. split; [done|]. split; [done|]. by exists rc2.
Qed.

(** ** Receiving *)

(** The state after the sender [x] left the queue of [c]. *)
Lemma dequeue_ok k k1 Q R W c x l1 l2 rx : ipc_ok k Q R W → W c = l1 ++ x :: l2 → procs k !! x = Some rx →
  lm k1 = lm k → rdy_head k1 = rdy_head k → rdy_tail k1 = rdy_tail k →
  dequeued (procs k) (procs k1) c x l1 (p_sendlink rx) →
  (∀ n r r', procs k !! n = Some r → procs k1 !! n = Some r' →
     p_nextready r' = p_nextready r ∧ rt r' = rt r ∧ p_stguard r' = p_stguard r) →
  ipc_ok k1 Q R (<[c := l1 ++ l2]> W) ∧ ∀ q, x ∉ R q.
Proof.
  intros Hok HW Hx El Eh Et Hdq Hsc. pose proof Hok as [Hs Hi Hf].
  assert (Hnot : ∀ q, x ∉ R q).
  { intros q. eapply blocked_not_ready; [done..|]. intros E.
    assert (sends (procs k) x c) as (r & Hr & Es & _) by (apply (ii_send _ _ Hi); rewrite HW; set_solver).
    assert (r = rx) as -> by congruence. unfold sending in Es. by rewrite E in Es. }
  split; [|done]. constructor.
  - apply (sched_inv_procs k); try done. apply Hdq.
  - eapply ipc_inv_dequeue; try done. apply Hs.
  - intros q n r' Hn Hr'. destruct (proj1 (dq_dom _ _ _ _ _ _ Hdq n)) as [r Hr]; [eauto|].
    destruct (dq_upd _ _ _ _ _ _ Hdq _ _ _ Hr Hr') as (_ & _ & _ & -> & _).
    rewrite bool_decide_false by (intros ->; by apply (Hnot q)). by eapply Hf.
Qed.

Definition sched_same (ps ps' : gmap Z proc) : Prop := ∀ n r r', ps !! n = Some r → ps' !! n = Some r' →
  p_nextready r' = p_nextready r ∧ rt r' = rt r ∧ p_stguard r' = p_stguard r.

(** The two ways out of the queue: from its head, and from behind [t]. *)
Lemma dequeued_head ps c x rc rx nx : ps !! c = Some rc → ps !! x = Some rx → x ≠ c →
  let ps' := <[x := rx <| p_flags ::= λ f, Z.land f (Z.lnot SENDING) |>]> (<[c := rc <| p_callerq := nx |>]> ps) in
  dequeued ps ps' c x [] nx ∧ sched_same ps ps'.
Proof.
  intros Hc Hx Hxc ps'. split; [constructor|].
  - intros n. unfold ps'. rewrite !(lookup_insert_is_Some' _ _ n). naive_solver.
  - intros n r r' Hr. unfold ps'. rewrite !lookup_insert_Some. intros [[<- <-]|(Hnx & [[<- <-]|(Hnc & Hr')])].
    + assert (r = rx) as -> by congruence. rewrite bool_decide_true, !bool_decide_false by (done || naive_solver). done.
    + assert (r = rc) as -> by congruence. rewrite (bool_decide_false (c = x)), bool_decide_true, bool_decide_false by done. done.
    + assert (r' = r) as -> by congruence. rewrite (bool_decide_false (n = x)), !bool_decide_false by (done || naive_solver). done.
  - intros n r r' Hr. unfold ps'. rewrite !lookup_insert_Some. intros [[<- <-]|(Hnx & [[<- <-]|(Hnc & Hr')])].
    + assert (r = rx) as -> by congruence. done.
    + assert (r = rc) as -> by congruence. done.
    + assert (r' = r) as -> by congruence. done.
Qed.

Lemma dequeued_after ps c x l t rt0 rx nx : ps !! t = Some rt0 → ps !! x = Some rx → x ≠ t →
  let ps' := <[x := rx <| p_flags ::= λ f, Z.land f (Z.lnot SENDING) |>]> (<[t := rt0 <| p_sendlink := nx |>]> ps) in
  dequeued ps ps' c x (l ++ [t]) nx ∧ sched_same ps ps'.
Proof.
  intros Ht Hx Hxt ps'. split; [constructor|].
  - intros n. unfold ps'. rewrite !(lookup_insert_is_Some' _ _ n). naive_solver.
  - intros n r r' Hr. unfold ps'. rewrite last_snoc, !lookup_insert_Some, (bool_decide_false (n = c ∧ _)) by (intros [_ ?]; by destruct l).
    intros [[<- <-]|(Hnx & [[<- <-]|(Hnc & Hr')])].
    + assert (r = rx) as -> by congruence. rewrite bool_decide_true, bool_decide_false by (done || naive_solver). done.
    + assert (r = rt0) as -> by congruence. rewrite bool_decide_false, bool_decide_true by done. done.
    + assert (r' = r) as -> by congruence. rewrite !bool_decide_false by (done || naive_solver). done.
  - intros n r r' Hr. unfold ps'. rewrite !lookup_insert_Some. intros [[<- <-]|(Hnx & [[<- <-]|(Hnc & Hr')])].
    + assert (r = rx) as -> by congruence. done.
    + assert (r = rt0) as -> by congruence. done.
    + assert (r' = r) as -> by congruence. done.
Qed.

Lemma accept_sender_spec k Q R W c m rc x l1 l2 rx : ipc_ok k Q R W → procs k !! c = Some rc →
  W c = l1 ++ x :: l2 → procs k !! x = Some rx →
  let fx := Z.land (p_flags rx) (Z.lnot SENDING) in
  ∃ k' rx', accept_sender c m (list.last l1) x k = Ok k' () ∧ ipc_ok k' Q (if fx =? 0 then abs_ready x R else R) (<[c := l1 ++ l2]> W) ∧
    um k' = copied (um k) x (mess_addr rx (p_messbuf rx)) (mess_addr rc m) ∧ sig_procs k' = sig_procs k ∧
    procs k' !! x = Some rx' ∧ p_flags rx' = fx.
Proof.
  intros Hok Hc HW Hx fx. pose proof (io_ipc _ _ _ _ Hok) as Hi.
  assert (Hxc : x ≠ c).
  { intros ->. apply (ii_acyclic _ _ Hi c), tc_once. apply (ii_send _ _ Hi). rewrite HW. set_solver. }
  pose proof (ii_q _ _ Hi _ _ Hc) as Hch. rewrite HW in Hch.
  pose proof (ii_nodup _ _ Hi c) as Hnd. rewrite HW in Hnd.
  set (rx1 := rx <| p_flags ::= λ f, Z.land f (Z.lnot SENDING) |>).
  set (k0 := k <| um := copied (um k) x (mess_addr rx (p_messbuf rx)) (mess_addr rc m) |>).
  assert (Hfin : ∀ k1, um k1 = um k0 → sig_procs k1 = sig_procs k → lm k1 = lm k → rdy_head k1 = rdy_head k → rdy_tail k1 = rdy_tail k →
    procs k1 !! x = Some rx1 → dequeued (procs k) (procs k1) c x l1 (p_sendlink rx) ∧ sched_same (procs k) (procs k1) →
    ∃ k' rx', (if p_flags rx1 =? 0 then ready x else mret ()) k1 = Ok k' () ∧ ipc_ok k' Q (if fx =? 0 then abs_ready x R else R) (<[c := l1 ++ l2]> W) ∧
    um k' = copied (um k) x (mess_addr rx (p_messbuf rx)) (mess_addr rc m) ∧ sig_procs k' = sig_procs k ∧
    procs k' !! x = Some rx' ∧ p_flags rx' = fx).
  { intros k1 Eu Eg El Eh Et Hx1 [Hdq Hsc].
    destruct (dequeue_ok k k1 Q R W c x l1 l2 rx) as [Hok1 Hnot]; try done.
    destruct (unblock_spec k1 Q R _ x rx1 Hok1 Hx1 Hnot) as (k2 & rx2 & Hrun & Hok2 & Hq & Hx2 & Ex2).
    exists k2, rx2. rewrite (qf_um _ _ Hq), (qf_sig _ _ Hq). split_and!; try done. by destruct (core_ipc _ _ Ex2) as (_ & -> & _). }
  unfold accept_sender. krun. rewrite (ii_nr _ _ Hi _ _ Hx). unfold CopyMess, set_flags. krun.
  destruct (snoc_cases l1) as [->|(l & t & ->)].
  - cbn in Hch. destruct Hch as [-> _]. rewrite bool_decide_true by done. krun.
    apply Hfin; cbn; try done; [apply lookup_insert_eq|]. by apply dequeued_head.
  - destruct (schain_snoc_end (procs k) (p_callerq rc) l t (Some x)) as (rt0 & Ht & _).
    { apply schain_app in Hch as (o & Hch & [-> _]). done. }
    assert (Hxt : x ≠ t) by (intros ->; apply NoDup_app in Hnd as (_ & Hd & _); apply (Hd t); set_solver).
    rewrite bool_decide_false.
    2: { destruct l as [|y l]; cbn in Hch; destruct Hch as [-> _]; [congruence|]. intros [= ->].
         apply NoDup_app in Hnd as (_ & Hd & _). apply (Hd x); set_solver. }
    rewrite last_snoc. krun. apply Hfin; cbn; try done; [apply lookup_insert_eq|]. by apply dequeued_after.
Qed.

(** What a receive that blocks ends with: the memory manager, waiting for anybody,
    is told about a process with pending signals. *)
Definition mm_inform (ma c src : Z) : K Z :=
  n ← gets sig_procs;
  (if (n >? 0) && (c =? MM_PROC_NR) && (src =? ANY) then inform ma else mret ());;
  mret OK.

Lemma block_receiver_spec k Q R W ma c src m rc : ipc_ok k Q R W → procs k !! c = Some rc →
  receiving rc = false → (∀ x, p_flags rc = 0 → x ∈ W c → accepts src x = false) →
  (p_flags rc ≠ 0 → sending rc = true ∧ src = p_sendto rc) →
  ∃ k' rc', block_receiver ma c src m k = mm_inform ma c src k' ∧ ipc_ok k' Q (if p_flags rc =? 0 then abs_unready c R else R) W ∧
    um k' = um k ∧ sig_procs k' = sig_procs k ∧
    procs k' !! c = Some rc' ∧ p_flags rc' = Z.lor (p_flags rc) RECEIVING ∧ p_getfrom rc' = src ∧ p_messbuf rc' = m.
Proof.
  intros Hok Hc Hrc Hacc Hboth. unfold block_receiver. krun. cbn.
  set (rc0 := rc <| p_getfrom := src |> <| p_messbuf := m |>). set (k0 := k <| procs ::= <[c := rc0]> |>). set (R1 := if _ : bool then _ else R).
  assert (Hok0 : ipc_ok k0 Q R W).
  { eapply (ipc_ok_insert k k0 Q R W c rc rc0); try done; [|by left]. change (receiving rc0) with (receiving rc). congruence. }
  assert (∃ k1 rc1, (if p_flags rc =? 0 then unready c else mret ()) k0 = Ok k1 () ∧ ipc_ok k1 Q R1 W ∧ qframe k0 k1 ∧
    (∀ q, c ∉ R1 q) ∧ procs k1 !! c = Some rc1 ∧ core rc1 = core rc0) as (k1 & rc1 & Hrun & Hok1 & Hq & Hnot & Hc1 & Ec).
  { unfold R1. destruct (Z.eqb_spec (p_flags rc) 0) as [E|E].
    - destruct (unready_ok k0 Q R W c rc0 Hok0) as (k1 & Hrun & Hok1 & Hq & Hnot); [apply lookup_insert_eq|].
      destruct (qframe_lookup _ _ c rc0 Hq) as (rc1 & Hc1 & Ec); [apply lookup_insert_eq|]. by exists k1, rc1.
    - exists k0, rc0. split_and!; try done; [|apply lookup_insert_eq]. intros q. by apply (blocked_not_ready k Q R W c rc q). }
  rewrite (bind_ok _ _ _ _ _ Hrun). clear Hrun. unfold set_flags. krun.
  destruct (core_ipc _ _ Ec) as (_ & Ef & _ & _ & Eto & Eg & Em & _). cbn in Ef, Eto, Eg, Em.
  rewrite (ii_nr _ _ (io_ipc _ _ _ _ Hok) _ _ Hc).
  eexists _, _. split; [reflexivity|]. cbn. split_and!; [|by rewrite (qf_um _ _ Hq)|apply (qf_sig _ _ Hq)|apply lookup_insert_eq|cbn; by rewrite Ef|exact Eg|exact Em].
  eapply (ipc_ok_insert k1 _ Q R1 W c rc1); [exact Hok1|done|reflexivity|done..| | | |].
  - change (Z.testbit (Z.lor (p_flags rc1) RECEIVING) 2 = sending rc1). by rewrite set_RECEIVING.
  - done.
  - intros _. right. assert (sending rc1 = sending rc) as -> by (unfold sending; by rewrite Ef).
    destruct (Z.eq_dec (p_flags rc) 0) as [E|E].
    + assert (sending rc = false) as -> by (unfold sending; by rewrite E). intros x Hx.
      change (accepts (p_getfrom rc1) x = false). rewrite Eg. by apply Hacc.
    + destruct (Hboth E) as [-> Hs]. change (p_getfrom rc1 = p_sendto rc1). congruence.
  - by right.
Qed.

(** The first sender a receive accepts, and the senders left. *)
Fixpoint take_first (src : Z) (l : list Z) : option (Z * list Z) :=
  match l with
  | [] => None
  | x :: l' =>
      if accepts src x then Some (x, l')
      else match take_first src l' with Some (y, l'') => Some (y, x :: l'') | None => None end
  end.

Lemma take_first_split src l1 x l2 : Forall (λ x, accepts src x = false) l1 → accepts src x = true →
  take_first src (l1 ++ x :: l2) = Some (x, l1 ++ l2).
Proof. intros Hl Hx. induction Hl as [|y l1 Hy Hl IH]; cbn; [by rewrite Hx|by rewrite Hy, IH]. Qed.
Lemma take_first_none src l : Forall (λ x, accepts src x = false) l → take_first src l = None.
Proof. induction 1 as [|y l Hy Hl IH]; cbn; [done|by rewrite Hy, IH]. Qed.

(** [mini_rec] by [c] from [src] took the kernel from [k] to [k']: the caller was
    answered, by the first queued sender it accepts or by an interrupt, or it is
    blocked. *)
Record sender_accepted (k k' : kstate) (Q : lhead → list laddr) (R : readyq → list Z) (W : Z → list Z) (c m : Z) (rc : proc)
    (x : Z) (l : list Z) (rx rx' : proc) : Prop := {
  sa_rx : procs k !! x = Some rx;
  sa_rx' : procs k' !! x = Some rx';
  sa_copy : um k' = copied (um k) x (mess_addr rx (p_messbuf rx)) (mess_addr rc m);
  sa_unblock : p_flags rx' = Z.land (p_flags rx) (Z.lnot SENDING);
  sa_ready : ipc_ok k' Q (if p_flags rx' =? 0 then abs_ready x R else R) (<[c := l]> W);
}.

Record int_handed (k k' : kstate) (Q : lhead → list laddr) (R : readyq → list Z) (W : Z → list Z) (c m : Z) (rc : proc) : Prop := {
  ih_mess : um k' = (um k) <| um_mess ::= λ f, <[mess_addr rc m := (f (mess_addr rc m)) <| m_source := HARDWARE |> <| m_type := HARD_INT |>]> f |>;
  ih_procs : procs k' = <[c := rc <| p_int_blocked := false |>]> (procs k);
  ih_ok : ipc_ok k' Q R W;
}.

Record rec_blocked (k k' : kstate) (Q : lhead → list laddr) (R : readyq → list Z) (W : Z → list Z) (c src m : Z) (rc rc' : proc) : Prop := {
  rb_um : um k' = um k;
  rb_proc : procs k' !! c = Some rc';
  rb_flags : p_flags rc' = Z.lor (p_flags rc) RECEIVING;
  rb_from : p_getfrom rc' = src ∧ p_messbuf rc' = m;
  rb_unready : ipc_ok k' Q (if p_flags rc =? 0 then abs_unready c R else R) W;
}.

Definition received (ma : Z) (k : kstate) (r : res kstate Z) (k' : kstate) (Q : lhead → list laddr) (R : readyq → list Z) (W : Z → list Z)
    (c src m : Z) (rc : proc) : Prop :=
  sig_procs k' = sig_procs k ∧
  let blocked := r = mm_inform ma c src k' ∧ ∃ rc', rec_blocked k k' Q R W c src m rc rc' in
  if negb (p_flags rc =? 0) then blocked
  else match take_first src (W c) with
  | Some (x, l) => r = Ok k' OK ∧ ∃ rx rx', sender_accepted k k' Q R W c m rc x l rx rx'
  | None => if p_int_blocked rc && isrxhardware src then r = Ok k' OK ∧ int_handed k k' Q R W c m rc else blocked
  end.

Lemma mini_rec_spec k Q R W ma c src m rc : ipc_ok k Q R W → procs k !! c = Some rc →
  p_flags rc = 0 ∨ p_flags rc = SENDING ∧ src = p_sendto rc →
  ∃ k', received ma k (mini_rec ma c src m k) k' Q R W c src m rc.
Proof.
  intros Hok Hc Hfl. pose proof (io_ipc _ _ _ _ Hok) as Hi. unfold mini_rec, received. krun. rewrite test_SENDING.
  destruct Hfl as [E|[E ->]].
  2: { rewrite E. change (Z.testbit SENDING 2) with true. cbn [negb Z.eqb].
       destruct (block_receiver_spec k Q R W ma c (p_sendto rc) m rc) as (k' & rc' & Hrun & Hok' & Hum & Hsg & Hc' & Hf' & Hg' & Hm'); try done.
       - unfold receiving. by rewrite E.
       - intros x E0. by rewrite E in E0.
       - intros _. unfold sending. by rewrite E.
       - exists k'. split; [done|]. change (SENDING =? 0) with false. cbn [negb]. split; [done|]. by exists rc'. }
  rewrite E. change (Z.testbit 0 2) with false. cbn [negb Z.eqb].
  destruct (find_sender_spec ipc_fuel k src (ii_nr _ _ Hi) (W c) None (p_callerq rc) (ii_q _ _ Hi _ _ Hc))
    as [[Hrun Hall]|(l1 & x & l2 & EW & Hx & Hall & Hrun)].
  { pose proof (queue_short _ _ c (si_ptab _ _ _ (io_sched _ _ _ _ Hok)) Hi). unfold ipc_fuel. lia. }
  - rewrite (bind_ok _ _ _ _ _ Hrun), (take_first_none _ _ Hall). destruct (p_int_blocked rc && isrxhardware src).
    + unfold hard_int. krun. eexists. split; [|split; [reflexivity|]]; [done|]. constructor; [done|done|].
      eapply (ipc_ok_insert k _ Q R W c rc); [exact Hok|done|reflexivity|done..| |by left]. unfold receiving. cbn. by rewrite E.
    + destruct (block_receiver_spec k Q R W ma c src m rc) as (k' & rc' & Hrun' & Hok' & Hum & Hsg & Hc' & Hf' & Hg' & Hm'); try done.
      * unfold receiving. by rewrite E.
      * intros x _ Hx. by apply (proj1 (Forall_forall _ _) Hall).
      * exists k'. split; [done|]. split; [done|]. by exists rc'.
  - rewrite (bind_ok _ _ _ _ _ Hrun). cbn [fst snd]. rewrite EW, (take_first_split _ _ _ _ Hall Hx).
    assert (sends (procs k) x c) as (rx & Hrx & _) by (apply (ii_send _ _ Hi); rewrite EW; set_solver).
    assert ((if list.last l1 is Some p then Some p else None) = list.last l1) as -> by (by destruct (list.last l1)).
    destruct (accept_sender_spec k Q R W c m rc x l1 l2 rx) as (k' & rx' & Hrun' & Hok' & Hum & Hsg & Hx' & Hf'); try done.
    rewrite (bind_ok _ _ _ _ _ Hrun'). exists k'. split; [done|]. split; [done|]. exists rx, rx'. constructor; try done. by rewrite Hf'.
Qed.

(** The receive returns, unless it is the memory manager's and signals are pending. *)
Lemma received_ok ma k r k' Q R W c src m rc : received ma k r k' Q R W c src m rc → sig_procs k ≤ 0 ∨ src ≠ ANY ∨ c ≠ MM_PROC_NR →
  r = Ok k' OK ∧ ∃ R' W', ipc_ok k' Q R' W'.
Proof.
  intros [Hsg Hr] Hmm. assert (Hin : mm_inform ma c src k' = Ok k' OK).
  { unfold mm_inform. krun. rewrite Hsg. assert ((sig_procs k >? 0) && (c =? MM_PROC_NR) && (src =? ANY) = false) as ->; [|done].
    rewrite Z.gtb_ltb. destruct Hmm as [Hs|[Hs|Hs]];
      [rewrite (proj2 (Z.ltb_ge _ _) Hs); done|rewrite (proj2 (Z.eqb_neq _ _) Hs); apply andb_false_r|rewrite (proj2 (Z.eqb_neq _ _) Hs), andb_false_r; done]. }
  rewrite Hin in Hr. destruct (negb _); [destruct Hr as (-> & rc' & []); eauto|].
  destruct (take_first src (W c)) as [[x l]|]; [destruct Hr as (-> & rx & rx' & []); eauto|]. destruct (_ && _); [destruct Hr as (-> & []); eauto|destruct Hr as (-> & rc' & []); eauto].
Qed.

(** ** System calls *)

(** The calls the theorem is about.  A message goes to another process of the
    table, neither to the sender itself nor to anybody; and the memory manager does
    not wait for anybody while signals are pending, which would make the kernel send
    it a message of its own ([inform]). *)
Definition call_ok (k : kstate) (f sd : Z) : Prop :=
  f = RECEIVE ∧ (sig_procs k ≤ 0 ∨ sd ≠ ANY ∨ proc_ptr k ≠ MM_PROC_NR) ∨
  (f = SEND ∨ f = BOTH) ∧ is_Some (procs k !! sd) ∧ sd ≠ proc_ptr k.

Lemma sys_call_spec k Q R W ma f sd m rc : ipc_ok k Q R W →
  procs k !! proc_ptr k = Some rc → p_flags rc = 0 → call_ok k f sd →
  ∃ k' res R' W', sys_call ma f sd m k = Ok k' res ∧ ipc_ok k' Q R' W'.
Proof.
  intros Hok Hc Hfl Hf. unfold sys_call. krun.
  destruct (isoksrc_dest sd); cbn [negb]; [|by exists k, E_BAD_SRC, R, W].
  destruct (_ && _); [by exists k, E_NO_PERM, R, W|].
  assert (Hrec : ∀ k1 R1 W1 rc1, ipc_ok k1 Q R1 W1 → procs k1 !! proc_ptr k = Some rc1 →
    p_flags rc1 = 0 ∨ p_flags rc1 = SENDING ∧ sd = p_sendto rc1 → sig_procs k1 ≤ 0 ∨ sd ≠ ANY ∨ proc_ptr k ≠ MM_PROC_NR →
    ∃ k' res R' W', mini_rec ma (proc_ptr k) sd m k1 = Ok k' res ∧ ipc_ok k' Q R' W').
  { intros k1 R1 W1 rc1 Hok1 Hc1 Hfl1 Hmm. destruct (mini_rec_spec k1 Q R1 W1 ma (proc_ptr k) sd m rc1 Hok1 Hc1 Hfl1) as (k' & Hres).
    apply received_ok in Hres as (-> & R' & W' & Hok'); [|done]. by exists k', OK, R', W'. }
  destruct Hf as [[-> Hmm]|(Hf & [rd Hd] & Hne)]; [by apply (Hrec k R W rc); eauto|].
  assert (HANY : sd ≠ ANY).
  { intros ->. assert (H : is_Some (procs k !! ANY)) by eauto. apply (si_ptab _ _ _ (io_sched _ _ _ _ Hok)) in H. vm_compute in H. destruct H. done. }
  assert (TEST_BIT f SEND = true) as -> by (by destruct Hf as [-> | ->]).
  destruct (mini_send_spec k Q R W (proc_ptr k) sd m rc rd Hok Hc Hfl Hd) as (k1 & R1 & b & Hrun & _ & Hsg & Hres); [congruence|].
  rewrite (bind_ok _ _ _ _ _ Hrun). set (res := send_result _ _ _ _ _ _ _) in *.
  destruct (negb (res =? OK)) eqn:Er; [rewrite orb_true_r|rewrite orb_false_r].
  - destruct Hres as (_ & _ & Hok1). by exists k1, res, R, W.
  - destruct (is_waiting (proc_ptr k) rd).
    + destruct Hres as (_ & Hok1 & _ & rc1 & Hc1 & Ec). destruct (f =? SEND); [by exists k1, res, R1, W|].
      apply (Hrec k1 R1 W rc1); [done|done| |by right; left]. left. by destruct (core_ipc _ _ Ec) as (_ & -> & _).
    + destruct Hres as (_ & Hok1 & rc1 & Hc1 & Hf1 & Ht1 & _). destruct (f =? SEND); [by eexists k1, res, R1, _|].
      eapply (Hrec k1 R1 _ rc1); [done|done|by right|by right; left].
Qed.

(** The MINIX part of the machine: some process that nothing blocks runs and makes a
    call, or the processor goes to another process. *)
Inductive ipc_step (ma : Z) : relation kstate :=
  | step_call k k' rc f sd m res :
      procs k !! proc_ptr k = Some rc → p_flags rc = 0 → call_ok k f sd →
      sys_call ma f sd m k = Ok k' res → ipc_step ma k k'
  | step_switch k n : ipc_step ma k (k <| proc_ptr := n |>).

(** Nobody waits for a message that is on offer. *)
Definition no_lost_message (ps : gmap Z proc) : Prop :=
  ∀ d r x rx, ps !! d = Some r → receiving r = true → sending r = false →
    ps !! x = Some rx → sending rx = true → p_sendto rx = d → accepts (p_getfrom r) x = false.

(** C8: Unblocked processes make [SEND], [RECEIVE] and [BOTH] calls in any order and
    with any scheduling, such that nobody sends to itself or to anybody and the
    memory manager does not receive from anybody while signals are pending
    ([call_ok]).  Then the deadlock check keeps the graph of waiting senders free of
    cycles, no process ever waits for a message a queued sender offers it, and every
    further such call returns.  (Sending to oneself does make a cycle, as
    shown below.) *)
Theorem rendezvous_safe ma k Q R W k' : ipc_ok k Q R W → rtc (ipc_step ma) k k' →
  send_acyclic (procs k') ∧ no_lost_message (procs k') ∧
  ∀ rc f sd m, procs k' !! proc_ptr k' = Some rc → p_flags rc = 0 → call_ok k' f sd →
    ∃ k'' res, sys_call ma f sd m k' = Ok k'' res.
Proof.
  intros Hok Hrtc.
  assert (∃ R' W', ipc_ok k' Q R' W') as (R' & W' & Hok').
  { revert R W Hok. induction Hrtc as [k|k k1 k2 Hstep _ IH]; intros R W Hok; [eauto|]. destruct Hstep as [k k1 rc f sd m res Hc Hfl Hf Hrun|k n].
    - destruct (sys_call_spec k Q R W ma f sd m rc Hok Hc Hfl Hf) as (k1' & res' & R1 & W1 & Hrun' & Hok1).
      rewrite Hrun in Hrun'. assert (k1' = k1) as -> by congruence. by eapply IH.
    - eapply IH. by eapply ipc_ok_other. }
  split_and!.
  - apply Hok'.
  - intros d r x rx Hd Hr Hs Hx Hsx <-. eapply (ii_wait _ _ (io_ipc _ _ _ _ Hok')); eauto.
    apply (ii_send _ _ (io_ipc _ _ _ _ Hok')). by exists rx.
  - intros rc f sd m Hc Hfl Hf. destruct (sys_call_spec k' Q R' W' ma f sd m rc) as (k2 & res & _ & _ & Hrun & _); eauto.
Qed.

Lemma bss_ipc_ok : ipc_ok bss (λ _, []) (λ _, []) (λ _, []).
Proof.
  assert (Hns : ∀ x y, ¬ sends (procs bss) x y).
  { intros x y (r & [-> _]%bss_procs_inv & E & _). done. }
  constructor; [apply bss_sched_inv| |by intros q n r ?%elem_of_nil]. constructor.
  - intros n r [-> _]%bss_procs_inv. done.
  - intros n r [-> _]%bss_procs_inv. done.
  - intros x d. split; [by intros ?%elem_of_nil|by intros ?%Hns].
  - intros d. constructor.
  - by intros x y ?%Hns.
  - intros x (r & [-> _]%bss_procs_inv & E)%tc_sends. done.
  - by intros d r x _ _ _ ?%elem_of_nil.
  - intros d r [-> _]%bss_procs_inv. done.
Qed.

(** MM waits for a message of the clock task; then process 5 runs. *)
Definition ipc_wait : kstate := state_of bss (sys_call 0x500 RECEIVE (-3) 0x100 (bss <| proc_ptr := 0 |>)).
Definition ipc_demo : kstate := ipc_wait <| proc_ptr := 5 |>.

Lemma ipc_demo_steps : rtc (ipc_step 0x500) bss ipc_demo.
Proof.
  apply (rtc_l _ _ _ _ (step_switch _ bss 0)).
  apply (rtc_l _ _ ipc_wait _); [|exact (rtc_once _ _ (step_switch _ ipc_wait 5))].
  apply (step_call _ (bss <| proc_ptr := 0 |>) _ (bss_proc 0) RECEIVE (-3) 0x100 (value_of 0 (sys_call 0x500 RECEIVE (-3) 0x100 (bss <| proc_ptr := 0 |>)))).
  - exact (bss_procs 0 ltac:(vm_compute; split; congruence)).
  - reflexivity.
  - left. split; [done|]. by left.
  - apply is_ok_run. vm_compute. reflexivity.
Qed.

Lemma rendezvous_safe_witness :
  send_acyclic (procs ipc_demo) ∧ no_lost_message (procs ipc_demo) ∧
  ∀ rc f sd m, procs ipc_demo !! proc_ptr ipc_demo = Some rc → p_flags rc = 0 → call_ok ipc_demo f sd →
    ∃ k'' res, sys_call 0x500 f sd m ipc_demo = Ok k'' res.
Proof.
  apply (rendezvous_safe 0x500 bss (λ _, []) (λ _, []) (λ _, []) ipc_demo bss_ipc_ok).
  apply ipc_demo_steps.
Defined.

(** ** What one call does *)

(** [mini_send] from [c] to [d] with result [res] took the kernel from [k] to [k']. *)
Definition sent (k k' : kstate) (Q : lhead → list laddr) (R : readyq → list Z) (W : Z → list Z)
    (c d m res : Z) (rc rd : proc) : Prop :=
  if negb (res =? OK) then procs k' = procs k ∧ um k' = um k ∧ ipc_ok k' Q R W
  else if is_waiting c rd then
    um k' = copied (um k) c (mess_addr rc m) (mess_addr rd (p_messbuf rd)) ∧
    (∃ R', ipc_ok k' Q R' W) ∧
    ∃ rd', procs k' !! d = Some rd' ∧ p_flags rd' = Z.land (p_flags rd) (Z.lnot RECEIVING)
  else
    um k' = um k ∧ (∃ R', ipc_ok k' Q R' (<[d := W d ++ [c]]> W)) ∧
    ∃ rc', procs k' !! c = Some rc' ∧ p_flags rc' = SENDING ∧ p_sendto rc' = d ∧ p_messbuf rc' = m.

(** C10: [mini_send] by a process that nothing blocks returns on every branch: the
    error codes in the order of the tests, [ELOCKED] exactly when the destination
    already waits, directly or through others, to send to the caller, with nothing
    changed; otherwise the message is copied at once to a destination that
    waits for it, which is unblocked, or the caller goes to the end of the
    destination's queue and is blocked. *)
Theorem mini_send_exact k Q R W c d m rc rd :
  ipc_ok k Q R W → procs k !! c = Some rc → p_flags rc = 0 → procs k !! d = Some rd → c ≠ d →
  ∃ k' locked, let res := send_result k c d rc rd m locked in
    mini_send c d m k = Ok k' res ∧ (locked = true ↔ tc (sends (procs k)) d c) ∧ sent k k' Q R W c d m res rc rd.
Proof.
  intros Hok Hc Hfl Hd Hne. destruct (mini_send_spec k Q R W c d m rc rd Hok Hc Hfl Hd Hne) as (k' & R' & b & Hrun & Hb & _ & Hres).
  exists k', b. split; [done|]. split; [done|]. unfold sent. destruct (negb _); [done|].
  destruct (is_waiting c rd); naive_solver.
Qed.

Lemma mini_send_exact_witness :
  ∃ k' locked, let res := send_result bss (-3) 0 (bss_proc (-3)) (bss_proc 0) 0x100 locked in
    mini_send (-3) 0 0x100 bss = Ok k' res ∧ (locked = true ↔ tc (sends (procs bss)) 0 (-3)) ∧
    sent bss k' (λ _, []) (λ _, []) (λ _, []) (-3) 0 0x100 res (bss_proc (-3)) (bss_proc 0).
Proof.
  apply (mini_send_exact bss (λ _, []) (λ _, []) (λ _, []) (-3) 0 0x100 (bss_proc (-3)) (bss_proc 0) bss_ipc_ok).
  - exact (bss_procs (-3) ltac:(vm_compute; split; congruence)).
  - reflexivity.
  - exact (bss_procs 0 ltac:(vm_compute; split; congruence)).
  - discriminate.
Defined.

(** C11: [mini_rec] serves waiting senders in order of arrival: to a caller that
    nothing blocks it copies the message of the first queued sender the caller
    accepts, takes that sender out of the queue and clears its flag, and makes it
    ready when nothing else blocks it; with no such sender it hands over a pending
    interrupt, which is then no longer pending, or blocks the caller, off the ready
    queue, with its request recorded.  A caller that has just been blocked sending
    (the second half of [BOTH]) is blocked for receiving too.  After blocking the
    caller it does nothing more than call [inform] if the caller is the memory
    manager, receives from anybody and signals are pending ([mm_inform]). *)
Theorem mini_rec_fifo k Q R W ma c src m rc :
  ipc_ok k Q R W → procs k !! c = Some rc → p_flags rc = 0 ∨ p_flags rc = SENDING ∧ src = p_sendto rc →
  ∃ k', received ma k (mini_rec ma c src m k) k' Q R W c src m rc.
Proof. apply mini_rec_spec. Qed.

(** A task sends to the memory manager, which does not wait for a message. *)
Lemma send_queued k R W c m rc rd : ipc_ok k (λ _, []) R W → procs k !! c = Some rc → p_flags rc = 0 → procs k !! 0 = Some rd → p_flags rd = 0 →
  c ≠ 0 → isuserp c = false → mess_in_range rc m = true →
  ∃ k' R', mini_send c 0 m k = Ok k' OK ∧ ipc_ok k' (λ _, []) R' (<[0 := W 0 ++ [c]]> W).
Proof.
  intros Hok Hc Hf Hd Hfd Hne Hu Hr. destruct (mini_send_spec k (λ _, []) R W c 0 m rc rd Hok Hc Hf Hd) as (k' & R' & b & Hrun & Hb & _ & Hres); [done|].
  assert (b = false) as ->.
  { destruct b; [|done]. destruct (tc_sends _ _ _ (proj1 Hb eq_refl)) as (r & Hr' & E). assert (r = rd) as -> by congruence. unfold sending in E. by rewrite Hfd in E. }
  assert (Hs : send_result k c 0 rc rd m false = OK) by (unfold send_result; by rewrite Hu, Hfd, Hr). rewrite Hs in Hrun, Hres. cbn [negb Z.eqb OK] in Hres.
  assert (Hw : is_waiting c rd = false) by (rewrite is_waiting_bits; unfold receiving; by rewrite Hfd). rewrite Hw in Hres.
  exists k', R'. split; [exact Hrun|apply Hres].
Qed.

(** Tasks -3 and -4 have sent to the memory manager. *)
Definition two_sent : K Z := mini_send (-3) 0 0x100;; mini_send (-4) 0 0x200.

Lemma two_sent_run : ∃ k R W, two_sent bss = Ok k OK ∧ ipc_ok k (λ _, []) R W ∧ W 0 = [-3; -4] ∧ ∃ rc, procs k !! 0 = Some rc ∧ p_flags rc = 0.
Proof.
  destruct (send_queued bss (λ _, []) (λ _, []) (-3) 0x100 (bss_proc (-3)) (bss_proc 0) bss_ipc_ok) as (k1 & R1 & Hr1 & Hok1);
    [exact (bss_procs (-3) ltac:(vm_compute; split; congruence))|reflexivity|exact (bss_procs 0 ltac:(vm_compute; split; congruence))|reflexivity|done|reflexivity..|].
  assert (Hk1 : match mini_send (-3) 0 0x100 bss with
    | Ok k _ => match procs k !! (-4), procs k !! 0 with Some r4, Some r0 => (p_flags r4 =? 0) && mess_in_range r4 0x200 && (p_flags r0 =? 0) | _, _ => false end
    | _ => false end = true) by (vm_compute; reflexivity).
  rewrite Hr1 in Hk1. destruct (procs k1 !! (-4)) as [r4|] eqn:E1; [|done]. destruct (procs k1 !! 0) as [r0|] eqn:E4; [|done].
  apply andb_true_iff in Hk1 as [[E2%Z.eqb_eq E3]%andb_true_iff E5%Z.eqb_eq].
  destruct (send_queued k1 R1 _ (-4) 0x200 r4 r0 Hok1 E1 E2 E4 E5 ltac:(done) eq_refl E3) as (k2 & R2 & Hr2 & Hok2).
  assert (Hrun : two_sent bss = Ok k2 OK) by (unfold two_sent; by rewrite (bind_ok _ _ _ _ _ Hr1)).
  eexists k2, R2, _. split; [exact Hrun|]. split; [exact Hok2|]. split; [by rewrite !fn_lookup_insert|].
  assert (Hk2 : match two_sent bss with Ok k _ => match procs k !! 0 with Some r0 => p_flags r0 =? 0 | _ => false end | _ => false end = true) by (vm_compute; reflexivity).
  rewrite Hrun in Hk2. destruct (procs k2 !! 0) as [r|]; [|done]. exists r. split; [done|]. by apply Z.eqb_eq.
Qed.

Lemma mini_rec_fifo_witness : ∃ k rx rx' k', two_sent bss = Ok k OK ∧ mini_rec 0x500 0 ANY 0x300 k = Ok k' OK ∧
  procs k !! (-3) = Some rx ∧ procs k' !! (-3) = Some rx' ∧ p_flags rx' = Z.land (p_flags rx) (Z.lnot SENDING).
Proof.
  destruct two_sent_run as (k & R & W & Hrun & Hok & HW & rc & Hrc & Hf). destruct (mini_rec_fifo k (λ _, []) R W 0x500 0 ANY 0x300 rc Hok Hrc (or_introl Hf)) as (k' & _ & Hres).
  rewrite Hf, HW in Hres. cbn in Hres. destruct Hres as (Hr & rx & rx' & [H1 H2 _ H3 _]). by exists k, rx, rx', k'.
Defined.

(** A process that waits to send to itself. *)
Lemma self_loop_from k c x : procs k !! c = Some x → sending x = true → p_sendto x = c →
  ∀ y fuel, y ≠ c → deadlock_from fuel c y k = NoFuel.
Proof.
  intros Hc Hs Ht y fuel Hy. induction fuel as [|fuel IH]; [done|]. unfold deadlock_from; fold deadlock_from.
  destruct (Z.eqb_spec c y); [congruence|]. krun. rewrite test_SENDING. change (Z.testbit (p_flags x) 2) with (sending x).
  by rewrite Hs, Ht.
Qed.

(** C15: The deadlock check does not guard against a process that sends to itself:
    such a send by a task or server with a legal buffer succeeds and blocks the sender on itself, and from then on
    the check made for any other process that sends to it never ends, however
    long it runs. *)
Theorem self_send_hangs k Q R W c m rc :
  ipc_ok k Q R W → procs k !! c = Some rc → p_flags rc = 0 → isuserp c = false → mess_in_range rc m = true → W c = [] →
  ∃ k', mini_send c c m k = Ok k' OK ∧ ∀ y fuel, y ≠ c → deadlock fuel c y k' = NoFuel.
Proof.
  intros Hok Hc Hfl Hu Hr HW. unfold mini_send.
  destruct (send_allowed_spec k c c rc rc Hc Hc) as (con & Hal). rewrite (bind_ok _ _ _ _ _ Hal), Hu. cbn [negb andb].
  set (k0 := k <| console := con |>). assert (Hok0 : ipc_ok k0 Q R W) by (by eapply ipc_ok_other).
  assert (Hcq : p_callerq rc = None).
  { pose proof (ii_q _ _ (io_ipc _ _ _ _ Hok) _ _ Hc) as Hq. by rewrite HW in Hq. }
  krun. rewrite Hfl. cbn [negb]. change (TEST_BIT 0 P_SLOT_FREE) with false. cbn [negb]. krun. rewrite Hr. cbn [negb].
  unfold deadlock at 1. krun. rewrite Hfl. change (TEST_BIT 0 SENDING) with false. cbv iota. krun. cbn [negb].
  rewrite is_waiting_bits. unfold receiving. rewrite Hfl. cbn [Z.testbit andb]. cbn [negb]. unfold block_sender. krun. cbn. rewrite Hfl. cbn.
  set (rc0 := rc <| p_messbuf := m |>). set (k1 := k0 <| procs ::= <[c := rc0]> |>).
  assert (Hok1 : ipc_ok k1 Q R W) by (eapply (ipc_ok_insert k0 k1 Q R W c rc rc0); try done; by left).
  destruct (unready_ok k1 Q R W c rc0 Hok1) as (k2 & Hrun & _ & Hq & _); [apply lookup_insert_eq|].
  destruct (qframe_lookup _ _ c rc0 Hq) as (rc2 & Hc2 & Ec); [apply lookup_insert_eq|].
  destruct (core_ipc _ _ Ec) as (_ & Ef & Eq & _). cbn in Ef, Eq.
  rewrite (bind_ok _ _ _ _ _ Hrun). unfold set_flags. krun. cbn. rewrite Eq, Hcq. krun. eexists. split; [done|].
  intros y fuel Hy. unfold deadlock. krun. cbn [p_flags upd]. rewrite test_SENDING, set_SENDING by done. cbn [Z.eqb orb].
  eapply self_loop_from; [apply lookup_insert_eq|..|done|done]. unfold sending. cbn. by rewrite Ef, Hfl.
Qed.

Lemma self_send_hangs_witness :
  ∃ k', mini_send (-3) (-3) 0x100 bss = Ok k' OK ∧ ∀ y fuel, y ≠ -3 → deadlock fuel (-3) y k' = NoFuel.
Proof.
  apply (self_send_hangs bss (λ _, []) (λ _, []) (λ _, []) (-3) 0x100 (bss_proc (-3)) bss_ipc_ok).
  - exact (bss_procs (-3) ltac:(vm_compute; split; congruence)).
  - reflexivity.
  - reflexivity.
  - reflexivity.
  - reflexivity.
Defined.
