(* ===== verification/Task.v ===== *)
(** * The real-time system task (kernel/mrttask.c)

    The server behind the real-time system calls: it receives one request
    message at a time, checks the mode of the system and of the caller and calls
    the handler of the request.  [msg] is the request; a handler returns the
    result the task reports in [m_type] of the reply. *)

From stdpp Require Import base gmap strings pretty numbers fin_maps functions list.
From S2P Require Import Prelude Lists Kernel Sched VTimer Inherit Sem Msg Rtproc Irq.
Local Open Scope Z_scope.

Definition MRT_FIRSTCALL : Z := 100.
Definition MRT_NCALLS : Z := 28.
Definition MAXPNAME : Z := 16.
Definition MAXHARMONIC : Z := 10000.
Definition MAXREFRESH : Z := 10000.
Definition CASCADE_IRQ : Z := 2.

(** The words of a [mess_1] request, by the names of include/minix/com.h. *)
Definition mess_1 (m : message) (i : nat) : Z := default 0 (m_u m !! i).
Definition CALLER (m : message) : Z := mess_1 m 0.
Definition IRQNBR (m : message) : Z := mess_1 m 1.
Definition HARMONIC (m : message) : Z := mess_1 m 1.
Definition PIDNBR (m : message) : Z := mess_1 m 1.
Definition SEMID (m : message) : Z := mess_1 m 1.
Definition FLAGS (m : message) : Z := mess_1 m 1.
Definition MSGQID (m : message) : Z := mess_1 m 1.
Definition REFRESH (m : message) : Z := mess_1 m 2.
Definition M1P1 (m : message) : Z := mess_1 m 3.

(** Names are what precedes the first NUL of an array of [MAXPNAME] bytes; one
    that fills the array is not terminated. *)
Definition strncpy (src : string) : string := String.substring 0 (Z.to_nat MAXPNAME) src.
Definition strcmp (a b : string) : K bool :=
  if decide (a = b) then
    if (String.length a <? Z.to_nat MAXPNAME)%nat then mret true else undef WildPtr
  else mret false.

(** [MRT_pid2pptr(m_ptr->CALLER)] used without a test. *)
Definition caller_of (m : message) : K Z := o ← MRT_pid2pptr (CALLER m); notnull o.

(** A store of the structure [x] into user memory through one of the views. *)
Definition put_user (caller : Z) (view : Z → tmem → tmem) (dst size : Z) (k : K Z) : K Z :=
  KRN2USR caller (λ p u, u <| um_task ::= view p |>) dst size k.
Definition get_user {A} (caller : Z) (view : tmem → Z → A) (src size : Z) (k : A → K Z) : K Z :=
  USR2KRN caller (λ u, view (um_task u)) src size k.

(** ** Interrupt descriptors *)
Definition bad_irq (n : Z) : bool := (n <? 0) || (NR_IRQ_VECTORS + NR_IRQ_SOFT <=? n).

Definition MRT_getiattr (m : message) : K Z :=
  if bad_irq (IRQNBR m) then mret E_MRT_BADIRQ
  else
    p ← ld_irqd (IRQNBR m);
    let attr := mk_irqattr (iq_period p) (iq_task p) (iq_watchdog p) (iq_priority p) (iq_irqtype p) (strncpy (iq_name p)) in
    caller ← caller_of m;
    put_user caller (λ a t, t <| tm_irqattr ::= <[a := attr]> |>) (M1P1 m) 32 (mret OK).

Definition MRT_getistat (m : message) : K Z :=
  if bad_irq (IRQNBR m) then mret E_MRT_BADIRQ
  else
    p ← ld_irqd (IRQNBR m);
    let statd := mk_irqstat (iq_count p) (iq_maxshower p) (iq_mdl p) (iq_timestamp p) (iq_maxlat p) (iq_reenter p) in
    caller ← caller_of m;
    put_user caller (λ a t, t <| tm_irqstat ::= <[a := statd]> |>) (M1P1 m) 24 (mret OK).

Definition MRT_getiint (m : message) : K Z :=
  if bad_irq (IRQNBR m) then mret E_MRT_BADIRQ
  else
    p ← ld_irqd (IRQNBR m);
    i ← notnull (iq_pvt p);
    v ← ld_vt i;
    let intd := mk_irqint (iq_irq p) (iq_harmonic p) (vt_index v) (iq_flags p) in
    caller ← caller_of m;
    put_user caller (λ a t, t <| tm_irqint ::= <[a := intd]> |>) (M1P1 m) 16 (mret OK).

Definition MRT_setiattr (m : message) : K Z :=
  if (IRQNBR m <? 0) || (NR_IRQ_VECTORS <=? IRQNBR m) then mret E_MRT_BADIRQ
  else
    caller ← caller_of m;
    get_user caller tm_irqattr (M1P1 m) 32 (λ attr,
      if ia_task attr <? - NR_TASKS then mret E_MRT_BADTASK
      else
        rp ← ld_proc (ia_task attr);
        if p_flags rp =? P_SLOT_FREE then mret E_MRT_BADTASK
        else if (ia_priority attr >? MRT_PRILOWEST) || (ia_priority attr <=? MRT_PRIHIGHEST) then mret E_MRT_BADPRTY
        else
          wd ← (if negb (ia_watchdog attr =? HARDWARE)
                then w ← ld_proc (ia_watchdog attr); mret (p_flags w =? P_SLOT_FREE) else mret false);
          if wd : bool then mret E_MRT_BADWDOG
          else
            f ← MRT_saveFlock;
            st_irqd (IRQNBR m) (λ p, p
              <| iq_irqtype := Z.land (ia_irqtype attr) (Z.lor MRT_RTIRQ (Z.lor MRT_TDIRQ (Z.lor MRT_SOFTIRQ MRT_ISTMSG))) |>
              <| iq_period := ia_period attr |> <| iq_task := ia_task attr |> <| iq_watchdog := ia_watchdog attr |>
              <| iq_priority := ia_priority attr |> <| iq_name := strncpy (ia_name attr) |>);;
            MRT_restoreF f;;
            mret OK).

Definition MRT_clristat (m : message) : K Z :=
  if bad_irq (IRQNBR m) then mret E_MRT_BADIRQ
  else irqd_clrstat (IRQNBR m);; mret OK.

(** ** System wide values *)
Definition MRT_sstat_init : K unit :=
  st_sv (λ v, v <| c_scheds := 0 |> <| c_messages := 0 |> <| c_interrupts := 0 |> <| c_ticks := 0 |>
                <| c_highticks := 0 |> <| c_oneshots := 0 |>).

Definition MRT_getsstat (m : message) : K Z :=
  v ← gets sv;
  let ss := mk_sysstat (c_scheds v) (c_messages v) (c_interrupts v) (c_ticks v) (c_highticks v) (c_idlemax v) (c_idlelast v) in
  caller ← caller_of m;
  put_user caller (λ a t, t <| tm_sysstat ::= <[a := ss]> |>) (M1P1 m) 28 (mret OK).

Definition MRT_getsval (m : message) : K Z :=
  v ← gets sv;
  let u := mk_usysval (sv_flags v) (sv_virtual_PIC v) (sv_PIT_latency v) (sv_PIT_latch v) (sv_tickrate v) (sv_harmonic v) (sv_refresh v) in
  caller ← caller_of m;
  put_user caller (λ a t, t <| tm_sysval ::= <[a := u]> |>) (M1P1 m) 28 (mret OK).

Definition MRT_setsval (m : message) : K Z :=
  st_sv (λ v, v <| sv_flags := Z.land (FLAGS m)
    (Z.lor MRT_DBG232 (Z.lor MRT_LATENCY (Z.lor MRT_BPIP (Z.lor MRT_ONESHOT MRT_PRTYMASK)))) |>);;
  mret OK.

Definition MRT_clrsstat (m : message) : K Z := MRT_sstat_init;; mret OK.

(** ** Start and stop of real-time mode *)

(** Some process is a real-time process. *)
Fixpoint rt_active (n : Z) (fuel : nat) : K bool :=
  match fuel with
  | O => mret false
  | S fuel' => r ← ld_proc n; if MRT_is_realtime r then mret true else rt_active (n + 1) fuel'
  end.
Definition some_rt : K bool := rt_active (- NR_TASKS) (Z.to_nat (NR_TASKS + NR_PROCS)).

(** The masks of hardware interrupt [i] of priority [pty]. *)
Definition restart_masks (i pty : Z) : K unit :=
  for_ MRT_PRIHIGHEST (Z.to_nat (pty - MRT_PRIHIGHEST)) (λ p,
    modify (λ k, k <| si_mask ::= λ m, <[pty := Z.lor (m pty) (m p)]> m |>));;
  for_ pty (Z.to_nat (MRT_PRILOWEST + 1 - pty)) (λ p,
    modify (λ k, k <| si_mask ::= λ m, <[p := SET_BIT (m p) (Z.shiftl 1 i)]> m |>);;
    modify (λ k, k <| si_mask ::= λ m, <[p := SET_BIT (m p) (Z.shiftl 1 CASCADE_IRQ)]> m |>)).

(** The timer of a timer driven descriptor, its period in ticks of [harmonic]. *)
Definition restart_timer (i harmonic : Z) : K unit :=
  d ← ld_irqd i;
  if TEST_BIT (iq_irqtype d) MRT_TDIRQ then
    period ← (if negb (TEST_BIT (iq_irqtype d) MRT_RELATPER)
              then if iq_harmonic d =? 0 then undef DivZero else mret (u32 (iq_period d * harmonic) / iq_harmonic d)
              else mret (iq_period d));
    st_irqd i (λ d, d <| iq_period := period |> <| iq_harmonic := harmonic |>);;
    o ← MRT_vtimer_alloc period 0 MRT_ACT_IRQTRIG i HARDWARE (iq_priority d);
    match o with
    | None => panic "MRT_restart: cannot create a VT for TD IRQ " i
    | Some pvt => MRT_vtimer_ins pvt;; st_irqd i (λ d, d <| iq_pvt := Some pvt |>)
    end
  else mret ().

(** One round of the loop over the descriptors; [continue] ends it. *)
Definition restart_irqd (harmonic i : Z) : K unit :=
  d ← ld_irqd i;
  pic ← gets (λ k, sv_real_PIC (sv k));
  use ← gets soft_use;
  if (i <? NR_IRQ_VECTORS) && negb (TEST_BIT (Z.lnot pic) (Z.shiftl 1 i)) then mret ()
  else
    (if i <? NR_IRQ_VECTORS then restart_masks i (iq_priority d) else mret ());;
    if (NR_IRQ_VECTORS <=? i) && negb (TEST_BIT use (Z.shiftl 1 (i - NR_IRQ_VECTORS))) then mret ()
    else MRT_irqd_clr i;; restart_timer i harmonic.

(** The part of [MRT_restart] inside the critical section. *)
Definition restart_body (harmonic refresh : Z) : K unit :=
  MRT_sstat_init;;
  MRT_proc_init;;
  v ← gets sv;
  (if negb (sv_refresh v =? refresh) then
     st_irqd (sv_IDLE_soft v) (λ d, d <| iq_period := refresh |>);;
     st_irqd (sv_IDLE_soft v) (λ d, d <| iq_period ::= λ p, u32 (p * sv_harmonic v) |>);;
     st_irqd (sv_IDLE_soft v) (λ d, d <| iq_period ::= λ p, p / harmonic |>)
   else mret ());;
  st_sv (λ v, v <| sv_refresh := refresh |>);;
  MRT_idle_init;;
  MRT_rdyQ_init;;
  MRT_timerQ_init;;
  MRT_vtimer_init;;
  MRT_irqQ_init;;
  pic ← gets (λ k, hw_PIC (hw k));
  st_sv (λ v, v <| sv_real_PIC := pic |>);;
  st_sv (λ v, v <| sv_virtual_PIC := sv_real_PIC v |>);;
  for_ 0 (Z.to_nat (NR_IRQ_VECTORS + NR_IRQ_SOFT)) (restart_irqd harmonic);;
  before ← MRT_read_timer2;
  after ← MRT_read_timer2;
  st_sv (λ v, v <| sv_PIT_latency := u32 (before - after) |>);;
  sv_set MRT_RTMODE;;
  MRT_prtylvl_set MRT_PRILOWEST;;
  MRT_reset_irq CLOCK_IRQ;;
  oneshot ← sv_test MRT_ONESHOT;
  (if oneshot : bool then
     st_sv (λ v, v <| sv_harmonic := harmonic |>);;
     st_sv (λ v, v <| sv_tick2Hz := TIMER_FREQ / HZ |>);;
     st_sv (λ v, v <| sv_tick2Hz := sv_tick2Hz v / sv_harmonic v |>)
   else
     MRT_timer_set harmonic;;
     MRT_timer2_set 0xFFFF);;
  MRT_set_irq CLOCK_IRQ;;
  MRT_msgQ_init;;
  MRT_mpool_init;;
  MRT_spool_init.

Definition MRT_restart (m : message) : K Z :=
  if (HARMONIC m <=? 0) || (HARMONIC m >? MAXHARMONIC) then mret E_MRT_BADHARM
  else if (REFRESH m <=? 0) || (REFRESH m >? MAXREFRESH) then mret E_MRT_BADRFSH
  else
    f ← MRT_saveFlock;
    active ← some_rt;
    if active : bool then MRT_restoreF f;; mret E_MRT_RTACTIVE
    else restart_body (HARMONIC m) (REFRESH m);; MRT_restoreF f;; mret OK.

Definition MRT_RTstart (m : message) : K Z := MRT_restart m.

Definition MRT_RTstop (m : message) : K Z :=
  f ← MRT_saveFlock;
  active ← some_rt;
  if active : bool then MRT_restoreF f;; mret E_MRT_RTACTIVE
  else
    MRT_timer_set 1;;
    sv_clr MRT_RTMODE;;
    MRT_restoreF f;;
    mret OK.

(** ** Processes *)
Definition MRT_getpattr (m : message) : K Z :=
  o ← MRT_pid2pptr (PIDNBR m);
  match o with
  | None => mret E_BAD_PROC
  | Some n =>
      r ← ld_proc n;
      i ← notnull (pmq r);
      q ← ld_mq i;
      let a := rt r in
      let pattrib := mk_pattr (rt_flags a) (rt_baseprty a) (rt_period a) (rt_limit a) (rt_deadline a) (rt_watchdog a) (q_size q) (q_flags q) in
      caller ← caller_of m;
      put_user caller (λ a t, t <| tm_pattr ::= <[a := pattrib]> |>) (M1P1 m) 32 (mret OK)
  end.

(** The watchdog [pid] is no real-time process other than the caller. *)
Definition bad_watchdog (pid caller : Z) : K bool :=
  if negb (pid =? HARDWARE) then
    o ← MRT_pid2pptr pid;
    match o with
    | None => mret true
    | Some n => w ← ld_proc n; c ← ld_proc caller; mret (negb (MRT_is_realtime w) || (p_nr w =? p_nr c))
    end
  else mret false.

Definition MRT_setpattr (m : message) : K Z :=
  caller ← caller_of m;
  get_user caller tm_pattr (M1P1 m) 32 (λ a,
    if TEST_BIT (pa_flags a) MRT_P_REALTIME then
      if (pa_baseprty a <=? MRT_PRIHIGHEST) || (pa_baseprty a >? MRT_PRILOWEST) then mret E_MRT_BADPRTY
      else
        bad ← bad_watchdog (pa_watchdog a) caller;
        if bad : bool then mret E_MRT_BADWDOG
        else
          st_proc caller (λ r, r <| rt ::= λ t, t <| rt_priority := pa_baseprty a |>
            <| rt_flags := Z.land (pa_flags a) (Z.lor MRT_P_PERIODIC MRT_P_REALTIME) |>
            <| rt_baseprty := pa_baseprty a |> <| rt_period := pa_period a |> <| rt_limit := pa_limit a |>
            <| rt_deadline := pa_deadline a |> <| rt_watchdog := pa_watchdog a |> |>
            <| mq := mk_mqattrib (pa_mq_size a) (pa_mq_flags a) |>);;
          st_proc caller (λ r, r <| rt ::= λ t, t <| rt_limit := if TEST_BIT (pa_flags a) MRT_P_PERIODIC then 0 else pa_limit a |> |>);;
          lists_ (MRT_link_rst (LProc caller) (OProc caller) MRT_OBJPROC);;
          mret OK
    else mret OK).

(** [pstats.mdl] is not assigned: the user gets what the stack holds. *)
Definition MRT_getpstat (m : message) : K Z :=
  o ← MRT_pid2pptr (PIDNBR m);
  match o with
  | None => mret E_BAD_PROC
  | Some n =>
      r ← ld_proc n;
      mdl ← gets junk;
      let s := st r in
      let pstats := mk_pstat (st_scheds s) mdl (st_timestamp s) (st_maxlat s) (st_minlax s) (st_msgsent s) (st_msgrcvd s) in
      caller ← caller_of m;
      put_user caller (λ a t, t <| tm_pstat ::= <[a := pstats]> |>) (M1P1 m) 28 (mret OK)
  end.

Definition MRT_getpint (m : message) : K Z :=
  o ← MRT_pid2pptr (PIDNBR m);
  match o with
  | None => mret E_BAD_PROC
  | Some n =>
      r ← ld_proc n;
      i ← notnull (pvt r);
      v ← ld_vt i;
      j ← notnull (pmq r);
      q ← ld_mq j;
      let pint := mk_pint (vt_index v) (rt_priority (rt r)) (q_index q) (p_nr r) in
      caller ← caller_of m;
      put_user caller (λ a t, t <| tm_pint ::= <[a := pint]> |>) (M1P1 m) 16 (mret OK)
  end.

Definition MRT_clrpstat (m : message) : K Z :=
  o ← MRT_pid2pptr (PIDNBR m);
  match o with
  | None => mret E_BAD_PROC
  | Some n =>
      st_proc n (λ r, r <| st ::= λ s, s <| st_scheds := 0 |> <| st_timestamp := 0 |> <| st_maxlat := 0 |>
                                         <| st_minlax := 0 |> <| st_msgsent := 0 |> <| st_msgrcvd := 0 |> |>);;
      mret OK
  end.

Fixpoint exit_sems (fuel : nat) (rp : Z) : K unit :=
  match fuel with
  | O => λ _, NoFuel
  | S fuel' =>
      l ← lists_ (ld_list (HSalloc rp));
      match first l with
      | None => mret ()
      | Some lk => o ← this_of lk; psem ← as_sem o; MRT_sem_free rp psem;; exit_sems fuel' rp
      end
  end.

(** [proc_addr(m_ptr->CALLER)]: the pid of the caller is used as a slot number. *)
Definition MRT_exit (fuel : nat) (m : message) : K Z :=
  let rp := CALLER m in
  f ← MRT_saveFlock;
  MRT_set2nrt fuel rp;;
  exit_sems fuel rp;;
  MRT_proc_rst rp;;
  MRT_restoreF f;;
  mret OK.

Definition MRT_stdsignal (fuel : nat) (m : message) : K Z :=
  o ← MRT_pid2pptr (PIDNBR m);
  match o with
  | None => mret E_BAD_PROC
  | Some rp => MRT_set2nrt fuel rp
  end.

(** ** Semaphores and message queues *)

(** The first semaphore of the table called [name], if any. *)
Fixpoint sem_named (i : Z) (n : nat) (name : string) : K (option Z) :=
  match n with
  | O => mret None
  | S n' =>
      s ← ld_sem i;
      eq ← strcmp (s_name s) name;
      if eq : bool then mret (Some i) else sem_named (i + 1) n' name
  end.
Definition find_sem (name : string) : K (option Z) := sem_named 0 (Z.to_nat NR_SEM) name.

(** The attributes [MRT_semalloc] refuses.  These branches restore the interrupt
    flag from a static [CPUflags] they have not saved it to: it holds what the last
    allocation that got further has saved. *)
Definition semattr_error (a : mrt_semattr_t) : option Z :=
  if TEST_BIT (sa_flags a) SEM_MUTEX && (sa_value a >? 1) then Some E_MRT_BADVALUE
  else if TEST_BIT (sa_flags a) SEM_PRTYINHERIT && negb (TEST_BIT (sa_flags a) (Z.lor SEM_MUTEX SEM_PRTYORDER)) then Some E_MRT_BADFLAGS
  else if (sa_priority a >? MRT_PRILOWEST) || (sa_priority a <? MRT_PRIHIGHEST) then Some E_MRT_BADPRTY
  else None.

Definition MRT_semalloc (m : message) : K Z :=
  caller ← caller_of m;
  get_user caller tm_semattr (M1P1 m) 28 (λ a,
    o ← find_sem (sa_name a);
    match o with
    | Some _ => mret E_MRT_BADNAME
    | None =>
        match semattr_error a with
        | Some e => restoreF_static F_MRT_semalloc;; mret e
        | None =>
            saveF_static F_MRT_semalloc MRT_saveFlock;;
            o ← MRT_sem_alloc caller;
            match o with
            | None => restoreF_static F_MRT_semalloc;; mret E_MRT_NOSEM
            | Some psem =>
                st_sem psem (λ s, s
                  <| s_flags := Z.land (sa_flags a) (Z.lor SEM_PRTYORDER (Z.lor SEM_PRTYINHERIT SEM_MUTEX)) |>
                  <| s_value := sa_value a |> <| s_priority := sa_priority a |> <| s_name := strncpy (sa_name a) |>);;
                restoreF_static F_MRT_semalloc;;
                s ← ld_sem psem;
                mret (s_index s)
            end
        end
    end).

Definition bad_sem (n : Z) : bool := (n <? 0) || (NR_SEM <=? n).

Definition MRT_getsemstat (m : message) : K Z :=
  if bad_sem (SEMID m) then mret E_MRT_BADSEM
  else
    s ← ld_sem (SEMID m);
    pl ← lists_ (ld_plist (PSem (SEMID m)));
    let sstat := mk_semstat (s_ups s) (s_downs s) (p_maxinQ pl) in
    caller ← caller_of m;
    put_user caller (λ a t, t <| tm_semstat ::= <[a := sstat]> |>) (M1P1 m) 12 (mret OK).

Definition MRT_getsemint (m : message) : K Z :=
  if bad_sem (SEMID m) then mret E_MRT_BADSEM
  else
    s ← ld_sem (SEMID m);
    pl ← lists_ (ld_plist (PSem (SEMID m)));
    let sint := mk_semint (s_index s) (s_owner s) (p_inQ pl) in
    caller ← caller_of m;
    put_user caller (λ a t, t <| tm_semint ::= <[a := sint]> |>) (M1P1 m) 12 (mret OK).

Definition MRT_semfree (m : message) : K Z :=
  o ← MRT_pid2pptr (CALLER m);
  if bad_sem (SEMID m) then mret E_MRT_BADSEM
  else
    s ← ld_sem (SEMID m);
    if s_owner s =? HARDWARE then mret E_MRT_FREESEM
    else
      caller ← notnull o;
      c ← ld_proc caller;
      if negb (s_owner s =? p_nr c) then mret EPERM
      else
        f ← MRT_saveFlock;
        MRT_sem_free caller (SEMID m);;
        MRT_restoreF f;;
        mret OK.

Definition MRT_getsemid (m : message) : K Z :=
  caller ← caller_of m;
  USR2KRN caller um_str (M1P1 m) MAXPNAME (λ sname,
    o ← find_sem sname;
    match o with
    | Some i => s ← ld_sem i; mret (s_index s)
    | None => mret E_MRT_BADSEM
    end).

Definition MRT_getsemattr (m : message) : K Z :=
  o ← MRT_pid2pptr (CALLER m);
  if bad_sem (SEMID m) then mret E_MRT_BADSEM
  else
    s ← ld_sem (SEMID m);
    if s_owner s =? HARDWARE then mret E_MRT_FREESEM
    else
      let sattr := mk_semattr (s_value s) (s_flags s) (s_priority s) (strncpy (s_name s)) in
      caller ← notnull o;
      put_user caller (λ a t, t <| tm_semattr ::= <[a := sattr]> |>) (M1P1 m) 28 (mret OK).

Definition MRT_clrsemstat (m : message) : K Z :=
  if bad_sem (SEMID m) then mret E_MRT_BADSEM
  else
    s ← ld_sem (SEMID m);
    if s_owner s =? HARDWARE then mret E_MRT_FREESEM
    else
      st_sem (SEMID m) (λ s, s <| s_ups := 0 |> <| s_downs := 0 |>);;
      lists_ (st_plist (PSem (SEMID m)) (λ p, p <| p_maxinQ := 0 |>));;
      mret OK.

Definition bad_msgq (n : Z) : bool := (n <? 0) || (NR_MSGQ <=? n).

Definition MRT_getmqstat (m : message) : K Z :=
  o ← MRT_pid2pptr (CALLER m);
  if bad_msgq (MSGQID m) then mret E_MRT_BADMSGQ
  else
    q ← ld_mq (MSGQID m);
    pl ← lists_ (ld_plist (PMq (MSGQID m)));
    let mqstat := mk_msgqstat (q_delivered q) (q_enqueued q) (p_maxinQ pl) in
    caller ← notnull o;
    put_user caller (λ a t, t <| tm_msgqstat ::= <[a := mqstat]> |>) (M1P1 m) 12 (mret OK).

Definition MRT_clrmqstat (m : message) : K Z :=
  if bad_msgq (MSGQID m) then mret E_MRT_BADMSGQ
  else
    q ← ld_mq (MSGQID m);
    if q_owner q =? MRTMSGQFREE then mret E_MRT_FREEMSGQ
    else
      st_mq (MSGQID m) (λ q, q <| q_delivered := 0 |> <| q_enqueued := 0 |>);;
      lists_ (st_plist (PMq (MSGQID m)) (λ p, p <| p_maxinQ := 0 |>));;
      mret OK.

(** ** The task *)
Definition MRT_vector (fuel : nat) (c : Z) (m : message) : K Z :=
  match c with
  | 0 => MRT_getiattr m | 1 => MRT_getistat m | 2 => MRT_getiint m | 3 => MRT_setiattr m
  | 4 => MRT_getsstat m | 5 => MRT_getsval m | 6 => MRT_setsval m | 7 => MRT_restart m
  | 8 => MRT_getpattr m | 9 => MRT_setpattr m | 10 => MRT_getpstat m | 11 => MRT_getpint m
  | 12 => MRT_clrpstat m | 13 => MRT_RTstart m | 14 => MRT_RTstop m | 15 => MRT_exit fuel m
  | 16 => MRT_stdsignal fuel m | 17 => MRT_semalloc m | 18 => MRT_semfree m | 19 => MRT_getsemstat m
  | 20 => MRT_getsemint m | 21 => MRT_getsemid m | 22 => MRT_getsemattr m | 23 => MRT_getmqstat m
  | 24 => MRT_clrsstat m | 25 => MRT_clristat m | 26 => MRT_clrsemstat m | _ => MRT_clrmqstat m
  end.

Definition sys_run_mode (c : Z) : Z := if (c =? 6) || (c =? 13) then 0 else MRT_RTMODE.
Definition proc_run_mode (c : Z) : Z := if c =? 15 then MRT_P_REALTIME else 0.

(** What the task does before its loop. *)
Definition sys_task_init : K unit :=
  printf ("Starting MRTTASK .." +:+ nl);;
  MRT_sstat_init;;
  st_sv (λ v, v <| sv_refresh := HZ |>);;
  MRT_idle_init;;
  for_ 0 (Z.to_nat NR_IRQ_VECTORS) (λ r, modify (λ k, k <| si_mask ::= <[r := 0]> |>));;
  MRT_rdyQ_init;;
  MRT_msgQ_init;;
  MRT_mpool_init;;
  MRT_spool_init.

(** One round of the loop, between [receive] and [send]: the reply to [m]. *)
Definition sys_task_call (fuel : nat) (m : message) : K Z :=
  let mrt_call := s32 (m_type m - MRT_FIRSTCALL) in
  caller ← MRT_pid2pptr (CALLER m);
  if (mrt_call <? 0) || (MRT_NCALLS <=? mrt_call) then mret EBADCALL
  else
    v ← gets sv;
    if negb (Z.land (sv_flags v) MRT_RTMODE =? sys_run_mode mrt_call)
    then mret (if sys_run_mode mrt_call =? MRT_RTMODE then E_MRT_NORTMODE else E_MRT_RTMODE)
    else
      n ← notnull caller;
      c ← ld_proc n;
      if negb (Z.land (p_flags c) MRT_P_REALTIME =? proc_run_mode mrt_call) then mret E_MRT_BADPTYPE
      else MRT_vector fuel mrt_call m.

Definition sys_task_round (fuel : nat) (m : message) : K message :=
  error ← sys_task_call fuel m;
  mret (m <| m_type := error |>).
