(* ===== verification/SemNames.v ===== *)
(** * Named semaphores

    The semaphore pool and the system calls [MRT_semalloc], [MRT_getsemid] and
    [MRT_semfree] of the real-time system task: from its allocation to its
    release a semaphore is known by its name, and by nobody's but its own. *)

From stdpp Require Import base gmap strings pretty numbers fin_maps functions list.
From S2P Require Import Prelude Lists Kernel Sched VTimer Inherit Sem Msg Rtproc Irq Task.
Local Open Scope Z_scope.

(** ** Lists *)
Lemma linv_ext m Q Q' : (∀ L, Q' L = Q L) → linv m Q → linv m Q'.
Proof.
  intros E [H1 H2 H3 H4 H5]. split; intros *; rewrite ?E; auto. apply H4.
Qed.

(** Resetting a priority list whose lists are empty. *)
Lemma plist_rst_q m Q P : qinv m Q → is_Some (plists m !! P) → (∀ p, Q (HP P p) = []) →
  ∃ m', MRT_plist_rst P m = Ok m' () ∧ qstep m m' Q Q ∧ links m' = links m.
Proof.
  intros [Hl Hp] [h HPl] Hnil. unfold MRT_plist_rst.
  edestruct (for_inv (λ _ m0, linv m0 Q ∧ lframe m m0 ∧ plists m0 = plists m ∧ links m0 = links m) (λ i, MRT_list_rst (HP P i)) (Z.to_nat MRT_NR_PRTY) 0 m) as (m1 & Hrun & Hl1 & Hf1 & Ep1 & Ek1); [| |].
  2: { split; [exact Hl|]. split; [reflexivity|done]. }
  - intros j m0 Hj (Hl0 & Hf0 & Ep0 & Ek0). destruct (MRT_list_rst_spec m0 Q (HP P j) Hl0) as (m1 & Hr1 & (Hl1 & Hf1 & Ep1) & Ek1).
    { apply Hf0. apply (po_dom _ _ _ _ (Hp P h HPl)). unfold MRT_NR_PRTY in Hj. lia. }
    exists m1. split; [done|]. split; [eapply linv_ext; [|exact Hl1]; intros L; destruct (decide (L = HP P j)) as [->|]; [by rewrite fn_lookup_insert, Hnil|by rewrite fn_lookup_insert_ne]|].
    split; [by etrans|]. by rewrite Ep1, Ek1.
  - assert (HPl1 : plists m1 !! P = Some h) by (by rewrite Ep1). rewrite (bind_ok _ _ _ _ _ Hrun), (st_plist_ok _ _ _ _ HPl1). eexists. split; [done|]. split; [|done].
    split; [split|].
    + by eapply linv_plists; [| |exact Hl1].
    + intros P' h'. cbn. rewrite Ep1. destruct (decide (P' = P)) as [->|Hne].
      * rewrite lookup_insert_eq. intros [= <-]. destruct (Hp P h HPl) as [D1 D2 D3 D4]. split; cbn; try done.
        -- intros p. rewrite <- D1. apply Hf1.
        -- intros p Hpp. rewrite Z.testbit_0_l, Hnil. done.
        -- rewrite !Hnil. done.
      * rewrite lookup_insert_ne by done. intros H'. destruct (Hp P' h' H') as [D1 D2 D3 D4]. split; try done. intros p. cbn. rewrite <- D1. apply Hf1.
    + etrans; [exact Hf1|]. apply lframe_plists; try done. intros P'. cbn. rewrite lookup_insert_is_Some'. split; [intros [->|]; [by exists h|done]|by right].
Qed.

(** ** Semaphores in and out of the pool *)
Definition free_sem (s : MRT_sem_t) : MRT_sem_t :=
  s <| s_value := 0 |> <| s_priority := MRT_PRILOWEST |> <| s_flags := 0 |> <| s_owner := HARDWARE |> <| s_ups := 0 |> <| s_downs := 0 |>
    <| s_carrier := None |> <| s_name := "FREE" |>.

(** What a semaphore call on [i] leaves alone. *)
Record sem_frame (k k' : kstate) : Prop := {
  sf_procs : procs k' = procs k;
  sf_um : um k' = um k;
  sf_hw : hw k' = hw k;
}.

Section pool.
Implicit Types (k : kstate) (Q : lhead → list laddr).

Record pool_ok k Q : Prop := {
  pk_q : qinv (lm k) Q;
  pk_this : this_ok (lm k);
  pk_free : is_Some (lists (lm k) !! HSfreeL);
  pk_pl i : 0 ≤ i < NR_SEM → is_Some (plists (lm k) !! PSem i);
  pk_links i : 0 ≤ i < NR_SEM → is_Some (links (lm k) !! LSemA i) ∧ is_Some (links (lm k) !! LSemL i);
  pk_sems i : is_Some (sems k !! i) ↔ 0 ≤ i < NR_SEM;
}.

Lemma pool_step k Q k' Q' : pool_ok k Q → qstep (lm k) (lm k') Q Q' → (∀ i, is_Some (sems k' !! i) ↔ is_Some (sems k !! i)) → pool_ok k' Q'.
Proof.
  intros [H1 H2 H3 H4 H5 H6] [Hq Hf] Hs. split; [done|by eapply this_ok_frame|by apply Hf|intros i Hi; apply Hf; auto| |intros i; rewrite Hs; apply H6].
  intros i Hi. destruct (H5 i Hi). split; by apply (lframe_is_Some _ _ _ Hf).
Qed.

Lemma sem_rst_spec k Q i s : pool_ok k Q → sems k !! i = Some s → 0 ≤ i < NR_SEM → unlinked Q (LSemA i) → unlinked Q (LSemL i) → (∀ p, Q (HP (PSem i) p) = []) →
  ∃ k', MRT_sem_rst i k = Ok k' () ∧ qstep (lm k) (lm k') Q Q ∧ sems k' = <[i := free_sem s]> (sems k) ∧ sem_frame k k'.
Proof.
  intros Hp Hs Hi Ha Hl Hnil. destruct (pk_links _ _ Hp i Hi) as [[la Hla] [ll Hll]]. unfold MRT_sem_rst. krun.
  destruct (link_rst_q (lm k) Q (LSemA i) la (OSem i) MRT_OBJSEM (pk_q _ _ Hp) Hla (pk_this _ _ Hp _ _ Hla) Ha) as (m1 & Hr1 & [Hq1 Hf1]).
  erewrite bind_ok; [|by eapply lists_ok]. 
  assert (Hll1 : ∃ l, links m1 !! LSemL i = Some l) by (apply (lframe_is_Some _ _ _ Hf1); by exists ll). destruct Hll1 as [ll1 Hll1].
  destruct (link_rst_q m1 Q (LSemL i) ll1 (OSem i) MRT_OBJSEM Hq1 Hll1 (this_ok_frame _ _ Hf1 (pk_this _ _ Hp) _ _ Hll1) Hl) as (m2 & Hr2 & [Hq2 Hf2]).
  erewrite bind_ok; [|by eapply lists_ok]. krun.
  destruct (plist_rst_q m2 Q (PSem i) Hq2) as (m3 & Hr3 & [Hq3 Hf3] & _); [apply Hf2, Hf1, Hp, Hi|done|].
  erewrite lists_ok by (cbn; exact Hr3). eexists. split; [reflexivity|]. split; [split; [exact Hq3|cbn; by etrans; [|etrans]]|]. split; [|by split].
  cbn. rewrite insert_insert_eq. f_equal.
Qed.

Lemma sem_alloc_spec k Q n r i free s : pool_ok k Q → procs k !! n = Some r → is_Some (lists (lm k) !! HSalloc n) → Q HSfreeL = LSemA i :: free →
  sems k !! i = Some s →
  ∃ k' Q', MRT_sem_alloc n k = Ok k' (Some i) ∧ qstep (lm k) (lm k') Q Q' ∧ sems k' = <[i := s <| s_owner := p_nr r |>]> (sems k) ∧ sem_frame k k' ∧
    CPUflags k' = CPUflags k ∧ Q' HSfreeL = free ∧ Q' (HSalloc n) = Q (HSalloc n) ++ [LSemA i] ∧ ∀ L, L ≠ HSfreeL → L ≠ HSalloc n → Q' L = Q L.
Proof.
  intros Hp Hn HA HQ Hs. destruct (pk_q _ _ Hp) as [Hli Hpi]. destruct (pk_free _ _ Hp) as [l Hl]. pose proof (li_list _ _ Hli _ _ Hl) as Hrep. rewrite HQ in Hrep.
  assert (Hi : 0 ≤ i < NR_SEM) by (apply (pk_sems _ _ Hp); by exists s). destruct (pk_links _ _ Hp i Hi) as [[la Hla] _].
  unfold MRT_sem_alloc. krun. assert (first l = Some (LSemA i)) as -> by apply Hrep.
  destruct (list_rmv_q (lm k) Q HSfreeL [] (LSemA i) free (conj Hli Hpi)) as (m1 & Hr1 & [Hq1 Hf1] & Ep1); [by exists l|done|done|].
  erewrite bind_ok; [|by eapply lists_ok]. assert (Hla1 : ∃ x, links m1 !! LSemA i = Some x) by (apply (lframe_is_Some _ _ _ Hf1); by exists la). destruct Hla1 as [la1 Hla1].
  assert (Et : this la1 = OSem i) by (apply (this_ok_frame _ _ Hf1 (pk_this _ _ Hp) _ _ Hla1)).
  erewrite bind_ok; [|by eapply this_of_ok]. rewrite Et. cbn [as_sem]. krun. 
  set (Q1 := <[HSfreeL := [] ++ free]> Q) in *.
  assert (Hu : unlinked Q1 (LSemA i)).
  { intros L. unfold Q1. destruct (decide (L = HSfreeL)) as [->|Hne].
    - rewrite fn_lookup_insert. pose proof (li_nodup _ _ Hli HSfreeL) as Hnd. rewrite HQ in Hnd. by apply NoDup_cons in Hnd as [? _].
    - rewrite fn_lookup_insert_ne by done. intros Hx. apply Hne. apply (li_disj _ _ Hli _ _ (LSemA i)); [done|]. rewrite HQ. by left. }
  destruct (list_app_q m1 Q1 (HSalloc n) (LSemA i) Hq1) as (m2 & Hr2 & [Hq2 Hf2] & Ep2); [by apply Hf1|done|by exists la1|exact Hu|].
  erewrite bind_ok; [|by eapply lists_ok]. eexists _, _. split; [reflexivity|]. split; [split; [exact Hq2|cbn; by etrans]|]. split; [done|]. split; [by split|].
  split; [done|]. unfold Q1. split; [by rewrite fn_lookup_insert_ne, fn_lookup_insert by done|]. split; [by rewrite fn_lookup_insert, fn_lookup_insert_ne by done|].
  intros L H1 H2. by rewrite !fn_lookup_insert_ne by done.
Qed.

Lemma sem_free_spec k Q n i s l1 l2 : pool_ok k Q → is_Some (lists (lm k) !! HSalloc n) → Q (HSalloc n) = l1 ++ LSemA i :: l2 → sems k !! i = Some s →
  unlinked Q (LSemL i) → (∀ p, Q (HP (PSem i) p) = []) →
  ∃ k' Q', MRT_sem_free n i k = Ok k' () ∧ qstep (lm k) (lm k') Q Q' ∧ sems k' = <[i := free_sem s]> (sems k) ∧ sem_frame k k' ∧
    Q' HSfreeL = Q HSfreeL ++ [LSemA i] ∧ Q' (HSalloc n) = l1 ++ l2 ∧ ∀ L, L ≠ HSfreeL → L ≠ HSalloc n → Q' L = Q L.
Proof.
  intros Hp HA HQ Hs Hul Hnil. assert (Hi : 0 ≤ i < NR_SEM) by (apply (pk_sems _ _ Hp); by exists s). pose proof (pk_q _ _ Hp) as [Hli Hpi].
  unfold MRT_sem_free. destruct (list_rmv_q (lm k) Q (HSalloc n) l1 (LSemA i) l2 (pk_q _ _ Hp) HA) as (m1 & Hr1 & [Hq1 Hf1] & _); [done|done|].
  erewrite bind_ok; [|by eapply lists_ok]. set (Q1 := <[HSalloc n := l1 ++ l2]> Q) in *. set (k1 := k <| lm := m1 |>).
  assert (Hp1 : pool_ok k1 Q1) by (by eapply (pool_step k Q); [|split|]).
  assert (Hu : unlinked Q1 (LSemA i)).
  { intros L. unfold Q1. destruct (decide (L = HSalloc n)) as [->|Hne].
    - rewrite fn_lookup_insert. pose proof (li_nodup _ _ Hli (HSalloc n)) as Hnd. rewrite HQ in Hnd. rewrite <- Permutation_middle in Hnd. by apply NoDup_cons in Hnd as [? _].
    - rewrite fn_lookup_insert_ne by done. intros Hx. apply Hne. apply (li_disj _ _ Hli _ _ (LSemA i)); [done|]. rewrite HQ. set_solver. }
  assert (Hul1 : unlinked Q1 (LSemL i)).
  { intros L. unfold Q1. destruct (decide (L = HSalloc n)) as [->|Hne]; [|rewrite fn_lookup_insert_ne by done; apply Hul].
    rewrite fn_lookup_insert. intros Hx. apply (Hul (HSalloc n)). rewrite HQ. set_solver. }
  destruct (sem_rst_spec k1 Q1 i s Hp1 Hs Hi Hu Hul1) as (k2 & Hr2 & [Hq2 Hf2] & Es2 & [E1 E2 E3]); [intros p; unfold Q1; by rewrite fn_lookup_insert_ne|].
  rewrite (bind_ok _ _ _ _ _ Hr2). destruct (pk_links _ _ Hp1 i Hi) as [Hla _].
  destruct (list_app_q (lm k2) Q1 HSfreeL (LSemA i) Hq2) as (m3 & Hr3 & [Hq3 Hf3] & _); [apply Hf2, Hp1|done|by apply (lframe_is_Some _ _ _ Hf2)|done|].
  erewrite lists_ok by exact Hr3. eexists _, _. split; [reflexivity|]. split; [split; [exact Hq3|cbn; etrans; [exact Hf1|by etrans]]|]. split; [done|]. split; [by split|].
  unfold Q1. split; [by rewrite fn_lookup_insert, fn_lookup_insert_ne by done|]. split; [by rewrite fn_lookup_insert_ne, fn_lookup_insert by done|].
  intros L H1 H2. by rewrite !fn_lookup_insert_ne by done.
Qed.
End pool.

(** ** Names *)
Lemma strcmp_ne a b k : a ≠ b → strcmp a b k = Ok k false.
Proof. intros H. unfold strcmp. by destruct (decide (a = b)). Qed.
Lemma strcmp_eq a k : (String.length a < 16)%nat → strcmp a a k = Ok k true.
Proof. intros H. unfold strcmp. destruct (decide (a = a)); [|done]. by rewrite (proj2 (Nat.ltb_lt _ (Z.to_nat MAXPNAME)) H). Qed.

Lemma sem_named_none n : ∀ i name k, (∀ j, i ≤ j < i + Z.of_nat n → ∃ s, sems k !! j = Some s ∧ s_name s ≠ name) → sem_named i n name k = Ok k None.
Proof.
  induction n as [|n IH]; intros i name k H; cbn [sem_named]; [done|]. destruct (H i) as (s & Hs & Hne); [lia|]. krun.
  rewrite (bind_ok _ _ _ _ _ (strcmp_ne _ _ _ Hne)). apply IH. intros j Hj. apply H. lia.
Qed.

Lemma sem_named_found n : ∀ i name k j s, i ≤ j < i + Z.of_nat n → sems k !! j = Some s → s_name s = name → (String.length name < 16)%nat →
  (∀ j', i ≤ j' < j → ∃ s, sems k !! j' = Some s ∧ s_name s ≠ name) → sem_named i n name k = Ok k (Some j).
Proof.
  induction n as [|n IH]; intros i name k j s Hj Hs En Hlen H; [lia|]. cbn [sem_named]. destruct (decide (i = j)) as [->|Hne].
  - krun. rewrite En, (bind_ok _ _ _ _ _ (strcmp_eq name _ Hlen)). done.
  - destruct (H i) as (s' & Hs' & Hn'); [lia|]. krun. rewrite (bind_ok _ _ _ _ _ (strcmp_ne _ _ _ Hn')). apply (IH (i + 1) name k j s); try done; [lia|]. intros j' Hj'. apply H. lia.
Qed.

Lemma substring_all s : ∀ n, (String.length s ≤ n)%nat → String.substring 0 n s = s.
Proof. induction s as [|c s IH]; intros [|n] H; cbn in *; try done; [lia|]. rewrite IH by lia. done. Qed.

Lemma strncpy_short s : (String.length s < 16)%nat → strncpy s = s.
Proof. intros H. apply substring_all. change (Z.to_nat MAXPNAME) with 16%nat. lia. Qed.

(** Whom a pid names depends on the process table only. *)
Lemma pid_scan_procs fuel : ∀ n pid k k' o, procs k' = procs k → pid_scan n fuel pid k = Ok k o → pid_scan n fuel pid k' = Ok k' o.
Proof.
  induction fuel as [|fuel IH]; intros n pid k k' o E H; cbn [pid_scan] in *; [by injection H as <-|].
  apply bind_inv in H as (k1 & r & H1 & H). unfold ld_proc in H1. apply bind_inv in H1 as (k2 & t & H2 & H1). injection H2 as <- <-.
  destruct (procs k !! n) as [q|] eqn:Hq; [|done]. injection H1 as <- <-. assert (Hq' : procs k' !! n = Some q) by (by rewrite E). krun.
  destruct (p_pid q =? pid); [by injection H as <-|]. by apply (IH _ _ k).
Qed.

(** ** The system calls *)
Section names.
Context (k : kstate) (Q : lhead → list laddr) (m : message) (n : Z) (ow : proc) (i : Z) (s : MRT_sem_t) (free : list laddr).

Let addr := umap_D ow (M1P1 m) 28.
Let a := tm_semattr (um_task (um k)) addr.

(** Process [n], which owns slot [n], asks for a semaphore with the attributes
    [a]; the pool is not empty and the name is new. *)
Record can_alloc : Prop := {
  ca_pool : pool_ok k Q;
  ca_pid : MRT_pid2pptr (CALLER m) k = Ok k (Some n);
  ca_proc : procs k !! n = Some ow;
  ca_nr : p_nr ow = n;
  ca_hw : n ≠ HARDWARE;
  ca_list : is_Some (lists (lm k) !! HSalloc n);
  ca_map : addr ≠ 0;
  ca_free : Q HSfreeL = LSemA i :: free;
  ca_sem : sems k !! i = Some s;
  ca_index : s_index s = i;
  ca_lock : unlinked Q (LSemL i);
  ca_wait p : Q (HP (PSem i) p) = [];
  ca_len : (String.length (sa_name a) < 16)%nat;
  ca_new j t : sems k !! j = Some t → s_name t ≠ sa_name a;
  ca_named : sa_name a ≠ "FREE";
  ca_attr : semattr_error a = None;
}.

(** A process asks for the semaphore called [name]. *)
Definition asks_name (g : message) (name : string) : Prop :=
  ∃ n' r', MRT_pid2pptr (CALLER g) k = Ok k (Some n') ∧ procs k !! n' = Some r' ∧ p_nr r' = n' ∧ umap_D r' (M1P1 g) MAXPNAME ≠ 0 ∧
    um_str (um k) (umap_D r' (M1P1 g) MAXPNAME) = name.

Lemma caller_ok k' g x : procs k' = procs k → MRT_pid2pptr (CALLER g) k = Ok k (Some x) → MRT_pid2pptr (CALLER g) k' = Ok k' (Some x).
Proof. intros E H. by eapply pid_scan_procs. Qed.

Lemma getsemid_run k' g name o : procs k' = procs k → um k' = um k → asks_name g name → find_sem name k' = Ok k' o →
  MRT_getsemid g k' = (match o with Some j => t ← ld_sem j; mret (s_index t) | None => mret E_MRT_BADSEM end) k'.
Proof.
  intros Ep Eu (n' & r' & Hpid & Hr & Hnr & Hmap & Hname) Hf. unfold MRT_getsemid, caller_of. rewrite bind_assoc.
  rewrite (bind_ok _ _ _ _ _ (caller_ok k' g n' Ep Hpid)). cbn [notnull]. rewrite ret_bind. unfold USR2KRN.
  assert (Hr' : procs k' !! n' = Some r') by (by rewrite Ep). krun. unfold numap. rewrite Hnr. krun. rewrite (proj2 (Z.eqb_neq _ _) Hmap). krun.
  rewrite Eu, Hname. by rewrite (bind_ok _ _ _ _ _ Hf).
Qed.

Lemma find_none k' : (∀ j, is_Some (sems k' !! j) ↔ 0 ≤ j < NR_SEM) → ∀ name, (∀ j t, sems k' !! j = Some t → s_name t ≠ name) → find_sem name k' = Ok k' None.
Proof. intros Hd name H. apply sem_named_none. intros j Hj. destruct (proj2 (Hd j)) as [t Ht]; [unfold NR_SEM in *; lia|]. exists t. split; [done|by eapply H]. Qed.

Lemma find_found k' j t : (∀ j, is_Some (sems k' !! j) ↔ 0 ≤ j < NR_SEM) → sems k' !! j = Some t → (String.length (s_name t) < 16)%nat →
  (∀ j' t', j' ≠ j → sems k' !! j' = Some t' → s_name t' ≠ s_name t) → find_sem (s_name t) k' = Ok k' (Some j).
Proof.
  intros Hd Hj Hlen H. assert (Hr : 0 ≤ j < NR_SEM) by (apply Hd; by exists t). eapply sem_named_found; [unfold NR_SEM in *; lia|exact Hj|done|done|].
  intros j' Hj'. destruct (proj2 (Hd j')) as [t' Ht']; [lia|]. exists t'. split; [done|]. eapply H; [|done]. lia.
Qed.

(** The semaphore as [MRT_semalloc] leaves it. *)
Definition made : MRT_sem_t :=
  s <| s_owner := n |> <| s_flags := Z.land (sa_flags a) (Z.lor SEM_PRTYORDER (Z.lor SEM_PRTYINHERIT SEM_MUTEX)) |> <| s_value := sa_value a |>
    <| s_priority := sa_priority a |> <| s_name := sa_name a |>.

(** The part of [MRT_semalloc] before the name is looked up. *)
Lemma semalloc_enter k' c : procs k' = procs k → um k' = um k → can_alloc → find_sem (sa_name a) k' = Ok k' c →
  MRT_semalloc m k' = match c with
    | Some _ => Ok k' E_MRT_BADNAME
    | None => (saveF_static F_MRT_semalloc MRT_saveFlock;; o ← MRT_sem_alloc n;
        match o with
        | None => restoreF_static F_MRT_semalloc;; mret E_MRT_NOSEM
        | Some psem =>
            st_sem psem (λ s, s <| s_flags := Z.land (sa_flags a) (Z.lor SEM_PRTYORDER (Z.lor SEM_PRTYINHERIT SEM_MUTEX)) |>
              <| s_value := sa_value a |> <| s_priority := sa_priority a |> <| s_name := strncpy (sa_name a) |>);;
            restoreF_static F_MRT_semalloc;; t ← ld_sem psem; mret (s_index t)
        end) k'
    end.
Proof.
  intros Ep Eu Hc Hf. unfold MRT_semalloc, caller_of. rewrite bind_assoc. rewrite (bind_ok _ _ _ _ _ (caller_ok k' m n Ep (ca_pid Hc))). cbn [notnull]. rewrite ret_bind.
  unfold get_user, USR2KRN. assert (Hr' : procs k' !! n = Some ow) by (rewrite Ep; apply Hc). krun. unfold numap. rewrite (ca_nr Hc). krun. fold addr. rewrite (proj2 (Z.eqb_neq _ _) (ca_map Hc)).
  krun. rewrite Eu. fold a. rewrite (bind_ok _ _ _ _ _ Hf). destruct c; [done|]. by rewrite (ca_attr Hc).
Qed.

Lemma semalloc_run : can_alloc → ∃ k1 Q1, MRT_semalloc m k = Ok k1 i ∧ pool_ok k1 Q1 ∧ sem_frame k k1 ∧ sems k1 = <[i := made]> (sems k) ∧
  Q1 HSfreeL = free ∧ Q1 (HSalloc n) = Q (HSalloc n) ++ [LSemA i] ∧ (∀ L, L ≠ HSfreeL → L ≠ HSalloc n → Q1 L = Q L) ∧ is_Some (lists (lm k1) !! HSalloc n).
Proof.
  intros Hc. pose proof (ca_pool Hc) as Hp. rewrite (semalloc_enter k None); [|done|done|done|apply find_none; [apply Hp|apply Hc]].
  unfold saveF_static, restoreF_static, MRT_saveFlock, MRT_lock. krun. match goal with |- ∃ _ _, mbind _ _ ?st = _ ∧ _ => set (k0 := st) end.
  assert (Hp0 : pool_ok k0 Q) by (by apply (pool_step k Q); [|split; [apply Hp|reflexivity]|]).
  destruct (sem_alloc_spec k0 Q n ow i free s Hp0 (ca_proc Hc) (ca_list Hc) (ca_free Hc) (ca_sem Hc)) as (k1 & Q1 & Hr1 & Hs1 & Es1 & [E1 E2 E3] & Ef & HQ).
  rewrite (bind_ok _ _ _ _ _ Hr1). assert (Hsi : sems k1 !! i = Some (s <| s_owner := p_nr ow |>)) by (rewrite Es1; by rewrite lookup_insert_eq).
  rewrite (bind_ok _ _ _ _ _ (st_sem_ok _ _ _ _ Hsi)). unfold MRT_restoreF. krun.
  rewrite (ca_nr Hc), (strncpy_short _ (ca_len Hc)) in *. fold made. eexists _, Q1. split; [cbn; rewrite (ca_index Hc); reflexivity|]. split_and!; try apply HQ.
  - eapply (pool_step k0 Q); [exact Hp0|exact Hs1|]. intros j. cbn. rewrite Es1, insert_insert_eq, lookup_insert_is_Some'. change (sems k0) with (sems k). split; [intros [<-|]; [rewrite (ca_sem Hc); by eexists|done]|by right].
  - split; cbn; rewrite ?E1, ?E2, ?E3; try done. rewrite Ef. cbn. rewrite fn_lookup_insert. by destruct (hw k).
  - cbn. rewrite Es1, insert_insert_eq. done.
  - apply Hs1. apply Hc.
Qed.

Lemma id_ok {k' Q' j t} : pool_ok k' Q' → sems k' !! j = Some t → bad_sem j = false.
Proof. intros Hp Hj. assert (Hr : 0 ≤ j < NR_SEM) by (apply (pk_sems _ _ Hp); by exists t). unfold bad_sem. rewrite (proj2 (Z.ltb_ge _ _)), (proj2 (Z.leb_gt _ _)) by lia. done. Qed.

Lemma semfree_run k1 Q1 f : can_alloc → pool_ok k1 Q1 → procs k1 = procs k → is_Some (lists (lm k1) !! HSalloc n) → sems k1 = <[i := made]> (sems k) →
  Q1 HSfreeL = free → Q1 (HSalloc n) = Q (HSalloc n) ++ [LSemA i] → (∀ L, L ≠ HSfreeL → L ≠ HSalloc n → Q1 L = Q L) →
  SEMID f = i → MRT_pid2pptr (CALLER f) k = Ok k (Some n) →
  ∃ k2 Q2, MRT_semfree f k1 = Ok k2 OK ∧ pool_ok k2 Q2 ∧ sems k2 = <[i := free_sem made]> (sems k1) ∧ sem_frame k1 k2 ∧
    Q2 HSfreeL = Q1 HSfreeL ++ [LSemA i] ∧ Q2 (HSalloc n) = Q (HSalloc n) ∧ ∀ L, L ≠ HSfreeL → L ≠ HSalloc n → Q2 L = Q1 L.
Proof.
  intros Hc Hp1 E1 Hls Es HF HA HL Hf Hpid. assert (Hi1 : sems k1 !! i = Some made) by (rewrite Es; by rewrite lookup_insert_eq).
  assert (Hn1 : procs k1 !! n = Some ow) by (rewrite E1; apply Hc). unfold MRT_semfree. rewrite (bind_ok _ _ _ _ _ (caller_ok k1 f n E1 Hpid)), Hf, (id_ok Hp1 Hi1). krun.
  change (s_owner made) with n. rewrite (proj2 (Z.eqb_neq _ _) (ca_hw Hc)). krun. rewrite (ca_nr Hc), Z.eqb_refl. cbn [negb]. unfold MRT_saveFlock, MRT_lock. krun.
  match goal with |- ∃ _ _, mbind _ _ ?st = _ ∧ _ => set (k0 := st) end.
  assert (Hp0 : pool_ok k0 Q1) by (by apply (pool_step k1 Q1); [|split; [apply Hp1|reflexivity]|]).
  destruct (sem_free_spec k0 Q1 n i made (Q (HSalloc n)) [] Hp0 Hls HA Hi1) as (k2 & Q2 & Hr2 & Hs2 & Es2 & [G1 G2 G3] & HF2 & HA2 & HL2).
  { intros L. destruct (decide (L = HSfreeL)) as [->|]; [rewrite HF|]. 
    - intros Hx. apply (ca_lock Hc HSfreeL). rewrite (ca_free Hc). by right.
    - destruct (decide (L = HSalloc n)) as [->|]; [|rewrite HL by done; apply Hc]. rewrite HA. intros [Hx|[=]%list_elem_of_singleton]%elem_of_app. by apply (ca_lock Hc (HSalloc n)). }
  { intros p. rewrite HL by done. apply (ca_wait Hc). }
  rewrite (bind_ok _ _ _ _ _ Hr2). unfold MRT_restoreF. krun. eexists _, Q2. split; [reflexivity|]. split; [|split; [exact Es2|split; [|split; [exact HF2|split; [by rewrite HA2, app_nil_r|exact HL2]]]]].
  - eapply (pool_step k0 Q1); [exact Hp0|exact Hs2|]. intros j. cbn. rewrite Es2, lookup_insert_is_Some'. change (sems k0) with (sems k1). split; [intros [<-|]; [rewrite Hi1; by eexists|done]|by right].
  - split; cbn; rewrite ?G1, ?G2, ?G3; try done. cbn. by destruct (hw k1).
Qed.

(** C29: A semaphore is known by its name from its allocation to its release.
    [MRT_semalloc] with a new name takes the first semaphore of the pool and
    returns its number; until it is freed [MRT_getsemid] returns that number for
    the name, the name cannot be allocated again, and only the owner can free it;
    when the owner does, the semaphore is back in the pool, every list is as
    before, and the name is unknown. *)
Theorem semaphore_names : can_alloc → ∃ k1 Q1,
  MRT_semalloc m k = Ok k1 i ∧ pool_ok k1 Q1 ∧ Q1 HSfreeL = free ∧ Q1 (HSalloc n) = Q (HSalloc n) ++ [LSemA i] ∧
  (∀ g, asks_name g (sa_name a) → MRT_getsemid g k1 = Ok k1 i) ∧
  MRT_semalloc m k1 = Ok k1 E_MRT_BADNAME ∧
  (∀ f x other, SEMID f = i → MRT_pid2pptr (CALLER f) k = Ok k (Some x) → procs k !! x = Some other → p_nr other ≠ n → MRT_semfree f k1 = Ok k1 EPERM) ∧
  (∀ f, SEMID f = i → MRT_pid2pptr (CALLER f) k = Ok k (Some n) → ∃ k2 Q2,
     MRT_semfree f k1 = Ok k2 OK ∧ pool_ok k2 Q2 ∧ Q2 HSfreeL = free ++ [LSemA i] ∧ (∀ L, L ≠ HSfreeL → Q2 L = Q L) ∧
     ∀ g, asks_name g (sa_name a) → MRT_getsemid g k2 = Ok k2 E_MRT_BADSEM).
Proof.
  intros Hc. destruct (semalloc_run Hc) as (k1 & Q1 & Hr & Hp1 & [E1 E2 E3] & Es & HF & HA & HL & Hls). exists k1, Q1.
  assert (Hi1 : sems k1 !! i = Some made) by (rewrite Es; by rewrite lookup_insert_eq).
  assert (Hother : ∀ j t, j ≠ i → sems k1 !! j = Some t → s_name t ≠ sa_name a) by (intros j t Hj; rewrite Es, lookup_insert_ne by done; apply Hc).
  assert (Hfind : find_sem (sa_name a) k1 = Ok k1 (Some i)) by (apply (find_found k1 i made); [apply Hp1|done|apply Hc|done]).
  split; [done|]. split; [done|]. split; [done|]. split; [done|]. split; [|split; [|split]].
  - intros g Hg. rewrite (getsemid_run k1 g _ _ E1 E2 Hg Hfind). krun. cbn. by rewrite (ca_index Hc).
  - by rewrite (semalloc_enter k1 (Some i)).
  - intros f x other Hf Hpid Hx Hne. unfold MRT_semfree. rewrite (bind_ok _ _ _ _ _ (caller_ok k1 f x E1 Hpid)), Hf. rewrite (id_ok Hp1 Hi1). krun. 
    change (s_owner made) with n. rewrite (proj2 (Z.eqb_neq _ _) (ca_hw Hc)). assert (Hx1 : procs k1 !! x = Some other) by (by rewrite E1). krun. by rewrite (proj2 (Z.eqb_neq _ _) (not_eq_sym Hne)).
  - intros f Hf Hpid.
    destruct (semfree_run k1 Q1 f) as (k2 & Q2 & Hr2 & Hp2 & Es2 & [G1 G2 _] & HF2 & HA2 & HL2); try done.
    exists k2, Q2. split; [done|]. split; [done|]. split; [by rewrite HF2, HF|]. split.
    + intros L Hne. destruct (decide (L = HSalloc n)) as [->|]; [done|]. by rewrite HL2, HL.
    + intros g Hg. apply (getsemid_run k2 g (sa_name a) None); [by rewrite G1|by rewrite G2|done|]. apply find_none; [apply Hp2|]. intros j t. rewrite Es2, Es, insert_insert_eq.
      destruct (decide (j = i)) as [->|]; [rewrite lookup_insert_eq; intros [= <-]; apply not_eq_sym, Hc|rewrite lookup_insert_ne by done; apply Hc].
Qed.
End names.

(** ** A run: one semaphore in the pool, process 1 calls it "printer" *)
Definition printer_mem : umem :=
  bss_umem <| um_str := λ _, "printer" |> <| um_task ::= λ t, t <| tm_semattr := λ _, mk_semattr 1 SEM_MUTEX 5 "printer" |> |>.
Definition printer_bss (m1 : lmem) : kstate := bss <| lm := m1 |> <| um := printer_mem |>.
Definition alloc_msg : message := mk_message 1 117 [101; 0; 0; 0x100].
Definition find_msg : message := mk_message 1 121 [101; 0; 0; 0x100].

Lemma table_lookup {A} a n (f : Z → A) i x : table a n f !! i = Some x ↔ x = f i ∧ a ≤ i < a + n.
Proof.
  unfold table, zs. split.
  - intros (j & [= -> ->] & Hj%elem_of_seqZ)%elem_of_list_to_map_2%list_elem_of_fmap. split; [done|lia].
  - intros [-> Hi]. apply elem_of_list_to_map_1; [|apply list_elem_of_fmap; exists i; split; [done|apply elem_of_seqZ; lia]].
    rewrite <- list_fmap_compose. apply NoDup_fmap; [by intros ??|apply NoDup_seqZ].
Qed.

Lemma bss_pid k x : procs k = procs bss → - NR_TASKS ≤ x < NR_PROCS → MRT_pid2pptr (100 + x) k = Ok k (Some x).
Proof.
  intros E Hx. assert (Hgen : ∀ fuel n, n ≤ x < n + Z.of_nat fuel → - NR_TASKS ≤ n → pid_scan n fuel (100 + x) k = Ok k (Some x)).
  { induction fuel as [|fuel IH]; intros n Hn Hlo; [lia|]. cbn [pid_scan]. assert (Hp : procs k !! n = Some (bss_proc n)) by (rewrite E; apply bss_procs; lia). krun.
    change (p_pid (bss_proc n)) with (100 + n). destruct (Z.eqb_spec (100 + n) (100 + x)) as [En|En]; [by replace n with x by lia|]. apply IH; lia. }
  apply Hgen; [|lia]. change (Z.of_nat (Z.to_nat (NR_TASKS + NR_PROCS))) with (NR_TASKS + NR_PROCS). lia.
Qed.

Lemma semaphore_names_witness : ∃ k k1 k2, MRT_semalloc alloc_msg k = Ok k1 0 ∧ MRT_getsemid find_msg k1 = Ok k1 0 ∧ MRT_semfree alloc_msg k1 = Ok k2 OK ∧
  MRT_getsemid find_msg k2 = Ok k2 E_MRT_BADSEM.
Proof.
  destruct (list_app_q bss_lm (λ _, []) HSfreeL (LSemA 0) bss_lm_qinv) as (m1 & _ & [Hq Hf] & _); [by eexists|done|by eexists|by intros L []%not_elem_of_nil|].
  set (k := printer_bss m1). set (Q := <[HSfreeL := [] ++ [LSemA 0]]> (λ _ : lhead, [] : list laddr)) in Hq.
  assert (Hthis : this_ok bss_lm) by (apply this_ok_check; vm_compute; reflexivity).
  assert (Hnames : ∀ j t, sems k !! j = Some t → s_name t = "FREE") by (by intros j t [-> _]%table_lookup).
  destruct (semaphore_names k Q alloc_msg 1 (bss_proc 1) 0 (mk_sem 0 0 MRT_PRILOWEST 0 HARDWARE 0 0 None "FREE") []) as (k1 & Q1 & H1 & _ & _ & _ & H2 & _ & _ & H3).
  - split.
    + split; [exact Hq|by eapply this_ok_frame|apply Hf; by eexists| | |].
      * intros i Hi. apply Hf. assert (Hc : bool_decide (Forall (λ i, is_Some (plists bss_lm !! PSem i)) (seqZ 0 NR_SEM)) = true) by (vm_compute; reflexivity).
        apply bool_decide_eq_true in Hc. rewrite Forall_forall in Hc. apply Hc, elem_of_seqZ. lia.
      * intros i Hi. assert (Hc : bool_decide (Forall (λ i, is_Some (links bss_lm !! LSemA i) ∧ is_Some (links bss_lm !! LSemL i)) (seqZ 0 NR_SEM)) = true) by (vm_compute; reflexivity).
        apply bool_decide_eq_true in Hc. rewrite Forall_forall in Hc. destruct (Hc i) as [Ha Hl]; [apply elem_of_seqZ; lia|]. split; by apply (lframe_is_Some _ _ _ Hf).
      * intros i. split; [intros [t [_ Ht]%table_lookup]; lia|]. intros Hi. eexists. by apply table_lookup.
    + by apply (bss_pid k 1).
    + by apply bss_procs.
    + done.
    + done.
    + apply Hf. by eexists.
    + discriminate.
    + unfold Q. by rewrite fn_lookup_insert.
    + by apply table_lookup.
    + done.
    + intros L. unfold Q. destruct (decide (L = HSfreeL)) as [->|]; [rewrite fn_lookup_insert; by intros [=]%list_elem_of_singleton|rewrite fn_lookup_insert_ne by done; by intros []%not_elem_of_nil].
    + intros p. unfold Q. by rewrite fn_lookup_insert_ne.
    + cbn. lia.
    + intros j t Ht. by rewrite (Hnames _ _ Ht).
    + discriminate.
    + reflexivity.
  - destruct (H3 alloc_msg eq_refl) as (k2 & Q2 & H4 & _ & _ & _ & H5); [by apply (bss_pid k 1)|].
    assert (Hask : asks_name k find_msg "printer").
    { exists 1, (bss_proc 1). split; [by apply (bss_pid k 1)|]. split; [by apply bss_procs|]. split; [done|]. split; [discriminate|done]. }
    exists k, k1, k2. split; [exact H1|]. split; [exact (H2 _ Hask)|]. split; [exact H4|exact (H5 _ Hask)].
Defined.
