(* ===== verification/Frame.v ===== *)
(** * What kernel code leaves alone

    A relation between the state before and after a piece of kernel code, kept
    by every operation of the kernel model: real-time mode does not end, no
    process becomes a real-time process and every table keeps its slots.  The
    tactic [fr] proves it for an operation from its code. *)

From stdpp Require Import base gmap strings pretty numbers fin_maps functions list relations.
From S2P Require Import Prelude Lists Kernel Sched VTimer Inherit Sem Msg Rtproc Irq Dispatch MiniIpc Task.
Local Open Scope Z_scope.

(** ** What every piece of kernel code leaves alone *)
Definition rt_mode (k : kstate) : bool := TEST_BIT (sv_flags (sv k)) MRT_RTMODE.

(** The same slots, each with its own number or the one it had. *)
Definition tab_frame {A} (idx : A → Z) (m m' : gmap Z A) : Prop := ∀ i,
  match m !! i, m' !! i with
  | Some a, Some a' => idx a' = idx a ∨ idx a' = i
  | None, None => True
  | _, _ => False
  end.

(** Real-time mode does not end and, unless [grow], no process becomes a
    real-time process. *)
Record kframe (grow : bool) (k k' : kstate) : Prop := {
  kf_mode : rt_mode k = true → rt_mode k' = true;
  kf_rt n r' : grow = false → procs k' !! n = Some r' → MRT_is_realtime r' = true → ∃ r, procs k !! n = Some r ∧ MRT_is_realtime r = true;
  kf_procs : tab_frame p_nr (procs k) (procs k');
  kf_sems : tab_frame s_index (sems k) (sems k');
  kf_vts : tab_frame vt_index (vtimers k) (vtimers k');
  kf_mqes : tab_frame e_index (mqes k) (mqes k');
  kf_mqs : tab_frame q_index (msgQs k) (msgQs k');
  kf_irqs : tab_frame iq_irq (irqtab k) (irqtab k');
}.

Lemma tab_frame_refl {A} (idx : A → Z) m : tab_frame idx m m.
Proof. intros i. destruct (m !! i); auto. Qed.

Lemma tab_frame_trans {A} (idx : A → Z) m1 m2 m3 : tab_frame idx m1 m2 → tab_frame idx m2 m3 → tab_frame idx m1 m3.
Proof.
  intros H1 H2 i. specialize (H1 i). specialize (H2 i). destruct (m1 !! i), (m2 !! i), (m3 !! i); try done.
  destruct H2 as [->|]; auto.
Qed.

Lemma tab_frame_insert {A} (idx : A → Z) m i a a' : m !! i = Some a → idx a' = idx a ∨ idx a' = i → tab_frame idx m (<[i := a']> m).
Proof.
  intros Hi Ha j. destruct (decide (j = i)) as [->|]; [by rewrite Hi, lookup_insert_eq|]. rewrite lookup_insert_ne by done. destruct (m !! j); auto.
Qed.

#[export] Instance kframe_refl g : Reflexive (kframe g).
Proof. intros k. split; try apply tab_frame_refl; [done|]. intros n r _ Hr Hrt. by exists r. Qed.

#[export] Instance kframe_trans g : Transitive (kframe g).
Proof.
  intros k1 k2 k3 [A1 A2 A3 A4 A5 A6 A7 A8] [B1 B2 B3 B4 B5 B6 B7 B8]. split; try (by eapply tab_frame_trans); [auto|].
  intros n r Hg Hr Hrt. destruct (B2 n r Hg Hr Hrt) as (r2 & Hr2 & Hrt2). by apply (A2 n r2).
Qed.

(** Nothing but state outside the tables changes, and [RTMODE] is kept. *)
Lemma kframe_same g k k' : procs k' = procs k → sems k' = sems k → vtimers k' = vtimers k → mqes k' = mqes k → msgQs k' = msgQs k → irqtab k' = irqtab k →
  (rt_mode k = true → rt_mode k' = true) → kframe g k k'.
Proof.
  intros E1 E2 E3 E4 E5 E6 Hm. split; [done|..]; rewrite ?E1, ?E2, ?E3, ?E4, ?E5, ?E6; try apply tab_frame_refl. intros n r _ Hr Hrt. by exists r.
Qed.

(** ** Code that respects the frame *)
Definition fr {A} (g : bool) (m : K A) : Prop := ∀ k, match m k with Ok k' _ => kframe g k k' | _ => True end.

Section fr.
Context (g : bool).
Implicit Types (k : kstate).

Lemma fr_run {A} (m : K A) k k' a : fr g m → m k = Ok k' a → kframe g k k'.
Proof. intros H E. specialize (H k). by rewrite E in H. Qed.

Lemma fr_bind {A B} (m : K A) (f : A → K B) : fr g m → (∀ a, fr g (f a)) → fr g (m ≫= f).
Proof.
  intros Hm Hf k. unfold mbind, M_bind. specialize (Hm k). destruct (m k) as [k1 a| | |]; try done.
  specialize (Hf a k1). destruct (f a k1); try done. by etrans.
Qed.
Lemma fr_ret {A} (a : A) : fr g (mret a).
Proof. intros k. cbn. reflexivity. Qed.
Lemma fr_gets {A} (f : kstate → A) : fr g (gets f).
Proof. intros k. cbn. reflexivity. Qed.
Lemma fr_panic {A} s n : fr (A := A) g (panic s n).
Proof. done. Qed.
Lemma fr_undef {A} u : fr (A := A) g (undef u).
Proof. done. Qed.
Lemma fr_nofuel {A} : fr (A := A) g (λ _, NoFuel).
Proof. done. Qed.
Lemma fr_deref {A} (o : option A) : fr g (deref o).
Proof. destruct o; [apply fr_ret|apply fr_undef]. Qed.
Lemma fr_notnull {A} (o : option A) : fr g (notnull o).
Proof. destruct o; [apply fr_ret|apply fr_undef]. Qed.
Lemma fr_modify f : (∀ k, kframe g k (f k)) → fr g (modify f).
Proof. intros H k. apply H. Qed.
Lemma fr_for i n body : (∀ j, fr g (body j)) → fr g (for_ i n body).
Proof. intros Hb. revert i. induction n as [|n IH]; intros i; cbn [for_]; [apply fr_ret|]. apply fr_bind; [apply Hb|]. intros _. apply IH. Qed.
Lemma fr_lists {A} (m : M lmem A) : fr g (lists_ m).
Proof. intros k. unfold lists_, zoom. destruct (m (lm k)); try done. by apply kframe_same. Qed.
Lemma fr_sv f : (∀ v, TEST_BIT (sv_flags v) MRT_RTMODE = true → TEST_BIT (sv_flags (f v)) MRT_RTMODE = true) → fr g (st_sv f).
Proof. intros H. apply fr_modify. intros k. apply kframe_same; try done. apply H. Qed.

Lemma kframe_tab k k' :
  (rt_mode k = true → rt_mode k' = true) → procs k' = procs k →
  tab_frame s_index (sems k) (sems k') → tab_frame vt_index (vtimers k) (vtimers k') → tab_frame e_index (mqes k) (mqes k') →
  tab_frame q_index (msgQs k) (msgQs k') → tab_frame iq_irq (irqtab k) (irqtab k') → kframe g k k'.
Proof. intros Hm E. intros. split; try done; rewrite E; [|apply tab_frame_refl]. intros n r _ Hr Hrt. by exists r. Qed.

Lemma fr_st_proc n f : (∀ r, p_nr (f r) = p_nr r ∧ (g = false → MRT_is_realtime (f r) = true → MRT_is_realtime r = true)) → fr g (st_proc n f).
Proof.
  intros H k. unfold st_proc, ld_proc, mbind, M_bind, gets, deref. destruct (procs k !! n) as [r|] eqn:Hr; [|done]. cbn.
  destruct (H r) as [Hn Hrt]. split; try apply tab_frame_refl; [done| |cbn; eapply tab_frame_insert; eauto].
  intros m r' Hg Hr' Hr''. cbn in Hr'. destruct (decide (m = n)) as [->|]; [rewrite lookup_insert_eq in Hr'; injection Hr' as <-; exists r; auto|].
  rewrite lookup_insert_ne in Hr' by done. by exists r'.
Qed.
End fr.

Ltac tab_store Hx :=
  let k := fresh "k" in intros H k; unfold mbind, M_bind, gets, deref; destruct (_ !! _) as [x|] eqn:Hx; [|done]; cbn;
  apply kframe_tab; cbn; try apply tab_frame_refl; try done; eapply tab_frame_insert; [exact Hx|apply H].

Lemma fr_st_sem g i f : (∀ s, s_index (f s) = s_index s ∨ s_index (f s) = i) → fr g (st_sem i f).
Proof. unfold st_sem, ld_sem. tab_store Hx. Qed.
Lemma fr_st_vt g i f : (∀ s, vt_index (f s) = vt_index s ∨ vt_index (f s) = i) → fr g (st_vt i f).
Proof. unfold st_vt, ld_vt. tab_store Hx. Qed.
Lemma fr_st_mqe g i f : (∀ s, e_index (f s) = e_index s ∨ e_index (f s) = i) → fr g (st_mqe i f).
Proof. unfold st_mqe, ld_mqe. tab_store Hx. Qed.
Lemma fr_st_mq g i f : (∀ s, q_index (f s) = q_index s ∨ q_index (f s) = i) → fr g (st_mq i f).
Proof. unfold st_mq, ld_mq. tab_store Hx. Qed.
Lemma fr_st_irqd g i f : (∀ s, iq_irq (f s) = iq_irq s ∨ iq_irq (f s) = i) → fr g (st_irqd i f).
Proof. unfold st_irqd, ld_irqd. tab_store Hx. Qed.

Lemma test_set a b c : TEST_BIT a c = true → TEST_BIT (SET_BIT a b) c = true.
Proof.
  unfold TEST_BIT, SET_BIT. rewrite !negb_true_iff, !Z.eqb_neq. intros H E. apply H. rewrite Z.land_lor_distr_l in E. by apply Z.lor_eq_0_iff in E as [E _].
Qed.
Lemma test_clr a b c : TEST_BIT (CLR_BIT a b) c = true → TEST_BIT a c = true.
Proof.
  unfold TEST_BIT, CLR_BIT. rewrite !negb_true_iff, !Z.eqb_neq. intros H E. apply H. by rewrite <- Z.land_assoc, (Z.land_comm _ c), Z.land_assoc, E.
Qed.

Lemma set_other a b c : Z.land b c = 0 → TEST_BIT (SET_BIT a b) c = true → TEST_BIT a c = true.
Proof. intros H. by rewrite SET_BIT_other. Qed.

(** [fr] goes through the code of an operation; what it calls is found in the
    database [frame] or unfolded. *)
Create HintDb frame discriminated.
#[export] Hint Constants Opaque : frame.

(** Operations that take the rest of their caller as an argument. *)
Ltac fr_rest := fail.

Ltac fr_sides :=
  intros; cbn -[TEST_BIT SET_BIT CLR_BIT MRT_RTMODE MRT_P_REALTIME Z.land Z.lor Z.lnot] in *; unfold MRT_is_realtime in *;
  cbn -[TEST_BIT SET_BIT CLR_BIT MRT_RTMODE MRT_P_REALTIME Z.land Z.lor Z.lnot] in *;
  first [done | by auto | by apply test_set | by rewrite CLR_BIT_other | by left | by right
        | split; [reflexivity|intros ?; first [done | congruence | exact (test_clr _ _ _) | apply set_other; reflexivity]] ].
Ltac fr_head m :=
  lazymatch m with
  | ?f _ => fr_head f
  | ?f => unfold f
  end.
Ltac fr_step :=
  lazymatch goal with
  | |- fr _ (mbind _ _) => apply fr_bind; [|intros ?]
  | |- fr _ (mret _) => apply fr_ret
  | |- fr _ (gets _) => apply fr_gets
  | |- fr _ (panic _ _) => apply fr_panic
  | |- fr _ (undef _) => apply fr_undef
  | |- fr _ (λ _, NoFuel) => apply fr_nofuel
  | |- fr _ (deref _) => apply fr_deref
  | |- fr _ (notnull _) => apply fr_notnull
  | |- fr _ (lists_ _) => apply fr_lists
  | |- fr _ (for_ _ _ _) => apply fr_for; intros ?
  | |- fr _ (modify _) => apply fr_modify; intros ?; apply kframe_same; fr_sides
  | |- fr _ (st_sv _) => apply fr_sv; fr_sides
  | |- fr _ (st_proc _ _) => apply fr_st_proc; fr_sides
  | |- fr _ (st_sem _ _) => apply fr_st_sem; fr_sides
  | |- fr _ (st_vt _ _) => apply fr_st_vt; fr_sides
  | |- fr _ (st_mqe _ _) => apply fr_st_mqe; fr_sides
  | |- fr _ (st_mq _ _) => apply fr_st_mq; fr_sides
  | |- fr _ (st_irqd _ _) => apply fr_st_irqd; fr_sides
  | |- fr _ (match ?x with _ => _ end) => destruct x
  | |- fr _ (let _ := _ in _) => cbv zeta
  | |- fr _ ?m => first [solve [eauto 2 with frame nocore] | fr_rest | fr_head m]
  end.
Ltac fr := repeat fr_step.
Ltac fr_fix n := induction n as [|n IH]; intros; [fr|].

Section kernel.
Context (g : bool).

Lemma USR2KRN_fr {A} n (view : umem → Z → A) src size c : (∀ x, fr g (c x)) → fr g (USR2KRN n view src size c).
Proof. intros H. fr. Qed.
Lemma KRN2USR_fr n store dst size c : fr g c → fr g (KRN2USR n store dst size c).
Proof. intros H. fr. Qed.
Lemma USR2USR_fr pdst psrc dst src size c : fr g c → fr g (USR2USR pdst psrc dst src size c).
Proof. intros H. fr. Qed.
Lemma locked_fr {A} (m : K A) : fr g m → fr g (locked m).
Proof. intros H. fr. Qed.

Ltac fr_rest ::=
  lazymatch goal with
  | |- fr _ (USR2KRN _ _ _ _ _) => apply USR2KRN_fr; intros ?
  | |- fr _ (KRN2USR _ _ _ _ _) => apply KRN2USR_fr
  | |- fr _ (USR2USR _ _ _ _ _ _) => apply USR2USR_fr
  | |- fr _ (locked _) => apply locked_fr
  end.

Lemma MRT_prtylvl_set_fr priority : fr g (MRT_prtylvl_set priority).
Proof. fr. Qed.
#[local] Hint Resolve MRT_prtylvl_set_fr : frame.
Lemma MRT_pick_proc_fr : fr g (MRT_pick_proc).
Proof. fr. Qed.
#[local] Hint Resolve MRT_pick_proc_fr : frame.
Lemma pick_proc_fr : fr g (pick_proc).
Proof. fr. Qed.
#[local] Hint Resolve pick_proc_fr : frame.
Lemma ready_fr rp : fr g (ready rp).
Proof. fr. Qed.
#[local] Hint Resolve ready_fr : frame.
Lemma unready_body_fr fuel q xp rp : fr g (unready_body fuel q xp rp).
Proof. revert q xp rp. fr_fix fuel; cbn [unready_body]. fr. Qed.
#[local] Hint Resolve unready_body_fr : frame.
Lemma unready_fr rp : fr g (unready rp).
Proof. fr. Qed.
#[local] Hint Resolve unready_fr : frame.
Lemma sched_fr : fr g (sched).
Proof. fr. Qed.
#[local] Hint Resolve sched_fr : frame.
Lemma MRT_timer_set_fr harmonic : fr g (MRT_timer_set harmonic).
Proof. fr. Qed.
#[local] Hint Resolve MRT_timer_set_fr : frame.
Lemma MRT_timer_oneshot_fr period : fr g (MRT_timer_oneshot period).
Proof. fr. Qed.
#[local] Hint Resolve MRT_timer_oneshot_fr : frame.
Lemma ins_scan_fr fuel ticksum plnext period : fr g (ins_scan fuel ticksum plnext period).
Proof. revert ticksum plnext period. fr_fix fuel; cbn [ins_scan]. fr. Qed.
#[local] Hint Resolve ins_scan_fr : frame.
Lemma MRT_vtimer_ins_fr i : fr g (MRT_vtimer_ins i).
Proof. fr. Qed.
#[local] Hint Resolve MRT_vtimer_ins_fr : frame.
Lemma MRT_vtimer_rmv_fr i : fr g (MRT_vtimer_rmv i).
Proof. fr. Qed.
#[local] Hint Resolve MRT_vtimer_rmv_fr : frame.
Lemma MRT_vtimer_stop_fr i : fr g (MRT_vtimer_stop i).
Proof. fr. Qed.
#[local] Hint Resolve MRT_vtimer_stop_fr : frame.
Lemma MRT_vtimer_free_fr i : fr g (MRT_vtimer_free i).
Proof. fr. Qed.
#[local] Hint Resolve MRT_vtimer_free_fr : frame.
Lemma MRT_vtimer_alloc_fr period limit action param owner priority : fr g (MRT_vtimer_alloc period limit action param owner priority).
Proof. fr. Qed.
#[local] Hint Resolve MRT_vtimer_alloc_fr : frame.
Lemma clock_loop_fr fuel minexp : fr g (clock_loop fuel minexp).
Proof. revert minexp. fr_fix fuel; cbn [clock_loop]. fr. Qed.
#[local] Hint Resolve clock_loop_fr : frame.
Lemma MRT_clock_handler_fr : fr g (MRT_clock_handler).
Proof. fr. Qed.
#[local] Hint Resolve MRT_clock_handler_fr : frame.
Lemma MRT_sproc_pick_fr psem : fr g (MRT_sproc_pick psem).
Proof. fr. Qed.
#[local] Hint Resolve MRT_sproc_pick_fr : frame.
Lemma mqe_walk_fr fuel plink source : fr g (mqe_walk fuel plink source).
Proof. revert plink source. fr_fix fuel; cbn [mqe_walk]. fr. Qed.
#[local] Hint Resolve mqe_walk_fr : frame.
Lemma mqe_scan_fr q bm p n source : fr g (mqe_scan q bm p n source).
Proof. revert q bm p source. fr_fix n; cbn [mqe_scan]. fr. Qed.
#[local] Hint Resolve mqe_scan_fr : frame.
Lemma MRT_mqe_pick_fr pmq source : fr g (MRT_mqe_pick pmq source).
Proof. fr. Qed.
#[local] Hint Resolve MRT_mqe_pick_fr : frame.
Lemma MRT_inherit_fr fuel prty pptr : fr g (MRT_inherit fuel prty pptr).
Proof. revert prty pptr. fr_fix fuel; cbn [MRT_inherit]. fr. Qed.
#[local] Hint Resolve MRT_inherit_fr : frame.
Lemma slock_prty_fr fuel lk sem_prty : fr g (slock_prty fuel lk sem_prty).
Proof. revert lk sem_prty. fr_fix fuel; cbn [slock_prty]. fr. Qed.
#[local] Hint Resolve slock_prty_fr : frame.
Lemma MRT_disinherit_fr pptr : fr g (MRT_disinherit pptr).
Proof. fr. Qed.
#[local] Hint Resolve MRT_disinherit_fr : frame.
Lemma MRT_sem_rst_fr psem : fr g (MRT_sem_rst psem).
Proof. fr. Qed.
#[local] Hint Resolve MRT_sem_rst_fr : frame.
Lemma MRT_sem_free_fr rp psem : fr g (MRT_sem_free rp psem).
Proof. fr. Qed.
#[local] Hint Resolve MRT_sem_free_fr : frame.
Lemma MRT_sproc_rmv_fr psem rp : fr g (MRT_sproc_rmv psem rp).
Proof. fr. Qed.
#[local] Hint Resolve MRT_sproc_rmv_fr : frame.
Lemma clr_ready_fr rp b : fr g (clr_ready rp b).
Proof. fr. Qed.
#[local] Hint Resolve clr_ready_fr : frame.
Lemma mutex_pass_fr psem rp : fr g (mutex_pass psem rp).
Proof. fr. Qed.
#[local] Hint Resolve mutex_pass_fr : frame.
Lemma MRT_semup_fr psem : fr g (MRT_semup psem).
Proof. fr. Qed.
#[local] Hint Resolve MRT_semup_fr : frame.
Lemma MRT_semdown_fr psem timeout : fr g (MRT_semdown psem timeout).
Proof. fr. Qed.
#[local] Hint Resolve MRT_semdown_fr : frame.
Lemma sem_unlock_loop_fr fuel rp : fr g (sem_unlock_loop fuel rp).
Proof. revert rp. fr_fix fuel; cbn [sem_unlock_loop]. fr. Qed.
#[local] Hint Resolve sem_unlock_loop_fr : frame.
Lemma sem_wakeall_fr fuel psem : fr g (sem_wakeall fuel psem).
Proof. revert psem. fr_fix fuel; cbn [sem_wakeall]. fr. Qed.
#[local] Hint Resolve sem_wakeall_fr : frame.
Lemma sem_empty_loop_fr fuel lk : fr g (sem_empty_loop fuel lk).
Proof. revert lk. fr_fix fuel; cbn [sem_empty_loop]. fr. Qed.
#[local] Hint Resolve sem_empty_loop_fr : frame.
Lemma MRT_mqe_rst_fr pmqe : fr g (MRT_mqe_rst pmqe).
Proof. fr. Qed.
#[local] Hint Resolve MRT_mqe_rst_fr : frame.
Lemma MRT_msgQ_free_fr pmq : fr g (MRT_msgQ_free pmq).
Proof. fr. Qed.
#[local] Hint Resolve MRT_msgQ_free_fr : frame.
Lemma MRT_msgQ_alloc_fr size flags owner : fr g (MRT_msgQ_alloc size flags owner).
Proof. fr. Qed.
#[local] Hint Resolve MRT_msgQ_alloc_fr : frame.
Lemma MRT_mqe_alloc_fr : fr g (MRT_mqe_alloc).
Proof. fr. Qed.
#[local] Hint Resolve MRT_mqe_alloc_fr : frame.
Lemma MRT_mqe_free_fr pmqe : fr g (MRT_mqe_free pmqe).
Proof. fr. Qed.
#[local] Hint Resolve MRT_mqe_free_fr : frame.
Lemma MRT_mqe_app_fr pmq mqe : fr g (MRT_mqe_app pmq mqe).
Proof. fr. Qed.
#[local] Hint Resolve MRT_mqe_app_fr : frame.
Lemma MRT_mqe_rmv_fr pmq pmqe : fr g (MRT_mqe_rmv pmq pmqe).
Proof. fr. Qed.
#[local] Hint Resolve MRT_mqe_rmv_fr : frame.
Lemma check_dest_fr dest pid : fr g (check_dest dest pid).
Proof. fr. Qed.
#[local] Hint Resolve check_dest_fr : frame.
Lemma fill_hdr_fr src dest mtype prty deadline : fr g (fill_hdr src dest mtype prty deadline).
Proof. fr. Qed.
#[local] Hint Resolve fill_hdr_fr : frame.
Lemma unblock_rcv_fr dest : fr g (unblock_rcv dest).
Proof. fr. Qed.
#[local] Hint Resolve unblock_rcv_fr : frame.
Lemma deliver_fr dest msg hdr c : fr g c → fr g (deliver dest msg hdr c).
Proof. intros H. fr. Qed.
Lemma transmit_fr waiting dest mtype prty deadline msg err c q : fr g c → (∀ e, fr g (q e)) → fr g (transmit waiting dest mtype prty deadline msg err c q).
Proof. intros Hc Hq. fr. Qed.
Ltac fr_rest ::=
  lazymatch goal with
  | |- fr _ (USR2KRN _ _ _ _ _) => apply USR2KRN_fr; intros ?
  | |- fr _ (KRN2USR _ _ _ _ _) => apply KRN2USR_fr
  | |- fr _ (USR2USR _ _ _ _ _ _) => apply USR2USR_fr
  | |- fr _ (locked _) => apply locked_fr
  | |- fr _ (transmit _ _ _ _ _ _ _ _ _) => apply transmit_fr; [|intros ?]
  end.
Lemma MRT_ksend_fr src dest prty mtype : fr g (MRT_ksend src dest prty mtype).
Proof. fr. Qed.
#[local] Hint Resolve MRT_ksend_fr : frame.
Lemma block_rcv_fr ipc : fr g (block_rcv ipc).
Proof. fr. Qed.
#[local] Hint Resolve block_rcv_fr : frame.
Lemma unblock_sender_fr mtype src : fr g (unblock_sender mtype src).
Proof. fr. Qed.
#[local] Hint Resolve unblock_sender_fr : frame.
Lemma rtk_receive_fr ipc : fr g (rtk_receive ipc).
Proof. fr. Qed.
#[local] Hint Resolve rtk_receive_fr : frame.
Lemma block_snd_fr ipc dest e : fr g (block_snd ipc dest e).
Proof. fr. Qed.
#[local] Hint Resolve block_snd_fr : frame.
Lemma rtk_rqst_fr ipc : fr g (rtk_rqst ipc).
Proof. fr. Qed.
#[local] Hint Resolve rtk_rqst_fr : frame.
Lemma rtk_arqst_fr ipc : fr g (rtk_arqst ipc).
Proof. fr. Qed.
#[local] Hint Resolve rtk_arqst_fr : frame.
Lemma rtk_reply_fr ipc : fr g (rtk_reply ipc).
Proof. fr. Qed.
#[local] Hint Resolve rtk_reply_fr : frame.
Lemma rtk_uprqst_fr ipc : fr g (rtk_uprqst ipc).
Proof. fr. Qed.
#[local] Hint Resolve rtk_uprqst_fr : frame.
Lemma rtk_sign_fr ipc : fr g (rtk_sign ipc).
Proof. fr. Qed.
#[local] Hint Resolve rtk_sign_fr : frame.
Lemma rqrcv_wait_fr ipc dest : fr g (rqrcv_wait ipc dest).
Proof. fr. Qed.
#[local] Hint Resolve rqrcv_wait_fr : frame.
Lemma rtk_rqrcv_fr ipc : fr g (rtk_rqrcv ipc).
Proof. fr. Qed.
#[local] Hint Resolve rtk_rqrcv_fr : frame.
Lemma pid_scan_fr n fuel pid : fr g (pid_scan n fuel pid).
Proof. revert n pid. fr_fix fuel; cbn [pid_scan]. fr. Qed.
#[local] Hint Resolve pid_scan_fr : frame.
Lemma MRT_pattr_rst_fr rp : fr g (MRT_pattr_rst rp).
Proof. fr. Qed.
#[local] Hint Resolve MRT_pattr_rst_fr : frame.
Lemma MRT_proc_init_fr : fr g (MRT_proc_init).
Proof. fr. Qed.
#[local] Hint Resolve MRT_proc_init_fr : frame.
Lemma set2nrt_watchdogs_fr rp : fr g (set2nrt_watchdogs rp).
Proof. fr. Qed.
#[local] Hint Resolve set2nrt_watchdogs_fr : frame.
Lemma drain_mq_fr fuel q : fr g (drain_mq fuel q).
Proof. revert q. fr_fix fuel; cbn [drain_mq]. fr. Qed.
#[local] Hint Resolve drain_mq_fr : frame.
Lemma drop_sent_fr rp : fr g (drop_sent rp).
Proof. fr. Qed.
#[local] Hint Resolve drop_sent_fr : frame.
Lemma MRT_set2nrt_fr fuel rp : fr g (MRT_set2nrt fuel rp).
Proof. fr. Qed.
#[local] Hint Resolve MRT_set2nrt_fr : frame.
Lemma MRT_sleep_fr rp timeout : fr g (MRT_sleep rp timeout).
Proof. fr. Qed.
#[local] Hint Resolve MRT_sleep_fr : frame.
Lemma MRT_wakeup_fr rp : fr g (MRT_wakeup rp).
Proof. fr. Qed.
#[local] Hint Resolve MRT_wakeup_fr : frame.
Lemma MRT_kernel_ipc_fr rtk_nr ipc : fr g (MRT_kernel_ipc rtk_nr ipc).
Proof. fr. Qed.
#[local] Hint Resolve MRT_kernel_ipc_fr : frame.
Lemma MRT_irqd_clr_fr d : fr g (MRT_irqd_clr d).
Proof. fr. Qed.
#[local] Hint Resolve MRT_irqd_clr_fr : frame.
Lemma MRT_irqd_rst_fr d : fr g (MRT_irqd_rst d).
Proof. fr. Qed.
#[local] Hint Resolve MRT_irqd_rst_fr : frame.
Lemma irqd_missed_fr d : fr g (irqd_missed d).
Proof. fr. Qed.
#[local] Hint Resolve irqd_missed_fr : frame.
Lemma MRT_irqd_enQ_fr d : fr g (MRT_irqd_enQ d).
Proof. fr. Qed.
#[local] Hint Resolve MRT_irqd_enQ_fr : frame.
Lemma MRT_irqd_deQ_fr d : fr g (MRT_irqd_deQ d).
Proof. fr. Qed.
#[local] Hint Resolve MRT_irqd_deQ_fr : frame.
Lemma MRT_irqd_set_fr irq p : fr g (MRT_irqd_set irq p).
Proof. fr. Qed.
#[local] Hint Resolve MRT_irqd_set_fr : frame.
Lemma timed_out_fr rp : fr g (timed_out rp).
Proof. fr. Qed.
#[local] Hint Resolve timed_out_fr : frame.
Lemma retract_fr dp pmqe : fr g (retract dp pmqe).
Proof. fr. Qed.
#[local] Hint Resolve retract_fr : frame.
Lemma MRT_vtaction_fr action pvt : fr g (MRT_vtaction action pvt).
Proof. fr. Qed.
#[local] Hint Resolve MRT_vtaction_fr : frame.
Lemma MRT_vtimer_run_fr pvt : fr g (MRT_vtimer_run pvt).
Proof. fr. Qed.
#[local] Hint Resolve MRT_vtimer_run_fr : frame.
Lemma MRT_vtimer_flush_fr fuel pty : fr g (MRT_vtimer_flush fuel pty).
Proof. revert pty. fr_fix fuel; cbn [MRT_vtimer_flush]. fr. Qed.
#[local] Hint Resolve MRT_vtimer_flush_fr : frame.
Lemma deadlock_from_fr fuel next_ptr caller_ptr : fr g (deadlock_from fuel next_ptr caller_ptr).
Proof. revert next_ptr caller_ptr. fr_fix fuel; cbn [deadlock_from]. fr. Qed.
#[local] Hint Resolve deadlock_from_fr : frame.
Lemma callerq_last_fr fuel next_ptr : fr g (callerq_last fuel next_ptr).
Proof. revert next_ptr. fr_fix fuel; cbn [callerq_last]. fr. Qed.
#[local] Hint Resolve callerq_last_fr : frame.
Lemma mini_send_fr caller dest m_ptr : fr g (mini_send caller dest m_ptr).
Proof. fr. Qed.
#[local] Hint Resolve mini_send_fr : frame.
Lemma find_sender_fr fuel prev sender src : fr g (find_sender fuel prev sender src).
Proof. revert prev sender src. fr_fix fuel; cbn [find_sender]. fr. Qed.
#[local] Hint Resolve find_sender_fr : frame.
Lemma inform_scan_fr m_addr rp n : fr g (inform_scan m_addr rp n).
Proof. revert m_addr rp. fr_fix n; cbn [inform_scan]. fr. Qed.
#[local] Hint Resolve inform_scan_fr : frame.
Lemma accept_sender_fr caller m_ptr prev s : fr g (accept_sender caller m_ptr prev s).
Proof. fr. Qed.
#[local] Hint Resolve accept_sender_fr : frame.
Lemma block_receiver_fr m_addr caller src m_ptr : fr g (block_receiver m_addr caller src m_ptr).
Proof. fr. Qed.
#[local] Hint Resolve block_receiver_fr : frame.
Lemma mini_rec_fr m_addr caller src m_ptr : fr g (mini_rec m_addr caller src m_ptr).
Proof. fr. Qed.
#[local] Hint Resolve mini_rec_fr : frame.
Lemma sys_call_fr m_addr function src_dest m_ptr : fr g (sys_call m_addr function src_dest m_ptr).
Proof. fr. Qed.
#[local] Hint Resolve sys_call_fr : frame.
Lemma rt_active_fr n fuel : fr g (rt_active n fuel).
Proof. revert n. fr_fix fuel; cbn [rt_active]. fr. Qed.
#[local] Hint Resolve rt_active_fr : frame.
Lemma exit_sems_fr fuel rp : fr g (exit_sems fuel rp).
Proof. revert rp. fr_fix fuel; cbn [exit_sems]. fr. Qed.
#[local] Hint Resolve exit_sems_fr : frame.
Lemma sem_named_fr i n name : fr g (sem_named i n name).
Proof. revert i name. fr_fix n; cbn [sem_named]. fr. Qed.
#[local] Hint Resolve sem_named_fr : frame.
Lemma MRT_semalloc_fr m : fr g (MRT_semalloc m).
Proof. fr. Qed.
#[local] Hint Resolve MRT_semalloc_fr : frame.
Lemma MRT_exit_fr fuel m : fr g (MRT_exit fuel m).
Proof. fr. Qed.
#[local] Hint Resolve MRT_exit_fr : frame.
Lemma restart_timer_fr i harmonic : fr g (restart_timer i harmonic).
Proof. fr. Qed.
#[local] Hint Resolve restart_timer_fr : frame.
Lemma restart_irqd_fr harmonic i : fr g (restart_irqd harmonic i).
Proof. fr. Qed.
#[local] Hint Resolve restart_irqd_fr : frame.
Lemma restart_body_fr harmonic refresh : fr g (restart_body harmonic refresh).
Proof. fr. Qed.
#[local] Hint Resolve restart_body_fr : frame.
Lemma MRT_restart_fr m : fr g (MRT_restart m).
Proof. fr. Qed.
#[local] Hint Resolve MRT_restart_fr : frame.
Lemma MRT_setpattr_fr m : fr g (MRT_setpattr m).
Proof. fr. Qed.
#[local] Hint Resolve MRT_setpattr_fr : frame.
Lemma MRT_setiattr_fr m : fr g (MRT_setiattr m).
Proof. fr. Qed.
#[local] Hint Resolve MRT_setiattr_fr : frame.

(** A handler respects the frame. *)
Context (run_handler : Z → Z → K Z) (Hh : ∀ a i, fr g (run_handler a i)).
#[local] Hint Resolve Hh : frame.

Lemma irq_latency_fr d : fr g (irq_latency d).
Proof. fr. Qed.
#[local] Hint Resolve irq_latency_fr : frame.
Lemma irq_taskwait_fr d : fr g (irq_taskwait d).
Proof. fr. Qed.
#[local] Hint Resolve irq_taskwait_fr : frame.
Lemma MRT_do_handler_fr d : fr g (MRT_do_handler run_handler d).
Proof. fr. Qed.
#[local] Hint Resolve MRT_do_handler_fr : frame.
Lemma unlock_loop_fr fuel : fr g (unlock_loop run_handler fuel).
Proof. fr_fix fuel; cbn [unlock_loop]. fr. Qed.
#[local] Hint Resolve unlock_loop_fr : frame.
Lemma MRT_irqd_flush_fr fuel pty : fr g (MRT_irqd_flush run_handler fuel pty).
Proof. revert pty. fr_fix fuel; cbn [MRT_irqd_flush]. fr. Qed.
#[local] Hint Resolve MRT_irqd_flush_fr : frame.
Lemma flush_loop_fr fuel lfuel p : fr g (flush_loop run_handler fuel lfuel p).
Proof. revert lfuel p. fr_fix fuel; cbn [flush_loop]. fr. Qed.
#[local] Hint Resolve flush_loop_fr : frame.
Lemma serve_now_fr d : fr g (serve_now run_handler d).
Proof. fr. Qed.
#[local] Hint Resolve serve_now_fr : frame.
Lemma device_irq_fr d : fr g (device_irq run_handler d).
Proof. fr. Qed.
#[local] Hint Resolve device_irq_fr : frame.
Lemma MRT_IRQ_dispatch_fr irq : fr g (MRT_IRQ_dispatch run_handler irq).
Proof. fr. Qed.
#[local] Hint Resolve MRT_IRQ_dispatch_fr : frame.
Lemma MRT_irqd_unlock_fr irq : fr g (MRT_irqd_unlock run_handler irq).
Proof. fr. Qed.
#[local] Hint Resolve MRT_irqd_unlock_fr : frame.
Lemma hold_fr fuel rp : fr g (hold run_handler fuel rp).
Proof. fr. Qed.
#[local] Hint Resolve hold_fr : frame.
Lemma interrupt_fr fuel task : fr g (interrupt run_handler fuel task).
Proof. fr. Qed.
#[local] Hint Resolve interrupt_fr : frame.
Lemma unhold_loop_fr fuel n rp : fr g (unhold_loop run_handler fuel n rp).
Proof. revert rp. fr_fix n; cbn [unhold_loop]. fr. Qed.
#[local] Hint Resolve unhold_loop_fr : frame.

Lemma rtk_set2rt_fr : g = true → fr g rtk_set2rt.
Proof. intros Hg. fr. Qed.
#[local] Hint Resolve rtk_set2rt_fr : frame.
Lemma rtk_call_fr fuel nr p : g = true → fr g (rtk_call fuel nr p).
Proof. intros Hg. fr. Qed.
Lemma MRT_vector_fr fuel c m : c ≠ 6 → c ≠ 14 → fr g (MRT_vector fuel c m).
Proof. intros H6 H14. unfold MRT_vector. fr; congruence. Qed.
End kernel.
