(* ===== verification/System.v ===== *)
(** * The kernel as a whole

    The operations of the kernel model as the steps of one transition system,
    and the invariant that holds in every state it reaches: real-time processes
    exist in real-time mode only and every table slot keeps its number. *)

From stdpp Require Import base gmap strings pretty numbers fin_maps functions list relations.
From S2P Require Import Prelude Lists Kernel Sched VTimer Inherit Sem Msg Rtproc Irq Dispatch MiniIpc Task Frame.
Local Open Scope Z_scope.

(** ** The system invariant *)

(** A table with one slot per number, each slot holding its own number. *)
Definition tab_ok {A} (idx : A → Z) (lo hi : Z) (m : gmap Z A) : Prop := ∀ i,
  match m !! i with Some a => lo ≤ i < hi ∧ idx a = i | None => ¬ lo ≤ i < hi end.

Record tables_ok (k : kstate) : Prop := {
  to_procs : tab_ok p_nr (- NR_TASKS) NR_PROCS (procs k);
  to_sems : tab_ok s_index 0 NR_SEM (sems k);
  to_vts : tab_ok vt_index 0 NR_VTIMERS (vtimers k);
  to_mqes : tab_ok e_index 0 NR_MESSAGES (mqes k);
  to_mqs : tab_ok q_index 0 NR_MSGQ (msgQs k);
  to_irqs : tab_ok iq_irq 0 (NR_IRQ_VECTORS + NR_IRQ_SOFT) (irqtab k);
}.

Definition no_rt (k : kstate) : Prop := ∀ n r, procs k !! n = Some r → MRT_is_realtime r = false.

(** There are no real-time processes outside real-time mode. *)
Definition sys_inv (k : kstate) : Prop := tables_ok k ∧ (rt_mode k = false → no_rt k).

Lemma tab_ok_frame {A} (idx : A → Z) lo hi m m' : tab_ok idx lo hi m → tab_frame idx m m' → tab_ok idx lo hi m'.
Proof. intros H F i. specialize (H i). specialize (F i). destruct (m !! i), (m' !! i); try done. destruct H as [Hi Ha]. split; [done|]. destruct F; congruence. Qed.

Lemma tables_frame g k k' : tables_ok k → kframe g k k' → tables_ok k'.
Proof. intros [A1 A2 A3 A4 A5 A6] [_ _ B1 B2 B3 B4 B5 B6]. split; by eapply tab_ok_frame. Qed.

Lemma no_rt_frame k k' : no_rt k → kframe false k k' → no_rt k'.
Proof.
  intros H F n r Hr. destruct (MRT_is_realtime r) eqn:E; [|done]. destruct (kf_rt _ _ _ F n r eq_refl Hr E) as (r0 & Hr0 & E0). by rewrite (H n r0 Hr0) in E0.
Qed.

Lemma inv_frame k k' : sys_inv k → kframe false k k' → sys_inv k'.
Proof.
  intros [Ht Hm] F. split; [by eapply tables_frame|]. intros Hoff. eapply no_rt_frame; [|done]. apply Hm.
  destruct (rt_mode k) eqn:E; [|done]. by rewrite (kf_mode _ _ _ F E) in Hoff.
Qed.

Lemma inv_frame_rt k k' : sys_inv k → rt_mode k = true → kframe true k k' → sys_inv k'.
Proof. intros [Ht _] Hm F. split; [by eapply tables_frame|]. intros Hoff. by rewrite (kf_mode _ _ _ F Hm) in Hoff. Qed.

Lemma no_rt_inv k : tables_ok k → no_rt k → sys_inv k.
Proof. by split. Qed.

(** *** The calls that end real-time mode or make real-time processes *)
Lemma rtk_call_inv fuel nr p k k' r : sys_inv k → rtk_call fuel nr p k = Ok k' r → sys_inv k'.
Proof.
  intros Hi Hr. destruct (rt_mode k) eqn:E.
  - eapply inv_frame_rt; [done..|]. eapply fr_run; [|exact Hr]. by apply rtk_call_fr.
  - unfold rtk_call in Hr. apply bind_inv in Hr as (s1 & b & H1 & Hr). injection H1 as <- <-. fold (rt_mode k) in Hr. rewrite E in Hr. cbn in Hr. by injection Hr as <- _.
Qed.

Lemma rt_active_spec fuel : ∀ n k k' b, rt_active n fuel k = Ok k' b →
  k' = k ∧ (b = false → ∀ i r, n ≤ i < n + Z.of_nat fuel → procs k !! i = Some r → MRT_is_realtime r = false).
Proof.
  induction fuel as [|fuel IH]; intros n k k' b H; cbn [rt_active] in H; [injection H as <- <-; split; [done|lia]|].
  apply bind_inv in H as (k1 & r & H1 & H). unfold ld_proc in H1. apply bind_inv in H1 as (k2 & m & H2 & H1). injection H2 as <- <-.
  destruct (procs k !! n) as [r0|] eqn:Hn; [|done]. injection H1 as <- <-. destruct (MRT_is_realtime r0) eqn:E; [by injection H as <- <-|].
  apply IH in H as [-> H]. split; [done|]. intros Hb i r Hi Hr. destruct (decide (i = n)) as [->|]; [congruence|]. apply (H Hb i); [lia|done].
Qed.

Lemma some_rt_none k k' : tables_ok k → some_rt k = Ok k' false → k' = k ∧ no_rt k.
Proof.
  intros Ht H. apply rt_active_spec in H as [-> H]. split; [done|]. intros n r Hr. apply (H eq_refl n); [|done].
  pose proof (to_procs _ Ht n) as Hn. rewrite Hr in Hn. destruct Hn as [Hn _]. change (Z.of_nat (Z.to_nat (NR_TASKS + NR_PROCS))) with (NR_TASKS + NR_PROCS). lia.
Qed.

Lemma rtstop_inv m k k' r : sys_inv k → MRT_RTstop m k = Ok k' r → sys_inv k'.
Proof.
  intros Hi Hr. unfold MRT_RTstop in Hr. apply bind_inv in Hr as (k1 & f & H1 & Hr). assert (Hi1 : sys_inv k1) by (eapply inv_frame; [exact Hi|]; eapply (fr_run _ _ _ _ _); [|exact H1]; fr). clear k Hi H1.
  apply bind_inv in Hr as (k2 & b & H2 & Hr). destruct b.
  - assert (Hi2 : sys_inv k2) by (eapply inv_frame; [exact Hi1|]; eapply fr_run; [|exact H2]; unfold some_rt; apply rt_active_fr).
    eapply inv_frame; [exact Hi2|]. eapply fr_run; [|exact Hr]. fr.
  - apply some_rt_none in H2 as [-> Hno]; [|apply Hi1]. apply bind_inv in Hr as (k2 & u & H2 & Hr).
    assert (F : kframe false k1 k2) by (eapply fr_run; [|exact H2]; apply MRT_timer_set_fr).
    pose proof (tables_frame _ _ _ (proj1 Hi1) F) as Ht2. pose proof (no_rt_frame _ _ Hno F) as Hn2. apply no_rt_inv.
    + apply bind_inv in Hr as (k3 & u3 & H3 & Hr). injection H3 as <- _. injection Hr as <- _. destruct Ht2. split; assumption.
    + apply bind_inv in Hr as (k3 & u3 & H3 & Hr). injection H3 as <- _. injection Hr as <- _. exact Hn2.
Qed.

Lemma task_inv fuel m k k' reply : sys_inv k → sys_task_round fuel m k = Ok k' reply → sys_inv k'.
Proof.
  intros Hi Hr. unfold sys_task_round in Hr. apply bind_inv in Hr as (k1 & e & Hr & H1). injection H1 as <- _.
  unfold sys_task_call in Hr. apply bind_inv in Hr as (k2 & c & H2 & Hr).
  assert (Hi2 : sys_inv k2) by (eapply inv_frame; [exact Hi|]; eapply fr_run; [|exact H2]; unfold MRT_pid2pptr; apply pid_scan_fr). clear Hi H2.
  destruct (_ || _); [by injection Hr as <- _|]. apply bind_inv in Hr as (k3 & v & H3 & Hr). injection H3 as <- <-.
  destruct (negb _) eqn:Emode; [by injection Hr as <- _|]. apply negb_false_iff, Z.eqb_eq in Emode.
  apply bind_inv in Hr as (k3 & n & H3 & Hr). destruct c as [c|]; [|done]. injection H3 as <- <-.
  apply bind_inv in Hr as (k3 & p & H3 & Hr). assert (F : kframe false k2 k3) by (eapply fr_run; [|exact H3]; fr).
  assert (E3 : k3 = k2). { unfold ld_proc in H3. apply bind_inv in H3 as (k4 & t & H4 & H3). injection H4 as <- <-. destruct (procs k2 !! c); [by injection H3|done]. } subst k3. clear H3 F.
  destruct (negb _); [by injection Hr as <- _|]. set (call := s32 (m_type m - MRT_FIRSTCALL)) in *. destruct (decide (call = 14)) as [E|N14].
  { rewrite E in Hr. by eapply rtstop_inv. }
  destruct (decide (call = 6)) as [E|N6].
  - rewrite E in Hr, Emode. cbn [sys_run_mode Z.eqb orb] in Emode. apply bind_inv in Hr as (k3 & u & H3 & Hr). injection H3 as <- _. injection Hr as <- _.
    destruct Hi2 as [[] Hno]. apply no_rt_inv; [split; assumption|]. apply Hno. unfold rt_mode, TEST_BIT. by rewrite Emode.
  - eapply inv_frame; [exact Hi2|]. eapply fr_run; [|exact Hr]. by apply MRT_vector_fr.
Qed.

(** ** The system as a transition system *)
Section system.
Context (run_handler : Z → Z → K Z) (Hh : ∀ a i, fr false (run_handler a i)).

(** What happens next: the running process makes a real-time kernel call or a
    MINIX system call, the system task serves a request, an interrupt arrives,
    deferred interrupts are flushed, a driver uses the interrupt descriptors,
    the scheduler is called, or user processes and devices change what is theirs. *)
Inductive sys_step : kstate → kstate → Prop :=
  | St_rtk fuel nr p k k' r : rtk_call fuel nr p k = Ok k' r → sys_step k k'
  | St_sys a f sd m k k' r : sys_call a f sd m k = Ok k' r → sys_step k k'
  | St_task fuel m k k' reply : sys_task_round fuel m k = Ok k' reply → sys_step k k'
  | St_irq irq k k' r : MRT_IRQ_dispatch run_handler irq k = Ok k' r → sys_step k k'
  | St_flush fuel lfuel k k' : MRT_flush_int run_handler fuel lfuel k = Ok k' () → sys_step k k'
  | St_interrupt fuel task k k' : interrupt run_handler fuel task k = Ok k' () → sys_step k k'
  | St_unhold fuel k k' : unhold run_handler fuel k = Ok k' () → sys_step k k'
  | St_lock k k' : lock k = Ok k' () → sys_step k k'
  | St_unlock fuel k k' : unlock run_handler fuel k = Ok k' () → sys_step k k'
  | St_enable irq k k' : enable_irq irq k = Ok k' () → sys_step k k'
  | St_disable irq k k' r : disable_irq irq k = Ok k' r → sys_step k k'
  | St_softirq k k' r : MRT_softirq_alloc k = Ok k' r → sys_step k k'
  | St_irqd_set irq d k k' : MRT_irqd_set irq d k = Ok k' () → sys_step k k'
  | St_irqd_free d k k' : MRT_irqd_free d k = Ok k' () → sys_step k k'
  | St_irqd_lock irq k k' : MRT_irqd_lock irq k = Ok k' () → sys_step k k'
  | St_irqd_unlock irq k k' : MRT_irqd_unlock run_handler irq k = Ok k' () → sys_step k k'
  | St_ready n k k' : lock_ready n k = Ok k' () → sys_step k k'
  | St_unready n k k' : lock_unready n k = Ok k' () → sys_step k k'
  | St_sched k k' : lock_sched k = Ok k' () → sys_step k k'
  | St_memory u k : sys_step k (k <| um := u |>)
  | St_devices h k : sys_step k (k <| hw := h |>).

Lemma sys_step_inv k k' : sys_inv k → sys_step k k' → sys_inv k'.
Proof.
  intros Hi Hs. destruct Hs; try (by eapply rtk_call_inv); try (by eapply task_inv);
    (eapply inv_frame; [exact Hi|]); try (by apply kframe_same); (eapply fr_run; [|eassumption]).
  - apply sys_call_fr.
  - by apply MRT_IRQ_dispatch_fr.
  - unfold MRT_flush_int. fr. by apply flush_loop_fr.
  - by apply interrupt_fr.
  - unfold unhold. fr. by apply unhold_loop_fr.
  - fr.
  - unfold unlock. fr. all: by apply unlock_loop_fr.
  - fr.
  - fr.
  - fr.
  - apply MRT_irqd_set_fr.
  - fr.
  - fr.
  - by apply MRT_irqd_unlock_fr.
  - apply locked_fr, ready_fr.
  - apply locked_fr, unready_fr.
  - apply locked_fr, sched_fr.
Qed.

Lemma rt_active_true fuel : ∀ n k i r, (∀ j, n ≤ j < n + Z.of_nat fuel → is_Some (procs k !! j)) → n ≤ i < n + Z.of_nat fuel →
  procs k !! i = Some r → MRT_is_realtime r = true → rt_active n fuel k = Ok k true.
Proof.
  induction fuel as [|fuel IH]; intros n k i r Hs Hi Hr Hrt; [lia|]. cbn [rt_active]. destruct (Hs n) as [q Hq]; [lia|]. rewrite (bind_ok _ _ _ _ _ (ld_proc_ok _ _ _ Hq)).
  destruct (MRT_is_realtime q) eqn:E; [done|]. apply (IH (n + 1) k i r); try done; [intros j Hj; apply Hs; lia|]. destruct (decide (i = n)) as [->|]; [congruence|lia].
Qed.

Lemma rtstop_refused m k n r : sys_inv k → procs k !! n = Some r → MRT_is_realtime r = true → MRT_RTstop m k = Ok k E_MRT_RTACTIVE.
Proof.
  intros [Ht _] Hr Hrt. unfold MRT_RTstop, MRT_saveFlock, MRT_lock. krun. unfold some_rt.
  assert (Hdom : ∀ j, (∃ q, procs k !! j = Some q) ↔ - NR_TASKS ≤ j < NR_PROCS).
  { intros j. pose proof (to_procs _ Ht j) as Hj. destruct (procs k !! j) as [q|]; [split; [tauto|by exists q]|]. split; [by intros [? ?]|tauto]. }
  assert (Hrange : - NR_TASKS + Z.of_nat (Z.to_nat (NR_TASKS + NR_PROCS)) = NR_PROCS) by done.
  erewrite bind_ok; [|eapply (rt_active_true _ _ _ n r); cbn; rewrite ?Hrange; [intros j Hj; apply Hdom; lia|apply Hdom; by exists r|done|done]].
  unfold MRT_restoreF. krun. cbn. do 2 f_equal. by destruct k as [? ? ? ? ? ? ? ? ? ? ? ? ? ? ? ? ? ? ? ? ? ? ? ? ? [] ? ?].
Qed.

(** C28: No process is a real-time process outside real-time mode, whatever
    sequence of kernel calls, system task requests, interrupts, driver and
    scheduler calls leads there: only [rtk_set2rt] makes one, and only in
    real-time mode; [MRT_setsval], which overwrites the mode flag, is served
    outside it only; and [MRT_RTstop] is refused, with nothing changed, as long
    as there is a real-time process.  On the way every slot of every kernel table
    keeps its number. *)
Theorem realtime_needs_rtmode k0 k : sys_inv k0 → rtc sys_step k0 k →
  tables_ok k ∧
  (∀ n r, procs k !! n = Some r → MRT_is_realtime r = true → rt_mode k = true ∧ ∀ m, MRT_RTstop m k = Ok k E_MRT_RTACTIVE).
Proof.
  intros Hi Hs. assert (Hk : sys_inv k) by (induction Hs as [|k1 k2 k3 Hs _ IH]; [done|]; by apply IH, (sys_step_inv k1)).
  split; [apply Hk|]. intros n r Hr Hrt. split; [|intros m; by apply (rtstop_refused m k n r)].
  destruct (rt_mode k) eqn:E; [done|]. by rewrite (proj2 Hk E n r Hr) in Hrt.
Qed.
End system.

(** ** A run *)
Definition demo_handler (a i : Z) : K Z :=
  (if a =? MRT_idle_handler_addr then MRT_idle_handler else mret ());; mret MRT_IRQ_ENABLED.

Lemma demo_handler_fr a i : fr false (demo_handler a i).
Proof. unfold demo_handler. fr. Qed.

Definition sys_bss : kstate := bss <| proc_ptr := 1 |>.

Definition tab_check {A} (idx : A → Z) (lo hi : Z) (m : gmap Z A) : bool :=
  bool_decide (map_Forall (λ i a, lo ≤ i < hi ∧ idx a = i) m) && bool_decide (Forall (λ i, is_Some (m !! i)) (seqZ lo (hi - lo))).

Lemma tab_check_ok {A} (idx : A → Z) lo hi m : tab_check idx lo hi m = true → tab_ok idx lo hi m.
Proof.
  unfold tab_check. rewrite andb_true_iff, !bool_decide_eq_true. intros [H1 H2] i. destruct (m !! i) as [a|] eqn:Hi; [by apply (H1 i)|].
  intros Hr. rewrite Forall_forall in H2. destruct (H2 i) as [a Ha]; [apply elem_of_seqZ; lia|congruence].
Qed.

Lemma sys_bss_inv : sys_inv sys_bss.
Proof.
  split; [split; apply tab_check_ok; vm_compute; reflexivity|]. intros _ n r Hr.
  assert (H : bool_decide (map_Forall (λ _ r, MRT_is_realtime r = false) (procs sys_bss)) = true) by (vm_compute; reflexivity).
  apply bool_decide_eq_true in H. exact (H n r Hr).
Qed.

(** Process 1 starts real-time mode and becomes a real-time process. *)
Definition start_msg : message := mk_message 1 113 [101; 10; 60].
Definition started : kstate := state_of sys_bss (sys_task_round 10 start_msg sys_bss).
Definition with_rt : kstate := state_of sys_bss (rtk_call 10 MRTSET2RT 0 started).

Lemma realtime_needs_rtmode_witness : ∃ r, procs with_rt !! 1 = Some r ∧ MRT_is_realtime r = true ∧ MRT_RTstop start_msg with_rt = Ok with_rt E_MRT_RTACTIVE.
Proof.
  assert (H1 : sys_task_round 10 start_msg sys_bss = Ok started (start_msg <| m_type := OK |>)).
  { unfold started. rewrite (is_ok_run sys_bss start_msg (sys_task_round 10 start_msg sys_bss)) at 1 by (vm_compute; reflexivity). f_equal. }
  assert (H2 : rtk_call 10 MRTSET2RT 0 started = Ok with_rt OK).
  { unfold with_rt. rewrite (is_ok_run sys_bss 0 (rtk_call 10 MRTSET2RT 0 started)) at 1 by (vm_compute; reflexivity). f_equal. }
  assert (Hrt : ((λ r, MRT_is_realtime r) <$> procs with_rt !! 1) = Some true) by (vm_compute; reflexivity).
  destruct (procs with_rt !! 1) as [r|] eqn:Hr; [|discriminate Hrt]. injection Hrt as Hrt. exists r. split; [reflexivity|]. split; [exact Hrt|].
  destruct (realtime_needs_rtmode demo_handler demo_handler_fr sys_bss with_rt sys_bss_inv) as [_ H].
  - eapply rtc_l; [eapply St_task, H1|]. eapply rtc_l; [eapply St_rtk, H2|]. apply rtc_refl.
  - exact (proj2 (H 1 r Hr Hrt) start_msg).
Defined.
