(* ===== verification/MmAlloc.v ===== *)
(** * Physical memory allocation (mm/alloc.c)

    The memory manager's hole table: a list of holes sorted by address and a
    list of unused table slots, threaded through one array.  The second half
    proves that [alloc_mem] and [free_mem] refine first-fit allocation on a
    sorted sequence of holes, and what that means for the set of free clicks. *)

From stdpp Require Import base gmap strings numbers fin_maps functions list.
From S2P Require Import Prelude.
Local Open Scope Z_scope.

Definition NR_HOLES : Z := 128.
Definition NO_MEM : Z := 0.

Record hole := mk_hole {
  h_base : Z;
  h_len : Z;
  h_next : option Z;
}.
#[export] Instance hole_eta : Eta hole := λ h, mk_hole (h_base h) (h_len h) (h_next h).

(** A pointer to a hole is its index in the table. *)
Record mmstate := mk_mm {
  holes : gmap Z hole;
  hole_head : option Z;
  free_slots : option Z;
}.
#[export] Instance mmstate_eta : Eta mmstate := λ m, mk_mm (holes m) (hole_head m) (free_slots m).

Definition ld_hole (i : Z) : M mmstate hole := m ← gets holes; deref (m !! i).
Definition st_hole (i : Z) (f : hole → hole) : M mmstate unit :=
  h ← ld_hole i; modify (λ m, m <| holes ::= <[i := f h]> |>).

Definition del_slot (prev_ptr : option Z) (hp : Z) : M mmstate unit :=
  h ← ld_hole hp;
  hd ← gets hole_head;
  (if bool_decide (hd = Some hp) then modify (λ m, m <| hole_head := h_next h |>)
   else p ← notnull prev_ptr; st_hole p (λ p, p <| h_next := h_next h |>));;
  fs ← gets free_slots;
  st_hole hp (λ h, h <| h_next := fs |>);;
  modify (λ m, m <| free_slots := Some hp |>).

(** The loop of [alloc_mem]; [prev_ptr] is uninitialised before the first turn. *)
Fixpoint alloc_scan (fuel : nat) (prev_ptr hp : option Z) (clicks : Z) : M mmstate Z :=
  match fuel with
  | O => λ _, NoFuel
  | S fuel' =>
      match hp with
      | None => mret NO_MEM
      | Some i =>
          h ← ld_hole i;
          if clicks <=? h_len h then
            let old_base := h_base h in
            st_hole i (λ h, h <| h_base ::= λ b, u32 (b + clicks) |> <| h_len ::= λ l, u32 (l - clicks) |>);;
            h ← ld_hole i;
            if negb (h_len h =? 0) then mret old_base
            else del_slot prev_ptr i;; mret old_base
          else alloc_scan fuel' (Some i) (h_next h) clicks
      end
  end.

(** The table has 128 slots. *)
Definition hole_fuel : nat := 130.

Definition alloc_mem (clicks : Z) : M mmstate Z :=
  hd ← gets hole_head; alloc_scan hole_fuel None hd clicks.

Definition merge_rest (hp : Z) : M mmstate unit :=
  h ← ld_hole hp;
  match h_next h with
  | None => mret ()
  | Some next_ptr =>
      n ← ld_hole next_ptr;
      if u32 (h_base h + h_len h) =? h_base n then
        st_hole hp (λ h, h <| h_len ::= λ l, u32 (l + h_len n) |>);;
        del_slot (Some hp) next_ptr
      else mret ()
  end.

Definition merge (hp : Z) : M mmstate unit :=
  h ← ld_hole hp;
  match h_next h with
  | None => mret ()
  | Some next_ptr =>
      n ← ld_hole next_ptr;
      if u32 (h_base h + h_len h) =? h_base n then
        st_hole hp (λ h, h <| h_len ::= λ l, u32 (l + h_len n) |>);;
        del_slot (Some hp) next_ptr;;
        merge_rest hp
      else merge_rest next_ptr
  end.

(** [while (hp != NIL_HOLE && base > hp->h_base)]; the first turn always
    replaces the initial [prev_ptr]. *)
Fixpoint free_scan (fuel : nat) (prev_ptr : Z) (hp : option Z) (base : Z) : M mmstate Z :=
  match fuel with
  | O => λ _, NoFuel
  | S fuel' =>
      match hp with
      | None => mret prev_ptr
      | Some i =>
          h ← ld_hole i;
          if base >? h_base h then free_scan fuel' i (h_next h) base else mret prev_ptr
      end
  end.

(** The block goes on the front of the hole list. *)
Definition free_front (base : Z) : M mmstate bool :=
  hd ← gets hole_head;
  match hd with
  | None => mret true
  | Some i => h ← ld_hole i; mret (base <=? h_base h)
  end.

Definition free_mem (base clicks : Z) : M mmstate unit :=
  if clicks =? 0 then mret ()
  else
    fs ← gets free_slots;
    match fs with
    | None => panic "Hole table full" NO_NUM
    | Some new_ptr =>
        st_hole new_ptr (λ h, h <| h_base := base |> <| h_len := clicks |>);;
        n ← ld_hole new_ptr;
        modify (λ m, m <| free_slots := h_next n |>);;
        hp ← gets hole_head;
        front ← free_front base;
        if front : bool then
          st_hole new_ptr (λ h, h <| h_next := hp |>);;
          modify (λ m, m <| hole_head := Some new_ptr |>);;
          merge new_ptr
        else
          first ← notnull hp;
          prev_ptr ← free_scan hole_fuel first hp base;
          p ← ld_hole prev_ptr;
          st_hole new_ptr (λ h, h <| h_next := h_next p |>);;
          st_hole prev_ptr (λ h, h <| h_next := Some new_ptr |>);;
          merge prev_ptr
    end.

Fixpoint max_scan (fuel : nat) (hp : option Z) (max : Z) : M mmstate Z :=
  match fuel with
  | O => λ _, NoFuel
  | S fuel' =>
      match hp with
      | None => mret max
      | Some i =>
          h ← ld_hole i;
          max_scan fuel' (h_next h) (if h_len h >? max then h_len h else max)
      end
  end.

Definition max_hole : M mmstate Z := hd ← gets hole_head; max_scan hole_fuel hd 0.

(** [mem_init]: [replies] are the outcomes of the messages to the system task in
    their order: [None] when [sendrec] fails, or the answer to [SYS_MEM], the (base,
    size, total) of the next chunk of memory, with size 0 when there are no more.
    The loop is still running when the replies are used up.  [total] and [free] are
    the values behind the two result pointers. *)
Definition clear_holes : M mmstate unit :=
  for_ 0 (Z.to_nat NR_HOLES) (λ i, st_hole i (λ h, h <| h_next := Some (i + 1) |>));;
  st_hole (NR_HOLES - 1) (λ h, h <| h_next := None |>);;
  modify (λ m, m <| hole_head := None |> <| free_slots := Some 0 |>).

Fixpoint mem_chunks (replies : list (option (Z * Z * Z))) (total free : Z) : M mmstate (Z * Z) :=
  match replies with
  | [] => λ _, NoFuel
  | None :: _ => panic "bad SYS_MEM?" NO_NUM
  | Some (base, size, tot) :: replies' =>
      if size =? 0 then mret (total, free)
      else free_mem base size;; mem_chunks replies' tot (u32 (free + size))
  end.

Definition mem_init (replies : list (option (Z * Z * Z))) (total : Z) : M mmstate (Z * Z) :=
  clear_holes;; mem_chunks replies total 0.

(** * Refinement to a sorted sequence of holes *)

(** ** Running loads and stores *)
Lemma ld_hole_ok s i h : holes s !! i = Some h → ld_hole i s = Ok s h.
Proof. intros H. unfold ld_hole. rewrite (bind_ok _ _ _ _ _ (gets_ok _ _)). by apply deref_ok. Qed.
Lemma st_hole_ok s i h f : holes s !! i = Some h → st_hole i f s = Ok (s <| holes ::= <[i := f h]> |>) ().
Proof. intros H. unfold st_hole. by rewrite (bind_ok _ _ _ _ _ (ld_hole_ok _ _ _ H)). Qed.

Ltac hsolve :=
  cbn; repeat first [rewrite lookup_insert_eq | rewrite lookup_insert_ne by congruence]; try eassumption; eauto.
Ltac hrun1 :=
  first
    [ rewrite bind_assoc | rewrite ret_bind
    | rewrite (bind_ok _ _ _ _ _ (gets_ok _ _)) | rewrite (bind_ok _ _ _ _ _ (modify_ok _ _))
    | erewrite bind_ok; [| first [eapply ld_hole_ok; hsolve; fail | eapply st_hole_ok; hsolve; fail
                                 | eapply notnull_ok; hsolve; fail]]
    | first [erewrite st_hole_ok; [| hsolve; fail] | rewrite modify_ok ] ].
Ltac hrun := repeat hrun1.

(** ** The two lists of the table *)

(** [hseg m p H q]: from [p] the table holds the holes [H] (slot, base, length)
    and then goes on at [q]. *)
Fixpoint hseg (m : gmap Z hole) (p : option Z) (H : list (Z * (Z * Z))) (q : option Z) : Prop :=
  match H with
  | [] => p = q
  | (i, (b, l)) :: H' =>
      p = Some i ∧ ∃ h, m !! i = Some h ∧ h_base h = b ∧ h_len h = l ∧ hseg m (h_next h) H' q
  end.

(** Unused slots, whatever they hold. *)
Fixpoint fseg (m : gmap Z hole) (p : option Z) (F : list Z) : Prop :=
  match F with
  | [] => p = None
  | i :: F' => p = Some i ∧ ∃ h, m !! i = Some h ∧ fseg m (h_next h) F'
  end.

Lemma hseg_app m p H1 H2 q : hseg m p (H1 ++ H2) q ↔ ∃ r, hseg m p H1 r ∧ hseg m r H2 q.
Proof.
  revert p. induction H1 as [|[i [b l]] H1 IH]; intros p; cbn.
  - split; [by eexists|]. by intros (? & -> & ?).
  - split.
    + intros (-> & h & Hi & Hb & Hl & (r & Hr & Hq)%IH). exists r. split; [|done]. split; [done|]. by exists h.
    + intros (r & (-> & h & Hi & Hb & Hl & Hr) & Hq). split; [done|]. exists h. split_and!; try done. apply IH. by exists r.
Qed.

Lemma hseg_frame m m' p H q : (∀ i, i ∈ H.*1 → m' !! i = m !! i) → hseg m p H q → hseg m' p H q.
Proof.
  revert p. induction H as [|[i [b l]] H IH]; intros p Hf; cbn; [done|].
  intros (-> & h & Hi & Hb & Hl & Hs). split; [done|]. exists h. rewrite Hf by (cbn; set_solver).
  split_and!; try done. apply IH; [|done]. intros j Hj. apply Hf. cbn. set_solver.
Qed.

Lemma fseg_frame m m' p F : (∀ i, i ∈ F → m' !! i = m !! i) → fseg m p F → fseg m' p F.
Proof.
  revert p. induction F as [|i F IH]; intros p Hf; cbn; [done|].
  intros (-> & h & Hi & Hs). split; [done|]. exists h. rewrite Hf by set_solver. split; [done|].
  apply IH; [|done]. intros j Hj. apply Hf. set_solver.
Qed.

(** ** The abstract allocator *)

(** Holes with at least one click, in order, no two of them contiguous, inside
    the 32-bit address space. *)
Fixpoint gapped (L : list (Z * Z)) : Prop :=
  match L with
  | [] => True
  | (b, l) :: L' =>
      0 ≤ b ∧ 1 ≤ l ∧ b + l < 2 ^ 32 ∧
      match L' with [] => True | (b', _) :: _ => b + l < b' end ∧ gapped L'
  end.

(** First fit: the block found and what is left. *)
Fixpoint first_fit (c : Z) (L : list (Z * Z)) : option (Z * list (Z * Z)) :=
  match L with
  | [] => None
  | (b, l) :: L' =>
      if c <=? l then Some (b, if l - c =? 0 then L' else (b + c, l - c) :: L')
      else match first_fit c L' with
           | None => None
           | Some (r, L'') => Some (r, (b, l) :: L'')
           end
  end.

(** A hole in front of others absorbs its successor when contiguous. *)
Definition glue (b l : Z) (L : list (Z * Z)) : list (Z * Z) :=
  match L with
  | (b', l') :: L' => if b + l =? b' then (b, l + l') :: L' else (b, l) :: L
  | [] => [(b, l)]
  end.

Fixpoint put_back (b c : Z) (L : list (Z * Z)) : list (Z * Z) :=
  match L with
  | [] => [(b, c)]
  | (b', l') :: L' => if b <=? b' then glue b c L else glue b' l' (put_back b c L')
  end.

(** The table holds the holes [H] and the unused slots [F], 128 in all. *)
Record mm_rep (s : mmstate) (H : list (Z * (Z * Z))) (F : list Z) : Prop := {
  mr_holes : hseg (holes s) (hole_head s) H None;
  mr_free : fseg (holes s) (free_slots s) F;
  mr_nodup : NoDup (H.*1 ++ F);
  mr_size : (length H + length F)%nat = 128%nat;
}.

Definition mm_sim (s : mmstate) (L : list (Z * Z)) : Prop :=
  gapped L ∧ ∃ H F, mm_rep s H F ∧ H.*2 = L.

Lemma gapped_tail a L : gapped (a :: L) → gapped L.
Proof. destruct a. cbn. tauto. Qed.


(** ** Removing a slot *)

(** [del_slot] unlinks hole [i] that follows [H1]. *)
Lemma del_slot_spec s H1 i b l H2 F prev :
  mm_rep s (H1 ++ (i, (b, l)) :: H2) F →
  (∀ H0 p bl, H1 = H0 ++ [(p, bl)] → prev = Some p) →
  ∃ s', del_slot prev i s = Ok s' () ∧ mm_rep s' (H1 ++ H2) (i :: F).
Proof.
  intros [Hs Hf Hnd Hsz] Hprev.
  assert (Hnd' : NoDup ((H1 ++ H2).*1 ++ i :: F)).
  { rewrite !fmap_app in Hnd |- *. cbn in Hnd. rewrite <- !app_assoc in Hnd |- *. cbn in Hnd.
    assert (H1.*1 ++ H2.*1 ++ i :: F ≡ₚ H1.*1 ++ i :: H2.*1 ++ F) as ->; [|done].
    f_equiv. symmetry. apply Permutation_middle. }
  assert (Hsz' : (length (H1 ++ H2) + length (i :: F))%nat = 128%nat).
  { rewrite !length_app in Hsz |- *. cbn in *. lia. }
  rewrite fmap_app, fmap_cons, <- app_assoc in Hnd. cbn in Hnd.
  apply hseg_app in Hs as (r & Hs1 & (-> & h & Hi & Hb & Hl & Hs2)).
  apply NoDup_app in Hnd as (Hnd1 & Hd1 & Hnd2). apply NoDup_cons in Hnd2 as [Hi2 Hnd2].
  apply NoDup_app in Hnd2 as (Hnd2 & Hd2 & Hnd3).
  assert (Hi1 : i ∉ H1.*1) by (intros Hx; apply (Hd1 i Hx); set_solver).
  unfold del_slot. hrun.
  destruct (snoc_cases H1) as [->|(H0 & [p [pb pl]] & ->)].
  - cbn in Hs1. rewrite Hs1, bool_decide_true by done. hrun. eexists. split; [done|]. constructor; [| |done|done]; cbn.
    + apply (hseg_frame (holes s)); [|done]. intros j Hj. rewrite lookup_insert_ne; [done|]. intros ->. apply Hi2. set_solver.
    + split; [done|]. exists (h <| h_next := free_slots s |>). rewrite lookup_insert_eq. split; [done|]. cbn.
      apply (fseg_frame (holes s)); [|done]. intros j Hj. rewrite lookup_insert_ne; [done|]. intros ->. apply Hi2. set_solver.
  - rewrite (Hprev H0 p (pb, pl)) by done. apply hseg_app in Hs1 as (r & Hs0 & Hs1). cbn in Hs1.
    destruct Hs1 as (-> & hp & Hp & Hpb & Hpl & Hpn).
    rewrite fmap_app in Hnd1, Hd1, Hi1. cbn in Hnd1, Hd1, Hi1. assert (Hpi : p ≠ i) by set_solver.
    assert (Hp0 : p ∉ H0.*1) by (apply NoDup_app in Hnd1 as (_ & Hx & _); intros Hp'; apply (Hx p Hp'); set_solver).
    rewrite bool_decide_false.
    2: { destruct H0 as [|[j [? ?]] H0]; cbn in Hs0; [congruence|]. destruct Hs0 as [-> _]. cbn in Hi1. set_solver. }
    hrun. eexists. split; [done|]. constructor; [| |done|done]; cbn.
    + rewrite <- app_assoc. apply hseg_app. exists (Some p). split.
      * apply (hseg_frame (holes s)); [|done]. intros j Hj. rewrite !lookup_insert_ne; [done|set_solver..].
      * cbn. split; [done|]. exists (hp <| h_next := h_next h |>). rewrite lookup_insert_ne, lookup_insert_eq by done.
        split_and!; try done. cbn. apply (hseg_frame (holes s)); [|done]. intros j Hj. rewrite !lookup_insert_ne; [done|set_solver..].
    + split; [done|]. eexists. rewrite lookup_insert_eq. split; [done|]. cbn.
      apply (fseg_frame (holes s)); [|done]. intros j Hj. rewrite !lookup_insert_ne; [done|set_solver..].
Qed.

(** ** Allocation *)

(** Writing base and length of a hole. *)
Lemma mm_rep_write s H1 i b l H2 F h h' b' l' :
  mm_rep s (H1 ++ (i, (b, l)) :: H2) F → holes s !! i = Some h →
  h_next h' = h_next h → h_base h' = b' → h_len h' = l' →
  mm_rep (s <| holes ::= <[i := h']> |>) (H1 ++ (i, (b', l')) :: H2) F.
Proof.
  intros [Hs Hf Hnd Hsz] Hi Hnx <- <-. rewrite fmap_app, fmap_cons, <- app_assoc in Hnd. cbn in Hnd.
  pose proof Hnd as Hnd'. apply NoDup_app in Hnd as (_ & Hd1 & Hnd2). apply NoDup_cons in Hnd2 as [Hi2 _].
  constructor; cbn.
  - apply hseg_app in Hs as (r & Hs1 & (-> & h0 & Hi' & _ & _ & Hs2)). assert (h0 = h) as -> by congruence.
    apply hseg_app. exists (Some i). split.
    + apply (hseg_frame (holes s)); [|done]. intros j Hj. rewrite lookup_insert_ne; [done|]. intros ->. apply (Hd1 j Hj). set_solver.
    + split; [done|]. eexists. rewrite lookup_insert_eq. split_and!; try done. rewrite Hnx.
      apply (hseg_frame (holes s)); [|done]. intros j Hj. rewrite lookup_insert_ne; [done|]. intros ->. set_solver.
  - apply (fseg_frame (holes s)); [|done]. intros j Hj. rewrite lookup_insert_ne; [done|]. intros ->. set_solver.
  - by rewrite fmap_app, fmap_cons, <- app_assoc.
  - by rewrite length_app in Hsz |- *.
Qed.

Lemma mm_rep_lookup s H1 i b l H2 F : mm_rep s (H1 ++ (i, (b, l)) :: H2) F →
  ∃ h, holes s !! i = Some h ∧ h_base h = b ∧ h_len h = l ∧ hseg (holes s) (h_next h) H2 None.
Proof. intros [Hs _ _ _]. apply hseg_app in Hs as (r & _ & (_ & h & Hi & Hb & Hl & Hs2)). eauto. Qed.

Lemma hseg_head m p i b l H q : hseg m p ((i, (b, l)) :: H) q → p = Some i.
Proof. by intros [-> _]. Qed.

Lemma alloc_scan_spec fuel c : ∀ s H1 H2 F prev hp,
  0 ≤ c → mm_rep s (H1 ++ H2) F → gapped (H2.*2) → hseg (holes s) hp H2 None →
  (∀ H0 p bl, H1 = H0 ++ [(p, bl)] → prev = Some p) → (length H2 < fuel)%nat →
  match first_fit c (H2.*2) with
  | None => alloc_scan fuel prev hp c s = Ok s NO_MEM
  | Some (r, L) => ∃ s' H' F', alloc_scan fuel prev hp c s = Ok s' r ∧
      mm_rep s' (H1 ++ H') F' ∧ H'.*2 = L
  end.
Proof.
  induction fuel as [|fuel IH]; intros s H1 H2 F prev hp Hc Hr Hg Hs Hprev Hfu; [lia|].
  destruct H2 as [|[i [b l]] H2]; cbn [first_fit fmap list_fmap snd alloc_scan].
  { cbn in Hs. by rewrite Hs. }
  rewrite (hseg_head _ _ _ _ _ _ _ Hs). destruct (mm_rep_lookup _ _ _ _ _ _ _ Hr) as (h & Hi & Hb & Hl & Hn).
  cbn in Hg. destruct Hg as (Hb0 & Hl1 & Hbl & _ & Hg). hrun. rewrite Hl.
  destruct (Z.leb_spec c l) as [Hle|Hgt].
  - hrun. set (h' := upd h_len _ _).
    assert (Hw : mm_rep (s <| holes ::= <[i := h']> |>) (H1 ++ (i, (b + c, l - c)) :: H2) F).
    { eapply mm_rep_write; try done; cbn; rewrite ?Hb, ?Hl; apply u32_id; lia. }
    assert (h_len h' = l - c) as -> by (cbn; rewrite Hl; apply u32_id; lia). rewrite Hb.
    destruct (Z.eqb_spec (l - c) 0) as [Hz|Hz]; cbn [negb].
    + destruct (del_slot_spec _ H1 i (b + c) (l - c) H2 F prev Hw Hprev) as (s' & Hrun & Hr').
      exists s', H2, (i :: F). split; [|done]. by rewrite (bind_ok _ _ _ _ _ Hrun).
    + by exists (s <| holes ::= <[i := h']> |>), ((i, (b + c, l - c)) :: H2), F.
  - specialize (IH s (H1 ++ [(i, (b, l))]) H2 F (Some i) (h_next h)). rewrite <- app_assoc in IH. cbn in IH.
    cbn in Hfu. specialize (IH Hc Hr Hg Hn). destruct (first_fit c H2.*2) as [[r L]|].
    + destruct IH as (s' & H' & F' & Hrun & Hr' & HL); [|lia|].
      { intros H0 p bl E. apply app_inj_tail in E as [_ [= -> _]]. done. }
      exists s', ((i, (b, l)) :: H'), F'. rewrite <- app_assoc in Hr'. split_and!; try done. cbn. by rewrite HL.
    + apply IH; [|lia]. intros H0 p bl E. apply app_inj_tail in E as [_ [= -> _]]. done.
Qed.

Lemma first_fit_gapped c L r L' : 0 ≤ c → gapped L → first_fit c L = Some (r, L') →
  gapped L' ∧ (∀ b, match L with [] => True | a :: _ => b < a.1 end → match L' with [] => True | a :: _ => b < a.1 end).
Proof.
  intros Hc. revert r L'. induction L as [|[b l] L IH]; intros r L'; [done|]. intros Hg. cbn [first_fit].
  pose proof Hg as (Hb & Hl & Hbl & Hn & Hg'). destruct (Z.leb_spec c l) as [Hle|Hgt].
  - intros [= <- <-]. destruct (Z.eqb_spec (l - c) 0) as [Hz|Hz].
    + split; [done|]. intros b' Hb'. destruct L as [|[b2 l2] L]; [done|]. cbn in *. lia.
    + split; [|intros b' Hb'; cbn in *; lia]. cbn. split_and!; try lia; [|done]. destruct L as [|[b2 l2] L]; [done|lia].
  - destruct (first_fit c L) as [[r0 L0]|] eqn:E; [|done]. intros [= -> <-].
    destruct (IH r L0 Hg' eq_refl) as [Hg0 Hlt]. split; [|intros b' Hb'; done]. cbn. split_and!; try done.
    specialize (Hlt (b + l)). destruct L as [|[b2 l2] L]; [done|]. destruct L0 as [|[b3 l3] L0]; [done|]. by apply Hlt.
Qed.

Lemma mm_rep_length s H F : mm_rep s H F → (length H ≤ 128)%nat.
Proof. intros [_ _ _ Hsz]. lia. Qed.

Lemma alloc_mem_spec s L c : mm_sim s L → 0 ≤ c →
  match first_fit c L with
  | None => alloc_mem c s = Ok s NO_MEM
  | Some (r, L') => ∃ s', alloc_mem c s = Ok s' r ∧ mm_sim s' L'
  end.
Proof.
  intros [Hg (H & F & Hr & <-)] Hc. unfold alloc_mem. hrun.
  pose proof (mm_rep_length _ _ _ Hr) as Hlen.
  pose proof (alloc_scan_spec hole_fuel c s [] H F None (hole_head s) Hc Hr Hg (mr_holes _ _ _ Hr)) as Ha.
  pose proof (first_fit_gapped c (H.*2)) as Hff. destruct (first_fit c H.*2) as [[r L']|].
  - destruct Ha as (s' & H' & F' & Hrun & Hr' & HL); [by intros [] ? ? ?|unfold hole_fuel; lia|].
    exists s'. split; [done|]. split; [|by exists H', F']. destruct (Hff r L' Hc Hg eq_refl). done.
  - apply Ha; [by intros [] ? ? ?|unfold hole_fuel; lia].
Qed.

(** ** Release *)

Definition hole_ok (a : Z * Z) : Prop := 0 ≤ a.1 ∧ 1 ≤ a.2 ∧ a.1 + a.2 < 2 ^ 32.

Lemma gapped_ok L : gapped L → Forall hole_ok L.
Proof.
  induction L as [|[b l] L IH]; [constructor|]. cbn. intros (? & ? & ? & _ & Hg).
  constructor; [by unfold hole_ok|auto].
Qed.

(** Absorbing the successor of hole [i]. *)
Lemma absorb_spec s H1 i b l j b2 l2 H3 F h h' :
  mm_rep s (H1 ++ (i, (b, l)) :: (j, (b2, l2)) :: H3) F → holes s !! i = Some h →
  h_next h' = h_next h → h_base h' = b → h_len h' = l + l2 →
  ∃ s', del_slot (Some i) j (s <| holes ::= <[i := h']> |>) = Ok s' () ∧
    mm_rep s' (H1 ++ (i, (b, l + l2)) :: H3) (j :: F).
Proof.
  intros Hr Hi Hn Hb Hl.
  pose proof (mm_rep_write s H1 i b l _ F h h' b (l + l2) Hr Hi Hn Hb Hl) as Hw.
  pose proof (del_slot_spec (s <| holes ::= <[i := h']> |>) (H1 ++ [(i, (b, l + l2))]) j b2 l2 H3 F (Some i)) as Hd.
  rewrite <- !app_assoc in Hd. apply Hd; [done|]. intros H0 p bl E. apply app_inj_tail in E as [_ [= -> _]]. done.
Qed.

Lemma merge_rest_spec s H1 i b l H2 F :
  mm_rep s (H1 ++ (i, (b, l)) :: H2) F → hole_ok (b, l) → Forall hole_ok (H2.*2) →
  ∃ s' H' F', merge_rest i s = Ok s' () ∧ mm_rep s' (H1 ++ H') F' ∧ H'.*2 = glue b l (H2.*2).
Proof.
  intros Hr Hok Hoks. destruct (mm_rep_lookup _ _ _ _ _ _ _ Hr) as (h & Hi & Hb & Hl & Hn).
  unfold merge_rest. hrun. destruct H2 as [|[j [b2 l2]] H3].
  { cbn in Hn. rewrite Hn. by eexists _, _, _. }
  rewrite (hseg_head _ _ _ _ _ _ _ Hn). destruct Hn as (_ & h2 & Hj & Hb2 & Hl2 & Hn2). hrun.
  apply Forall_cons in Hoks as [Hok2 _]. unfold hole_ok in *. cbn [fst snd] in *.
  rewrite Hb, Hl, Hb2, u32_id by lia. cbn [fmap list_fmap glue snd]. destruct (Z.eqb_spec (b + l) b2) as [E|E].
  - hrun. destruct (absorb_spec s H1 i b l j b2 l2 H3 F h (h <| h_len ::= λ l0, u32 (l0 + h_len h2) |>)) as (s' & Hrun & Hr'); try done.
    { cbn. rewrite Hl, Hl2. apply u32_id. lia. }
    exists s', ((i, (b, l + l2)) :: H3), (j :: F). done.
  - exists s, ((i, (b, l)) :: (j, (b2, l2)) :: H3), F. done.
Qed.

(** What [merge] makes of a hole followed by others. *)
Definition merged (b l : Z) (L : list (Z * Z)) : list (Z * Z) :=
  match L with
  | [] => [(b, l)]
  | (b2, l2) :: L' => if b + l =? b2 then glue b (l + l2) L' else (b, l) :: glue b2 l2 L'
  end.

Lemma merge_spec s H1 i b l H2 F :
  mm_rep s (H1 ++ (i, (b, l)) :: H2) F → hole_ok (b, l) → Forall hole_ok (H2.*2) →
  ∃ s' H' F', merge i s = Ok s' () ∧ mm_rep s' (H1 ++ H') F' ∧ H'.*2 = merged b l (H2.*2).
Proof.
  intros Hr Hok Hoks. destruct (mm_rep_lookup _ _ _ _ _ _ _ Hr) as (h & Hi & Hb & Hl & Hn).
  unfold merge. hrun. destruct H2 as [|[j [b2 l2]] H3].
  { cbn in Hn. rewrite Hn. by eexists _, _, _. }
  rewrite (hseg_head _ _ _ _ _ _ _ Hn). destruct Hn as (_ & h2 & Hj & Hb2 & Hl2 & Hn2). hrun.
  apply Forall_cons in Hoks as [Hok2 Hoks]. pose proof Hok as Hok0. unfold hole_ok in Hok, Hok2. cbn [fst snd] in Hok, Hok2.
  rewrite Hb, Hl, Hb2, u32_id by lia. cbn [fmap list_fmap merged snd]. destruct (Z.eqb_spec (b + l) b2) as [E|E].
  - hrun. destruct (absorb_spec s H1 i b l j b2 l2 H3 F h (h <| h_len ::= λ l0, u32 (l0 + h_len h2) |>)) as (s' & Hrun & Hr'); try done.
    { cbn. rewrite Hl, Hl2. apply u32_id. lia. }
    rewrite (bind_ok _ _ _ _ _ Hrun). apply (merge_rest_spec s' H1 i b (l + l2) H3 (j :: F)); try done.
    unfold hole_ok. cbn. lia.
  - destruct (merge_rest_spec s (H1 ++ [(i, (b, l))]) j b2 l2 H3 F) as (s' & H' & F' & Hrun & Hr' & HL); try done.
    { by rewrite <- app_assoc. }
    exists s', ((i, (b, l)) :: H'), F'. rewrite <- app_assoc in Hr'. split_and!; try done. cbn. by rewrite HL.
Qed.

Lemma glue_gapped b l L : gapped ((b, l) :: L) → glue b l L = (b, l) :: L.
Proof.
  intros (_ & _ & _ & Hn & _). destruct L as [|[b2 l2] L]; [done|]. cbn. destruct (Z.eqb_spec (b + l) b2); [lia|done].
Qed.

(** The block lies in no hole. *)
Definition fits (b c : Z) (L : list (Z * Z)) : Prop :=
  hole_ok (b, c) ∧ Forall (λ a, b + c ≤ a.1 ∨ a.1 + a.2 ≤ b) L.

(** The first hole starts at or after [x]. *)
Definition starts (x : Z) (L : list (Z * Z)) : Prop :=
  match L with [] => True | a :: _ => x ≤ a.1 end.

Lemma fits_tail b c a L : fits b c (a :: L) → fits b c L.
Proof. intros [? [_ ?]%Forall_cons]. by split. Qed.

Lemma fits_starts b c L : fits b c L → gapped L → starts b L → starts (b + c) L.
Proof.
  intros [Hok Hf] Hg. destruct L as [|[b2 l2] L]; [done|]. apply Forall_cons in Hf as [Ha _].
  unfold hole_ok in Hok. destruct Hg as (? & ? & _). cbn in *. lia.
Qed.

Lemma gapped_glue b c L : gapped L → hole_ok (b, c) → starts (b + c) L → gapped (glue b c L).
Proof.
  intros Hg Hok Hs. unfold hole_ok in Hok. cbn in Hok. destruct L as [|[b2 l2] L]; cbn [glue]; [cbn; lia|].
  cbn in Hs. pose proof Hg as (? & ? & ? & Hn & Hg'). destruct (Z.eqb_spec (b + c) b2) as [E|E].
  - cbn. split_and!; try lia; [|done]. destruct L as [|[b3 l3] L]; [done|lia].
  - cbn. split_and!; try lia; done.
Qed.

Lemma starts_glue x b c L : x ≤ b → starts x (glue b c L).
Proof. intros. destruct L as [|[b2 l2] L]; cbn; [|destruct (_ =? _)]; cbn; lia. Qed.

Lemma starts_put_back x b c L : x ≤ b → starts x L → starts x (put_back b c L).
Proof.
  intros Hx. destruct L as [|[b2 l2] L]; cbn [put_back]; [done|]. intros Hs. cbn in Hs.
  destruct (_ <=? _); by apply starts_glue.
Qed.

Lemma put_back_front b c L : starts b L → put_back b c L = glue b c L.
Proof. destruct L as [|[b2 l2] L]; [done|]. cbn [put_back starts fst]. by intros ->%Z.leb_le. Qed.

Lemma gapped_put_back b c L : gapped L → fits b c L → gapped (put_back b c L).
Proof.
  induction L as [|[b2 l2] L IH]; intros Hg Hf.
  { destruct Hf as [Hok _]. unfold hole_ok in Hok. cbn in *. lia. }
  pose proof (gapped_ok _ Hg) as [Hok _]%Forall_cons. cbn [put_back]. destruct (Z.leb_spec b b2) as [Hle|Hgt].
  - apply gapped_glue; [done|apply Hf|]. by apply fits_starts.
  - apply gapped_glue; [|done|].
    + apply IH; [by eapply gapped_tail|by eapply fits_tail].
    + destruct Hf as [Hokb [Ha _]%Forall_cons]. unfold hole_ok in Hokb. cbn in Ha, Hokb. destruct Hg as (_ & _ & _ & Hn & _).
      apply starts_put_back; [lia|]. destruct L as [|[b3 l3] L]; [done|]. cbn. lia.
Qed.

(** The middle case of [free_mem]: the block goes in behind the last hole that
    starts below it. *)
Lemma put_back_split b c pb pl L1 L2 : gapped (L1 ++ (pb, pl) :: L2) → pb < b → starts b L2 →
  put_back b c (L1 ++ (pb, pl) :: L2) = L1 ++ merged pb pl ((b, c) :: L2).
Proof.
  intros Hg Hlt Hs. induction L1 as [|[a la] L1 IH].
  - cbn [app put_back]. rewrite (proj2 (Z.leb_gt b pb)), put_back_front by done. unfold merged.
    destruct L2 as [|[b2 l2] L2]; cbn [glue]; [done|]. replace (pb + (pl + c)) with (pb + pl + c) by lia.
    destruct (Z.eqb_spec (pb + pl) b) as [E|E], (Z.eqb_spec (b + c) b2) as [E2|E2]; cbn [glue].
    + rewrite E, Z.eqb_refl, E2, Z.eqb_refl. do 2 f_equal. lia.
    + rewrite E, Z.eqb_refl. by rewrite (proj2 (Z.eqb_neq _ _) E2).
    + by rewrite (proj2 (Z.eqb_neq _ _) E).
    + by rewrite (proj2 (Z.eqb_neq _ _) E).
  - pose proof (gapped_tail _ _ Hg) as Hg'. specialize (IH Hg'). cbn [app put_back].
    assert (a < b ∧ a + la < (match L1 with [] => pb | x :: _ => x.1 end)) as [Hab Hgap].
    { clear IH. destruct Hg as (_ & Hla & _ & Hn & _). cbn in Hn. revert a la Hla Hn Hg'.
      induction L1 as [|[x lx] L1 IH]; intros a la Hla Hn Hg'; cbn in *; [lia|].
      destruct Hg' as (_ & Hlx & _ & Hn' & Hg'). destruct (IH x lx Hlx Hn' Hg'). lia. }
    rewrite (proj2 (Z.leb_gt b a)), IH by done. clear IH Hg Hg'. destruct L1 as [|[x lx] L1]; cbn in Hgap |- *.
    + assert (∃ l' L', merged pb pl ((b, c) :: L2) = (pb, l') :: L') as (l' & L' & E).
      { cbn. destruct (_ =? _); [|by eauto]. destruct L2 as [|[b2 l2] L2]; cbn; [|destruct (_ =? _)]; eauto. }
      cbn in E. rewrite E. cbn. destruct (Z.eqb_spec (a + la) pb); [lia|done].
    + destruct (Z.eqb_spec (a + la) x); [lia|done].
Qed.

Lemma merged_front b c L : gapped L → hole_ok (b, c) → starts (b + c) L → merged b c L = glue b c L.
Proof.
  intros Hg Hok Hb. destruct L as [|[b2 l2] L]; [done|]. cbn [merged glue]. pose proof Hg as (? & ? & ? & Hn & Hg').
  destruct (Z.eqb_spec (b + c) b2) as [E|E]; [|by rewrite glue_gapped].
  destruct L as [|[b3 l3] L]; cbn; [done|]. destruct (Z.eqb_spec (b + (c + l2)) b3); [lia|done].
Qed.

Lemma free_scan_spec fuel s b : ∀ H1 p pb pl H2 hp,
  hseg (holes s) hp H2 None → pb < b → (length H2 < fuel)%nat →
  ∃ H1' p' pb' pl' H2', H1 ++ (p, (pb, pl)) :: H2 = H1' ++ (p', (pb', pl')) :: H2' ∧
    pb' < b ∧ starts b (H2'.*2) ∧ free_scan fuel p hp b s = Ok s p'.
Proof.
  induction fuel as [|fuel IH]; intros H1 p pb pl H2 hp Hs Hlt Hfu; [lia|]. cbn [free_scan].
  destruct H2 as [|[i [bi li]] H2].
  { cbn in Hs. rewrite Hs. by exists H1, p, pb, pl, []. }
  destruct Hs as (-> & h & Hi & Hb & Hl & Hn). hrun. rewrite Hb, Z.gtb_ltb. destruct (Z.ltb_spec bi b) as [Hlt'|Hge].
  - destruct (IH (H1 ++ [(p, (pb, pl))]) i bi li H2 (h_next h) Hn Hlt') as (H1' & p' & pb' & pl' & H2' & E & Hr); [cbn in Hfu; lia|].
    exists H1', p', pb', pl', H2'. rewrite <- app_assoc in E. done.
  - exists H1, p, pb, pl, ((i, (bi, li)) :: H2). done.
Qed.

(** Linking the first unused slot in front of the holes, or behind one. *)
Lemma link_front s s' n F H h h' :
  mm_rep s H (n :: F) → holes s !! n = Some h →
  holes s' !! n = Some h' → (∀ j, j ≠ n → holes s' !! j = holes s !! j) →
  h_next h' = hole_head s → hole_head s' = Some n → free_slots s' = h_next h →
  mm_rep s' ((n, (h_base h', h_len h')) :: H) F.
Proof.
  intros [Hs Hf Hnd Hsz] Hh Hh' Hfr Hn Hhd Hfs. pose proof Hf as (_ & h0 & Hh0 & Hf'). assert (h0 = h) as -> by congruence.
  apply NoDup_app in Hnd as (Hnd1 & Hd & [HnF HndF]%NoDup_cons).
  assert (n ∉ H.*1) by (intros Hin; apply (Hd n Hin); set_solver).
  constructor; cbn.
  - split; [done|]. exists h'. split_and!; try done. rewrite Hn. apply (hseg_frame (holes s)); [|done].
    intros j Hj. apply Hfr. set_solver.
  - rewrite Hfs. apply (fseg_frame (holes s)); [|done]. intros j Hj. apply Hfr. set_solver.
  - apply NoDup_cons. split; [set_solver|]. apply NoDup_app. split_and!; [done| |done]. intros j Hj ?. apply (Hd j Hj). set_solver.
  - cbn in Hsz. lia.
Qed.

Lemma link_after s s' n F H1 p pb pl H2 h h' hp hp' :
  mm_rep s (H1 ++ (p, (pb, pl)) :: H2) (n :: F) → holes s !! n = Some h → holes s !! p = Some hp →
  holes s' !! n = Some h' → holes s' !! p = Some hp' → (∀ j, j ≠ n → j ≠ p → holes s' !! j = holes s !! j) →
  h_next h' = h_next hp → h_next hp' = Some n → h_base hp' = h_base hp → h_len hp' = h_len hp →
  hole_head s' = hole_head s → free_slots s' = h_next h →
  mm_rep s' (H1 ++ (p, (pb, pl)) :: (n, (h_base h', h_len h')) :: H2) F.
Proof.
  intros [Hs Hf Hnd Hsz] Hh Hp Hh' Hp' Hfr Hn Hnp Hbp Hlp Hhd Hfs. pose proof Hf as (_ & h0 & Hh0 & Hf'). assert (h0 = h) as -> by congruence.
  apply hseg_app in Hs as (r & Hs1 & (-> & hp0 & Hp0 & Hpb & Hpl & Hs2)). assert (hp0 = hp) as -> by congruence.
  rewrite fmap_app, fmap_cons in Hnd. cbn in Hnd.
  assert (Hnd' : NoDup (n :: p :: H1.*1 ++ H2.*1 ++ F)).
  { assert (n :: p :: H1.*1 ++ H2.*1 ++ F ≡ₚ (H1.*1 ++ p :: H2.*1) ++ n :: F) as ->; [|done].
    solve_Permutation. }
  apply NoDup_cons in Hnd' as [Hn' [Hp2 Hnd2]%NoDup_cons].
  constructor; cbn.
  - rewrite Hhd. apply hseg_app. exists (Some p). split; [|cbn; split; [done|]; exists hp'; split_and!; try congruence].
    + apply (hseg_frame (holes s)); [|done]. intros j Hj. apply Hfr; set_solver.
    + exists h'. split_and!; try done. rewrite Hn. apply (hseg_frame (holes s)); [|done].
      intros j Hj. apply Hfr; set_solver.
  - rewrite Hfs. apply (fseg_frame (holes s)); [|done]. intros j Hj. apply Hfr; set_solver.
  - rewrite fmap_app, !fmap_cons. cbn. rewrite <- app_assoc. cbn.
    assert (H1.*1 ++ p :: n :: H2.*1 ++ F ≡ₚ n :: p :: H1.*1 ++ H2.*1 ++ F) as ->.
    { solve_Permutation. }
    apply NoDup_cons. split; [done|]. by apply NoDup_cons.
  - rewrite length_app in *. cbn in *. lia.
Qed.

Lemma gapped_app_r L1 L2 : gapped (L1 ++ L2) → gapped L2.
Proof. induction L1 as [|a L1 IH]; [done|]. intros Hg. apply IH. by eapply gapped_tail. Qed.

(** ** [free_mem] *)

Lemma free_mem_front s H F b c h :
  mm_rep s H F → gapped (H.*2) → fits b c (H.*2) → starts b (H.*2) → free_slots s = Some h → c ≠ 0 →
  ∃ s', free_mem b c s = Ok s' () ∧ mm_sim s' (put_back b c (H.*2)).
Proof.
  intros Hr Hg Hf Hst Hfs Hc. destruct F as [|n F]; [by rewrite (mr_free _ _ _ Hr) in Hfs|].
  pose proof (mr_free _ _ _ Hr) as (Hfs' & h0 & Hn & _). assert (h = n) as -> by congruence.
  unfold free_mem. rewrite (proj2 (Z.eqb_neq _ _) Hc). hrun. rewrite Hfs. hrun.
  set (s1 := upd free_slots _ _). assert (Hfront : free_front b s1 = Ok s1 true).
  { unfold free_front. hrun. cbn. destruct H as [|[i [bi li]] H]; [by rewrite (mr_holes _ _ _ Hr)|].
    pose proof (mr_holes _ _ _ Hr) as (-> & hi & Hi & Hbi & _).
    assert (i ≠ n) by (pose proof (mr_nodup _ _ _ Hr) as Hnd; cbn in Hnd; apply NoDup_cons in Hnd as [? _]; set_solver).
    rewrite (bind_ok _ _ s1 s1 hi) by (apply ld_hole_ok; cbn; by rewrite lookup_insert_ne). cbn in Hst. rewrite Hbi.
    by rewrite (proj2 (Z.leb_le _ _) Hst). }
  rewrite (bind_ok _ _ _ _ _ Hfront). cbn [fst snd]. hrun.
  match goal with |- ∃ s', merge n ?s2 = _ ∧ _ => set (s2' := s2) end.
  assert (Hr2 : mm_rep s2' ([] ++ (n, (b, c)) :: H) F).
  { eapply (link_front s s2' n F H h0 (mk_hole b c (hole_head s))); try done; cbn.
    - by rewrite lookup_insert_eq.
    - intros j Hj. by rewrite !lookup_insert_ne. }
  destruct (merge_spec s2' [] n b c H F Hr2 (proj1 Hf) (gapped_ok _ Hg)) as (s' & H' & F' & Hrun & Hr' & HL).
  exists s'. split; [done|]. split; [by apply gapped_put_back|]. exists H', F'. split; [done|].
  rewrite HL, put_back_front by done. apply merged_front; [done|apply Hf|by apply fits_starts].
Qed.

Lemma free_scan_S fuel p i b : free_scan (S fuel) p (Some i) b =
  (h ← ld_hole i; if b >? h_base h then free_scan fuel i (h_next h) b else mret p).
Proof. done. Qed.

Lemma free_mem_middle s i bi li H F b c h :
  mm_rep s ((i, (bi, li)) :: H) F → gapped ((bi, li) :: H.*2) → fits b c ((bi, li) :: H.*2) → bi < b →
  free_slots s = Some h → c ≠ 0 →
  ∃ s', free_mem b c s = Ok s' () ∧ mm_sim s' (put_back b c ((bi, li) :: H.*2)).
Proof.
  intros Hr Hg Hf Hlt Hfs Hc. destruct F as [|n F]; [by rewrite (mr_free _ _ _ Hr) in Hfs|].
  pose proof (mr_free _ _ _ Hr) as (Hfs' & h0 & Hn & _). assert (h = n) as -> by congruence.
  unfold free_mem. rewrite (proj2 (Z.eqb_neq _ _) Hc). hrun. rewrite Hfs. hrun.
  set (s1 := upd free_slots _ _).
  assert (Hnot : ∀ j, j ∈ ((i, (bi, li)) :: H).*1 → j ≠ n).
  { intros j Hj ->. pose proof (mr_nodup _ _ _ Hr) as (_ & Hd & _)%NoDup_app. apply (Hd n Hj). set_solver. }
  assert (Hseg1 : hseg (holes s1) (Some i) ((i, (bi, li)) :: H) None).
  { destruct (mr_holes _ _ _ Hr) as [Hhd Hs]. apply (hseg_frame (holes s)); [|by split]. intros j Hj. cbn.
    rewrite lookup_insert_ne; [done|]. intros <-. by apply (Hnot n). }
  pose proof Hseg1 as (_ & hi & Hi & Hbi & Hli & Hseg2).
  assert (Hhd : hole_head s = Some i) by apply (mr_holes _ _ _ Hr).
  assert (Hfront : free_front b s1 = Ok s1 false).
  { unfold free_front. hrun. cbn. rewrite Hhd. rewrite (bind_ok _ _ s1 s1 hi) by (by apply ld_hole_ok).
    by rewrite Hbi, (proj2 (Z.leb_gt _ _) Hlt). }
  rewrite (bind_ok _ _ _ _ _ Hfront). cbn [fst snd].
  assert (hole_head s1 = Some i) as -> by done. hrun.
  destruct (free_scan_spec 129 s1 b [] i bi li H (h_next hi) Hseg2 Hlt) as (H1 & p & pb & pl & H2 & E & Hpb & Hst & Hscan).
  { pose proof (mm_rep_length _ _ _ Hr) as Hlen. cbn in Hlen. lia. }
  assert (Hscan' : free_scan hole_fuel i (Some i) b s1 = Ok s1 p).
  { change hole_fuel with (S 129). rewrite free_scan_S, (bind_ok _ _ s1 s1 hi) by (by apply ld_hole_ok).
    by rewrite Hbi, Z.gtb_ltb, (proj2 (Z.ltb_lt _ _) Hlt). }
  rewrite (bind_ok _ _ _ _ _ Hscan'). cbn [app] in E. rewrite E in Hr.
  assert (Hpn : p ≠ n) by (apply Hnot; rewrite E, fmap_app; apply elem_of_app; right; apply list_elem_of_here).
  destruct (mm_rep_lookup _ _ _ _ _ _ _ Hr) as (hp & Hp & Hpb' & Hpl' & _).
  assert (Hp1 : holes s1 !! p = Some hp) by (cbn; by rewrite lookup_insert_ne).
  rewrite (bind_ok _ _ s1 s1 hp) by (by apply ld_hole_ok). 
  rewrite (bind_ok _ _ _ _ _ (st_hole_ok s1 n _ _ (lookup_insert_eq _ _ _))).
  erewrite bind_ok; [|apply (st_hole_ok _ p hp); cbn; by rewrite !lookup_insert_ne].
  match goal with |- ∃ s', merge p ?s2 = _ ∧ _ => set (s2' := s2) end.
  assert (Hr2 : mm_rep s2' (H1 ++ (p, (pb, pl)) :: (n, (b, c)) :: H2) F).
  { eapply (link_after s s2' n F H1 p pb pl H2 h0 (mk_hole b c (h_next hp)) hp (hp <| h_next := Some n |>)); try done; cbn.
    - by rewrite lookup_insert_ne, lookup_insert_eq.
    - by rewrite lookup_insert_eq.
    - intros j Hj Hjp. by rewrite !lookup_insert_ne. }
  assert (EL : (bi, li) :: H.*2 = H1.*2 ++ (pb, pl) :: H2.*2).
  { change ((bi, li) :: H.*2) with (((i, (bi, li)) :: H).*2). by rewrite E, fmap_app. }
  rewrite EL in Hg, Hf |- *. pose proof (gapped_ok _ Hg) as [_ [Hok1 Hok2]%Forall_cons]%Forall_app.
  destruct (merge_spec s2' H1 p pb pl ((n, (b, c)) :: H2) F Hr2 Hok1) as (s' & H' & F' & Hrun & Hr' & HL).
  { constructor; [apply Hf|done]. }
  exists s'. split; [done|]. split; [by apply gapped_put_back|]. exists (H1 ++ H'), F'. split; [done|].
  rewrite fmap_app, HL, put_back_split by done. done.
Qed.

(** A block returned to a table with an unused slot. *)
Lemma free_mem_spec s L b c : mm_sim s L → fits b c L → (length L < 128)%nat →
  ∃ s', free_mem b c s = Ok s' () ∧ mm_sim s' (put_back b c L).
Proof.
  intros [Hg (H & F & Hr & <-)] Hf Hlen. rewrite length_fmap in Hlen.
  assert (c ≠ 0) by (destruct Hf as [Hok _]; unfold hole_ok in Hok; cbn in Hok; lia).
  assert (∃ n, free_slots s = Some n) as (n & Hn).
  { pose proof (mr_size _ _ _ Hr). destruct F as [|n F]; [cbn in *; lia|]. exists n. apply (mr_free _ _ _ Hr). }
  destruct H as [|[i [bi li]] H]; [by apply (free_mem_front s [] F b c n)|]. cbn [fmap list_fmap snd] in *.
  destruct (Z.le_gt_cases b bi).
  - by apply (free_mem_front s ((i, (bi, li)) :: H) F b c n).
  - by eapply free_mem_middle.
Qed.

(** No unused slot. *)
Lemma free_mem_full s L b c : mm_sim s L → length L = 128%nat → c ≠ 0 →
  free_mem b c s = panic "Hole table full" NO_NUM s.
Proof.
  intros [Hg (H & F & Hr & <-)] Hlen Hc. rewrite length_fmap in Hlen.
  pose proof (mr_size _ _ _ Hr). destruct F as [|n F]; [|cbn in *; lia].
  unfold free_mem. rewrite (proj2 (Z.eqb_neq _ _) Hc). hrun. pose proof (mr_free _ _ _ Hr) as Hfs. cbn in Hfs. by rewrite Hfs.
Qed.

(** ** The largest hole *)

Definition largest (L : list (Z * Z)) : Z := foldr (λ a m, a.2 `max` m) 0 L.

Lemma max_scan_spec fuel s : ∀ H hp m, hseg (holes s) hp H None → (length H < fuel)%nat → 0 ≤ m →
  max_scan fuel hp m s = Ok s (m `max` largest (H.*2)).
Proof.
  induction fuel as [|fuel IH]; intros H hp m Hs Hfu Hm; [lia|]. cbn [max_scan].
  destruct H as [|[i [b l]] H]; cbn in Hs.
  { rewrite Hs. change (largest _) with 0. by rewrite Z.max_l. }
  destruct Hs as (-> & h & Hi & Hb & Hl & Hs). hrun. cbn in Hfu. rewrite (IH H _ _ Hs); [|lia|rewrite Z.gtb_ltb; destruct (Z.ltb_spec m (h_len h)); lia].
  f_equal. rewrite Hl, Z.gtb_ltb. change (largest _) with (l `max` largest H.*2) at 2. destruct (Z.ltb_spec m l); lia.
Qed.

Lemma max_hole_spec s L : mm_sim s L → max_hole s = Ok s (largest L).
Proof.
  intros [Hg (H & F & Hr & <-)]. unfold max_hole. hrun. pose proof (mm_rep_length _ _ _ Hr).
  rewrite (max_scan_spec _ _ H); [|apply (mr_holes _ _ _ Hr)|unfold hole_fuel; lia|lia]. f_equal.
  apply Z.max_r. clear. induction H.*2 as [|a L IH]; [done|]. change (0 ≤ a.2 `max` largest L). lia.
Qed.

(** ** Free clicks *)

Definition free_click (L : list (Z * Z)) (x : Z) : Prop := Exists (λ a, a.1 ≤ x < a.1 + a.2) L.

Lemma free_click_cons b l L x : free_click ((b, l) :: L) x ↔ b ≤ x < b + l ∨ free_click L x.
Proof. apply Exists_cons. Qed.

Lemma free_click_glue b c L x : 0 ≤ c → Forall hole_ok L →
  free_click (glue b c L) x ↔ b ≤ x < b + c ∨ free_click L x.
Proof.
  intros Hc Hok. destruct L as [|[b2 l2] L]; cbn [glue]; [by rewrite free_click_cons|].
  apply Forall_cons in Hok as [Hok _]. unfold hole_ok in Hok. cbn in Hok.
  destruct (Z.eqb_spec (b + c) b2) as [<-|]; rewrite !free_click_cons; [|done].
  split; [intros [?|?]|intros [?|[?|?]]]; try (by right; right); try (by right); lia || (destruct (Z.lt_ge_cases x (b + c)); [left|right; left]; lia).
Qed.

Lemma free_click_put_back b c L x : gapped L → fits b c L →
  free_click (put_back b c L) x ↔ b ≤ x < b + c ∨ free_click L x.
Proof.
  intros Hg Hf. pose proof (proj1 Hf) as Hok. unfold hole_ok in Hok. cbn in Hok.
  induction L as [|[b2 l2] L IH]; cbn [put_back]; [by rewrite free_click_cons|].
  pose proof (gapped_ok _ Hg) as Hoks. destruct (_ <=? _).
  - apply free_click_glue; [lia|done].
  - apply fits_tail in Hf. apply gapped_tail in Hg. apply Forall_cons in Hoks as [Hok2 _]. unfold hole_ok in Hok2. cbn in Hok2.
    rewrite free_click_glue, IH, free_click_cons by (done || lia || by apply gapped_ok, gapped_put_back). tauto.
Qed.

Lemma gapped_above b l L x : gapped ((b, l) :: L) → free_click L x → b + l < x.
Proof.
  revert b l. induction L as [|[b2 l2] L IH]; intros b l Hg; [by intros ?%Exists_nil|].
  destruct Hg as (? & ? & ? & Hn & Hg). rewrite free_click_cons. intros [?|Hx]; [lia|].
  pose proof (IH b2 l2 Hg Hx). destruct Hg as (? & ? & _). lia.
Qed.

Lemma first_fit_split c L r L' : first_fit c L = Some (r, L') →
  ∃ L1 l L2, L = L1 ++ (r, l) :: L2 ∧ c ≤ l ∧ Forall (λ a, a.2 < c) L1 ∧
    L' = L1 ++ if l - c =? 0 then L2 else (r + c, l - c) :: L2.
Proof.
  revert r L'. induction L as [|[b l] L IH]; intros r L'; [done|]. cbn [first_fit]. destruct (Z.leb_spec c l) as [Hle|Hgt].
  - intros [= <- <-]. by exists [], l, L.
  - destruct (first_fit c L) as [[r0 L0]|] eqn:E; [|done]. intros [= -> <-].
    destruct (IH r L0 eq_refl) as (L1 & l1 & L2 & -> & Hle & Hlt & ->). exists ((b, l) :: L1), l1, L2. split_and!; try done.
    by constructor.
Qed.

Lemma first_fit_hole c L r L' : first_fit c L = Some (r, L') → ∃ l, (r, l) ∈ L ∧ c ≤ l.
Proof.
  intros (L1 & l & L2 & -> & Hle & _)%first_fit_split. exists l. split; [|done].
  apply elem_of_app. right. apply list_elem_of_here.
Qed.

Lemma first_fit_none c L : first_fit c L = None ↔ Forall (λ a, a.2 < c) L.
Proof.
  induction L as [|[b l] L IH]; [by split|]. cbn [first_fit]. rewrite Forall_cons, <- IH. cbn.
  destruct (Z.leb_spec c l); [split; [done|lia]|]. destruct (first_fit c L) as [[? ?]|]; [split; [done|by intros [_ ?]]|done].
Qed.

(** First fit takes the block off the free clicks, from the first hole that is
    large enough. *)
Lemma first_fit_clicks c L r L' x : 1 ≤ c → gapped L → first_fit c L = Some (r, L') →
  free_click L' x ↔ free_click L x ∧ ¬ r ≤ x < r + c.
Proof.
  intros Hc. revert L'. induction L as [|[b l] L IH]; intros L'; [done|]. intros Hg. cbn [first_fit].
  pose proof (gapped_above b l L x Hg) as Hab. pose proof Hg as (Hb & Hl & Hbl & Hn & Hg').
  destruct (Z.leb_spec c l) as [Hle|Hgt].
  - intros [= <- <-]. rewrite free_click_cons.
    destruct (Z.eqb_spec (l - c) 0) as [Hz|Hz]; rewrite ?free_click_cons.
    + split; [intros Hx; specialize (Hab Hx); split; [by right|lia]|]. intros [[?|?] ?]; [lia|done].
    + split; [intros [Hx|Hx]; [split; [left|]; lia|specialize (Hab Hx); split; [by right|lia]]|].
      intros [[?|?] ?]; [left; lia|by right].
  - destruct (first_fit c L) as [[r0 L0]|] eqn:E; [|done]. intros [= -> <-]. rewrite !free_click_cons, (IH L0) by done.
    destruct (first_fit_hole _ _ _ _ E) as (l0 & Hin & Hl0).
    assert (b + l < r) by (apply (gapped_above b l L r Hg), Exists_exists; exists (r, l0); cbn; split; [done|lia]).
    split; [intros [?|[? ?]]; (split; [by left + by right|lia])|intros [[?|?] ?]; [by left|by right]].
Qed.

(** Freeing the block found restores the holes. *)
Lemma put_back_first_fit c L r L' : 1 ≤ c → gapped L → first_fit c L = Some (r, L') → put_back r c L' = L.
Proof.
  intros Hc. revert L'. induction L as [|[b l] L IH]; intros L'; [done|]. intros Hg. cbn [first_fit].
  pose proof Hg as (Hb & Hl & Hbl & Hn & Hg'). destruct (Z.leb_spec c l) as [Hle|Hgt].
  - intros [= <- <-]. destruct (Z.eqb_spec (l - c) 0) as [Hz|Hz].
    + assert (c = l) as -> by lia. rewrite put_back_front; [by apply glue_gapped|].
      destruct L as [|[b2 l2] L]; [done|]. cbn. lia.
    + rewrite put_back_front by (cbn; lia). cbn [glue]. rewrite Z.eqb_refl. do 2 f_equal. lia.
  - destruct (first_fit c L) as [[r0 L0]|] eqn:E; [|done]. intros [= -> <-].
    destruct (first_fit_hole _ _ _ _ E) as (l0 & Hin & Hl0).
    assert (b + l < r) by (apply (gapped_above b l L r Hg), Exists_exists; exists (r, l0); cbn; split; [done|lia]).
    cbn [put_back]. rewrite (proj2 (Z.leb_gt r b)), (IH L0) by (done || lia). by apply glue_gapped.
Qed.

Lemma first_fit_length c L r L' : first_fit c L = Some (r, L') → (length L' ≤ length L)%nat.
Proof.
  revert r L'. induction L as [|[b l] L IH]; intros r L'; [done|]. cbn [first_fit]. destruct (_ <=? _).
  - intros [= <- <-]. destruct (_ =? _); cbn; lia.
  - destruct (first_fit c L) as [[r0 L0]|] eqn:E; [|done]. intros [= -> <-]. cbn. specialize (IH r L0 eq_refl). lia.
Qed.

Lemma first_fit_fits c L r L' : 1 ≤ c → gapped L → first_fit c L = Some (r, L') → fits r c L'.
Proof.
  intros Hc Hg E. destruct (first_fit_gapped c L r L' ltac:(lia) Hg E) as [Hg' _].
  destruct (first_fit_hole _ _ _ _ E) as (l0 & Hin & Hl0).
  pose proof (proj1 (Forall_forall _ _) (gapped_ok _ Hg) _ Hin) as Hok. split; [unfold hole_ok in *; cbn in *; lia|].
  apply Forall_forall. intros [b l] Hbl. cbn. pose proof (proj1 (Forall_forall _ _) (gapped_ok _ Hg') _ Hbl) as Hok2.
  unfold hole_ok in Hok, Hok2. cbn in Hok, Hok2.
  assert (Hno : ∀ x, b ≤ x < b + l → ¬ r ≤ x < r + c).
  { intros x Hx. apply (first_fit_clicks c L r L' x Hc Hg E). apply Exists_exists. by exists (b, l). }
  destruct (Z.le_gt_cases (r + c) b); [by left|]. destruct (Z.le_gt_cases (b + l) r); [by right|].
  exfalso. apply (Hno (Z.max b r)); lia.
Qed.

(** ** What the allocator promises *)

#[export] Instance hole_ok_dec a : Decision (hole_ok a).
Proof. unfold hole_ok. apply _. Defined.
#[export] Instance fits_dec b c L : Decision (fits b c L).
Proof. unfold fits. apply _. Defined.

Inductive mm_call := CAlloc (clicks : Z) | CFree (base clicks : Z) | CMax.

Definition run_call (k : mm_call) : M mmstate Z :=
  match k with
  | CAlloc c => alloc_mem c
  | CFree b c => free_mem b c;; mret 0
  | CMax => max_hole
  end.

(** The calls the memory manager may make: a block given back is outside every
    hole and finds a slot. *)
Definition spec_call (k : mm_call) (L : list (Z * Z)) : option (list (Z * Z) * Z) :=
  match k with
  | CAlloc c => if c <? 0 then None
                else match first_fit c L with None => Some (L, NO_MEM) | Some (r, L') => Some (L', r) end
  | CFree b c => if c =? 0 then Some (L, 0)
                 else if bool_decide (fits b c L) && (length L <? 128)%nat then Some (put_back b c L, 0) else None
  | CMax => Some (L, largest L)
  end.

Fixpoint run_calls (ks : list mm_call) : M mmstate (list Z) :=
  match ks with [] => mret [] | k :: ks' => r ← run_call k; rs ← run_calls ks'; mret (r :: rs) end.

Fixpoint spec_calls (ks : list mm_call) (L : list (Z * Z)) : option (list (Z * Z) * list Z) :=
  match ks with
  | [] => Some (L, [])
  | k :: ks' =>
      match spec_call k L with
      | None => None
      | Some (L', r) => match spec_calls ks' L' with None => None | Some (L'', rs) => Some (L'', r :: rs) end
      end
  end.

Lemma run_call_spec k s L L' r : mm_sim s L → spec_call k L = Some (L', r) →
  ∃ s', run_call k s = Ok s' r ∧ mm_sim s' L'.
Proof.
  intros Hs. destruct k as [c|b c|]; cbn [spec_call run_call].
  - destruct (Z.ltb_spec c 0); [done|]. pose proof (alloc_mem_spec s L c Hs ltac:(done)) as Ha.
    destruct (first_fit c L) as [[r0 L0]|]; intros [= <- <-]; eauto.
  - destruct (Z.eqb_spec c 0) as [->|Hc]; [intros [= <- <-]; by exists s|].
    destruct (bool_decide_reflect (fits b c L)) as [Hf|]; [|done]. cbn [andb].
    destruct (Nat.ltb_spec (length L) 128) as [Hlen|]; [|done]. intros [= <- <-].
    destruct (free_mem_spec s L b c Hs Hf Hlen) as (s' & Hrun & Hs'). exists s'. by rewrite (bind_ok _ _ _ _ _ Hrun).
  - intros [= <- <-]. exists s. split; [by apply max_hole_spec|done].
Qed.

Lemma run_calls_spec ks : ∀ s L L' rs, mm_sim s L → spec_calls ks L = Some (L', rs) →
  ∃ s', run_calls ks s = Ok s' rs ∧ mm_sim s' L'.
Proof.
  induction ks as [|k ks IH]; intros s L L' rs Hs; cbn [spec_calls run_calls].
  { intros [= <- <-]. eauto. }
  destruct (spec_call k L) as [[L1 r]|] eqn:E; [|done]. destruct (run_call_spec _ _ _ _ _ Hs E) as (s1 & Hrun & Hs1).
  destruct (spec_calls ks L1) as [[L2 rs']|] eqn:E2; [|done]. intros [= <- <-].
  destruct (IH _ _ _ _ Hs1 E2) as (s2 & Hrun2 & Hs2). exists s2. split; [|done].
  by rewrite (bind_ok _ _ _ _ _ Hrun), (bind_ok _ _ _ _ _ Hrun2).
Qed.

(** The hole table as the loader leaves it: static data, all zero. *)
Definition mm_bss : mmstate :=
  mk_mm (list_to_map ((λ i, (Z.of_nat i, mk_hole 0 0 None)) <$> seq 0 128)) None None.

Definition mm_clear : mmstate := match clear_holes mm_bss with Ok s _ => s | _ => mm_bss end.

Lemma clear_holes_run : clear_holes mm_bss = Ok mm_clear ().
Proof. vm_compute. reflexivity. Qed.

Fixpoint fseg_fix (m : gmap Z hole) (p : option Z) (F : list Z) : bool :=
  match F with
  | [] => bool_decide (p = None)
  | i :: F' => bool_decide (p = Some i) && match m !! i with Some h => fseg_fix m (h_next h) F' | None => false end
  end.

Lemma fseg_fix_sound m p F : fseg_fix m p F = true → fseg m p F.
Proof.
  revert p. induction F as [|i F IH]; intros p; cbn; [by intros ?%bool_decide_eq_true|].
  rewrite andb_true_iff. intros [?%bool_decide_eq_true Hm]. split; [done|]. destruct (m !! i) as [h|]; [|done]. eauto.
Qed.

Lemma clear_holes_sim : mm_sim mm_clear [].
Proof.
  split; [done|]. exists [], (Z.of_nat <$> seq 0 128). split; [|done]. constructor.
  - vm_compute. reflexivity.
  - apply fseg_fix_sound. vm_compute. reflexivity.
  - cbn [fmap list_fmap app]. apply NoDup_fmap_2; [apply _|]. apply NoDup_seq.
  - reflexivity.
Qed.

(** The answers of the system task when it has these chunks of memory: each of
    them in turn, then one of size 0. *)
Definition sys_mem (chunks : list (Z * Z)) (tot : Z) : list (option (Z * Z * Z)) :=
  ((λ a, Some (a.1, a.2, tot)) <$> chunks) ++ [Some (0, 0, tot)].

Lemma mem_chunks_spec chunks tot : Forall (λ a, a.2 ≠ 0) chunks → ∀ s L1 free L0 rs0, mm_sim s L1 →
  spec_calls ((λ a, CFree a.1 a.2) <$> chunks) L1 = Some (L0, rs0) →
  ∃ s0 free', mem_chunks (sys_mem chunks tot) tot free s = Ok s0 (tot, free') ∧ mm_sim s0 L0.
Proof.
  unfold sys_mem. induction 1 as [|[b c] chunks Hc Hnz IH]; intros s L1 free L0 rs0 Hs; cbn [spec_calls fmap list_fmap mem_chunks fst snd app].
  { intros [= <- <-]. by exists s, free. }
  destruct (spec_call _ L1) as [[L2 r]|] eqn:E; [|done]. destruct (run_call_spec _ _ _ _ _ Hs E) as (s2 & Hrun & Hs2).
  destruct (spec_calls _ L2) as [[L3 rs']|] eqn:E2; [|done]. intros [= -> <-]. cbn in Hc.
  rewrite (proj2 (Z.eqb_neq _ _) Hc). cbn in Hrun. destruct (free_mem b c s) as [s' []| | |] eqn:Ef; unfold mbind, M_bind in Hrun |- *; rewrite Ef in Hrun; try done.
  injection Hrun as <- _. rewrite Ef. by apply (IH _ _ _ _ rs' Hs2).
Qed.

(** C9: From the zeroed table, [mem_init] with the chunks of memory the system
    task reports, followed by any sequence of allocations, releases and
    largest-hole queries, returns what first-fit allocation on a sorted sequence
    of coalesced holes returns, call by call; each run terminates and
    ends in a table that represents the abstract holes. *)
Theorem allocator_refines (chunks : list (Z * Z)) (ks : list mm_call) (tot : Z) L0 rs0 L rs :
  Forall (λ a, a.2 ≠ 0) chunks →
  spec_calls ((λ a, CFree a.1 a.2) <$> chunks) [] = Some (L0, rs0) → spec_calls ks L0 = Some (L, rs) →
  ∃ s0 free s, mem_init (sys_mem chunks tot) tot mm_bss = Ok s0 (tot, free) ∧
    mm_sim s0 L0 ∧ run_calls ks s0 = Ok s rs ∧ mm_sim s L.
Proof.
  intros Hnz H0 Hks.
  destruct (mem_chunks_spec chunks tot Hnz mm_clear [] 0 L0 rs0 clear_holes_sim H0) as (s0 & free & Hinit & Hs0).
  assert (mem_init (sys_mem chunks tot) tot mm_bss = Ok s0 (tot, free)) by (unfold mem_init; by rewrite (bind_ok _ _ _ _ _ clear_holes_run)).
  destruct (run_calls_spec ks s0 L0 L rs Hs0 Hks) as (s & Hrun & Hs). eauto 10.
Qed.

Lemma allocator_refines_witness :
  ∃ s0 free s, mem_init (sys_mem [(10, 100); (500, 50)] 5000) 5000 mm_bss = Ok s0 (5000, free) ∧
    mm_sim s0 [(10, 100); (500, 50)] ∧
    run_calls [CAlloc 60; CAlloc 60; CAlloc 30; CFree 10 60; CAlloc 50; CMax] s0 = Ok s [10; 0; 70; 0; 10; 50] ∧
    mm_sim s [(60, 10); (100, 10); (500, 50)].
Proof.
  apply (allocator_refines [(10, 100); (500, 50)] [CAlloc 60; CAlloc 60; CAlloc 30; CFree 10 60; CAlloc 50; CMax] 5000 _ [0; 0]).
  - repeat constructor; cbn; lia.
  - vm_compute. reflexivity.
  - vm_compute. reflexivity.
Defined.

(** C12: [alloc_mem] of a positive size either takes the block from the first
    hole large enough: every click of the block was free, the clicks free
    afterwards are exactly the others, and no hole in front could hold the block; or
    it returns [NO_MEM] with the table unchanged, and no hole could hold it. *)
Theorem alloc_mem_sound s L c : mm_sim s L → 1 ≤ c →
  (∃ s' r L1 l L2 L', alloc_mem c s = Ok s' r ∧ mm_sim s' L' ∧
     L = L1 ++ (r, l) :: L2 ∧ c ≤ l ∧ Forall (λ a, a.2 < c) L1 ∧
     (∀ x, r ≤ x < r + c → free_click L x) ∧ (∀ x, free_click L' x ↔ free_click L x ∧ ¬ r ≤ x < r + c)) ∨
  (alloc_mem c s = Ok s NO_MEM ∧ Forall (λ a, a.2 < c) L).
Proof.
  intros Hs Hc. pose proof (alloc_mem_spec s L c Hs ltac:(lia)) as Ha. pose proof (first_fit_none c L) as Hnone.
  destruct (first_fit c L) as [[r L']|] eqn:E; [left|right; split; [done|by apply Hnone]].
  destruct Ha as (s' & Hrun & Hs'). destruct (first_fit_split _ _ _ _ E) as (L1 & l & L2 & EL & Hle & Hlt & _).
  exists s', r, L1, l, L2, L'. split_and!; try done.
  - intros x Hx. rewrite EL. apply Exists_exists. exists (r, l). split; [|cbn; lia].
    apply elem_of_app. right. apply list_elem_of_here.
  - intros x. apply first_fit_clicks; [done|apply Hs|done].
Qed.

Definition mm_two : mmstate :=
  match mem_init (sys_mem [(10, 100); (500, 50)] 5000) 5000 mm_bss with Ok s _ => s | _ => mm_bss end.
Lemma mm_two_sim : mm_sim mm_two [(10, 100); (500, 50)].
Proof.
  destruct (run_calls_spec [CFree 10 100; CFree 500 50] mm_clear [] [(10, 100); (500, 50)] [0; 0] clear_holes_sim eq_refl)
    as (s' & Hrun & Hs'). 
  assert (run_calls [CFree 10 100; CFree 500 50] mm_clear = Ok mm_two [0; 0]) as Hrun2 by (vm_compute; reflexivity).
  pose proof (f_equal (λ r, match r with Ok s _ => s | _ => mm_bss end) (eq_trans (eq_sym Hrun2) Hrun)) as E.
  cbv beta iota in E. rewrite E. exact Hs'.
Qed.

Lemma alloc_mem_sound_witness :
  (∃ s' r L1 l L2 L', alloc_mem 20 mm_two = Ok s' r ∧ mm_sim s' L' ∧
     [(10, 100); (500, 50)] = L1 ++ (r, l) :: L2 ∧ 20 ≤ l ∧ Forall (λ a, a.2 < 20) L1 ∧
     (∀ x, r ≤ x < r + 20 → free_click [(10, 100); (500, 50)] x) ∧
     (∀ x, free_click L' x ↔ free_click [(10, 100); (500, 50)] x ∧ ¬ r ≤ x < r + 20)) ∨
  (alloc_mem 20 mm_two = Ok mm_two NO_MEM ∧ Forall (λ a, a.2 < 20) [(10, 100); (500, 50)]).
Proof. apply (alloc_mem_sound mm_two [(10, 100); (500, 50)] 20); [apply mm_two_sim|lia]. Defined.

(** C13: [free_mem] of a block outside every hole adds exactly its clicks to the
    free ones, coalescing it with its neighbours: the holes stay sorted and no
    two of them touch.  With all 128 slots in use it panics. *)
Theorem free_mem_sound s L b c : mm_sim s L → fits b c L →
  if (length L <? 128)%nat then
    ∃ s' L', free_mem b c s = Ok s' () ∧ mm_sim s' L' ∧ gapped L' ∧
      ∀ x, free_click L' x ↔ b ≤ x < b + c ∨ free_click L x
  else free_mem b c s = panic "Hole table full" NO_NUM s.
Proof.
  intros Hs Hf. destruct (Nat.ltb_spec (length L) 128) as [Hlt|Hge].
  - destruct (free_mem_spec s L b c Hs Hf Hlt) as (s' & Hrun & Hs'). exists s', (put_back b c L). split_and!; try done.
    + apply Hs'.
    + intros x. apply free_click_put_back; [apply Hs|done].
  - apply (free_mem_full s L); [done| |destruct Hf as [Hok _]; unfold hole_ok in Hok; cbn in Hok; lia].
    destruct Hs as [_ (H & F & Hr & <-)]. rewrite length_fmap in *. pose proof (mm_rep_length _ _ _ Hr). lia.
Qed.

Lemma free_mem_sound_witness :
  ∃ s' L', free_mem 110 390 mm_two = Ok s' () ∧ mm_sim s' L' ∧ gapped L' ∧
    ∀ x, free_click L' x ↔ 110 ≤ x < 110 + 390 ∨ free_click [(10, 100); (500, 50)] x.
Proof.
  apply (free_mem_sound mm_two [(10, 100); (500, 50)] 110 390); [apply mm_two_sim|].
  apply (bool_decide_eq_true_1 _). vm_compute. reflexivity.
Defined.

(** C14: Giving back a block just allocated restores the holes: whenever
    [alloc_mem] succeeds on a table with an unused slot, [free_mem] of the same block
    returns to the same sequence of holes. *)
Theorem alloc_free_roundtrip s L c : mm_sim s L → 1 ≤ c ≤ largest L → (length L < 128)%nat →
  ∃ s' r s'', alloc_mem c s = Ok s' r ∧ free_mem r c s' = Ok s'' () ∧ mm_sim s'' L.
Proof.
  intros Hs [Hc Hmax] Hlen. pose proof (alloc_mem_spec s L c Hs ltac:(lia)) as Ha.
  pose proof (first_fit_none c L) as Hnone. destruct (first_fit c L) as [[r L']|] eqn:E.
  - destruct Ha as (s' & Hrun & Hs'). exists s', r. pose proof (first_fit_length _ _ _ _ E).
    destruct (free_mem_spec s' L' r c Hs') as (s'' & Hrun' & Hs''); [apply (first_fit_fits c L); [done|apply Hs|done]|lia|].
    exists s''. split_and!; try done. by rewrite <- (put_back_first_fit c L r L' Hc (proj1 Hs) E).
  - exfalso. pose proof (proj1 Hnone eq_refl) as Hall. clear -Hall Hc Hmax.
    induction Hall as [|a L Ha Hall IH]; [change (largest []) with 0 in Hmax; lia|].
    change (largest (a :: L)) with (a.2 `max` largest L) in Hmax. lia.
Qed.

Lemma alloc_free_roundtrip_witness :
  ∃ s' r s'', alloc_mem 70 mm_two = Ok s' r ∧ free_mem r 70 s' = Ok s'' () ∧ mm_sim s'' [(10, 100); (500, 50)].
Proof.
  apply (alloc_free_roundtrip mm_two [(10, 100); (500, 50)] 70); [apply mm_two_sim|vm_compute; split; discriminate|cbn; lia].
Defined.
