(* ===== verification/FsCache.v ===== *)
(** * The buffer cache of the file server (fs/cache.c, fs/cache2.c, fs/buf.h)

    The buffers with their two chains (the LRU chain of the buffers nobody
    uses and the hash chains of all buffers), the second level cache on the
    RAM disk, and every operation of the two files with [buf_pool] of
    fs/main.c.  Block transfers go to the device drivers, other processes the
    server reaches with messages: [Driver] is what the cache calls them
    through, [Reliable] what a driver promises whose transfers do not fail.
    FsCoherence.v proves what the cache promises to the rest of the server. *)

From stdpp Require Import base gmap strings pretty numbers fin_maps functions list.
From S2P Require Import Prelude.
Local Open Scope Z_scope.

(** ** Constants (include/minix/config.h for the IBM PC, const.h, fs/buf.h) *)
Definition NR_BUFS : Z := 80.
Definition NR_BUF_HASH : Z := 128.
Definition HASH_MASK : Z := NR_BUF_HASH - 1.
Definition BLOCK_SIZE : Z := 1024.
Definition NR_IOREQS : Z := MIN NR_BUFS 64.
Definition MAX_BUF2 : Z := 256 * 4.
Definition NO_DEV : Z := 0.
Definition NO_BLOCK : Z := 0.
Definition DEV_RAM : Z := 256.
Definition CLEAN : Z := 0.
Definition DIRTY : Z := 1.
Definition NORMAL : Z := 0.
Definition NO_READ : Z := 1.
Definition PREFETCH : Z := 2.
Definition READING : Z := 0.
Definition WRITING : Z := 1.
Definition DEV_READ : Z := 3.
Definition DEV_WRITE : Z := 4.
Definition OPTIONAL_IO : Z := 16.
Definition END_OF_FILE : Z := -104.
Definition WRITE_IMMED : Z := 64.
Definition ONE_SHOT : Z := 128.
Definition INODE_BLOCK : Z := 0.
Definition DIRECTORY_BLOCK : Z := 1.
Definition INDIRECT_BLOCK : Z := 2.
Definition MAP_BLOCK : Z := 3.
Definition ZUPER_BLOCK : Z := 4 + WRITE_IMMED + ONE_SHOT.
Definition FULL_DATA_BLOCK : Z := 5.
Definition PARTIAL_DATA_BLOCK : Z := 6.

(** [char], [short] and [unsigned short] values. *)
Definition s8 (x : Z) : Z := (x + 2 ^ 7) mod 2 ^ 8 - 2 ^ 7.
Definition s16 (x : Z) : Z := (x + 2 ^ 15) mod 2 ^ 16 - 2 ^ 15.
Definition u16 (x : Z) : Z := x mod 2 ^ 16.

Definition newline : string := String (Ascii.ascii_of_nat 10) EmptyString.

(** The bytes of a block. *)
Abbreviation block_data := (list Z) (only parsing).

(** ** The drivers *)

(** One request of the vector of a scattered transfer; [io_buf] holds the bytes
    of the buffer it points to. *)
Record iorequest_s := mk_iorequest {
  io_position : Z;
  io_buf : block_data;
  io_nbytes : Z;
  io_request : Z;
}.

(** What [dev_io] does for the cache: the transfer of one block between a
    buffer and a byte position of a device, with the number of bytes moved or
    an error code as the result, and a scattered transfer, which leaves in each
    request the number of bytes it has not moved. *)
Class Driver := {
  world : Type;
  dev_read : Z → Z → block_data → world → world * (Z * block_data);
  dev_write : Z → Z → block_data → world → world * Z;
  dev_scattered : Z → list iorequest_s → world → world * list iorequest_s;
}.

(** A driver whose transfers do not fail, on the positions of the devices it
    covers: [platter] is what a device holds. *)
Class Reliable (D : Driver) := {
  platter : world → Z → Z → block_data;
  covers : Z → Z → Prop;
  read_law : ∀ dev pos d w, covers dev pos →
    ∃ w', dev_read dev pos d w = (w', (BLOCK_SIZE, platter w dev pos)) ∧
      ∀ dev' pos', platter w' dev' pos' = platter w dev' pos';
  write_law : ∀ dev pos d w, covers dev pos →
    ∃ w', dev_write dev pos d w = (w', BLOCK_SIZE) ∧ platter w' dev pos = d ∧
      ∀ dev' pos', (dev', pos') ≠ (dev, pos) → platter w' dev' pos' = platter w dev' pos';
  scattered_law : ∀ dev iov w,
    Forall (λ r, io_request r = DEV_WRITE ∧ covers dev (io_position r)) iov → NoDup (io_position <$> iov) →
    ∃ w' iov', dev_scattered dev iov w = (w', iov') ∧ length iov' = length iov ∧ Forall (λ r, io_nbytes r = 0) iov' ∧
      (∀ r, r ∈ iov → platter w' dev (io_position r) = io_buf r) ∧
      ∀ dev' pos', dev' ≠ dev ∨ pos' ∉ (io_position <$> iov) → platter w' dev' pos' = platter w dev' pos';
}.

(** ** State *)
Record buf := mk_buf {
  b_data : block_data;
  b_next : option Z;
  b_prev : option Z;
  b_hash : option Z;
  b_blocknr : Z;
  b_dev : Z;
  b_dirt : Z;
  b_count : Z;
}.
#[export] Instance buf_eta : Eta buf := λ b,
  mk_buf (b_data b) (b_next b) (b_prev b) (b_hash b) (b_blocknr b) (b_dev b) (b_dirt b) (b_count b).

Record buf2 := mk_buf2 {
  b2_blocknr : Z;
  b2_dev : Z;
  b2_count : Z;
}.
#[export] Instance buf2_eta : Eta buf2 := λ b, mk_buf2 (b2_blocknr b) (b2_dev b) (b2_count b).

Section cache.
Context {D : Driver}.

(** A pointer to a buffer is its index in [buf]. *)
Record cache := mk_cache {
  bufs : gmap Z buf;
  buf_hash : gmap Z (option Z);
  front : option Z;
  rear : option Z;
  bufs_in_use : Z;
  buf2s : gmap Z buf2;
  nr_buf2 : Z;
  buf2_idx : Z;
  rdwt_err : Z;
  wld : world;
  fs_console : list string;
}.
#[export] Instance cache_eta : Eta cache := λ c,
  mk_cache (bufs c) (buf_hash c) (front c) (rear c) (bufs_in_use c) (buf2s c) (nr_buf2 c) (buf2_idx c)
    (rdwt_err c) (wld c) (fs_console c).

Abbreviation F := (M cache).

Definition ld_buf (p : Z) : F buf := m ← gets bufs; deref (m !! p).
Definition st_buf (p : Z) (f : buf → buf) : F unit :=
  b ← ld_buf p; modify (λ c, c <| bufs ::= <[p := f b]> |>).
Definition ld_buf2 (p : Z) : F buf2 := m ← gets buf2s; deref (m !! p).
Definition st_buf2 (p : Z) (f : buf2 → buf2) : F unit :=
  b ← ld_buf2 p; modify (λ c, c <| buf2s ::= <[p := f b]> |>).
Definition ld_hash (h : Z) : F (option Z) := m ← gets buf_hash; deref (m !! h).
Definition st_hash (h : Z) (q : option Z) : F unit :=
  _ ← ld_hash h; modify (λ c, c <| buf_hash ::= <[h := q]> |>).
Definition fs_printf (s : string) : F unit := modify (λ c, c <| fs_console ::= cons s |>).

(** [dev_io] of one block for the buffer [bp]. *)
Definition io_in (bp dev pos : Z) : F Z :=
  b ← ld_buf bp;
  w ← gets wld;
  let '(w', (r, d)) := dev_read dev pos (b_data b) w in
  modify (λ c, c <| wld := w' |>);;
  st_buf bp (λ b, b <| b_data := d |>);;
  mret r.
Definition io_out (bp dev pos : Z) : F Z :=
  b ← ld_buf bp;
  w ← gets wld;
  let '(w', r) := dev_write dev pos (b_data b) w in
  modify (λ c, c <| wld := w' |>);;
  mret r.

Definition dev_name (dev : Z) : string :=
  pretty (Z.land (Z.shiftr dev 8) 255) +:+ "/" +:+ pretty (Z.land (Z.shiftr dev 0) 255).

(** ** The second level cache (fs/cache2.c) *)
Definition hash2 (block : Z) : Z := Z.land block (MAX_BUF2 - 1).

Definition init_cache2 (size : Z) : F unit :=
  modify (λ c, c <| nr_buf2 := if size >? MAX_BUF2 then MAX_BUF2 else size |>).

(** The search runs backwards from [buf2_idx] around the table. *)
Fixpoint search2 (fuel : nat) (b idx nr blocknr dev : Z) : F (option Z) :=
  match fuel with
  | O => λ _, NoFuel
  | S fuel' =>
      let b := (if b =? 0 then nr else b) - 1 in
      bp2 ← ld_buf2 b;
      if (b2_blocknr bp2 =? blocknr) && (b2_dev bp2 =? dev) then mret (Some b)
      else if b =? idx then mret None
      else search2 fuel' b idx nr blocknr dev
  end.

(** Every slot is looked at once. *)
Definition buf2_fuel : nat := Z.to_nat MAX_BUF2.

Definition get_block2 (bp only_search : Z) : F bool :=
  b ← ld_buf bp;
  (if b_dev b =? DEV_RAM then modify (λ c, c <| nr_buf2 := 0 |>) else mret ());;
  nr ← gets nr_buf2;
  if (nr =? 0) || (only_search =? NO_READ) then mret false
  else
    h ← ld_buf2 (hash2 (b_blocknr b));
    if b2_count h =? 0 then mret false
    else
      idx ← gets buf2_idx;
      found ← search2 buf2_fuel idx idx nr (b_blocknr b) (b_dev b);
      match found with
      | None => mret false
      | Some b => r ← io_in bp DEV_RAM (u32 (b * BLOCK_SIZE)); mret (r =? BLOCK_SIZE)
      end.

Definition put_block2 (bp : Z) : F unit :=
  nr ← gets nr_buf2;
  if nr =? 0 then mret ()
  else
    b ← gets buf2_idx;
    modify (λ c, c <| buf2_idx := if b + 1 =? nr then 0 else b + 1 |>);;
    r ← io_out bp DEV_RAM (u32 (b * BLOCK_SIZE));
    if r =? BLOCK_SIZE then
      bp2 ← ld_buf2 b;
      (if negb (b2_dev bp2 =? NO_DEV)
       then st_buf2 (hash2 (b2_blocknr bp2)) (λ x, x <| b2_count ::= λ n, u16 (n - 1) |>) else mret ());;
      bb ← ld_buf bp;
      st_buf2 b (λ x, x <| b2_dev := b_dev bb |> <| b2_blocknr := b_blocknr bb |>);;
      st_buf2 (hash2 (b_blocknr bb)) (λ x, x <| b2_count ::= λ n, u16 (n + 1) |>)
    else mret ().

Definition invalidate2 (device : Z) : F unit :=
  nr ← gets nr_buf2;
  for_ 0 (Z.to_nat nr) (λ b,
    bp2 ← ld_buf2 b;
    if b2_dev bp2 =? device then
      st_buf2 b (λ x, x <| b2_dev := NO_DEV |>);;
      st_buf2 (hash2 (b2_blocknr bp2)) (λ x, x <| b2_count ::= λ n, u16 (n - 1) |>)
    else mret ()).

(** ** The primary cache (fs/cache.c) *)
Definition rm_lru (bp : Z) : F unit :=
  modify (λ c, c <| bufs_in_use ::= Z.succ |>);;
  b ← ld_buf bp;
  let next_ptr := b_next b in
  let prev_ptr := b_prev b in
  (match prev_ptr with
   | Some q => st_buf q (λ x, x <| b_next := next_ptr |>)
   | None => modify (λ c, c <| front := next_ptr |>)
   end);;
  (match next_ptr with
   | Some q => st_buf q (λ x, x <| b_prev := prev_ptr |>)
   | None => modify (λ c, c <| rear := prev_ptr |>)
   end).

Definition rw_block (bp rw_flag : Z) : F unit :=
  b ← ld_buf bp;
  let dev := b_dev b in
  (if negb (dev =? NO_DEV) then
     let pos := u32 (b_blocknr b * BLOCK_SIZE) in
     r ← (if rw_flag =? READING then io_in bp dev pos else io_out bp dev pos);
     if negb (r =? BLOCK_SIZE) then
       let r := if r >=? 0 then END_OF_FILE else r in
       (if negb (r =? END_OF_FILE)
        then fs_printf ("Unrecoverable disk error on device " +:+ dev_name dev +:+ ", block " +:+ pretty (b_blocknr b) +:+ newline) else mret ());;
       st_buf bp (λ x, x <| b_dev := NO_DEV |>);;
       (if rw_flag =? READING then modify (λ c, c <| rdwt_err := r |>) else mret ())
     else mret ()
   else mret ());;
  st_buf bp (λ x, x <| b_dirt := CLEAN |>).

(** A buffer nobody uses goes back on the LRU chain. *)
Definition lru_release (bp block_type : Z) : F unit :=
  f ← gets front;
  r ← gets rear;
  if TEST_BIT block_type ONE_SHOT then
    st_buf bp (λ x, x <| b_prev := None |> <| b_next := f |>);;
    (match f with
     | None => modify (λ c, c <| rear := Some bp |>)
     | Some q => st_buf q (λ x, x <| b_prev := Some bp |>)
     end);;
    modify (λ c, c <| front := Some bp |>)
  else
    st_buf bp (λ x, x <| b_prev := r |> <| b_next := None |>);;
    (match r with
     | None => modify (λ c, c <| front := Some bp |>)
     | Some q => st_buf q (λ x, x <| b_next := Some bp |>)
     end);;
    modify (λ c, c <| rear := Some bp |>).

Definition put_block (bpo : option Z) (block_type : Z) : F unit :=
  match bpo with
  | None => mret ()
  | Some bp =>
      st_buf bp (λ x, x <| b_count ::= λ n, s8 (n - 1) |>);;
      b ← ld_buf bp;
      if negb (b_count b =? 0) then mret ()
      else
        modify (λ c, c <| bufs_in_use ::= Z.pred |>);;
        lru_release bp block_type;;
        b ← ld_buf bp;
        if TEST_BIT block_type WRITE_IMMED && (b_dirt b =? DIRTY) && negb (b_dev b =? NO_DEV)
        then rw_block bp WRITING else mret ()
  end.

(** *** Scattered transfers *)

(** The Shell sort of [rw_scattered] on an array of buffer pointers, ordered by
    the block numbers [key] of the buffers. *)
Definition swap (q : list Z) (i j : nat) : list Z :=
  match q !! i, q !! j with Some x, Some y => <[i := y]> (<[j := x]> q) | _, _ => q end.

Fixpoint sift (fuel : nat) (key : Z → Z) (gap : nat) (i : Z) (q : list Z) : list Z :=
  match fuel with
  | O => q
  | S fuel' =>
      if (0 <=? i) then
        match q !! Z.to_nat i, q !! (Z.to_nat i + gap)%nat with
        | Some x, Some y =>
            if key x >? key y then sift fuel' key gap (i - Z.of_nat gap) (swap q (Z.to_nat i) (Z.to_nat i + gap)) else q
        | _, _ => q
        end
      else q
  end.

(** [for (j = gap; j < bufqsize; j++)]: [n] turns from [j]. *)
Fixpoint gap_pass (n : nat) (key : Z → Z) (gap j : nat) (q : list Z) : list Z :=
  match n with
  | O => q
  | S n' => gap_pass n' key gap (S j) (sift (S j) key gap (Z.of_nat j - Z.of_nat gap) q)
  end.

(** [do gap = 3 * gap + 1; while (gap <= bufqsize)] *)
Fixpoint first_gap (fuel : nat) (gap bufqsize : nat) : nat :=
  match fuel with
  | O => gap
  | S fuel' => let gap := (3 * gap + 1)%nat in if (gap <=? bufqsize)%nat then first_gap fuel' gap bufqsize else gap
  end.

Fixpoint gaps_from (fuel : nat) (key : Z → Z) (gap : nat) (q : list Z) : list Z :=
  match fuel with
  | O => q
  | S fuel' =>
      if (gap =? 1)%nat then q
      else let gap := (gap / 3)%nat in gaps_from fuel' key gap (gap_pass (length q - gap) key gap gap q)
  end.

(** The gaps grow at least by a factor of three, and shrink by three. *)
Definition shell_sort (key : Z → Z) (bufq : list Z) : list Z :=
  let gap := first_gap (S (length bufq)) 1 (length bufq) in
  gaps_from gap key gap bufq.

Definition blocknr_of (m : gmap Z buf) (p : Z) : Z := default 0 (b_blocknr <$> m !! p).

Definition mk_request (m : gmap Z buf) (rw_flag p : Z) : option iorequest_s :=
  b ← m !! p;
  Some (mk_iorequest (s32 (b_blocknr b * BLOCK_SIZE)) (b_data b) BLOCK_SIZE
    (if rw_flag =? WRITING then DEV_WRITE else Z.lor DEV_READ OPTIONAL_IO)).

(** The results of one vector are harvested. *)
Fixpoint harvest (dev rw_flag : Z) (bs : list Z) (iovec : list iorequest_s) : F unit :=
  match bs, iovec with
  | bp :: bs', iop :: iovec' =>
      (if rw_flag =? READING then
         st_buf bp (λ x, x <| b_data := io_buf iop |>);;
         (if io_nbytes iop =? 0 then st_buf bp (λ x, x <| b_dev := dev |>) else mret ());;
         put_block (Some bp) PARTIAL_DATA_BLOCK
       else
         b ← ld_buf bp;
         (if negb (io_nbytes iop =? 0) then
            fs_printf ("Unrecoverable write error on device " +:+ dev_name dev +:+ ", block " +:+ pretty (b_blocknr b) +:+ newline);;
            st_buf bp (λ x, x <| b_dev := NO_DEV |>)
          else mret ());;
         st_buf bp (λ x, x <| b_dirt := CLEAN |>));;
      harvest dev rw_flag bs' iovec'
  | _, _ => mret ()
  end.

Definition io_batch (dev rw_flag : Z) (bs : list Z) : F unit :=
  m ← gets bufs;
  iovec ← deref (mapM (mk_request m rw_flag) bs);
  w ← gets wld;
  let '(w', iovec') := dev_scattered dev iovec w in
  modify (λ c, c <| wld := w' |>);;
  harvest dev rw_flag bs iovec'.

(** The vector holds [NR_IOREQS] requests. *)
Fixpoint io_batches (fuel : nat) (dev rw_flag : Z) (bufq : list Z) : F unit :=
  match fuel with
  | O => λ _, NoFuel
  | S fuel' =>
      match bufq with
      | [] => mret ()
      | _ =>
          io_batch dev rw_flag (take (Z.to_nat NR_IOREQS) bufq);;
          io_batches fuel' dev rw_flag (drop (Z.to_nat NR_IOREQS) bufq)
      end
  end.

Definition rw_scattered (dev : Z) (bufq : list Z) (rw_flag : Z) : F unit :=
  m ← gets bufs;
  let bufq := shell_sort (blocknr_of m) bufq in
  io_batches (S (length bufq)) dev rw_flag bufq.

Definition is_dirty (m : gmap Z buf) (dev p : Z) : bool :=
  match m !! p with Some b => (b_dirt b =? DIRTY) && (b_dev b =? dev) | None => false end.

Definition flushall (dev : Z) : F unit :=
  m ← gets bufs;
  rw_scattered dev (filter (λ p, is_dirty m dev p = true) (seqZ 0 NR_BUFS)) WRITING.

Definition invalidate (device : Z) : F unit :=
  for_ 0 (Z.to_nat NR_BUFS) (λ p,
    b ← ld_buf p; if b_dev b =? device then st_buf p (λ x, x <| b_dev := NO_DEV |>) else mret ());;
  invalidate2 device.

(** *** [get_block] *)

(** The hash chain search. *)
Fixpoint hash_find (fuel : nat) (bp : option Z) (dev block : Z) : F (option Z) :=
  match fuel with
  | O => λ _, NoFuel
  | S fuel' =>
      match bp with
      | None => mret None
      | Some p =>
          b ← ld_buf p;
          if (b_blocknr b =? block) && (b_dev b =? dev) then mret (Some p)
          else hash_find fuel' (b_hash b) dev block
      end
  end.

(** The rest of the search for the predecessor of the buffer [bp] on its hash
    chain, and the chain without [bp]. *)
Fixpoint hash_unlink_from (fuel : nat) (prev_ptr : option Z) (bp : Z) (next : option Z) : F unit :=
  match fuel with
  | O => λ _, NoFuel
  | S fuel' =>
      q ← notnull prev_ptr;
      b ← ld_buf q;
      match b_hash b with
      | None => mret ()
      | Some n =>
          if n =? bp then st_buf q (λ x, x <| b_hash := next |>)
          else hash_unlink_from fuel' (Some n) bp next
      end
  end.

(** A chain holds at most [NR_BUFS] buffers. *)
Definition chain_fuel : nat := Z.to_nat (NR_BUFS + 1).

Definition hash_unlink (bp : Z) : F unit :=
  b ← ld_buf bp;
  let h := Z.land (b_blocknr b) HASH_MASK in
  prev_ptr ← ld_hash h;
  if bool_decide (prev_ptr = Some bp) then st_hash h (b_hash b)
  else hash_unlink_from chain_fuel prev_ptr bp (b_hash b).

Definition hash_link (bp h : Z) : F unit :=
  q ← ld_hash h;
  st_buf bp (λ x, x <| b_hash := q |>);;
  st_hash h (Some bp).

(** The block in [bp] leaves the cache. *)
Definition evict (bp : Z) : F unit :=
  b ← ld_buf bp;
  if negb (b_dev b =? NO_DEV) then
    (if b_dirt b =? DIRTY then flushall (b_dev b) else mret ());;
    put_block2 bp
  else mret ().

(** The block just named is fetched. *)
Definition fill (bp dev only_search : Z) : F unit :=
  if negb (dev =? NO_DEV) then
    got ← get_block2 bp only_search;
    if got : bool then mret ()
    else if only_search =? PREFETCH then st_buf bp (λ x, x <| b_dev := NO_DEV |>)
    else if only_search =? NORMAL then rw_block bp READING
    else mret ()
  else mret ().

(** The part of [get_block] that takes the oldest free buffer. *)
Definition get_oldest (dev block only_search : Z) : F Z :=
  f ← gets front;
  match f with
  | None => panic "all buffers in use" NR_BUFS
  | Some bp =>
      rm_lru bp;;
      hash_unlink bp;;
      evict bp;;
      st_buf bp (λ x, x <| b_dev := dev |> <| b_blocknr := block |> <| b_count ::= λ n, s8 (n + 1) |>);;
      hash_link bp (Z.land block HASH_MASK);;
      fill bp dev only_search;;
      mret bp
  end.

Definition get_block (dev block only_search : Z) : F Z :=
  found ← (if negb (dev =? NO_DEV)
           then q ← ld_hash (Z.land block HASH_MASK); hash_find chain_fuel q dev block
           else mret None);
  match found with
  | Some bp =>
      b ← ld_buf bp;
      (if b_count b =? 0 then rm_lru bp else mret ());;
      st_buf bp (λ x, x <| b_count ::= λ n, s8 (n + 1) |>);;
      mret bp
  | None => get_oldest dev block only_search
  end.

(** [buf_pool] of fs/main.c. *)
Definition buf_pool : F unit :=
  modify (λ c, c <| bufs_in_use := 0 |> <| front := Some 0 |> <| rear := Some (NR_BUFS - 1) |>);;
  for_ 0 (Z.to_nat NR_BUFS) (λ p,
    st_buf p (λ x, x <| b_blocknr := NO_BLOCK |> <| b_dev := NO_DEV |> <| b_next := Some (p + 1) |> <| b_prev := Some (p - 1) |>));;
  st_buf 0 (λ x, x <| b_prev := None |>);;
  st_buf (NR_BUFS - 1) (λ x, x <| b_next := None |>);;
  for_ 0 (Z.to_nat NR_BUFS) (λ p, b ← ld_buf p; st_buf p (λ x, x <| b_hash := b_next b |>));;
  f ← gets front;
  st_hash 0 f.
End cache.
