(* ===== verification/FsChains.v ===== *)
(** * The chains and the sort of the buffer cache

    The chains that fs/cache.c threads through the buffers as sequences: the LRU
    chain, doubly linked, and the hash chains; and the Shell sort that orders
    the buffers of a scattered transfer. *)

From stdpp Require Import base gmap strings pretty numbers fin_maps functions list sorting.
From S2P Require Import Prelude FsCache.
Local Open Scope Z_scope.

(** ** Chains

    [cseg m q l r]: following the pointers [m] from [q] leads through [l] to
    [r]; a chain ends in [NIL_BUF]. *)
Fixpoint cseg (m : gmap Z (option Z)) (q : option Z) (l : list Z) (r : option Z) : Prop :=
  match l with
  | [] => q = r
  | p :: l' => q = Some p ∧ ∃ n, m !! p = Some n ∧ cseg m n l' r
  end.
Abbreviation chain m q l := (cseg m q l None).

Lemma chain_head m q l : chain m q l → q = head l.
Proof. destruct l; cbn; [done|]. by intros [-> _]. Qed.

Lemma cseg_insert_ne m q l r p v : p ∉ l → cseg m q l r → cseg (<[p := v]> m) q l r.
Proof.
  revert q. induction l as [|x l IH]; intros q Hp; [done|]. intros [-> (n & Hn & Hc)]. split; [done|].
  exists n. rewrite lookup_insert_ne by set_solver. split; [done|]. apply IH; [set_solver|done].
Qed.

Lemma cseg_app m q l1 l2 r : cseg m q (l1 ++ l2) r ↔ ∃ q', cseg m q l1 q' ∧ cseg m q' l2 r.
Proof.
  revert q. induction l1 as [|x l1 IH]; intros q; cbn; [naive_solver|]. split.
  - intros [-> (n & Hn & (q' & H1 & H2)%IH)]. eauto 10.
  - intros (q' & [-> (n & Hn & H1)] & H2). split; [done|]. exists n. split; [done|]. apply IH. eauto.
Qed.

Lemma cseg_last m q l x r r' : x ∉ l → cseg m q (l ++ [x]) r → cseg (<[x := r']> m) q (l ++ [x]) r'.
Proof.
  intros Hx (q' & H1 & [-> _])%cseg_app. apply cseg_app. exists (Some x). split; [by apply cseg_insert_ne|].
  split; [done|]. exists r'. by rewrite lookup_insert_eq.
Qed.

(** Taking [p] out of a chain: its predecessor, or the head, gets its successor. *)
Lemma chain_remove m q l1 p l2 : NoDup (l1 ++ p :: l2) → chain m q (l1 ++ p :: l2) →
  m !! p = Some (head l2) ∧
  match list.last l1 with
  | None => chain m (head l2) (l1 ++ l2)
  | Some x => chain (<[x := head l2]> m) q (l1 ++ l2)
  end.
Proof.
  intros Hnd (q' & H1 & [-> (n & Hn & H2)])%cseg_app. pose proof (chain_head _ _ _ H2) as ->. split; [done|].
  destruct (snoc_cases l1) as [->|(l & x & ->)]; [done|]. rewrite last_snoc.
  apply NoDup_app in Hnd as (Hl & Hd & Hr). apply cseg_app. exists (head l2). split.
  - eapply cseg_last; [|done]. apply NoDup_app in Hl. set_solver.
  - apply cseg_insert_ne; [|done]. set_solver.
Qed.

(** Appending [p] at the end of a chain. *)
Lemma chain_append m q l p : p ∉ l → NoDup l → chain m q l → is_Some (m !! p) →
  match list.last l with
  | None => chain (<[p := None]> m) (Some p) [p]
  | Some x => chain (<[x := Some p]> (<[p := None]> m)) q (l ++ [p])
  end.
Proof.
  intros Hp Hnd Hc _. destruct (snoc_cases l) as [->|(l' & x & ->)].
  { cbn. split; [done|]. exists None. by rewrite lookup_insert_eq. }
  rewrite last_snoc. apply cseg_app. exists (Some p). split.
  - eapply cseg_last; [apply NoDup_app in Hnd; set_solver|]. apply cseg_insert_ne; done.
  - cbn. split; [done|]. exists None. rewrite lookup_insert_ne, lookup_insert_eq; [done|set_solver].
Qed.

(** ** Views of the cache *)
Section coherence.
Context {D : Driver} {RD : Reliable D}.
Implicit Types s : cache.

(** A buffer without its links. *)
Definition erase (x : buf) : buf := x <| b_next := None |> <| b_prev := None |> <| b_hash := None |>.

Definition nxt s := b_next <$> bufs s.
Definition prv s := b_prev <$> bufs s.
Definition hsh s := b_hash <$> bufs s.
Definition info s := erase <$> bufs s.
Definition rest s := (buf_hash s, buf2s s, nr_buf2 s, buf2_idx s, wld s).

Lemma ld_buf_ok s p x : bufs s !! p = Some x → ld_buf p s = Ok s x.
Proof. intros H. unfold ld_buf. rewrite (bind_ok _ _ _ _ _ (gets_ok _ _)). by apply deref_ok. Qed.
Lemma st_buf_ok s p x f : bufs s !! p = Some x → st_buf p f s = Ok (s <| bufs ::= <[p := f x]> |>) ().
Proof. intros H. unfold st_buf. by rewrite (bind_ok _ _ _ _ _ (ld_buf_ok _ _ _ H)). Qed.
Lemma ld_buf2_ok s p x : buf2s s !! p = Some x → ld_buf2 p s = Ok s x.
Proof. intros H. unfold ld_buf2. rewrite (bind_ok _ _ _ _ _ (gets_ok _ _)). by apply deref_ok. Qed.
Lemma st_buf2_ok s p x f : buf2s s !! p = Some x → st_buf2 p f s = Ok (s <| buf2s ::= <[p := f x]> |>) ().
Proof. intros H. unfold st_buf2. by rewrite (bind_ok _ _ _ _ _ (ld_buf2_ok _ _ _ H)). Qed.
Lemma ld_hash_ok s h q : buf_hash s !! h = Some q → ld_hash h s = Ok s q.
Proof. intros H. unfold ld_hash. rewrite (bind_ok _ _ _ _ _ (gets_ok _ _)). by apply deref_ok. Qed.
Lemma st_hash_ok s h q q' : buf_hash s !! h = Some q → st_hash h q' s = Ok (s <| buf_hash ::= <[h := q']> |>) ().
Proof. intros H. unfold st_hash. by rewrite (bind_ok _ _ _ _ _ (ld_hash_ok _ _ _ H)). Qed.

(** An update that keeps a field keeps its view. *)
Lemma fmap_keep {A B} (g : A → B) (m : gmap Z A) p x y : m !! p = Some x → g y = g x → g <$> <[p := y]> m = g <$> m.
Proof. intros H E. rewrite fmap_insert, E. apply insert_id. by rewrite lookup_fmap, H. Qed.
End coherence.

Ltac fsolve :=
  cbn; repeat first [rewrite lookup_insert_eq | rewrite lookup_insert_ne by congruence]; try eassumption; eauto.
Ltac frun1 :=
  first
    [ rewrite bind_assoc | rewrite ret_bind
    | rewrite (bind_ok _ _ _ _ _ (gets_ok _ _)) | rewrite (bind_ok _ _ _ _ _ (modify_ok _ _))
    | erewrite bind_ok; [| first [eapply ld_buf_ok; fsolve; fail | eapply st_buf_ok; fsolve; fail
                                 | eapply ld_buf2_ok; fsolve; fail | eapply st_buf2_ok; fsolve; fail
                                 | eapply ld_hash_ok; fsolve; fail | eapply st_hash_ok; fsolve; fail
                                 | eapply notnull_ok; fsolve; fail]]
    | first [erewrite st_buf_ok; [| fsolve; fail] | erewrite ld_buf_ok; [| fsolve; fail] | rewrite modify_ok ] ].
Ltac frun := repeat frun1.

Section lru.
Context {D : Driver} {RD : Reliable D}.
Implicit Types s : cache.

Record lru_ok s (L : list Z) : Prop := {
  lo_nxt : chain (nxt s) (front s) L;
  lo_prv : chain (prv s) (rear s) (reverse L);
  lo_nd : NoDup L;
}.

(** What is left alone by changes of the LRU chain. *)
Definition lru_frame s s' : Prop := hsh s' = hsh s ∧ info s' = info s ∧ rest s' = rest s.

Lemma member_buf (m : gmap Z buf) (f : buf → option Z) p n : (f <$> m) !! p = Some n → ∃ x, m !! p = Some x ∧ f x = n.
Proof. rewrite lookup_fmap. intros (x & Hx & ->)%fmap_Some. eauto. Qed.

Lemma cseg_elem m q l r p : cseg m q l r → p ∈ l → is_Some (m !! p).
Proof.
  revert q. induction l as [|y l IH]; intros q; [set_solver|]. intros [-> (n & Hn & Hc)] [->|Hp]%elem_of_cons; [eauto|by eapply IH].
Qed.

Definition same_slots s s' : Prop := ∀ q, is_Some (bufs s' !! q) ↔ is_Some (bufs s !! q).

(** Storing a forward or backward pointer of the chain, or its end. *)
Lemma set_next s o v : (∀ q, o = Some q → is_Some (bufs s !! q)) →
  ∃ s', match o with
        | Some q => st_buf q (λ x, x <| b_next := v |>)
        | None => modify (λ c, c <| front := v |>)
        end s = Ok s' () ∧
    nxt s' = match o with Some q => <[q := v]> (nxt s) | None => nxt s end ∧
    front s' = match o with Some q => front s | None => v end ∧
    prv s' = prv s ∧ rear s' = rear s ∧ same_slots s s' ∧ lru_frame s s' ∧ bufs_in_use s' = bufs_in_use s.
Proof.
  intros Ho. destruct o as [q|].
  - destruct (Ho q eq_refl) as [x Hx]. frun. eexists. split; [reflexivity|]. cbn. unfold nxt, prv, lru_frame, hsh, info, same_slots. cbn.
    rewrite !fmap_insert. split_and!; try done; try (apply insert_id; by rewrite lookup_fmap, Hx).
    intros p. destruct (decide (p = q)) as [->|]; [rewrite lookup_insert_eq, Hx; split; eauto|by rewrite lookup_insert_ne].
  - eexists. split; [reflexivity|]. done.
Qed.

Lemma set_prev s o v : (∀ q, o = Some q → is_Some (bufs s !! q)) →
  ∃ s', match o with
        | Some q => st_buf q (λ x, x <| b_prev := v |>)
        | None => modify (λ c, c <| rear := v |>)
        end s = Ok s' () ∧
    prv s' = match o with Some q => <[q := v]> (prv s) | None => prv s end ∧
    rear s' = match o with Some q => rear s | None => v end ∧
    nxt s' = nxt s ∧ front s' = front s ∧ same_slots s s' ∧ lru_frame s s' ∧ bufs_in_use s' = bufs_in_use s.
Proof.
  intros Ho. destruct o as [q|].
  - destruct (Ho q eq_refl) as [x Hx]. frun. eexists. split; [reflexivity|]. cbn. unfold nxt, prv, lru_frame, hsh, info, same_slots. cbn.
    rewrite !fmap_insert. split_and!; try done; try (apply insert_id; by rewrite lookup_fmap, Hx).
    intros p. destruct (decide (p = q)) as [->|]; [rewrite lookup_insert_eq, Hx; split; eauto|by rewrite lookup_insert_ne].
  - eexists. split; [reflexivity|]. done.
Qed.

Lemma lru_frame_trans s s1 s2 : lru_frame s s1 → lru_frame s1 s2 → lru_frame s s2.
Proof. intros (A1 & A2 & A3) (B1 & B2 & B3). split_and!; congruence. Qed.

Lemma lru_member s L q : lru_ok s L → q ∈ L → is_Some (bufs s !! q).
Proof.
  intros [Hn _ _] Hq. destruct (cseg_elem _ _ _ _ _ Hn Hq) as (n & Hx). apply member_buf in Hx as (x & Hx & _). eauto.
Qed.

Lemma rm_lru_spec s l1 p l2 : lru_ok s (l1 ++ p :: l2) →
  ∃ s', rm_lru p s = Ok s' () ∧ lru_ok s' (l1 ++ l2) ∧ lru_frame s s' ∧ bufs_in_use s' = bufs_in_use s + 1.
Proof.
  intros HL. pose proof (λ q, lru_member _ _ q HL) as Hl. destruct HL as [Hn Hp Hnd].
  destruct (chain_remove _ _ _ _ _ Hnd Hn) as [Hpn Hn'].
  rewrite reverse_app, reverse_cons, <- app_assoc in Hp. cbn in Hp.
  assert (Hnd' : NoDup (reverse l2 ++ p :: reverse l1)).
  { rewrite <- (reverse_Permutation (_ ++ _)) in Hnd. by rewrite reverse_app, reverse_cons, <- app_assoc in Hnd. }
  destruct (chain_remove _ _ _ _ _ Hnd' Hp) as [Hpp Hp']. rewrite last_reverse in Hp'. rewrite head_reverse in Hpp, Hp'. rewrite <- reverse_app in Hp'.
  assert (Hnd2 : NoDup (l1 ++ l2)) by (rewrite <- Permutation_middle in Hnd; by inversion Hnd).
  destruct (Hl p) as (x & Hx); [set_solver|]. unfold nxt, prv in Hpn, Hpp. rewrite lookup_fmap, Hx in Hpn, Hpp. cbn in Hpn, Hpp. simplify_eq.
  unfold rm_lru. frun. cbn. rewrite Hpn, Hpp. set (s0 := upd bufs_in_use _ s).
  destruct (set_next s0 (list.last l1) (head l2)) as (s1 & Hr1 & A1 & A2 & A3 & A4 & A5 & A6 & A7).
  { intros q (l & ->)%last_Some. apply Hl. set_solver. }
  rewrite (bind_ok _ _ _ _ _ Hr1).
  destruct (set_prev s1 (head l2) (list.last l1)) as (s2 & -> & B1 & B2 & B3 & B4 & _ & B6 & B7).
  { intros q Hq. apply A5, Hl. destruct l2; simplify_eq/=. set_solver. }
  exists s2. split; [done|]. split; [|split; [by eapply lru_frame_trans|by rewrite B7, A7]].
  rewrite A3, A4 in *. split; [| |done].
  - rewrite B3, B4, A1, A2. by destruct (list.last l1).
  - rewrite B1, B2. by destruct (head l2).
Qed.

Lemma set_both s p n q : is_Some (bufs s !! p) →
  ∃ s', st_buf p (λ x, x <| b_prev := q |> <| b_next := n |>) s = Ok s' () ∧
    nxt s' = <[p := n]> (nxt s) ∧ prv s' = <[p := q]> (prv s) ∧ front s' = front s ∧ rear s' = rear s ∧
    same_slots s s' ∧ lru_frame s s' ∧ bufs_in_use s' = bufs_in_use s.
Proof.
  intros [x Hx]. frun. eexists. split; [reflexivity|]. cbn. unfold nxt, prv, lru_frame, hsh, info, same_slots. cbn.
  rewrite !fmap_insert. split_and!; try done; try (apply insert_id; by rewrite lookup_fmap, Hx).
  intros r. destruct (decide (r = p)) as [->|]; [rewrite lookup_insert_eq, Hx; split; eauto|by rewrite lookup_insert_ne].
Qed.

Lemma view_some {A} (f : buf → A) s p : is_Some (bufs s !! p) → is_Some ((f <$> bufs s) !! p).
Proof. intros [x Hx]. rewrite lookup_fmap, Hx. eauto. Qed.

Lemma lru_release_spec s L p ty : lru_ok s L → p ∉ L → is_Some (bufs s !! p) →
  ∃ s', lru_release p ty s = Ok s' () ∧ lru_ok s' (if TEST_BIT ty ONE_SHOT then p :: L else L ++ [p]) ∧
    lru_frame s s' ∧ bufs_in_use s' = bufs_in_use s.
Proof.
  intros HL Hp Hs. pose proof (λ q, lru_member _ _ q HL) as Hl. destruct HL as [Hn Hv Hnd].
  pose proof (chain_head _ _ _ Hn) as Hf. pose proof (chain_head _ _ _ Hv) as Hr. rewrite head_reverse in Hr.
  unfold lru_release. frun. destruct (TEST_BIT ty ONE_SHOT).
  - destruct (set_both s p (front s) None Hs) as (s1 & Hr1 & A1 & A2 & A3 & A4 & A5 & A6 & A7). rewrite (bind_ok _ _ _ _ _ Hr1).
    destruct (set_prev s1 (front s) (Some p)) as (s2 & Hr2 & B1 & B2 & B3 & B4 & B5 & B6 & B7).
    { intros q Hq. apply A5, Hl. rewrite Hf in Hq. destruct L; simplify_eq/=. set_solver. }
    rewrite (bind_ok _ _ _ _ _ Hr2). eexists. split; [reflexivity|]. split; [|split; [by eapply lru_frame_trans|by cbn; rewrite B7, A7]].
    set (s3 := s2 <| front := Some p |>). assert (E1 : nxt s3 = nxt s2 ∧ prv s3 = prv s2 ∧ rear s3 = rear s2 ∧ front s3 = Some p) by done.
    destruct E1 as (E1 & E2 & E3 & E4). split; rewrite ?E1, ?E2, ?E3, ?E4.
    + split; [done|]. rewrite B3, A1. exists (front s). rewrite lookup_insert_eq.
      split; [done|]. by apply cseg_insert_ne.
    + rewrite B1, B2, A2, A4, reverse_cons.
      pose proof (chain_append _ _ (reverse L) p ltac:(set_solver) ltac:(by rewrite reverse_Permutation) Hv (view_some _ _ _ Hs)) as HA.
      rewrite last_reverse, <- Hf in HA. destruct (front s) eqn:E; [done|]. destruct L; [done|]. done.
    + by constructor.
  - destruct (set_both s p None (rear s) Hs) as (s1 & Hr1 & A1 & A2 & A3 & A4 & A5 & A6 & A7). rewrite (bind_ok _ _ _ _ _ Hr1).
    destruct (set_next s1 (rear s) (Some p)) as (s2 & Hr2 & B1 & B2 & B3 & B4 & B5 & B6 & B7).
    { intros q Hq. apply A5, Hl. rewrite Hr in Hq. apply last_Some in Hq as (l & ->). set_solver. }
    rewrite (bind_ok _ _ _ _ _ Hr2). eexists. split; [reflexivity|]. split; [|split; [by eapply lru_frame_trans|by cbn; rewrite B7, A7]].
    set (s3 := s2 <| rear := Some p |>). assert (E1 : nxt s3 = nxt s2 ∧ prv s3 = prv s2 ∧ rear s3 = Some p ∧ front s3 = front s2) by done.
    destruct E1 as (E1 & E2 & E3 & E4). split; rewrite ?E1, ?E2, ?E3, ?E4.
    + rewrite B1, B2, A1, A3.
      pose proof (chain_append _ _ L p Hp Hnd Hn (view_some _ _ _ Hs)) as HA. rewrite <- Hr in HA.
      destruct (rear s) eqn:E; [done|]. destruct (snoc_cases L) as [->|(l & x & ->)]; [done|]. by rewrite last_snoc in Hr.
    + rewrite reverse_snoc, B3, A2. split; [done|]. exists (rear s). rewrite lookup_insert_eq.
      split; [done|]. by apply cseg_insert_ne; [set_solver|].
    + apply NoDup_app. split; [done|]. split; [set_solver|]. apply NoDup_singleton.
Qed.
End lru.

(** ** Hash chains *)
Section hash.
Context {D : Driver} {RD : Reliable D}.
Implicit Types s : cache.

Definition hash_of (block : Z) : Z := Z.land block HASH_MASK.

(** [H] are the hash chains; every buffer but [out] is on the chain of its
    block number. *)
Record hash_ok s (H : Z → list Z) (out : option Z) : Prop := {
  ho_chain h : 0 ≤ h < NR_BUF_HASH → ∃ q, buf_hash s !! h = Some q ∧ chain (hsh s) q (H h);
  ho_nd h : 0 ≤ h < NR_BUF_HASH → NoDup (H h);
  ho_on h p : 0 ≤ h < NR_BUF_HASH →
    p ∈ H h ↔ out ≠ Some p ∧ ∃ x, info s !! p = Some x ∧ hash_of (b_blocknr x) = h;
}.

Definition slots_ok s : Prop := ∀ p, is_Some (bufs s !! p) ↔ 0 ≤ p < NR_BUFS.

(** What is left alone by changes of the hash chains. *)
Definition rest2 s := (buf2s s, nr_buf2 s, buf2_idx s, wld s).
Definition hash_frame s s' : Prop :=
  nxt s' = nxt s ∧ prv s' = prv s ∧ front s' = front s ∧ rear s' = rear s ∧ info s' = info s ∧
  bufs_in_use s' = bufs_in_use s ∧ rest2 s' = rest2 s.

Lemma hash_range block : 0 ≤ hash_of block < NR_BUF_HASH.
Proof. unfold hash_of, HASH_MASK. change (NR_BUF_HASH - 1) with (Z.ones 7). rewrite Z.land_ones by done. by apply Z.mod_pos_bound. Qed.

Lemma info_inv s p x : info s !! p = Some x → ∃ y, bufs s !! p = Some y ∧ erase y = x.
Proof. unfold info. rewrite lookup_fmap. intros (y & Hy & ->)%fmap_Some. eauto. Qed.
Lemma info_lookup s p x : bufs s !! p = Some x → info s !! p = Some (erase x).
Proof. intros H. unfold info. by rewrite lookup_fmap, H. Qed.

Lemma chain_short s H out h : slots_ok s → hash_ok s H out → 0 ≤ h < NR_BUF_HASH → (length (H h) < chain_fuel)%nat.
Proof.
  intros Hs [_ Hn Ho] Hh. pose proof (NoDup_range_length 0 NR_BUFS (H h) (Hn h Hh)) as HL.
  assert (length (H h) ≤ Z.to_nat (NR_BUFS - 0))%nat; [|unfold chain_fuel, NR_BUFS in *; lia].
  apply HL. intros p (_ & x & (y & Hy & _)%info_inv & _)%Ho; [|done]. apply Hs. eauto.
Qed.

Lemma hash_find_spec s fuel q l dev block : chain (hsh s) q l → (length l < fuel)%nat →
  ∃ r, hash_find fuel q dev block s = Ok s r ∧
    match r with
    | Some p => p ∈ l ∧ ∃ x, bufs s !! p = Some x ∧ b_blocknr x = block ∧ b_dev x = dev
    | None => ∀ p x, p ∈ l → bufs s !! p = Some x → b_blocknr x = block → b_dev x ≠ dev
    end.
Proof.
  revert fuel q. induction l as [|p l IH]; intros fuel q Hc Hf; (destruct fuel as [|fuel]; [cbn in Hf; lia|]); cbn in Hc.
  - subst q. exists None. split; [done|]. set_solver.
  - destruct Hc as [-> (n & (x & Hx & <-)%member_buf & Hc)]. cbn [hash_find]. frun.
    destruct ((b_blocknr x =? block) && (b_dev x =? dev)) eqn:E.
    + apply andb_true_iff in E as [?%Z.eqb_eq ?%Z.eqb_eq]. exists (Some p). split; [done|]. split; [set_solver|]. eauto.
    + destruct (IH fuel (b_hash x) Hc) as (r & Hr & Hs); [cbn in Hf; lia|]. exists r. split; [done|].
      destruct r as [p'|]; [destruct Hs; split; [set_solver|done]|].
      intros p' y [->|Hp]%elem_of_cons Hy; [|by eapply Hs]. simplify_eq. intros H1 H2. apply andb_false_iff in E as [?%Z.eqb_neq|?%Z.eqb_neq]; done.
Qed.

Lemma set_hash s p v : is_Some (bufs s !! p) →
  ∃ s', st_buf p (λ x, x <| b_hash := v |>) s = Ok s' () ∧ hsh s' = <[p := v]> (hsh s) ∧ buf_hash s' = buf_hash s ∧ hash_frame s s'.
Proof.
  intros [x Hx]. frun. eexists. split; [reflexivity|]. unfold hash_frame, nxt, prv, hsh, info. cbn.
  rewrite !fmap_insert. split_and!; try done; try (apply insert_id; by rewrite lookup_fmap, Hx).
Qed.

Lemma unlink_from_spec s fuel q l1 a p l2 nx : chain (hsh s) q (l1 ++ a :: p :: l2) → NoDup (l1 ++ a :: p :: l2) → (length l1 < fuel)%nat →
  hash_unlink_from fuel q p nx s = st_buf a (λ x, x <| b_hash := nx |>) s.
Proof.
  revert fuel q. induction l1 as [|b l1 IH]; intros fuel q Hc Hnd Hf; (destruct fuel as [|fuel]; [cbn in Hf; lia|]); cbn in Hc.
  - destruct Hc as [-> (n & (x & Hx & <-)%member_buf & E & _)]. cbn [hash_unlink_from]. frun. rewrite E, Z.eqb_refl. by apply st_buf_ok.
  - destruct Hc as [-> (n & (x & Hx & <-)%member_buf & Hc)]. cbn [hash_unlink_from]. frun.
    pose proof (chain_head _ _ _ Hc) as E. destruct (l1 ++ a :: p :: l2) as [|c l] eqn:El; [by destruct l1|]. cbn in E. rewrite E in *.
    assert (c ≠ p).
    { destruct l1; cbn in El; simplify_eq; [cbn in Hnd; apply NoDup_cons_1_2, NoDup_cons_1_1 in Hnd; set_solver|].
      cbn in Hnd. apply NoDup_cons_1_2, NoDup_cons_1_1 in Hnd. set_solver. }
    rewrite (proj2 (Z.eqb_neq _ _)) by done. apply IH; [done| |cbn in Hf; lia]. cbn in Hnd. rewrite El in Hnd. by inversion Hnd.
Qed.

Lemma frame_slots s s' : info s' = info s → slots_ok s → slots_ok s'.
Proof.
  intros E Hs p. rewrite <- (Hs p). apply (f_equal (.!! p)) in E. unfold info in E. rewrite !lookup_fmap in E.
  destruct (bufs s' !! p), (bufs s !! p); simplify_eq/=; split; intros []; eauto.
Qed.

Lemma info_some s p : is_Some (info s !! p) ↔ is_Some (bufs s !! p).
Proof. unfold info. rewrite lookup_fmap. apply fmap_is_Some. Qed.

Lemma hash_unlink_spec s H p x : slots_ok s → hash_ok s H None → info s !! p = Some x →
  ∃ s' H', hash_unlink p s = Ok s' () ∧ hash_ok s' H' (Some p) ∧ hash_frame s s'.
Proof.
  intros Hsl HH Hp. pose proof (hash_range (b_blocknr x)) as Hh. set (h := hash_of (b_blocknr x)) in *.
  assert (Hin : p ∈ H h) by (apply (ho_on _ _ _ HH); eauto). pose proof (chain_short _ _ _ h Hsl HH Hh) as Hlen.
  destruct (info_inv _ _ _ Hp) as (y & Hy & <-). cbn in h.
  destruct (ho_chain _ _ _ HH h Hh) as (q & Hq & Hc). pose proof (ho_nd _ _ _ HH h Hh) as Hnd.
  apply list_elem_of_split in Hin as (l1 & l2 & El). rewrite El in Hc, Hnd, Hlen. destruct (chain_remove _ _ _ _ _ Hnd Hc) as [Hpn Hr].
  apply member_buf in Hpn as (y' & ? & Eh). simplify_eq.
  assert (∃ s', hash_unlink p s = Ok s' () ∧ (∃ q', buf_hash s' !! h = Some q' ∧ chain (hsh s') q' (l1 ++ l2)) ∧
    (∀ h', h' ≠ h → buf_hash s' !! h' = buf_hash s !! h') ∧ (hsh s' = hsh s ∨ ∃ a v, a ∈ l1 ∧ hsh s' = <[a := v]> (hsh s)) ∧ hash_frame s s')
    as (s' & Hrun & (q' & Hq' & Hc') & Hoth & Hhsh & Hfr).
  { unfold hash_unlink. frun. change (Z.land (b_blocknr y) HASH_MASK) with h. frun. destruct (snoc_cases l1) as [->|(l & a & ->)].
    - cbn in Hc. destruct Hc as [-> _]. rewrite bool_decide_true by done. erewrite st_hash_ok by done. eexists. split; [reflexivity|].
      split; [eexists; cbn; rewrite lookup_insert_eq; split; [done|by rewrite Eh]|]. split; [intros; cbn; by rewrite lookup_insert_ne|]. split; [by left|done].
    - rewrite last_snoc in Hr. rewrite bool_decide_false.
      2: { intros ->. apply chain_head in Hc. rewrite <- app_assoc in *. cbn in *. destruct l as [|b l]; cbn in Hc; simplify_eq.
           - by apply NoDup_cons_1_1 in Hnd as []; set_solver.
           - cbn in Hnd. apply NoDup_cons_1_1 in Hnd. set_solver. }
      rewrite <- app_assoc in Hc, Hnd, Hlen. cbn in Hc, Hnd, Hlen. rewrite (unlink_from_spec _ _ _ _ _ _ _ _ Hc Hnd) by (rewrite length_app in Hlen; cbn in Hlen; lia).
      destruct (set_hash s a (b_hash y)) as (s' & Hs & A1 & A2 & A3).
      { destruct (cseg_elem _ _ _ _ a Hc) as (n & (z & Hz & _)%member_buf); [set_solver|eauto]. }
      exists s'. split; [done|]. rewrite A2. split; [exists q; rewrite A1, Eh; split; [done|by rewrite <- app_assoc in *]|]. split; [done|]. split; [|done].
      right. exists a, (b_hash y). split; [set_solver|done]. }
  exists s', (λ h', if decide (h' = h) then l1 ++ l2 else H h'). split; [done|]. split; [|done].
  assert (Hin : info s' = info s) by apply Hfr. split.
  - intros h' Hh'. destruct (decide (h' = h)) as [->|Hne]; [eauto|]. rewrite (Hoth _ Hne). destruct (ho_chain _ _ _ HH h' Hh') as (q2 & Hq2 & Hc2).
    exists q2. split; [done|]. destruct Hhsh as [->|(a & v & Ha & ->)]; [done|]. apply cseg_insert_ne; [|done]. intros Hx.
    apply (ho_on _ _ _ HH) in Hx as (_ & z & Hz & <-); [|done]. assert (Ha' : a ∈ H h) by (rewrite El; set_solver).
    apply (ho_on _ _ _ HH) in Ha' as (_ & z' & Hz' & E'); [|done]. by simplify_eq.
  - intros h' Hh'. destruct (decide (h' = h)) as [->|Hne]; [|by apply (ho_nd _ _ _ HH)]. rewrite <- Permutation_middle in Hnd. by inversion Hnd.
  - intros h' a Hh'. rewrite Hin. destruct (decide (h' = h)) as [->|Hne].
    + rewrite <- Permutation_middle in Hnd. apply NoDup_cons in Hnd as [Hnp _]. split.
      * intros Ha. split; [intros [= ->]; done|]. eapply (ho_on _ _ _ HH); [done|]. rewrite El. set_solver.
      * intros (Ha & Hx). assert (Ha' : a ∈ H h) by (apply (ho_on _ _ _ HH); eauto). rewrite El in Ha'. set_solver.
    + rewrite (ho_on _ _ _ HH) by done. split; [|intros [_ ?]; split; [done|eauto]]. intros (_ & z & Hz & <-). split; [|eauto]. intros [= ->].
      rewrite Hp in Hz. by simplify_eq.
Qed.

Lemma hash_link_spec s H p x : hash_ok s H (Some p) → info s !! p = Some x →
  ∃ s' H', hash_link p (hash_of (b_blocknr x)) s = Ok s' () ∧ hash_ok s' H' None ∧ hash_frame s s'.
Proof.
  intros HH Hp. pose proof (hash_range (b_blocknr x)) as Hh. set (h := hash_of (b_blocknr x)) in *.
  destruct (ho_chain _ _ _ HH h Hh) as (q & Hq & Hc).
  assert (Hnot : ∀ h', 0 ≤ h' < NR_BUF_HASH → p ∉ H h') by (intros h' Hh'; rewrite (ho_on _ _ _ HH) by done; by intros []).
  unfold hash_link. frun. destruct (set_hash s p q) as (s1 & Hr1 & A1 & A2 & A3).
  { apply info_some. eauto. }
  rewrite (bind_ok _ _ _ _ _ Hr1). erewrite st_hash_ok by (by rewrite A2).
  eexists _, (λ h', if decide (h' = h) then p :: H h' else H h'). split; [reflexivity|]. split; [|done].
  assert (Hin : info s1 = info s) by apply A3. set (s2 := upd buf_hash _ s1).
  assert (E2 : hsh s2 = hsh s1 ∧ info s2 = info s1 ∧ buf_hash s2 = <[h := Some p]> (buf_hash s1)) by done. destruct E2 as (E1 & E2 & E3).
  split; rewrite ?E1, ?E2, ?E3.
  - intros h' Hh'. destruct (decide (h' = h)) as [->|Hne].
    + rewrite lookup_insert_eq. eexists. split; [reflexivity|]. split; [done|]. exists q. rewrite A1, lookup_insert_eq. split; [done|]. apply cseg_insert_ne; [by apply Hnot|done].
    + rewrite lookup_insert_ne by done. rewrite A2. destruct (ho_chain _ _ _ HH h' Hh') as (q2 & Hq2 & Hc2). exists q2. split; [done|].
      rewrite A1. apply cseg_insert_ne; [by apply Hnot|done].
  - intros h' Hh'. pose proof (ho_nd _ _ _ HH h' Hh'). destruct (decide (h' = h)) as [->|Hne]; [|done]. constructor; [by apply Hnot|done].
  - intros h' a Hh'. rewrite Hin. pose proof (ho_on _ _ _ HH h' a Hh') as Ho.
    destruct (decide (h' = h)) as [->|Hne].
    + rewrite elem_of_cons, Ho. split; [intros [->|(_ & ?)]; split; eauto|]. intros (_ & ?). destruct (decide (a = p)) as [->|]; [by left|right]. split; [congruence|done].
    + rewrite Ho. split; [intros (_ & ?); split; done|]. intros (_ & z & Hz & <-). split; [intros [= ->]; simplify_eq; done|eauto].
Qed.
End hash.

(** ** The Shell sort of [rw_scattered] *)
Section shell.
Context (key : Z → Z).
Implicit Types q l : list Z.

Definition key_le (a b : Z) : Prop := key a ≤ key b.
Instance key_le_trans : Transitive key_le.
Proof. intros a b c. unfold key_le. lia. Qed.

Lemma swap_split l1 x l2 y l3 i j : i = length l1 → j = (i + S (length l2))%nat →
  swap (l1 ++ x :: l2 ++ y :: l3) i j = l1 ++ y :: l2 ++ x :: l3.
Proof.
  intros -> ->. assert (E : l1 ++ x :: l2 ++ y :: l3 = (l1 ++ x :: l2) ++ y :: l3) by (by rewrite <- app_assoc).
  unfold swap. rewrite list_lookup_middle by done. rewrite E.
  rewrite (list_lookup_middle (l1 ++ x :: l2)) by (rewrite length_app; cbn; lia).
  rewrite insert_app_r_alt by (rewrite length_app; cbn; lia). replace (_ - _)%nat with 0%nat by (rewrite length_app; cbn; lia). cbn.
  rewrite <- app_assoc. cbn. rewrite insert_app_r_alt by lia. by rewrite Nat.sub_diag.
Qed.

Lemma swap_perm q i gap x y : (0 < gap)%nat → q !! i = Some x → q !! (i + gap)%nat = Some y → swap q i (i + gap) ≡ₚ q.
Proof.
  intros Hg Hi Hj. apply list_elem_of_split_length in Hi as (l1 & l & -> & ->).
  rewrite lookup_app_r in Hj by lia. replace (length l1 + gap - length l1)%nat with (S (gap - 1)) in Hj by lia. cbn in Hj.
  apply list_elem_of_split_length in Hj as (l2 & l3 & -> & Hlen). rewrite swap_split by lia. solve_Permutation.
Qed.

Lemma sift_perm fuel gap i q : (0 < gap)%nat → sift fuel key gap i q ≡ₚ q.
Proof.
  intros Hg. revert i q. induction fuel as [|fuel IH]; intros i q; cbn [sift]; [done|]. destruct (0 <=? i); [|done].
  destruct (q !! Z.to_nat i) as [x|] eqn:Hx; [|done]. destruct (q !! (Z.to_nat i + gap)%nat) as [y|] eqn:Hy; [|done].
  destruct (key x >? key y); [|done]. rewrite IH. by eapply swap_perm.
Qed.

Lemma gap_pass_perm n gap j q : (0 < gap)%nat → gap_pass n key gap j q ≡ₚ q.
Proof. intros Hg. revert j q. induction n as [|n IH]; intros j q; cbn [gap_pass]; [done|]. by rewrite IH, sift_perm. Qed.

(** With gap 1, [sift] inserts the element after a sorted prefix into it. *)
Lemma sift_insert fuel l y r : StronglySorted key_le l → (length l ≤ fuel)%nat →
  ∃ l', sift (S fuel) key 1 (Z.of_nat (length l) - 1) (l ++ y :: r) = l' ++ r ∧ StronglySorted key_le l' ∧ l' ≡ₚ l ++ [y].
Proof.
  revert fuel r. induction l as [|x l IH] using rev_ind; intros fuel r Hs Hf.
  { exists [y]. cbn. split; [done|]. split; [by repeat constructor|done]. }
  rewrite length_app in *. cbn [length] in *. destruct fuel as [|fuel]; [lia|].
  assert (Hs' : StronglySorted key_le l) by by apply StronglySorted_app_1_l in Hs.
  assert (Hx : ∀ z, z ∈ l → key z ≤ key x) by (intros z Hz; eapply (StronglySorted_app_1_elem_of key_le l [x]); set_solver).
  cbn [sift]. replace (0 <=? _) with true by (symmetry; apply Z.leb_le; lia). replace (Z.to_nat _) with (length l) by lia.
  rewrite <- app_assoc. cbn [app]. rewrite list_lookup_middle by done.
  replace (l ++ x :: y :: r) with ((l ++ [x]) ++ y :: r) by (by rewrite <- app_assoc). rewrite list_lookup_middle by (rewrite length_app; cbn; lia).
  destruct (key x >? key y) eqn:E; rewrite Z.gtb_ltb in E.
  - apply Z.ltb_lt in E. rewrite <- app_assoc. cbn [app]. rewrite (swap_split l x [] y r) by (cbn; lia). cbn [app].
    replace (Z.of_nat (length l + 1) - 1 - Z.of_nat 1) with (Z.of_nat (length l) - 1) by lia.
    destruct (IH fuel (x :: r) Hs' ltac:(lia)) as (l' & Hr & Hl & Hp). exists (l' ++ [x]).
    change (sift (S fuel) key 1 (Z.of_nat (length l) - 1) (l ++ y :: x :: r) = (l' ++ [x]) ++ r ∧ StronglySorted key_le (l' ++ [x]) ∧ l' ++ [x] ≡ₚ (l ++ [x]) ++ [y]).
    rewrite Hr, <- app_assoc. split; [done|]. split; [|rewrite Hp; solve_Permutation].
    apply StronglySorted_app_2; [|done|by repeat constructor]. intros a b Ha ->%list_elem_of_singleton. rewrite Hp in Ha. unfold key_le. 
    apply elem_of_app in Ha as [Ha| ->%list_elem_of_singleton]; [by apply Hx|lia].
  - apply Z.ltb_ge in E. exists (l ++ [x; y]). rewrite <- !app_assoc. split; [done|]. split; [|done].
    replace (l ++ [x; y]) with ((l ++ [x]) ++ [y]) by (by rewrite <- app_assoc). apply StronglySorted_app_2; [|done|by repeat constructor].
    intros a b Ha ->%list_elem_of_singleton. unfold key_le. apply elem_of_app in Ha as [Ha| ->%list_elem_of_singleton]; [specialize (Hx a Ha); lia|lia].
Qed.

Lemma gap_pass_sorts n j q l r : q = l ++ r → length l = j → length r = n → StronglySorted key_le l →
  StronglySorted key_le (gap_pass n key 1 j q).
Proof.
  revert j q l r. induction n as [|n IH]; intros j q l r -> <- Hr Hs; cbn [gap_pass].
  { destruct r; [|done]. by rewrite app_nil_r. }
  destruct r as [|y r]; [done|]. change (Z.of_nat 1) with 1. destruct (sift_insert (length l) l y r Hs) as (l' & -> & Hs' & Hp); [lia|].
  eapply IH; [done| | |done]; [rewrite Hp, length_app; cbn; lia|by injection Hr].
Qed.

(** The gaps are 1, 4, 13, ... *)
Fixpoint gap_of (k : nat) : nat := match k with O => 1%nat | S k => (3 * gap_of k + 1)%nat end.

Lemma gap_of_div k : (gap_of (S k) / 3 = gap_of k)%nat.
Proof. cbn [gap_of]. rewrite Nat.mul_comm, Nat.div_add_l by done. rewrite Nat.div_small; lia. Qed.
Lemma gap_of_large k : (k < gap_of k)%nat.
Proof. induction k; cbn [gap_of]; lia. Qed.

Lemma first_gap_of fuel k n : ∃ k', first_gap (S fuel) (gap_of k) n = gap_of (S k').
Proof.
  revert k. induction fuel as [|fuel IH]; intros k.
  - exists k. cbn [first_gap gap_of]. by destruct (_ <=? _)%nat.
  - change (first_gap (S (S fuel)) (gap_of k) n) with (if (gap_of (S k) <=? n)%nat then first_gap (S fuel) (gap_of (S k)) n else gap_of (S k)).
    destruct (_ <=? _)%nat; [apply IH|eauto].
Qed.

Lemma gaps_from_sorts fuel k q : (k < fuel)%nat → StronglySorted key_le (gaps_from fuel key (gap_of (S k)) q) ∧ gaps_from fuel key (gap_of (S k)) q ≡ₚ q.
Proof.
  revert k q. induction fuel as [|fuel IH]; intros k q Hf; [lia|]. cbn [gaps_from].
  replace (gap_of (S k) =? 1)%nat with false by (symmetry; apply Nat.eqb_neq; pose proof (gap_of_large (S k)); lia).
  rewrite gap_of_div. pose proof (gap_of_large k). set (q' := gap_pass _ _ _ _ _). assert (Hq : q' ≡ₚ q) by (apply gap_pass_perm; lia).
  destruct k as [|k]; [|destruct (IH k q' ltac:(lia)) as [??]; split; [done|by etrans]].
  destruct fuel as [|fuel]; cbn; (split; [|done]); unfold q'; cbn [gap_of]; (destruct q as [|x q]; [cbn; constructor|]);
    (eapply (gap_pass_sorts _ _ _ [x] q); [done|done|cbn; lia|by repeat constructor]).
Qed.

Lemma shell_gap q : ∃ k, (k < gap_of (S k))%nat ∧ shell_sort key q = gaps_from (gap_of (S k)) key (gap_of (S k)) q.
Proof.
  unfold shell_sort. destruct (first_gap_of (length q) 0 (length q)) as [k Hk]. change (gap_of 0) with 1%nat in Hk. rewrite Hk.
  exists k. split; [|done]. pose proof (gap_of_large (S k)). lia.
Qed.

Lemma shell_sort_perm q : shell_sort key q ≡ₚ q.
Proof. destruct (shell_gap q) as (k & Hk & ->). by apply gaps_from_sorts. Qed.

(** C37: The Shell sort of [rw_scattered] leaves the buffers sorted by block number
    and neither loses nor duplicates one, whatever the number of buffers. *)
Theorem shell_sort_sorts q : StronglySorted key_le (shell_sort key q) ∧ shell_sort key q ≡ₚ q.
Proof. destruct (shell_gap q) as (k & Hk & ->). by apply gaps_from_sorts. Qed.
End shell.

