(* ===== verification/FsCoherence.v ===== *)
(** * The buffer cache keeps its blocks

    What the buffers, the second level cache and the devices hold together, and
    that every operation of fs/cache.c and fs/cache2.c keeps it: writing blocks
    back, pushing one out into the second level cache, filling a buffer, and
    then [get_block] and [put_block] as a whole. *)

From stdpp Require Import base gmap strings pretty numbers fin_maps functions list sorting.
From S2P Require Import Prelude FsCache FsChains.
Local Open Scope Z_scope.

(** ** What the devices and the two caches hold *)
Section contents.
Context {D : Driver} {RD : Reliable D}.
Implicit Types s : cache.
Implicit Types C : Z → Z → block_data.

(** A block the cache may be asked for: of a device the drivers serve, below the
    offset where byte positions leave 31 bits, and not of the RAM disk while
    that is the second level cache. *)
Definition valid (nr d b : Z) : Prop :=
  d ≠ NO_DEV ∧ (d = DEV_RAM → nr = 0) ∧ 0 ≤ b < 2 ^ 21 ∧ covers d (b * BLOCK_SIZE).

(** The slots of the second level cache, newest first. *)
Definition slots2 (idx nr : Z) : list Z := reverse (seqZ 0 idx) ++ reverse (seqZ idx (nr - idx)).

Definition match2 (B2 : gmap Z buf2) (d b i : Z) : Prop :=
  match B2 !! i with Some x => b2_blocknr x = b ∧ b2_dev x = d | None => False end.

(** [i] is the first slot of [l] that holds block [b] of device [d]. *)
Definition first2 (B2 : gmap Z buf2) (l : list Z) (d b i : Z) : Prop :=
  ∃ l1 l2, l = l1 ++ i :: l2 ∧ match2 B2 d b i ∧ ∀ j, j ∈ l1 → ¬ match2 B2 d b j.

Definition cached (I : gmap Z buf) (d b : Z) : Prop := ∃ p x, I !! p = Some x ∧ b_dev x = d ∧ b_blocknr x = b.

(** The caches [I] (buffers) and [B2] (slots) and the devices agree that block
    [b] of device [d] holds [C d b]. *)
Record coh (nr idx : Z) (I : gmap Z buf) (B2 : gmap Z buf2) (w : world) C : Prop := {
  c_valid p x : I !! p = Some x → b_dev x ≠ NO_DEV → valid nr (b_dev x) (b_blocknr x);
  c_data p x : I !! p = Some x → b_dev x ≠ NO_DEV → b_data x = C (b_dev x) (b_blocknr x);
  c_uniq p x p' x' : I !! p = Some x → I !! p' = Some x' → b_dev x ≠ NO_DEV →
    b_dev x = b_dev x' → b_blocknr x = b_blocknr x' → p = p';
  c_disk d b : valid nr d b → (∀ p x, I !! p = Some x → b_dev x = d → b_blocknr x = b → b_dirt x ≠ DIRTY) →
    platter w d (b * BLOCK_SIZE) = C d b;
  c_two d b i : nr ≠ 0 → valid nr d b → first2 B2 (slots2 idx nr) d b i → ¬ cached I d b →
    platter w DEV_RAM (i * BLOCK_SIZE) = C d b;
}.

(** The second level cache's own table. *)
Record two_ok (nr idx : Z) (B2 : gmap Z buf2) : Prop := {
  t_nr : 0 ≤ nr ≤ MAX_BUF2;
  t_idx : nr ≠ 0 → 0 ≤ idx < nr;
  t_slots i : is_Some (B2 !! i) ↔ 0 ≤ i < MAX_BUF2;
  t_ram i : 0 ≤ i < nr → covers DEV_RAM (i * BLOCK_SIZE);
}.

Lemma pos_s32 b : 0 ≤ b < 2 ^ 21 → s32 (b * BLOCK_SIZE) = b * BLOCK_SIZE.
Proof. intros Hb. unfold s32, BLOCK_SIZE. rewrite Z.mod_small; lia. Qed.

Lemma pos_u32 b : 0 ≤ b < 2 ^ 21 → u32 (b * BLOCK_SIZE) = b * BLOCK_SIZE.
Proof. intros Hb. unfold u32, BLOCK_SIZE. rewrite Z.mod_small; lia. Qed.

Lemma valid_pos nr d b : valid nr d b → u32 (b * BLOCK_SIZE) = b * BLOCK_SIZE ∧ covers d (b * BLOCK_SIZE).
Proof. intros (_ & _ & Hb & Hc). split; [by apply pos_u32|done]. Qed.

(** ** Writing blocks back *)

Definition clean (x : buf) : buf := x <| b_dirt := CLEAN |>.
Fixpoint clean_all (bs : list Z) (I : gmap Z buf) : gmap Z buf :=
  match bs with [] => I | p :: bs => clean_all bs (alter clean p I) end.

Lemma clean_all_lookup bs I p : clean_all bs I !! p = (if decide (p ∈ bs) then clean else id) <$> I !! p.
Proof.
  revert I. induction bs as [|q bs IH]; intros I; cbn; [rewrite decide_False by set_solver; by rewrite option_fmap_id|].
  rewrite IH. destruct (decide (p = q)) as [->|Hne].
  - rewrite lookup_alter_eq. rewrite (decide_True (P := q ∈ q :: bs)) by set_solver. by destruct (decide (q ∈ bs)), (I !! q).
  - rewrite lookup_alter_ne by done. f_equiv. destruct (decide (p ∈ bs)), (decide (p ∈ q :: bs)); done || set_solver.
Qed.

(** Writing clean or dirty buffers of one device to their places keeps the
    agreement and leaves them clean. *)
Lemma coh_write nr idx I B2 w w' C dev bs : coh nr idx I B2 w C → dev ≠ NO_DEV →
  (∀ p, p ∈ bs → ∃ x, I !! p = Some x ∧ b_dev x = dev ∧ platter w' dev (b_blocknr x * BLOCK_SIZE) = b_data x) →
  (∀ d pos, d ≠ dev ∨ (∀ p x, p ∈ bs → I !! p = Some x → pos ≠ b_blocknr x * BLOCK_SIZE) → platter w' d pos = platter w d pos) →
  coh nr idx (clean_all bs I) B2 w' C.
Proof.
  intros [Hv Hd Hu Hk Ht] Hdev Hin Hout.
  assert (HI : ∀ p x', clean_all bs I !! p = Some x' → ∃ x, I !! p = Some x ∧ b_dev x = b_dev x' ∧ b_blocknr x = b_blocknr x' ∧ b_data x = b_data x' ∧
    (p ∉ bs → b_dirt x = b_dirt x')).
  { intros p x'. rewrite clean_all_lookup. intros (x & -> & Hx)%fmap_Some. exists x. case_decide; by simplify_eq/=. }
  split.
  - intros p x' (x & Hx & <- & <- & _)%HI. by apply Hv with p.
  - intros p x' (x & Hx & <- & <- & <- & _)%HI. by apply Hd with p.
  - intros p x' q y' (x & Hx & <- & <- & _)%HI (y & Hy & <- & <- & _)%HI. by apply Hu.
  - intros d b Hval Hcl. destruct (decide (d = dev)) as [->|Hne].
    2: { rewrite Hout by (by left). apply Hk; [done|]. intros p x Hx Hxd Hxb Hdirt. apply (Hcl p x); try done. rewrite clean_all_lookup, Hx.
         case_decide as Hp; [|done]. destruct (Hin p Hp) as (y & Hy & ? & _). by simplify_eq. }
    destruct (decide (Exists (λ p, blocknr_of I p = b) bs)) as [(p & Hp & Hb)%Exists_exists|Hno].
    + destruct (Hin p Hp) as (x & Hx & Hxd & Hpl). unfold blocknr_of in Hb. rewrite Hx in Hb. cbn in Hb. subst b. rewrite Hpl, <- Hxd. apply Hd with p; congruence.
    + assert (Hnb : ∀ p x, p ∈ bs → I !! p = Some x → b_blocknr x ≠ b).
      { intros p x Hp Hx E. apply Hno, Exists_exists. exists p. split; [done|]. unfold blocknr_of. by rewrite Hx. }
      rewrite Hout. { apply Hk; [done|]. intros p x Hx Hxd Hxb Hdirt. apply (Hcl p x); try done. rewrite clean_all_lookup, Hx.
        case_decide as Hp; [|done]. by destruct (Hnb p x). }
      right. intros p x Hp Hx E. apply (Hnb p x); try done. unfold BLOCK_SIZE in E. lia.
  - intros d b i Hnr Hval Hf Hnc. rewrite Hout; [eapply Ht; try done|].
    + intros (p & x & Hx & Hxd & Hxb). apply Hnc. exists p. rewrite clean_all_lookup, Hx. eexists. split; [reflexivity|]. by case_decide.
    + destruct bs as [|q bs]; [right; set_solver|]. left. intros <-. destruct (Hin q) as (x & Hx & Hxd & _); [set_solver|].
      destruct (Hv q x) as (_ & Hr & _); [done|congruence|]. auto.
Qed.

(** What is left alone by transfers: the links and the second level cache. *)
Definition links s := (nxt s, prv s, hsh s, front s, rear s, buf_hash s, bufs_in_use s).
Definition two s := (buf2s s, nr_buf2 s, buf2_idx s).

Lemma set_info s p x f : bufs s !! p = Some x → b_next (f x) = b_next x → b_prev (f x) = b_prev x → b_hash (f x) = b_hash x →
  ∃ s', st_buf p f s = Ok s' () ∧ links s' = links s ∧ two s' = two s ∧ wld s' = wld s ∧ info s' = <[p := erase (f x)]> (info s) ∧
    bufs s' !! p = Some (f x).
Proof.
  intros Hx E1 E2 E3. frun. eexists. split; [reflexivity|]. unfold links, two, nxt, prv, hsh, info. cbn. rewrite !fmap_insert, E1, E2, E3.
  rewrite lookup_insert_eq. split_and!; try done. by rewrite !insert_id by (by rewrite lookup_fmap, Hx).
Qed.

Lemma info_upd I p (f : buf → buf) (m : gmap Z buf) x : I = erase <$> m → m !! p = Some x → erase (f x) = f (erase x) → <[p := erase (f x)]> I = alter f p I.
Proof.
  intros -> Hx E. apply map_eq. intros q. destruct (decide (q = p)) as [->|Hne].
  - by rewrite lookup_insert_eq, lookup_alter_eq, lookup_fmap, Hx, E.
  - by rewrite lookup_insert_ne, lookup_alter_ne.
Qed.

Lemma harvest_write dev bs : ∀ iov s, length iov = length bs → Forall (λ r, io_nbytes r = 0) iov → (∀ p, p ∈ bs → is_Some (bufs s !! p)) →
  ∃ s', harvest dev WRITING bs iov s = Ok s' () ∧ links s' = links s ∧ two s' = two s ∧ wld s' = wld s ∧ info s' = clean_all bs (info s).
Proof.
  induction bs as [|p bs IH]; intros [|r iov] s Hl Hn Hs; try done; [eexists; done|].
  destruct (Hs p) as [x Hx]; [set_solver|]. apply Forall_cons in Hn as [Hn0 Hn]. cbn [harvest]. change (WRITING =? READING) with false. cbn. rewrite Hn0. cbn. frun.
  destruct (set_info s p x clean Hx) as (s1 & Hr & A1 & A2 & A3 & A4 & A5); try done. 
  destruct (IH iov s1) as (s2 & Hr2 & B1 & B2 & B3 & B4); [by injection Hl|done| |].
  { intros q Hq. apply info_some. rewrite A4. destruct (decide (q = p)) as [->|]; [rewrite lookup_insert_eq; eauto|]. rewrite lookup_insert_ne by done. apply info_some, Hs. set_solver. }
  erewrite st_buf_ok in Hr by done. injection Hr as <-.
  exists s2. split; [exact Hr2|]. split_and!; try congruence. rewrite B4, A4. f_equal. by eapply info_upd.
Qed.

Lemma mapM_requests (m : gmap Z buf) bs : (∀ p, p ∈ bs → is_Some (m !! p)) →
  ∃ iov, mapM (mk_request m WRITING) bs = Some iov ∧ length iov = length bs ∧
    Forall2 (λ p r, ∃ x, m !! p = Some x ∧ r = mk_iorequest (s32 (b_blocknr x * BLOCK_SIZE)) (b_data x) BLOCK_SIZE DEV_WRITE) bs iov.
Proof.
  intros Hs. assert (∃ iov, mapM (mk_request m WRITING) bs = Some iov) as [iov Hm].
  { apply mapM_is_Some_2, Forall_forall. intros p Hp. destruct (Hs p Hp) as [x Hx]. unfold compose, mk_request. rewrite Hx. cbn. eauto. }
  exists iov. split; [done|]. apply mapM_Some in Hm. split; [symmetry; by eapply Forall2_length|].
  eapply Forall2_impl; [done|]. intros p r. unfold mk_request. destruct (m !! p) as [x|]; cbn; [|done]. intros [= <-]. eauto.
Qed.

(** One vector of writes. *)
Lemma io_batch_spec s dev bs C : coh (nr_buf2 s) (buf2_idx s) (info s) (buf2s s) (wld s) C → dev ≠ NO_DEV → NoDup bs →
  (∀ p, p ∈ bs → ∃ x, info s !! p = Some x ∧ b_dev x = dev) →
  ∃ s', io_batch dev WRITING bs s = Ok s' () ∧ links s' = links s ∧ two s' = two s ∧ info s' = clean_all bs (info s) ∧
    coh (nr_buf2 s) (buf2_idx s) (info s') (buf2s s) (wld s') C.
Proof.
  intros Hc Hdev Hnd Hbs. assert (Hsl : ∀ p, p ∈ bs → is_Some (bufs s !! p)) by (intros p Hp; destruct (Hbs p Hp) as (x & Hx & _); apply info_some; eauto).
  destruct (mapM_requests (bufs s) bs Hsl) as (iov & Hm & Hlen & Hall). rewrite Forall2_lookup in Hall.
  assert (Hpos : ∀ i p x, bs !! i = Some p → bufs s !! p = Some x → ∃ r, iov !! i = Some r ∧
    r = mk_iorequest (b_blocknr x * BLOCK_SIZE) (b_data x) BLOCK_SIZE DEV_WRITE ∧ covers dev (b_blocknr x * BLOCK_SIZE)).
  { intros i p x Hi Hx. specialize (Hall i). rewrite Hi in Hall. inversion Hall as [? r (x' & Hx' & ->) Er|]; simplify_eq. eexists. split; [done|].
    destruct (Hbs p) as (y & Hy & Hd); [by eapply list_elem_of_lookup_2|]. rewrite (info_lookup _ _ _ Hx) in Hy. simplify_eq.
    destruct (c_valid _ _ _ _ _ _ Hc p _ (info_lookup _ _ _ Hx) Hdev) as (_ & _ & Hp%pos_s32 & Hcv). cbn in Hp, Hcv. by rewrite Hp. }
  assert (Hinv : ∀ r, r ∈ iov → ∃ i p x, bs !! i = Some p ∧ iov !! i = Some r ∧ bufs s !! p = Some x).
  { intros r (i & Hi)%list_elem_of_lookup_1. specialize (Hall i). rewrite Hi in Hall. inversion Hall as [p ? (x & Hx & _)|]; simplify_eq. eauto 10. }
  destruct (scattered_law dev iov (wld s)) as (w' & iov' & Hsc & Hl' & Hz & Hin & Hout).
  { apply Forall_forall. intros r Hr. destruct (Hinv r Hr) as (i & p & x & Hi & Hri & Hx). destruct (Hpos i p x Hi Hx) as (r' & ? & -> & ?). by simplify_eq. }
  { apply NoDup_alt. intros i j pos. rewrite !list_lookup_fmap. intros (r & Hr & ->)%fmap_Some (r' & Hr' & E)%fmap_Some.
    pose proof (Hall i) as Hi. pose proof (Hall j) as Hj. rewrite Hr in Hi. rewrite Hr' in Hj.
    inversion Hi as [p ? (x & Hx & _) Hpi|]; inversion Hj as [p' ? (x' & Hx' & _) Hpj|]; simplify_eq.
    destruct (Hpos i p x) as (r1 & ? & -> & _); [done..|]. destruct (Hpos j p' x') as (r2 & ? & -> & _); [done..|]. simplify_eq/=.
    assert (p = p') as <-; [|by eapply NoDup_lookup]. destruct (Hbs p) as (y & Hy & Hd); [by eapply list_elem_of_lookup_2|].
    destruct (Hbs p') as (y' & Hy' & Hd'); [by eapply list_elem_of_lookup_2|].
    eapply (c_uniq _ _ _ _ _ _ Hc); [done..|congruence|congruence|]. rewrite (info_lookup _ _ _ Hx) in Hy. rewrite (info_lookup _ _ _ Hx') in Hy'. simplify_eq.
    cbn. unfold BLOCK_SIZE in E. lia. }
  unfold io_batch. frun. rewrite Hm. cbn [deref]. frun. rewrite Hsc. cbn. frun. set (s1 := upd wld _ s).
  destruct (harvest_write dev bs iov' s1) as (s2 & Hr & A1 & A2 & A3 & A4); [congruence|done|done|].
  exists s2. split; [done|]. split; [done|]. split; [done|]. split; [done|]. rewrite A3, A4. eapply coh_write; [done|done| |].
  - intros p Hp. destruct (Hbs p Hp) as (x & Hx & Hd). exists x. split; [done|]. split; [done|]. apply list_elem_of_lookup_1 in Hp as (i & Hi).
    destruct (info_inv _ _ _ Hx) as (y & Hy & <-). destruct (Hpos i p y Hi Hy) as (r & Hr' & -> & _). exact (Hin _ (list_elem_of_lookup_2 _ _ _ Hr')).
  - intros d pos Hd. apply Hout. destruct Hd as [Hd|Hd]; [by left|right]. intros (r & -> & Hr')%list_elem_of_fmap.
    destruct (Hinv r Hr') as (i & p & x & Hi & Hri & Hx). destruct (Hpos i p x Hi Hx) as (r' & ? & -> & _). simplify_eq.
    apply (Hd p (erase x)); [by eapply list_elem_of_lookup_2|by apply info_lookup|done].
Qed.

Lemma clean_all_app bs cs I : clean_all (bs ++ cs) I = clean_all cs (clean_all bs I).
Proof. revert I. induction bs as [|p bs IH]; intros I; [done|]. cbn. apply IH. Qed.

Lemma io_batches_spec fuel : ∀ s dev bs C, (length bs < fuel)%nat →
  coh (nr_buf2 s) (buf2_idx s) (info s) (buf2s s) (wld s) C → dev ≠ NO_DEV → NoDup bs →
  (∀ p, p ∈ bs → ∃ x, info s !! p = Some x ∧ b_dev x = dev) →
  ∃ s', io_batches fuel dev WRITING bs s = Ok s' () ∧ links s' = links s ∧ two s' = two s ∧ info s' = clean_all bs (info s) ∧
    coh (nr_buf2 s) (buf2_idx s) (info s') (buf2s s) (wld s') C.
Proof.
  induction fuel as [|fuel IH]; intros s dev bs C Hf Hc Hdev Hnd Hbs; [lia|]. destruct bs as [|p bs]; [eexists; done|].
  cbn [io_batches]. set (n := Z.to_nat NR_IOREQS). set (l := p :: bs) in *. assert (Hn : (0 < n)%nat) by (unfold n, NR_IOREQS; cbn; lia).
  pose proof (take_drop n l) as El. rewrite <- El in Hnd. apply NoDup_app in Hnd as (Hnd1 & Hdj & Hnd2).
  destruct (io_batch_spec s dev (take n l) C) as (s1 & Hr1 & A1 & A2 & A3 & A4); [done|done|done| |].
  { intros q Hq. apply Hbs. rewrite <- El. set_solver. }
  rewrite (bind_ok _ _ _ _ _ Hr1). pose proof A2 as [= E1 E2 E3].
  destruct (IH s1 dev (drop n l) C) as (s2 & Hr2 & B1 & B2 & B3 & B4); [rewrite length_drop; cbn in *; lia|congruence|done|done| |].
  { intros q Hq. destruct (Hbs q) as (x & Hx & Hd); [rewrite <- El; set_solver|]. rewrite A3, clean_all_lookup, Hx, decide_False by set_solver. eauto. }
  exists s2. split; [done|]. split; [congruence|]. split; [congruence|]. split; [|congruence]. rewrite B3, A3, <- clean_all_app. by rewrite El.
Qed.

(** [flushall] writes the dirty blocks of a device back: afterwards none is dirty. *)
Lemma flushall_spec s dev C : coh (nr_buf2 s) (buf2_idx s) (info s) (buf2s s) (wld s) C → dev ≠ NO_DEV → slots_ok s →
  ∃ s', flushall dev s = Ok s' () ∧ links s' = links s ∧ two s' = two s ∧
    (∀ p, info s' !! p = (λ x, if b_dev x =? dev then if b_dirt x =? DIRTY then clean x else x else x) <$> info s !! p) ∧
    coh (nr_buf2 s) (buf2_idx s) (info s') (buf2s s) (wld s') C.
Proof.
  intros Hc Hdev Hsl. unfold flushall. frun. set (q := filter _ _). unfold rw_scattered. frun.
  set (q' := shell_sort _ q). assert (Hq : q' ≡ₚ q) by apply shell_sort_perm.
  assert (Hmem : ∀ p, p ∈ q' ↔ ∃ x, info s !! p = Some x ∧ b_dev x = dev ∧ b_dirt x = DIRTY).
  { intros p. rewrite Hq. unfold q. rewrite list_elem_of_filter, elem_of_seqZ. unfold is_dirty, info. rewrite lookup_fmap. split.
    - intros [H1 H2]. destruct (bufs s !! p) as [x|]; [|done]. apply andb_true_iff in H1 as [?%Z.eqb_eq ?%Z.eqb_eq]. exists (erase x). done.
    - intros (y & (x & Hx & ->)%fmap_Some & <- & Hd). rewrite Hx. cbn in Hd. split; [by rewrite Hd, !Z.eqb_refl|]. rewrite Z.add_0_l. apply Hsl. eauto. }
  destruct (io_batches_spec (S (length q')) s dev q' C) as (s' & Hr & A1 & A2 & A3 & A4); [lia|done|done| | |].
  { rewrite Hq. apply NoDup_filter, NoDup_seqZ. }
  { intros p (x & Hx & Hd & _)%Hmem. eauto. }
  exists s'. split; [done|]. split; [done|]. split; [done|]. split; [|done]. intros p. rewrite A3, clean_all_lookup.
  destruct (info s !! p) as [x|] eqn:Hx; [|by case_decide]. cbn. f_equal. case_decide as Hp.
  - apply Hmem in Hp as (y & Hy & Hd & Ht). simplify_eq. by rewrite Ht, !Z.eqb_refl.
  - destruct (Z.eqb_spec (b_dev x) dev); [|done]. destruct (Z.eqb_spec (b_dirt x) DIRTY); [|done]. destruct Hp. apply Hmem. eauto.
Qed.
End contents.

(** ** The second level cache *)
Section second.
Context {D : Driver} {RD : Reliable D}.
Implicit Types s : cache.
Implicit Types C : Z → Z → block_data.

Definition next_idx (idx nr : Z) : Z := if idx + 1 =? nr then 0 else idx + 1.

Lemma reverse_seqZ_S a n : 0 < n → reverse (seqZ a n) = (a + n - 1) :: reverse (seqZ a (n - 1)).
Proof. intros Hn. replace n with (n - 1 + 1) at 1 by lia. rewrite seqZ_app by lia. rewrite reverse_app. replace (a + (n - 1)) with (a + n - 1) by lia. done. Qed.

(** Storing into a slot turns it from the oldest into the newest. *)
Lemma slots2_next idx nr : 0 ≤ idx < nr → ∃ l, slots2 idx nr = l ++ [idx] ∧ slots2 (next_idx idx nr) nr = idx :: l ∧ idx ∉ l.
Proof.
  intros Hi. exists (reverse (seqZ 0 idx) ++ reverse (seqZ (idx + 1) (nr - idx - 1))). unfold slots2.
  split; [|split].
  - rewrite <- app_assoc. f_equal. rewrite (seqZ_cons idx) by lia. by rewrite reverse_cons.
  - unfold next_idx. destruct (Z.eqb_spec (idx + 1) nr) as [<-|Hne].
    + rewrite Z.sub_0_r, (reverse_seqZ_S 0 (idx + 1)) by lia. cbn. replace (0 + (idx + 1) - 1) with idx by lia. replace (idx + 1 - 1) with idx by lia.
      replace (idx + 1 - idx - 1) with 0 by lia. cbn. by rewrite app_nil_r.
    + rewrite (reverse_seqZ_S 0 (idx + 1)) by lia. cbn. f_equal; [lia|]. replace (idx + 1 - 1) with idx by lia. f_equal. f_equal. f_equal. lia.
  - rewrite elem_of_app, !elem_of_reverse, !elem_of_seqZ. lia.
Qed.

Lemma slots2_range idx nr i : 0 ≤ idx < nr → i ∈ slots2 idx nr → 0 ≤ i < nr.
Proof. intros Hi. unfold slots2. rewrite elem_of_app, !elem_of_reverse, !elem_of_seqZ. lia. Qed.

Definition found2 (B2 : gmap Z buf2) (l : list Z) (d b : Z) (r : option Z) : Prop :=
  match r with Some i => first2 B2 l d b i | None => True end.

Lemma found2_cons B2 i l d b r : ¬ match2 B2 d b i → found2 B2 l d b r → found2 B2 (i :: l) d b r.
Proof.
  intros Hn. destruct r as [j|]; [|done]. intros (l1 & l2 & -> & Hm & Hl). exists (i :: l1), l2. split; [done|]. split; [done|]. set_solver.
Qed.

(** The backward search: [b] is in the first turn around or has wrapped. *)
Lemma search2_spec s nr idx d blk fuel b l : two_ok nr idx (buf2s s) → nr ≠ 0 → (length l ≤ fuel)%nat → l ≠ [] →
  (0 ≤ b ≤ idx ∧ l = reverse (seqZ 0 b) ++ reverse (seqZ idx (nr - idx)) ∨ idx < b ≤ nr ∧ l = reverse (seqZ idx (b - idx))) →
  ∃ r, search2 fuel b idx nr blk d s = Ok s r ∧ found2 (buf2s s) l d blk r.
Proof.
  intros [Ht Hidx Hsl _] Hnr. specialize (Hidx Hnr). revert b l. induction fuel as [|fuel IH]; intros b l Hlen Hne Hb.
  { destruct l; [done|]. cbn in Hlen. lia. }
  assert (∃ b' l', b' = (if b =? 0 then nr else b) - 1 ∧ l = b' :: l' ∧ 0 ≤ b' < nr ∧ (b' = idx ∧ l' = [] ∨ b' ≠ idx ∧ l' ≠ [] ∧
    (0 ≤ b' ≤ idx ∧ l' = reverse (seqZ 0 b') ++ reverse (seqZ idx (nr - idx)) ∨ idx < b' ≤ nr ∧ l' = reverse (seqZ idx (b' - idx)))))
    as (b' & l' & Eb & -> & Hr & Hcase).
  { assert (Hw : ∀ c, idx < c ≤ nr → ∃ l', reverse (seqZ idx (c - idx)) = (c - 1) :: l' ∧
      (c - 1 = idx ∧ l' = [] ∨ c - 1 ≠ idx ∧ l' ≠ [] ∧ idx < c - 1 ≤ nr ∧ l' = reverse (seqZ idx (c - 1 - idx)))).
    { intros c Hc. exists (reverse (seqZ idx (c - idx - 1))). rewrite reverse_seqZ_S by lia. split; [f_equal; lia|].
      destruct (decide (c - 1 = idx)) as [E|E]; [left|right]; (split; [done|]).
      - by replace (c - idx - 1) with 0 by lia.
      - replace (c - idx - 1) with (c - 1 - idx) by lia. split; [|split; [lia|done]]. rewrite reverse_seqZ_S by lia. done. }
    destruct Hb as [[Hb ->]|[Hb ->]].
    - destruct (Z.eqb_spec b 0) as [->|Hb0].
      + destruct (Hw nr) as (l' & El & Hl'); [lia|]. exists (nr - 1), l'. split; [done|]. split; [cbn; done|]. split; [lia|]. destruct Hl' as [?|(? & ? & ? & ?)]; [by left|]. right. eauto.
      + exists (b - 1), (reverse (seqZ 0 (b - 1)) ++ reverse (seqZ idx (nr - idx))). split; [done|]. split; [|split; [lia|]].
        * rewrite reverse_seqZ_S by lia. cbn. try done; f_equal; lia.
        * right. split; [lia|]. split; [|left; split; [lia|done]]. intros [_ E]%app_eq_nil. rewrite reverse_seqZ_S in E by lia. done.
    - destruct (Z.eqb_spec b 0); [lia|]. destruct (Hw b) as (l' & El & Hl'); [lia|]. exists (b - 1), l'. split; [done|]. split; [done|]. split; [lia|]. destruct Hl' as [?|(? & ? & ? & ?)]; [by left|]. right. eauto. }
  cbn [search2]. rewrite <- Eb. destruct (proj2 (Hsl b')) as [x Hx]; [lia|]. frun.
  destruct ((b2_blocknr x =? blk) && (b2_dev x =? d)) eqn:E.
  - apply andb_true_iff in E as [?%Z.eqb_eq ?%Z.eqb_eq]. exists (Some b'). split; [done|]. exists [], l'. split; [done|]. split; [|set_solver].
    unfold match2. by rewrite Hx.
  - assert (Hnm : ¬ match2 (buf2s s) d blk b').
    { unfold match2. rewrite Hx. intros [E1 E2]. by rewrite E1, E2, !Z.eqb_refl in E. }
    destruct Hcase as [[-> ->]|(Hbi & Hl' & Hc)]; [rewrite Z.eqb_refl; by exists None|]. rewrite (proj2 (Z.eqb_neq _ _) Hbi).
    destruct (IH b' l') as (r & Hrun & Hf); [cbn in Hlen; lia|done|done|]. exists r. split; [done|]. by apply found2_cons.
Qed.

Lemma io_in_spec s p x d pos : bufs s !! p = Some x → covers d pos →
  ∃ s', io_in p d pos s = Ok s' BLOCK_SIZE ∧ links s' = links s ∧ two s' = two s ∧ (∀ d' pos', platter (wld s') d' pos' = platter (wld s) d' pos') ∧
    info s' = <[p := erase (x <| b_data := platter (wld s) d pos |>)]> (info s) ∧ bufs s' !! p = Some (x <| b_data := platter (wld s) d pos |>).
Proof.
  intros Hx Hc. unfold io_in. frun. destruct (read_law d pos (b_data x) (wld s) Hc) as (w' & -> & Hp). frun.
  destruct (set_info (s <| wld := w' |>) p x (λ x, x <| b_data := platter (wld s) d pos |>) Hx) as (s1 & Hr & A1 & A2 & A3 & A4 & A5); try done.
  erewrite st_buf_ok in Hr by done. injection Hr as <-. eexists. split; [reflexivity|]. by split_and!.
Qed.

Lemma io_out_spec s p x d pos : bufs s !! p = Some x → covers d pos →
  ∃ w', io_out p d pos s = Ok (s <| wld := w' |>) BLOCK_SIZE ∧ platter w' d pos = b_data x ∧
    (∀ d' pos', (d', pos') ≠ (d, pos) → platter w' d' pos' = platter (wld s) d' pos').
Proof.
  intros Hx Hc. unfold io_out. frun. destruct (write_law d pos (b_data x) (wld s) Hc) as (w' & -> & Hp). frun. by exists w'.
Qed.

Lemma coh_world nr idx I B2 w w' C : (∀ d pos, platter w' d pos = platter w d pos) → coh nr idx I B2 w C → coh nr idx I B2 w' C.
Proof. intros Hw [Hv Hd Hu Hk Ht]. split; try done; intros; rewrite Hw; eauto. Qed.

Lemma hash2_range b : 0 ≤ hash2 b < MAX_BUF2.
Proof. unfold hash2. change (MAX_BUF2 - 1) with (Z.ones 10). rewrite Z.land_ones by done. by apply Z.mod_pos_bound. Qed.

(** Forgetting a clean buffer keeps what the devices hold. *)
Lemma disk_forget nr idx I B2 w C p x d b : coh nr idx I B2 w C → I !! p = Some x → b_dirt x ≠ DIRTY → valid nr d b →
  (∀ q y, delete p I !! q = Some y → b_dev y = d → b_blocknr y = b → b_dirt y ≠ DIRTY) → platter w d (b * BLOCK_SIZE) = C d b.
Proof.
  intros Hc Hx Hcl Hv Hd. apply (c_disk _ _ _ _ _ _ Hc); [done|]. intros q y Hy. destruct (decide (q = p)) as [->|Hne]; [by simplify_eq|].
  apply (Hd q). by rewrite lookup_delete_ne.
Qed.

Lemma coh_delete nr idx idx' I B2 B2' w w' C p : coh nr idx I B2 w C →
  (∀ d b, valid nr d b → (∀ q y, delete p I !! q = Some y → b_dev y = d → b_blocknr y = b → b_dirt y ≠ DIRTY) → platter w' d (b * BLOCK_SIZE) = C d b) →
  (∀ d b i, nr ≠ 0 → valid nr d b → first2 B2' (slots2 idx' nr) d b i → ¬ cached (delete p I) d b → platter w' DEV_RAM (i * BLOCK_SIZE) = C d b) →
  coh nr idx' (delete p I) B2' w' C.
Proof.
  intros [Hv Hd Hu _ _] Hk Ht. split; [..|done|done].
  - intros q y [_ Hy]%lookup_delete_Some. by apply (Hv q).
  - intros q y [_ Hy]%lookup_delete_Some. by apply (Hd q).
  - intros q y q' y' [_ Hy]%lookup_delete_Some [_ Hy']%lookup_delete_Some. by apply Hu.
Qed.

(** The table of slots with a new label on [i] and other counts. *)
Definition relabel (B2 B2' : gmap Z buf2) (i d b : Z) : Prop :=
  (∀ j, is_Some (B2' !! j) ↔ is_Some (B2 !! j)) ∧ (∀ d' b' j, j ≠ i → match2 B2' d' b' j ↔ match2 B2 d' b' j) ∧
  (∀ d' b', match2 B2' d' b' i ↔ d' = d ∧ b' = b).

(** A clean block pushed out of the cache is kept in the second level cache. *)
Lemma coh_push nr idx I B2 B2' w w' C p x : coh nr idx I B2 w C → two_ok nr idx B2 → nr ≠ 0 → I !! p = Some x → b_dev x ≠ NO_DEV → b_dirt x ≠ DIRTY →
  relabel B2 B2' idx (b_dev x) (b_blocknr x) → platter w' DEV_RAM (idx * BLOCK_SIZE) = b_data x →
  (∀ d' pos', (d', pos') ≠ (DEV_RAM, idx * BLOCK_SIZE) → platter w' d' pos' = platter w d' pos') →
  coh nr (next_idx idx nr) (delete p I) B2' w' C.
Proof.
  intros Hc [_ Hidx _ _] Hnr Hx Hdev Hcl (_ & Hoth & Hnew) Hpl Hw. specialize (Hidx Hnr). destruct (slots2_next idx nr Hidx) as (l & El & El' & Hl).
  apply coh_delete with idx B2 w; [done| |].
  - intros d b Hv Hd. rewrite Hw; [by eapply disk_forget|]. intros [= -> _]. destruct Hv as (_ & Hv & _). auto.
  - intros d b i _ Hv (l1 & l2 & E & Hm & Hn) Hnc. rewrite El' in E. destruct l1 as [|j l1]; cbn in E; simplify_eq.
    + apply Hnew in Hm as [-> ->]. rewrite Hpl. by apply (c_data _ _ _ _ _ _ Hc p).
    + assert (Hxx : ¬ (b_dev x = d ∧ b_blocknr x = b)) by (intros [E1 E2]; apply (Hn j); [set_solver|]; apply Hnew; by subst).
      assert (i ≠ j) by set_solver. rewrite Hw by (intros E2; injection E2; unfold BLOCK_SIZE; lia).
      apply (c_two _ _ _ _ _ _ Hc) with (d := d) (b := b); try done.
      * exists l1, (l2 ++ [j]). rewrite El, <- app_assoc. split; [done|]. split; [by apply Hoth|].
        intros k Hk. rewrite <- Hoth; [apply Hn; set_solver|set_solver].
      * intros (q & y & Hy & Hyd & Hyb). apply Hnc. exists q, y. split; [|done]. rewrite lookup_delete_ne; [done|]. intros ->. apply Hxx. by simplify_eq.
Qed.

(** Changing a count changes no label. *)
Definition keep2 (B B' : gmap Z buf2) : Prop :=
  (∀ j, is_Some (B' !! j) ↔ is_Some (B !! j)) ∧ (∀ d b j, match2 B' d b j ↔ match2 B d b j).

Lemma set_count s h f : is_Some (buf2s s !! h) →
  ∃ B', st_buf2 h (λ x, x <| b2_count ::= f |>) s = Ok (s <| buf2s := B' |>) () ∧ keep2 (buf2s s) B'.
Proof.
  intros [x Hx]. erewrite st_buf2_ok by done. eexists. split; [reflexivity|]. split.
  - intros j. destruct (decide (j = h)) as [->|]; [rewrite lookup_insert_eq, Hx; split; eauto|by rewrite lookup_insert_ne].
  - intros d b j. unfold match2. destruct (decide (j = h)) as [->|]; [by rewrite lookup_insert_eq, Hx|by rewrite lookup_insert_ne].
Qed.

Lemma keep2_refl B : keep2 B B.
Proof. done. Qed.

Lemma keep2_trans B1 B2 B3 : keep2 B1 B2 → keep2 B2 B3 → keep2 B1 B3.
Proof. intros [A1 A2] [B4 B5]. split; intros; [by rewrite B4|by rewrite B5]. Qed.

Lemma keep2_relabel B0 B1 B2 B3 i d b y : keep2 B0 B1 → B1 !! i = Some y → B2 = <[i := y <| b2_dev := d |> <| b2_blocknr := b |>]> B1 → keep2 B2 B3 → relabel B0 B3 i d b.
Proof.
  intros [A1 A2] Hy -> [C1 C2]. split_and!.
  - intros j. rewrite C1, <- A1. destruct (decide (j = i)) as [->|]; [rewrite lookup_insert_eq, Hy; split; eauto|by rewrite lookup_insert_ne].
  - intros d' b' j Hne. rewrite C2, <- A2. unfold match2. by rewrite lookup_insert_ne.
  - intros d' b'. rewrite C2. unfold match2. rewrite lookup_insert_eq. cbn. naive_solver.
Qed.

Lemma put_block2_spec s p x C : let nr := nr_buf2 s in
  coh nr (buf2_idx s) (info s) (buf2s s) (wld s) C → two_ok nr (buf2_idx s) (buf2s s) →
  info s !! p = Some x → b_dev x ≠ NO_DEV → b_dirt x ≠ DIRTY →
  ∃ s', put_block2 p s = Ok s' () ∧ links s' = links s ∧ info s' = info s ∧ nr_buf2 s' = nr ∧
    two_ok nr (buf2_idx s') (buf2s s') ∧ coh nr (buf2_idx s') (delete p (info s)) (buf2s s') (wld s') C.
Proof.
  cbn zeta. intros Hc Ht Hx Hdev Hcl. unfold put_block2. frun. destruct (Z.eqb_spec (nr_buf2 s) 0) as [Hz|Hnr].
  { exists s. split_and!; try done. apply coh_delete with (buf2_idx s) (buf2s s) (wld s); [done| |done]. intros d b. by eapply disk_forget. }
  destruct (info_inv _ _ _ Hx) as (y & Hy & <-). pose proof (t_idx _ _ _ Ht Hnr) as Hidx. frun. cbn.
  set (s0 := upd buf2_idx _ s). destruct (io_out_spec s0 p y DEV_RAM (buf2_idx s * BLOCK_SIZE) Hy) as (w' & Hio & Hpl & Hw).
  { apply (t_ram _ _ _ Ht). lia. }
  rewrite pos_u32 by (pose proof (t_nr _ _ _ Ht); unfold MAX_BUF2 in *; lia). rewrite (bind_ok _ _ _ _ _ Hio), Z.eqb_refl.
  assert (Hsl : ∀ i, 0 ≤ i < MAX_BUF2 → is_Some (buf2s s !! i)) by (intros i; apply (t_slots _ _ _ Ht)).
  set (s1 := upd wld _ s0). destruct (Hsl (buf2_idx s)) as [y2 Hy2]; [pose proof (t_nr _ _ _ Ht); lia|].
  assert (Hy2' : buf2s s1 !! buf2_idx s = Some y2) by done. frun.
  assert (∃ B1, (if negb (b2_dev y2 =? NO_DEV) then st_buf2 (hash2 (b2_blocknr y2)) (λ x, x <| b2_count ::= λ n, u16 (n - 1) |>) else mret ()) s1 =
    Ok (s1 <| buf2s := B1 |>) () ∧ keep2 (buf2s s) B1) as (B1 & Hr1 & K1).
  { destruct (negb _); [apply (set_count s1), Hsl, hash2_range|]. exists (buf2s s). split; [reflexivity|done]. }
  rewrite (bind_ok _ _ _ _ _ Hr1). assert (Hyb : bufs (s1 <| buf2s := B1 |>) !! p = Some y) by done. frun. clear Hyb.
  destruct (proj2 (proj1 K1 (buf2_idx s)) (ex_intro _ _ Hy2)) as [y3 Hy3]. assert (Hy3' : buf2s (s1 <| buf2s := B1 |>) !! buf2_idx s = Some y3) by done.
  frun. set (B2 := <[buf2_idx s := y3 <| b2_dev := b_dev y |> <| b2_blocknr := b_blocknr y |>]> B1).
  match goal with |- context [st_buf2 _ _ ?st] => set (s2 := st) end.
  destruct (set_count s2 (hash2 (b_blocknr y)) (λ n, u16 (n + 1))) as (B3 & Hr3 & K3).
  { change (buf2s s2) with B2. unfold B2. destruct (decide (hash2 (b_blocknr y) = buf2_idx s)) as [->|]; [rewrite lookup_insert_eq; eauto|].
    rewrite lookup_insert_ne by done. apply K1, Hsl, hash2_range. }
  rewrite Hr3. assert (Hrl : relabel (buf2s s) B3 (buf2_idx s) (b_dev y) (b_blocknr y)) by by eapply (keep2_relabel _ B1 B2).
  eexists. split; [reflexivity|]. split; [done|]. split; [done|]. split; [done|]. cbn. fold (next_idx (buf2_idx s) (nr_buf2 s)). split.
  - destruct Ht as [T1 T2 T3 T4]. split; [done| | |done].
    + intros _. unfold next_idx. destruct (Z.eqb_spec (buf2_idx s + 1) (nr_buf2 s)); lia.
    + intros i. by rewrite (proj1 Hrl).
  - by eapply coh_push.
Qed.
End second.

(** ** Filling a buffer *)
Section fill.
Context {D : Driver} {RD : Reliable D}.
Implicit Types s : cache.
Implicit Types C : Z → Z → block_data.

(** The buffer [p] has got the label of a block nothing else in the cache has;
    [y] is what it holds. *)
Record labelled s (p : Z) (y : buf) C : Prop := {
  l_buf : bufs s !! p = Some y;
  l_valid : valid (nr_buf2 s) (b_dev y) (b_blocknr y);
  l_new : ¬ cached (delete p (info s)) (b_dev y) (b_blocknr y);
  l_two : two_ok (nr_buf2 s) (buf2_idx s) (buf2s s);
  l_coh : coh (nr_buf2 s) (buf2_idx s) (delete p (info s)) (buf2s s) (wld s) C;
}.

Definition filled s s' (p : Z) (y' : buf) : Prop :=
  links s' = links s ∧ two s' = two s ∧ (∀ d pos, platter (wld s') d pos = platter (wld s) d pos) ∧
  info s' = <[p := erase y']> (info s) ∧ bufs s' !! p = Some y'.

Lemma filled_refl s p y : bufs s !! p = Some y → filled s s p y.
Proof. intros Hy. split_and!; try done. symmetry. apply insert_id. by apply info_lookup. Qed.

Lemma get_block2_spec s p y C only : labelled s p y C →
  ∃ s' got y', get_block2 p only s = Ok s' got ∧ filled s s' p y' ∧ y' = (if got : bool then y <| b_data := C (b_dev y) (b_blocknr y) |> else y) ∧
    (only = NO_READ → got = false).
Proof.
  intros [Hy Hv Hn Ht Hc]. unfold get_block2. frun.
  assert (Hnr : (if b_dev y =? DEV_RAM then modify (λ c, c <| nr_buf2 := 0 |>) else mret ()) s = Ok s ()).
  { destruct (Z.eqb_spec (b_dev y) DEV_RAM) as [E|]; [|done]. destruct Hv as (_ & Hv & _). rewrite modify_ok. f_equal. specialize (Hv E). destruct s; cbn in *. by subst. }
  rewrite (bind_ok _ _ _ _ _ Hnr). frun. assert (Hno : ∃ s' got y', (mret false : M cache bool) s = Ok s' got ∧ filled s s' p y' ∧ y' = (if got : bool then y <| b_data := C (b_dev y) (b_blocknr y) |> else y) ∧ (only = NO_READ → got = false)).
  { exists s, false, y. split; [done|]. split; [by apply filled_refl|done]. }
  destruct (Z.eqb_spec (nr_buf2 s) 0) as [|Hnz]; [done|]. destruct (Z.eqb_spec only NO_READ) as [|Hor]; [done|]. cbn [orb].
  destruct (proj2 (t_slots _ _ _ Ht (hash2 (b_blocknr y))) (hash2_range _)) as [z Hz]. frun. destruct (b2_count z =? 0); [done|]. frun.
  pose proof (t_idx _ _ _ Ht Hnz) as Hidx. pose proof (t_nr _ _ _ Ht) as Hmax.
  destruct (search2_spec s (nr_buf2 s) (buf2_idx s) (b_dev y) (b_blocknr y) buf2_fuel (buf2_idx s) (slots2 (buf2_idx s) (nr_buf2 s))) as (r & Hr & Hf); try done.
  { unfold slots2. rewrite length_app, !length_reverse, !length_seqZ. unfold buf2_fuel, MAX_BUF2 in *. lia. }
  { destruct (slots2_next (buf2_idx s) (nr_buf2 s) Hidx) as (l & -> & _). by destruct l. }
  { left. split; [lia|done]. }
  rewrite (bind_ok _ _ _ _ _ Hr). destruct r as [i|]; [|done].
  assert (Hi : 0 ≤ i < nr_buf2 s) by (destruct Hf as (l1 & l2 & El & _); apply (slots2_range (buf2_idx s)); [done|rewrite El, elem_of_app, elem_of_cons; by right; left]).
  rewrite pos_u32 by (unfold MAX_BUF2 in *; lia).
  destruct (io_in_spec s p y DEV_RAM (i * BLOCK_SIZE) Hy) as (s1 & Hio & A1 & A2 & A3 & A4 & A5); [by apply (t_ram _ _ _ Ht)|].
  rewrite (bind_ok _ _ _ _ _ Hio). rewrite (c_two _ _ _ _ _ _ Hc _ _ i Hnz Hv Hf Hn) in A4, A5.
  eexists s1, true, _. split; [done|]. split; [|done]. by split_and!.
Qed.

Lemma rw_block_read s p y C : labelled s p y C →
  ∃ s', rw_block p READING s = Ok s' () ∧ filled s s' p (y <| b_data := C (b_dev y) (b_blocknr y) |> <| b_dirt := CLEAN |>).
Proof.
  intros [Hy Hv Hn Ht Hc]. unfold rw_block. frun. destruct (Z.eqb_spec (b_dev y) NO_DEV) as [E|_]; [by destruct Hv|]. cbn [negb].
  destruct (valid_pos _ _ _ Hv) as [-> Hcov]. change (READING =? READING) with true. cbn match.
  destruct (io_in_spec s p y _ _ Hy Hcov) as (s1 & Hio & A1 & A2 & A3 & A4 & A5). rewrite bind_assoc, (bind_ok _ _ _ _ _ Hio), Z.eqb_refl. cbn [negb]. frun.
  assert (Hk : platter (wld s) (b_dev y) (b_blocknr y * BLOCK_SIZE) = C (b_dev y) (b_blocknr y)).
  { apply (c_disk _ _ _ _ _ _ Hc); [done|]. intros q x Hx Hd Hb. exfalso. apply Hn. exists q, x. done. }
  rewrite Hk in A4, A5.
  destruct (set_info s1 p _ clean A5) as (s2 & Hr & B1 & B2 & B3 & B4 & B5); try done. exists s2.
  erewrite st_buf_ok in Hr by done. split; [rewrite Hk; exact Hr|].
  split; [congruence|]. split; [congruence|]. split; [intros; rewrite B3; apply A3|]. split; [|done]. by rewrite B4, A4, insert_insert_eq.
Qed.

Lemma rw_block_write s p x C : coh (nr_buf2 s) (buf2_idx s) (info s) (buf2s s) (wld s) C → info s !! p = Some x → b_dev x ≠ NO_DEV →
  ∃ s', rw_block p WRITING s = Ok s' () ∧ links s' = links s ∧ two s' = two s ∧ info s' = alter clean p (info s) ∧
    coh (nr_buf2 s) (buf2_idx s) (info s') (buf2s s) (wld s') C.
Proof.
  intros Hc Hx Hdev. destruct (info_inv _ _ _ Hx) as (y & Hy & <-). pose proof (c_valid _ _ _ _ _ _ Hc _ _ Hx Hdev) as Hv. cbn in Hv, Hdev.
  unfold rw_block. frun. rewrite (proj2 (Z.eqb_neq _ _) Hdev). cbn [negb]. destruct (valid_pos _ _ _ Hv) as [-> Hcov]. change (WRITING =? READING) with false. cbn match.
  destruct (io_out_spec s p y _ _ Hy Hcov) as (w' & Hio & Hpl & Hw). rewrite bind_assoc, (bind_ok _ _ _ _ _ Hio), Z.eqb_refl. cbn [negb]. frun.
  set (s1 := s <| wld := w' |>). destruct (set_info s1 p y clean Hy) as (s2 & Hr & B1 & B2 & B3 & B4 & B5); try done.
  erewrite st_buf_ok in Hr by done. exists s2. split; [exact Hr|]. split; [done|]. split; [done|]. assert (E : info s2 = alter clean p (info s)) by (rewrite B4; by eapply info_upd). split; [done|].
  rewrite E, B3. apply (coh_write _ _ _ _ (wld s) w' C (b_dev y) [p]); try done.
  - intros q ->%list_elem_of_singleton. exists (erase y). done.
  - intros d pos Hd. apply Hw. intros [= -> ->]. destruct Hd as [?|Hd]; [done|]. by apply (Hd p (erase y)); [set_solver|done|].
Qed.
End fill.

(** ** [get_block] and [put_block] *)
Section blocks.
Context {D : Driver} {RD : Reliable D}.
Implicit Types s : cache.
Implicit Types C : Z → Z → block_data.

Record struct_inv s (L : list Z) (H : Z → list Z) : Prop := {
  ci_slots : slots_ok s;
  ci_lru : lru_ok s L;
  ci_free p x : info s !! p = Some x → p ∈ L ↔ b_count x = 0;
  ci_count p x : info s !! p = Some x → 0 ≤ b_count x ≤ 127;
  ci_use : bufs_in_use s = NR_BUFS - Z.of_nat (length L);
  ci_hash : hash_ok s H None;
  ci_two : two_ok (nr_buf2 s) (buf2_idx s) (buf2s s);
}.

Definition holds s C : Prop := coh (nr_buf2 s) (buf2_idx s) (info s) (buf2s s) (wld s) C.

(** The same without the buffer [p]. *)
Definition holds_but s (p : Z) C : Prop := coh (nr_buf2 s) (buf2_idx s) (delete p (info s)) (buf2s s) (wld s) C.

Definition cset C (d b : Z) (v : block_data) : Z → Z → block_data :=
  λ d' b', if decide (d' = d ∧ b' = b) then v else C d' b'.

(** What the users of a buffer see of it. *)
Definition user (x : buf) := (b_data x, b_dev x, b_blocknr x, b_count x).

Lemma hash_ok_ext s s' H out : hsh s' = hsh s → buf_hash s' = buf_hash s →
  (∀ q, out ≠ Some q → b_blocknr <$> info s' !! q = b_blocknr <$> info s !! q) → hash_ok s H out → hash_ok s' H out.
Proof.
  intros E1 E2 Hb [H1 H2 H3]. split; rewrite ?E1, ?E2; [done|done|]. intros h q Hh. rewrite H3 by done.
  split; intros (Ho & x & Hx & <-); (split; [done|]); specialize (Hb q Ho); rewrite Hx in Hb;
    [destruct (info s' !! q) as [y|]|destruct (info s !! q) as [y|]]; simplify_eq/=; exists y; split; congruence.
Qed.

Lemma coh_insert nr idx I B2 w C p y : coh nr idx (delete p I) B2 w C →
  (b_dev y ≠ NO_DEV → valid nr (b_dev y) (b_blocknr y) ∧ b_data y = C (b_dev y) (b_blocknr y) ∧ ¬ cached (delete p I) (b_dev y) (b_blocknr y)) →
  coh nr idx (<[p := y]> I) B2 w C.
Proof.
  intros [Hv Hd Hu Hk Ht] Hy.
  assert (HI : ∀ q x, <[p := y]> I !! q = Some x → q = p ∧ x = y ∨ delete p I !! q = Some x ∧ q ≠ p).
  { intros q x. destruct (decide (q = p)) as [->|]; [rewrite lookup_insert_eq; naive_solver|]. rewrite lookup_insert_ne, lookup_delete_ne by done. naive_solver. }
  assert (HD : ∀ q x, delete p I !! q = Some x → <[p := y]> I !! q = Some x).
  { intros q x [Hne Hx]%lookup_delete_Some. by rewrite lookup_insert_ne. }
  split.
  - intros q x [[-> ->]|[Hx _]]%HI; [by intros []%Hy|by apply (Hv q)].
  - intros q x [[-> ->]|[Hx _]]%HI; [intros Hn; by apply Hy|by apply (Hd q)].
  - intros q x q' x' [[-> ->]|[Hx Hq]]%HI [[-> ->]|[Hx' Hq']]%HI Hn E1 E2; try done.
    + destruct (Hy Hn) as (_ & _ & []). by exists q', x'.
    + destruct Hy as (_ & _ & []); [congruence|]. by exists q, x.
    + by apply (Hu q x q' x').
  - intros d b Hval Hcl. apply Hk; [done|]. intros q x Hx. by apply Hcl with q, HD.
  - intros d b i Hnr Hval Hf Hnc. eapply Ht; try done. intros (q & x & Hx & E). apply Hnc. exists q, x. split; [by apply HD|done].
Qed.

(** Storing new bytes in a buffer nothing else in the cache shares the block of. *)
Lemma coh_store nr idx I B2 w C p y d b v : b_dev y = d → b_blocknr y = b → b_data y = v → b_dirt y = DIRTY → valid nr d b → ¬ cached (delete p I) d b →
  coh nr idx I B2 w C ∧ (∃ x, I !! p = Some x ∧ b_dev x = d ∧ b_blocknr x = b) ∨ coh nr idx (delete p I) B2 w C →
  coh nr idx (<[p := y]> I) B2 w (cset C d b v).
Proof.
  intros Ed Eb Ev Et Hval Hnc Hor.
  assert (HD : ∀ q x, delete p I !! q = Some x → <[p := y]> I !! q = Some x).
  { intros q x [Hne Hx]%lookup_delete_Some. by rewrite lookup_insert_ne. }
  assert (Hoth : (∀ q x, delete p I !! q = Some x → b_dev x ≠ NO_DEV → valid nr (b_dev x) (b_blocknr x) ∧ b_data x = C (b_dev x) (b_blocknr x)) ∧
    (∀ q x q' x', delete p I !! q = Some x → delete p I !! q' = Some x' → b_dev x ≠ NO_DEV → b_dev x = b_dev x' → b_blocknr x = b_blocknr x' → q = q') ∧
    (∀ d' b', ¬ (d' = d ∧ b' = b) → valid nr d' b' → (∀ q x, delete p I !! q = Some x → b_dev x = d' → b_blocknr x = b' → b_dirt x ≠ DIRTY) → platter w d' (b' * BLOCK_SIZE) = C d' b') ∧
    (∀ d' b' i, ¬ (d' = d ∧ b' = b) → nr ≠ 0 → valid nr d' b' → first2 B2 (slots2 idx nr) d' b' i → ¬ cached (delete p I) d' b' → platter w DEV_RAM (i * BLOCK_SIZE) = C d' b')).
  { destruct Hor as [[[Hv Hd Hu Hk Ht] (x0 & Hx0 & E1 & E2)]|[Hv Hd Hu Hk Ht]]; [|naive_solver].
    assert (HI : ∀ q x, I !! q = Some x → q = p ∧ x = x0 ∨ delete p I !! q = Some x).
    { intros q x Hx. destruct (decide (q = p)) as [->|]; [left; by simplify_eq|right; by rewrite lookup_delete_ne]. }
    split_and!.
    - intros q x [_ Hx]%lookup_delete_Some Hn. split; [by apply (Hv q)|by apply (Hd q)].
    - intros q x q' x' [_ Hx]%lookup_delete_Some [_ Hx']%lookup_delete_Some. by apply Hu.
    - intros d' b' Hne Hv' Hcl. apply Hk; [done|]. intros q x [[-> ->]|Hx]%HI F1 F2; [destruct Hne; split; congruence|by apply (Hcl q)].
    - intros d' b' i Hne Hnr Hv' Hf Hc'. eapply Ht; try done. intros (q & x & Hx & F1 & F2). apply HI in Hx as [[-> ->]|Hx]; [destruct Hne; split; congruence|]. apply Hc'. by exists q, x. }
  destruct Hoth as (H1 & H2 & H3 & H4).
  assert (HI : ∀ q x, <[p := y]> I !! q = Some x → q = p ∧ x = y ∨ delete p I !! q = Some x ∧ q ≠ p ∧ ¬ (b_dev x = d ∧ b_blocknr x = b)).
  { intros q x. destruct (decide (q = p)) as [->|]; [rewrite lookup_insert_eq; naive_solver|]. rewrite lookup_insert_ne by done. intros Hx. right.
    split; [by rewrite lookup_delete_ne|]. split; [done|]. intros E. apply Hnc. exists q, x. split; [by rewrite lookup_delete_ne|done]. }
  split.
  - intros q x [[-> ->]|(Hx & _ & _)]%HI; [by subst|]. intros Hn. by apply (H1 q).
  - intros q x [[-> ->]|(Hx & _ & Hne)]%HI Hn; unfold cset; [rewrite decide_True by done; by subst|]. rewrite decide_False by done. by apply (H1 q).
  - intros q x q' x' [[-> ->]|(Hx & Hq & Hne)]%HI [[-> ->]|(Hx' & Hq' & Hne')]%HI Hn E1 E2; try done; [destruct Hne'; split; congruence|destruct Hne; split; congruence|].
    by apply (H2 q x q' x').
  - intros d' b' Hv' Hcl. unfold cset. case_decide as E.
    + destruct E as [-> ->]. exfalso. eapply (Hcl p y); [by rewrite lookup_insert_eq|done..].
    + apply H3; try done. intros q x Hx. by apply (Hcl q), HD.
  - intros d' b' i Hnr Hv' Hf Hc'. unfold cset. case_decide as E.
    + destruct E as [-> ->]. exfalso. apply Hc'. exists p, y. by rewrite lookup_insert_eq.
    + eapply H4; try done. intros (q & x & Hx & F). apply Hc'. exists q, x. split; [by apply HD|done].
Qed.

Lemma evict_spec s p x C : holds s C → two_ok (nr_buf2 s) (buf2_idx s) (buf2s s) → slots_ok s → info s !! p = Some x →
  ∃ s', evict p s = Ok s' () ∧ links s' = links s ∧ nr_buf2 s' = nr_buf2 s ∧ two_ok (nr_buf2 s') (buf2_idx s') (buf2s s') ∧ holds_but s' p C ∧
    ∀ q, user <$> info s' !! q = user <$> info s !! q.
Proof.
  intros Hc Ht Hsl Hx. destruct (info_inv _ _ _ Hx) as (y & Hy & <-). unfold evict. frun. destruct (Z.eqb_spec (b_dev y) NO_DEV) as [E|Hdev]; cbn [negb].
  { exists s. split_and!; try done. unfold holds_but. eapply coh_delete; [exact Hc| |].
    - intros d b Hv Hcl. apply (c_disk _ _ _ _ _ _ Hc); [done|]. intros q z Hz Hd Hb. destruct (decide (q = p)) as [->|]; [|apply (Hcl q); try done; by rewrite lookup_delete_ne].
      destruct Hv as [Hv _]. simplify_eq/=.
    - intros d b i Hnr Hv Hf Hnc. eapply (c_two _ _ _ _ _ _ Hc); try done. intros (q & z & Hz & Hd & Hb). apply Hnc. exists q, z. split; [|done].
      rewrite lookup_delete_ne; [done|]. intros ->. destruct Hv as [Hv _]. simplify_eq/=. }
  assert (∃ s1, (if b_dirt y =? DIRTY then flushall (b_dev y) else mret ()) s = Ok s1 () ∧ links s1 = links s ∧ two s1 = two s ∧ holds s1 C ∧
    (∀ q, user <$> info s1 !! q = user <$> info s !! q) ∧ ∃ y1, info s1 !! p = Some y1 ∧ b_dev y1 = b_dev y ∧ b_dirt y1 ≠ DIRTY) as (s1 & Hr1 & A1 & A2 & A3 & A4 & (y1 & A5 & A6 & A7)).
  { destruct (Z.eqb_spec (b_dirt y) DIRTY) as [Ed|Hd]; [|exists s; split_and!; try done; eauto].
    destruct (flushall_spec s (b_dev y) C Hc Hdev Hsl) as (s1 & Hr & B1 & B2 & B3 & B4). exists s1. pose proof B2 as [= E1 E2 E3]. split_and!; try done.
    - unfold holds. by rewrite E1, E2, E3.
    - intros q. rewrite B3. destruct (info s !! q) as [z|]; [|done]. cbn. by repeat case_match.
    - rewrite B3, Hx. eexists. split; [reflexivity|]. cbn. rewrite Ed, !Z.eqb_refl. done. }
  rewrite (bind_ok _ _ _ _ _ Hr1). pose proof A2 as [= E1 E2 E3].
  destruct (put_block2_spec s1 p y1 C A3) as (s2 & Hr2 & B1 & B2 & B3 & B4 & B5); [by rewrite E1, E2, E3|done|congruence|done|].
  exists s2. split; [done|]. split; [congruence|]. split; [congruence|]. rewrite B3. split; [done|]. split; [unfold holds_but; by rewrite B2, B3|]. by rewrite B2.
Qed.

Lemma fill_spec s p y C only : labelled s p y C → only ∈ [NORMAL; NO_READ; PREFETCH] →
  ∃ s' y', fill p (b_dev y) only s = Ok s' () ∧ filled s s' p y' ∧ b_blocknr y' = b_blocknr y ∧ b_count y' = b_count y ∧
    (only = NO_READ → b_dev y' = b_dev y) ∧ (only = NORMAL → b_dev y' = b_dev y) ∧
    (only ≠ NO_READ → b_dev y' = NO_DEV ∨ b_dev y' = b_dev y ∧ b_data y' = C (b_dev y) (b_blocknr y)).
Proof.
  intros Hl Ho. unfold fill. destruct (Z.eqb_spec (b_dev y) NO_DEV) as [E|_]; [by destruct (l_valid _ _ _ _ Hl)|]. cbn [negb].
  destruct (get_block2_spec s p y C only Hl) as (s1 & got & y1 & Hr & Hf & Hy1 & Hno). rewrite (bind_ok _ _ _ _ _ Hr). destruct got.
  { eexists s1, y1. subst y1. split_and!; try done. intros _. by right. }
  subst y1. destruct (Z.eqb_spec only PREFETCH) as [->|Hp].
  { destruct Hf as (A1 & A2 & A3 & A4 & A5). destruct (set_info s1 p y (λ x, x <| b_dev := NO_DEV |>) A5) as (s2 & Hr2 & B1 & B2 & B3 & B4 & B5); try done.
    eexists s2, _. split; [exact Hr2|]. split; [split_and!; [congruence|congruence|intros; rewrite B3; apply A3|by rewrite B4, A4, insert_insert_eq|done]|]. split_and!; try done. intros _. by left. }
  destruct (Z.eqb_spec only NORMAL) as [->|Hn]; [|exists s1, y; assert (only = NO_READ) by set_solver; by split_and!].
  assert (Hl1 : labelled s1 p y C).
  { destruct Hf as (A1 & [= E1 E2 E3] & A3 & A4 & A5), Hl as [L1 L2 L3 L4 L5]. assert (E : delete p (info s1) = delete p (info s)) by (by rewrite A4, delete_insert_eq).
    split; rewrite ?E1, ?E2, ?E3, ?E; try done. by eapply coh_world. }
  destruct (rw_block_read s1 p y C Hl1) as (s2 & Hr2 & B1 & B2 & B3 & B4 & B5). destruct Hf as (A1 & A2 & A3 & A4 & A5).
  eexists s2, _. split; [done|]. split; [split_and!; [congruence|congruence|intros; by rewrite B3, A3|by rewrite B4, A4, insert_insert_eq|done]|]. split_and!; try done. intros _. by right.
Qed.

Lemma lru_ok_ext s s' L : links s' = links s → lru_ok s L → lru_ok s' L.
Proof. intros [= E1 E2 _ E3 E4 _ _] [H1 H2 H3]. split; rewrite ?E1, ?E2, ?E3, ?E4; done. Qed.

Lemma user_slots s s' : (∀ q, user <$> info s' !! q = user <$> info s !! q) → slots_ok s → slots_ok s'.
Proof.
  intros E Hs q. rewrite <- (Hs q), <- !info_some. specialize (E q). destruct (info s' !! q), (info s !! q); simplify_eq/=; split; intros []; eauto.
Qed.

Lemma user_inv (o o' : option buf) : user <$> o' = user <$> o →
  b_blocknr <$> o' = b_blocknr <$> o ∧ (∀ x', o' = Some x' → ∃ x, o = Some x ∧ b_dev x = b_dev x' ∧ b_blocknr x = b_blocknr x' ∧ b_count x = b_count x') ∧
  (is_Some o' ↔ is_Some o).
Proof.
  destruct o as [x|], o' as [x'|]; try done. intros [= _ E1 E2 E3]. cbn. split; [congruence|]. split; [|split; eauto]. intros ? [= <-]. eauto.
Qed.

(** The structure with the first buffer of the LRU chain taken. *)
Lemma struct_take s s' p L H H' y : struct_inv s (p :: L) H → lru_ok s' L → hash_ok s' H' None → two_ok (nr_buf2 s') (buf2_idx s') (buf2s s') →
  bufs_in_use s' = bufs_in_use s + 1 → info s' !! p = Some y → b_count y = 1 → (∀ q, q ≠ p → user <$> info s' !! q = user <$> info s !! q) →
  struct_inv s' L H'.
Proof.
  intros [Hsl Hlru Hfree Hcnt Huse _ _] Hl Hh Ht Hu Hy Hc Hrest. pose proof (lo_nd _ _ Hlru) as [Hpl _]%NoDup_cons. split; try done.
  - intros q. rewrite <- (Hsl q), <- !info_some. destruct (decide (q = p)) as [->|Hq]; [|apply (user_inv _ _ (Hrest q Hq))].
    split; [intros _|rewrite Hy; eauto]. apply info_some. eapply lru_member; [done|]. by left.
  - intros q u Hu'. destruct (decide (q = p)) as [->|Hq]; [rewrite Hy in Hu'; injection Hu' as ->; split; [done|lia]|].
    destruct (user_inv _ _ (Hrest q Hq)) as (_ & Hb & _). destruct (Hb u Hu') as (v & Hv & _ & _ & <-). rewrite <- (Hfree q v Hv), elem_of_cons. tauto.
  - intros q u Hu'. destruct (decide (q = p)) as [->|Hq]; [rewrite Hy in Hu'; injection Hu' as ->; lia|].
    destruct (user_inv _ _ (Hrest q Hq)) as (_ & Hb & _). destruct (Hb u Hu') as (v & Hv & _ & _ & <-). by apply (Hcnt q).
  - rewrite Hu, Huse. cbn [length]. lia.
Qed.

(** What a call that takes a buffer for block [b] of device [d] leaves behind. *)
Record taken s s' (p d b : Z) (L : list Z) C : Prop := {
  tk_struct : ∃ H, struct_inv s' L H;
  tk_nr : nr_buf2 s' = nr_buf2 s;
  tk_holds : holds_but s' p C;
  tk_new : ¬ cached (delete p (info s')) d b;
  tk_rest q : q ≠ p → user <$> info s' !! q = user <$> info s !! q;
}.

Lemma get_oldest_spec s p L H C d b only : struct_inv s (p :: L) H → holds s C → valid (nr_buf2 s) d b → ¬ cached (info s) d b → only ∈ [NORMAL; NO_READ; PREFETCH] →
  ∃ s' y, get_oldest d b only s = Ok s' p ∧ taken s s' p d b L C ∧ bufs s' !! p = Some y ∧ b_blocknr y = b ∧ b_count y = 1 ∧
    (only = NO_READ → b_dev y = d) ∧ (only = NORMAL → b_dev y = d) ∧ (only ≠ NO_READ → b_dev y = NO_DEV ∨ b_dev y = d ∧ b_data y = C d b).
Proof.
  intros Hst Hc Hv Hnew Ho. pose proof Hst as [Hsl Hlru Hfree _ _ Hhash Htwo]. unfold get_oldest. frun.
  assert (Hfr : front s = Some p) by apply (lo_nxt _ _ Hlru). rewrite Hfr.
  destruct (rm_lru_spec s [] p L Hlru) as (s1 & Hr1 & Hlru1 & (F1 & F2 & F3) & U1). rewrite (bind_ok _ _ _ _ _ Hr1). pose proof F3 as [= G1 G2 G3 G4 G5].
  assert (Hh1 : hash_ok s1 H None) by (apply (hash_ok_ext s); [done..|by intros; rewrite F2|done]). pose proof (frame_slots _ _ F2 Hsl) as Hsl1.
  destruct (lru_member _ _ p Hlru) as [x0 Hx0]; [set_solver|]. pose proof (info_lookup _ _ _ Hx0) as Hx. rewrite <- F2 in Hx.
  destruct (hash_unlink_spec s1 H p _ Hsl1 Hh1 Hx) as (s2 & H2 & Hr2 & Hh2 & (K1 & K2 & K3 & K4 & K5 & K6 & K7)). rewrite (bind_ok _ _ _ _ _ Hr2). pose proof K7 as [= M1 M2 M3 M4].
  assert (Hc2 : holds s2 C) by (unfold holds; by rewrite K5, F2, M1, M2, M3, M4, G2, G3, G4, G5).
  destruct (evict_spec s2 p (erase x0) C Hc2) as (s3 & Hr3 & A1 & A2 & A3 & A4 & A5); [by rewrite M1, M2, M3, G2, G3, G4|by eapply frame_slots|by rewrite K5|].
  rewrite (bind_ok _ _ _ _ _ Hr3). assert (Hus : ∀ q, user <$> info s3 !! q = user <$> info s !! q) by (intros; by rewrite A5, K5, F2).
  pose proof (user_slots _ _ Hus Hsl) as Hsl3. destruct (proj2 (Hsl3 p)) as [y3 Hy3]; [apply Hsl; eauto|].
  assert (Hcnt3 : b_count y3 = 0).
  { specialize (Hus p). rewrite (info_lookup _ _ _ Hy3), <- F2, Hx in Hus. cbn in Hus. injection Hus as _ _ _ ->. rewrite F2 in Hx. apply (Hfree p (erase x0)); [done|by left]. }
  set (f := λ x : buf, x <| b_dev := d |> <| b_blocknr := b |> <| b_count ::= λ n, s8 (n + 1) |>).
  destruct (set_info s3 p y3 f Hy3) as (s4 & Hr4 & B1 & B2 & B3 & B4 & B5); try done. rewrite (bind_ok _ _ _ _ _ Hr4). pose proof B2 as [= N1 N2 N3].
  pose proof B1 as [= P1 P2 P3 P4 P5 P6 P7]. pose proof A1 as [= Q1 Q2 Q3 Q4 Q5 Q6 Q7].
  assert (Hdel : delete p (info s4) = delete p (info s3)) by (by rewrite B4, delete_insert_eq).
  assert (Hh4 : hash_ok s4 H2 (Some p)).
  { apply (hash_ok_ext s2); [congruence..| |done]. intros q Hq. rewrite B4, lookup_insert_ne by congruence. apply (user_inv _ _ (A5 q)). }
  pose proof (info_lookup _ _ _ B5) as Hp4. destruct (hash_link_spec s4 H2 p _ Hh4 Hp4) as (s5 & H5 & Hr5 & Hh5 & (R1 & R2 & R3 & R4 & R5 & R6 & R7)).
  change (b_blocknr (erase (f y3))) with b in Hr5. unfold hash_of in Hr5. rewrite (bind_ok _ _ _ _ _ Hr5). pose proof R7 as [= S1 S2 S3 S4].
  assert (Hnr : nr_buf2 s5 = nr_buf2 s) by congruence.
  destruct (info_inv s5 p (erase (f y3))) as (z & Hz & Ez); [by rewrite R5|]. assert (Hzu : user z = user (f y3)) by (change (user (erase z) = user (erase (f y3))); by rewrite Ez).
  injection Hzu as Hzd Hzv Hzb Hzc. cbn in Hzv, Hzb.
  assert (Hd5 : delete p (info s5) = delete p (info s3)) by (by rewrite R5).
  assert (Hcnew : ¬ cached (delete p (info s3)) d b).
  { intros (q & u & [_ Hu]%lookup_delete_Some & Ed & Eb). destruct (user_inv _ _ (Hus q)) as (_ & Hb & _). destruct (Hb u Hu) as (v & Ev & E1 & E2 & _).
    apply Hnew. exists q, v. split; [done|]. split; congruence. }
  assert (E5 : buf2s s5 = buf2s s3 ∧ nr_buf2 s5 = nr_buf2 s3 ∧ buf2_idx s5 = buf2_idx s3 ∧ wld s5 = wld s3) by (split_and!; congruence). destruct E5 as (V1 & V2 & V3 & V4).
  assert (Hl5 : labelled s5 p z C).
  { split; [done|..]; rewrite ?Hzv, ?Hzb, ?Hd5; [by rewrite Hnr|done|by rewrite V1, V2, V3|by rewrite V1, V2, V3, V4]. }
  destruct (fill_spec s5 p z C only Hl5 Ho) as (s6 & y & Hr6 & (W1 & W2 & W3 & W4 & W5) & X1 & X2 & X3 & X4 & X5). rewrite Hzv, Hzb in *.
  exists s6, y. rewrite (bind_ok _ _ _ _ _ Hr6). split; [done|]. pose proof W2 as [= Y1 Y2 Y3]. pose proof W1 as [= Z1 Z2 Z3 Z4 Z5 Z6 Z7].
  assert (Hc1 : b_count y = 1) by (rewrite X2, Hzc; cbn; by rewrite Hcnt3).
  assert (Hrest : ∀ q, q ≠ p → user <$> info s6 !! q = user <$> info s !! q).
  { intros q Hq. rewrite W4, lookup_insert_ne, R5, B4, lookup_insert_ne by done. apply Hus. }
  assert (Hd6 : delete p (info s6) = delete p (info s3)) by (by rewrite W4, delete_insert_eq).
  split; [|by split_and!]. split; [exists H5; apply (struct_take s s6 p L H H5 (erase y)); try done| | | |done].
  - destruct Hlru1 as [T1 T2 T3]. split; [..|done]; [replace (nxt s6) with (nxt s1) by congruence; by replace (front s6) with (front s1) by congruence|].
    replace (prv s6) with (prv s1) by congruence. by replace (rear s6) with (rear s1) by congruence.
  - apply (hash_ok_ext s5); [done..| |done]. intros q _. rewrite W4. destruct (decide (q = p)) as [->|]; [|by rewrite lookup_insert_ne].
    rewrite lookup_insert_eq, (info_lookup _ _ _ Hz). cbn. by rewrite X1, Hzb.
  - by rewrite Y1, Y2, Y3, V1, V2, V3.
  - congruence.
  - by rewrite W4, lookup_insert_eq.
  - congruence.
  - unfold holds_but. rewrite Hd6, Y1, Y2, Y3, V1, V2, V3. eapply coh_world; [|done]. intros. by rewrite W3, V4.
  - by rewrite Hd6.
Qed.
End blocks.

(** ** The operations of the cache *)
Section ops.
Context {D : Driver} {RD : Reliable D}.
Implicit Types s : cache.
Implicit Types C : Z → Z → block_data.

(** Transfers and stores keep the structure. *)
Lemma struct_ext s s' L H : links s' = links s → two s' = two s →
  (∀ q, (λ x, (b_blocknr x, b_count x)) <$> info s' !! q = (λ x, (b_blocknr x, b_count x)) <$> info s !! q) →
  struct_inv s L H → struct_inv s' L H.
Proof.
  intros E1 E2 Hi [H1 H2 H3 H4 H5 H6 H7]. pose proof E1 as [= P1 P2 P3 P4 P5 P6 P7]. pose proof E2 as [= Q1 Q2 Q3].
  assert (Hb : ∀ q x', info s' !! q = Some x' → ∃ x, info s !! q = Some x ∧ b_blocknr x = b_blocknr x' ∧ b_count x = b_count x').
  { intros q x' Hx. specialize (Hi q). rewrite Hx in Hi. destruct (info s !! q) as [x|]; simplify_eq/=. eauto. }
  split.
  - intros q. rewrite <- (H1 q), <- !info_some. specialize (Hi q). destruct (info s' !! q), (info s !! q); simplify_eq/=; split; intros []; eauto.
  - by eapply lru_ok_ext.
  - intros q x' (x & Hx & _ & <-)%Hb. by apply H3.
  - intros q x' (x & Hx & _ & <-)%Hb. by eapply H4.
  - congruence.
  - apply (hash_ok_ext s); [done..| |done]. intros q _. specialize (Hi q). destruct (info s' !! q), (info s !! q); simplify_eq/=; congruence.
  - by rewrite Q1, Q2, Q3.
Qed.

(** Counts do not matter for what the cache holds. *)
Definition stored (x : buf) := (b_data x, b_dev x, b_blocknr x, b_dirt x).

Lemma coh_ext nr idx I I' B2 w C : (∀ q, stored <$> I' !! q = stored <$> I !! q) → coh nr idx I B2 w C → coh nr idx I' B2 w C.
Proof.
  intros Hi [Hv Hd Hu Hk Ht].
  assert (Hb : ∀ q x', I' !! q = Some x' → ∃ x, I !! q = Some x ∧ b_data x = b_data x' ∧ b_dev x = b_dev x' ∧ b_blocknr x = b_blocknr x' ∧ b_dirt x = b_dirt x').
  { intros q x' Hx. specialize (Hi q). rewrite Hx in Hi. destruct (I !! q) as [x|]; unfold stored in *; simplify_eq/=. eauto 10. }
  assert (Hf : ∀ q x, I !! q = Some x → ∃ x', I' !! q = Some x' ∧ b_dev x' = b_dev x ∧ b_blocknr x' = b_blocknr x ∧ b_dirt x' = b_dirt x).
  { intros q x Hx. specialize (Hi q). rewrite Hx in Hi. destruct (I' !! q) as [x'|]; unfold stored in *; simplify_eq/=. eauto 10. }
  split.
  - intros q x' (x & Hx & _ & <- & <- & _)%Hb. by apply (Hv q).
  - intros q x' (x & Hx & <- & <- & <- & _)%Hb. by apply (Hd q).
  - intros q x' r y' (x & Hx & _ & <- & <- & _)%Hb (y & Hy & _ & <- & <- & _)%Hb. by apply (Hu q x r y).
  - intros d b Hval Hcl. apply Hk; [done|]. intros q x (x' & Hx' & <- & <- & <-)%Hf. by apply Hcl with q.
  - intros d b i Hnr Hval Hfi Hnc. eapply Ht; try done. intros (q & x & (x' & Hx' & <- & <- & _)%Hf & E). apply Hnc. by exists q, x'.
Qed.

(** The search of the hash chain decides whether the block is cached. *)
Lemma lookup_spec s L H d b : struct_inv s L H →
  ∃ q r, buf_hash s !! hash_of b = Some q ∧ hash_find chain_fuel q d b s = Ok s r ∧
    match r with
    | Some p => ∃ x, bufs s !! p = Some x ∧ b_dev x = d ∧ b_blocknr x = b
    | None => ¬ cached (info s) d b
    end.
Proof.
  intros [H1 _ _ _ _ H6 _]. pose proof (hash_range b) as Hh. destruct (ho_chain _ _ _ H6 _ Hh) as (q & Hq & Hc).
  destruct (hash_find_spec s chain_fuel q _ d b Hc (chain_short _ _ _ _ H1 H6 Hh)) as (r & Hr & Hs). exists q, r. split; [done|]. split; [done|].
  destruct r as [p|]; [destruct Hs as (_ & x & ? & ? & ?); eauto|]. intros (p & x & Hx & Hd & Hb). destruct (info_inv _ _ _ Hx) as (y & Hy & <-).
  apply (Hs p y); [|done..]. apply (ho_on _ _ _ H6 _ _ Hh). split; [done|]. exists (erase y). split; [done|]. by rewrite <- Hb.
Qed.

Lemma get_block_miss s L H C d b only : struct_inv s L H → holds s C → valid (nr_buf2 s) d b → ¬ cached (info s) d b →
  get_block d b only s = get_oldest d b only s.
Proof.
  intros Hs Hc Hv Hn. unfold get_block. destruct (Z.eqb_spec d NO_DEV) as [->|_]; [by destruct Hv|]. cbn [negb].
  destruct (lookup_spec s L H d b Hs) as (q & r & Hq & Hr & Hm). unfold hash_of in Hq. frun. rewrite (bind_ok _ _ _ _ _ Hr).
  destruct r as [p|]; [|done]. destruct Hm as (x & Hx & Hd & Hb). destruct Hn. exists p, (erase x). by split; [apply info_lookup|].
Qed.

(** A block that is in the cache gets one more user. *)
Lemma get_block_hit s L H C d b only p x : struct_inv s L H → holds s C → d ≠ NO_DEV → bufs s !! p = Some x → b_dev x = d → b_blocknr x = b → b_count x < 127 →
  ∃ s' L', get_block d b only s = Ok s' p ∧ struct_inv s' L' H ∧ nr_buf2 s' = nr_buf2 s ∧ holds s' C ∧
    info s' = <[p := erase (x <| b_count := b_count x + 1 |>)]> (info s) ∧ (p ∉ L → L' = L).
Proof.
  intros Hs Hc Hd Hx Ed Eb Hlt. unfold get_block. rewrite (proj2 (Z.eqb_neq _ _) Hd). cbn [negb].
  destruct (lookup_spec s L H d b Hs) as (q & r & Hq & Hr & Hm). unfold hash_of in Hq. frun. rewrite (bind_ok _ _ _ _ _ Hr).
  pose proof (info_lookup _ _ _ Hx) as Hix.
  destruct r as [p'|]; [|destruct Hm; by exists p, (erase x)]. destruct Hm as (x' & Hx' & Ed' & Eb').
  assert (p = p') as <- by (eapply (c_uniq _ _ _ _ _ _ Hc p (erase x) p' (erase x')); [done|by apply info_lookup|cbn; congruence..]). simplify_eq.
  frun. pose proof (ci_count _ _ _ Hs _ _ Hix) as Hcnt. cbn in Hcnt.
  assert (∃ s1 L1, (if b_count x =? 0 then rm_lru p else mret ()) s = Ok s1 () ∧ lru_ok s1 L1 ∧ lru_frame s s1 ∧ bufs_in_use s1 = NR_BUFS - Z.of_nat (length L1) ∧
    (∀ q, q ∈ L1 ↔ q ∈ L ∧ q ≠ p) ∧ (p ∉ L → L1 = L)) as (s1 & L1 & Hr1 & A1 & (A2 & A3 & A4) & A5 & A6 & A7).
  { pose proof (ci_free _ _ _ Hs p _ Hix) as Hf. cbn in Hf. destruct (Z.eqb_spec (b_count x) 0) as [E|E].
    - assert (Hp : p ∈ L) by by apply Hf. apply list_elem_of_split in Hp as (l1 & l2 & ->).
      destruct (rm_lru_spec s l1 p l2 (ci_lru _ _ _ Hs)) as (s1 & Hr1 & B1 & B2 & B3). exists s1, (l1 ++ l2).
      pose proof (lo_nd _ _ (ci_lru _ _ _ Hs)) as Hnd. rewrite <- Permutation_middle in Hnd. apply NoDup_cons in Hnd as [Hnd _].
      split; [done|]. split; [done|]. split; [done|]. split; [rewrite B3, (ci_use _ _ _ Hs), !length_app; cbn; lia|]. split.
      + intros q0. rewrite !elem_of_app, elem_of_cons. split; [|tauto]. intros Hq0. split; [tauto|]. intros ->. apply Hnd. by rewrite elem_of_app.
      + intros []. rewrite elem_of_app, elem_of_cons. tauto.
    - exists s, L. split_and!; try done; [apply Hs|apply Hs|]. intros q0. split; [|tauto]. intros Hq0. split; [done|]. intros ->. tauto. }
  rewrite (bind_ok _ _ _ _ _ Hr1). destruct (info_inv s1 p (erase x)) as (y & Hy & Ey); [by rewrite A3|]. pose proof A4 as [= G1 G2 G3 G4 G5].
  set (f := λ x : buf, x <| b_count ::= λ n, s8 (n + 1) |>). destruct (set_info s1 p y f Hy) as (s2 & Hr2 & B1 & B2 & B3 & B4 & B5); try done.
  rewrite (bind_ok _ _ _ _ _ Hr2). exists s2, L1. split; [done|]. pose proof B2 as [= N1 N2 N3]. pose proof B1 as [= P1 P2 P3 P4 P5 P6 P7].
  assert (Ei : info s2 = <[p := erase (x <| b_count := b_count x + 1 |>)]> (info s)).
  { rewrite B4, A3. f_equal. replace (erase (f y)) with (f (erase y)) by done. rewrite Ey. unfold f, upd. cbn. unfold erase, upd. cbn. f_equal. unfold s8. rewrite Z.mod_small; lia. }
  split; [|split; [congruence|split; [|done]]].
  - split.
    + intros q0. rewrite <- (ci_slots _ _ _ Hs q0), <- !info_some, Ei. destruct (decide (q0 = p)) as [->|]; [rewrite lookup_insert_eq, Hix; split; eauto|by rewrite lookup_insert_ne].
    + by eapply lru_ok_ext.
    + intros q0 z. rewrite Ei, A6. destruct (decide (q0 = p)) as [->|Hne]; [rewrite lookup_insert_eq; intros [= <-]; cbn; split; [tauto|lia]|].
      rewrite lookup_insert_ne by done. intros Hz. rewrite (ci_free _ _ _ Hs q0 z Hz). tauto.
    + intros q0 z. rewrite Ei. destruct (decide (q0 = p)) as [->|Hne]; [rewrite lookup_insert_eq; intros [= <-]; cbn; lia|]. rewrite lookup_insert_ne by done. apply (ci_count _ _ _ Hs).
    + congruence.
    + apply (hash_ok_ext s); [congruence..| |apply Hs]. intros q0 _. rewrite Ei. destruct (decide (q0 = p)) as [->|]; [by rewrite lookup_insert_eq, Hix|by rewrite lookup_insert_ne].
    + rewrite N1, N2, N3, G2, G3, G4. apply Hs.
  - unfold holds. rewrite N1, N2, N3, G2, G3, G4, B3, G5, Ei. eapply coh_ext; [|exact Hc]. intros q0.
    destruct (decide (q0 = p)) as [->|]; [by rewrite lookup_insert_eq, Hix|by rewrite lookup_insert_ne].
Qed.

(** A user gives a buffer back. *)
Lemma put_block_spec s L H C p x ty : struct_inv s L H → holds s C → bufs s !! p = Some x → 0 < b_count x →
  ∃ s' L', put_block (Some p) ty s = Ok s' () ∧ struct_inv s' L' H ∧ nr_buf2 s' = nr_buf2 s ∧ holds s' C ∧
    (∀ q, user <$> info s' !! q = user <$> (<[p := erase (x <| b_count := b_count x - 1 |>)]> (info s)) !! q).
Proof.
  intros Hs Hc Hx Hpos. pose proof (info_lookup _ _ _ Hx) as Hix. pose proof (ci_count _ _ _ Hs _ _ Hix) as Hcnt. cbn in Hcnt.
  assert (HpL : p ∉ L) by (rewrite (ci_free _ _ _ Hs _ _ Hix); cbn; lia).
  set (f := λ x : buf, x <| b_count ::= λ n, s8 (n - 1) |>). destruct (set_info s p x f Hx) as (s1 & Hr1 & A1 & A2 & A3 & A4 & A5); try done.
  assert (Ef : f x = x <| b_count := b_count x - 1 |>).
  { unfold f, upd. cbn. f_equal. unfold s8. rewrite Z.mod_small; lia. }
  pose proof A2 as [= N1 N2 N3]. pose proof A1 as [= P1 P2 P3 P4 P5 P6 P7].
  assert (Hh1 : hash_ok s1 H None).
  { apply (hash_ok_ext s); [done..| |apply Hs]. intros q _. rewrite A4. destruct (decide (q = p)) as [->|]; [by rewrite lookup_insert_eq, Hix|by rewrite lookup_insert_ne]. }
  assert (Hc1 : holds s1 C).
  { unfold holds. rewrite N1, N2, N3, A3, A4. eapply coh_ext; [|exact Hc]. intros q. destruct (decide (q = p)) as [->|]; [by rewrite lookup_insert_eq, Hix|by rewrite lookup_insert_ne]. }
  assert (Hsl1 : slots_ok s1).
  { intros q. rewrite <- (ci_slots _ _ _ Hs q), <- !info_some, A4. destruct (decide (q = p)) as [->|]; [rewrite lookup_insert_eq, Hix; split; eauto|by rewrite lookup_insert_ne]. }
  unfold put_block. rewrite (bind_ok _ _ _ _ _ Hr1). frun. rewrite Ef in *. cbn [b_count]. cbn. destruct (Z.eqb_spec (b_count x - 1) 0) as [E|E]; cbn [negb].
  2: { exists s1, L. split; [done|]. split; [|split; [done|split; [done|by rewrite A4]]]. split; try done.
    - by eapply lru_ok_ext; [|apply Hs].
    - intros q z. rewrite A4. destruct (decide (q = p)) as [->|]; [rewrite lookup_insert_eq; intros [= <-]; cbn; split; [done|lia]|rewrite lookup_insert_ne by done; apply Hs].
    - intros q z. rewrite A4. destruct (decide (q = p)) as [->|]; [rewrite lookup_insert_eq; intros [= <-]; cbn; lia|rewrite lookup_insert_ne by done; apply Hs].
    - rewrite P7. apply Hs.
    - rewrite N1, N2, N3. apply Hs. }
  set (s2 := upd bufs_in_use Z.pred s1). frun. change (upd bufs_in_use Z.pred s1) with s2.
  assert (Hl2 : lru_ok s2 L) by (destruct (lru_ok_ext s s1 L A1 (ci_lru _ _ _ Hs)); by split).
  destruct (lru_release_spec s2 L p ty Hl2 HpL) as (s3 & Hr3 & B1 & (B2 & B3 & B4) & B5); [exists (x <| b_count := b_count x - 1 |>); exact A5|].
  rewrite (bind_ok _ _ _ _ _ Hr3). set (L3 := if TEST_BIT ty ONE_SHOT then p :: L else L ++ [p]) in *. pose proof B4 as [= G1 G2 G3 G4 G5].
  assert (HL3 : ∀ q, q ∈ L3 ↔ q = p ∨ q ∈ L) by (intros q; unfold L3; destruct (TEST_BIT _ _); set_solver).
  assert (Hlen : length L3 = S (length L)) by (unfold L3; destruct (TEST_BIT _ _); rewrite ?length_app; cbn; lia).
  assert (Hi3 : info s3 = info s1) by done. assert (Hc3 : holds s3 C) by (unfold holds; rewrite Hi3, G2, G3, G4, G5; exact Hc1).
  assert (Hs3 : struct_inv s3 L3 H).
  { split.
    - by eapply frame_slots.
    - done.
    - intros q z. rewrite Hi3, A4, HL3. destruct (decide (q = p)) as [->|Hne]; [rewrite lookup_insert_eq; intros [= <-]; cbn; split; [done|by left]|].
      rewrite lookup_insert_ne by done. intros Hz. rewrite <- (ci_free _ _ _ Hs q z Hz). tauto.
    - intros q z. rewrite Hi3, A4. destruct (decide (q = p)) as [->|Hne]; [rewrite lookup_insert_eq; intros [= <-]; cbn; lia|]. rewrite lookup_insert_ne by done. apply Hs.
    - rewrite B5, Hlen. change (bufs_in_use s2) with (Z.pred (bufs_in_use s1)). rewrite P7, (ci_use _ _ _ Hs). lia.
    - by apply (hash_ok_ext s1); [..|rewrite Hi3|].
    - rewrite G2, G3, G4. change (two_ok (nr_buf2 s1) (buf2_idx s1) (buf2s s1)). rewrite N1, N2, N3. apply Hs. }
  destruct (info_inv s3 p (erase (x <| b_count := b_count x - 1 |>))) as (y & Hy & Ey); [rewrite Hi3, A4; apply lookup_insert_eq|]. frun.
  destruct (TEST_BIT ty WRITE_IMMED && (b_dirt y =? DIRTY) && negb (b_dev y =? NO_DEV)) eqn:Ew.
  - apply andb_true_iff in Ew as [_ Hd%negb_true_iff%Z.eqb_neq]. destruct (rw_block_write s3 p (erase y) C Hc3 (info_lookup _ _ _ Hy) Hd) as (s4 & Hr4 & K1 & K2 & K3 & K4).
    pose proof K2 as [= M1 M2 M3]. exists s4, L3. split; [done|].
    assert (Hal : ∀ {A} (g : buf → A) q, (∀ z, g (clean z) = g z) → g <$> info s4 !! q = g <$> info s3 !! q).
    { intros A g q Hg. rewrite K3. destruct (decide (q = p)) as [->|Hq]; [rewrite lookup_alter_eq|by rewrite lookup_alter_ne]. destruct (info s3 !! p); cbn; by rewrite ?Hg. }
    split; [eapply (struct_ext s3); [done|done| |done]; intros q; by apply Hal|]. split; [rewrite M2, G3; done|]. split; [unfold holds; by rewrite M1, M2, M3|].
    intros q. rewrite Hal by done. by rewrite Hi3, A4.
  - exists s3, L3. split; [done|]. split; [done|]. split; [rewrite G3; done|]. split; [done|]. by rewrite Hi3, A4.
Qed.

(** A user stores into the whole buffer and marks it dirty. *)
Definition write_buf (p : Z) (v : block_data) : M cache unit := st_buf p (λ x, x <| b_data := v |> <| b_dirt := DIRTY |>).

Lemma write_buf_spec s L H C p x v : struct_inv s L H → bufs s !! p = Some x → valid (nr_buf2 s) (b_dev x) (b_blocknr x) →
  ¬ cached (delete p (info s)) (b_dev x) (b_blocknr x) → holds s C ∨ holds_but s p C →
  ∃ s', write_buf p v s = Ok s' () ∧ struct_inv s' L H ∧ nr_buf2 s' = nr_buf2 s ∧ holds s' (cset C (b_dev x) (b_blocknr x) v) ∧
    info s' = <[p := erase (x <| b_data := v |> <| b_dirt := DIRTY |>)]> (info s).
Proof.
  intros Hs Hx Hv Hn Hor. pose proof (info_lookup _ _ _ Hx) as Hix. unfold write_buf.
  destruct (set_info s p x (λ x, x <| b_data := v |> <| b_dirt := DIRTY |>) Hx) as (s1 & Hr1 & A1 & A2 & A3 & A4 & A5); try done.
  pose proof A2 as [= N1 N2 N3]. exists s1. split; [done|]. split; [|split; [done|split; [|done]]].
  - eapply (struct_ext s); try done. intros q. rewrite A4. destruct (decide (q = p)) as [->|]; [by rewrite lookup_insert_eq, Hix|by rewrite lookup_insert_ne].
  - unfold holds. rewrite N1, N2, N3, A3, A4. apply coh_store; try done. destruct Hor as [Hc|Hc]; [left; split; [done|]; by exists (erase x)|by right].
Qed.

(** Nothing else in the cache shares the block of a buffer. *)
Lemma not_twice s C p x : holds s C → info s !! p = Some x → b_dev x ≠ NO_DEV → ¬ cached (delete p (info s)) (b_dev x) (b_blocknr x).
Proof. intros Hc Hx Hd (q & y & [Hne Hy]%lookup_delete_Some & E1 & E2). by destruct Hne; apply (c_uniq _ _ _ _ _ _ Hc p x q y). Qed.
End ops.
