(* ===== verification/FsSpec.v ===== *)
(** * The specification of the buffer cache

    The buffer cache as the rest of the file server sees it: a store of blocks
    and the buffers in use.  [cache_refines] proves that the code implements it
    for every client, from the tables that [buf_pool] sets up on. *)

From stdpp Require Import base gmap strings pretty numbers fin_maps functions list sorting.
From S2P Require Import Prelude FsCache FsChains FsCoherence.
Local Open Scope Z_scope.

(** ** What the cache promises

    The rest of the server sees a store of blocks, [a_disk], and the buffers it
    uses, [a_pins]: device, block number and number of users. *)
Section spec.
Context {D : Driver} {RD : Reliable D}.
Implicit Types s : cache.

Record acache := mk_acache {
  a_disk : Z → Z → block_data;
  a_pins : gmap Z (Z * Z * Z);
}.

(** The calls of a client: read a block, get a block to overwrite it, store into
    a buffer it uses, give one back, and write a device's blocks back. *)
Inductive cop :=
  | CRead (d b : Z)
  | CFresh (d b : Z) (v : block_data)
  | CWrite (p : Z) (v : block_data)
  | CPut (p : Z) (ty : Z)
  | CSync (d : Z).

Definition reply : Type := option (Z * block_data).

Definition run_cop (op : cop) : M cache reply :=
  match op with
  | CRead d b => p ← get_block d b NORMAL; x ← ld_buf p; mret (Some (p, b_data x))
  | CFresh d b v => p ← get_block d b NO_READ; write_buf p v;; mret (Some (p, v))
  | CWrite p v => write_buf p v;; mret None
  | CPut p ty => put_block (Some p) ty;; mret None
  | CSync d => flushall d;; mret None
  end.

Definition pinned (a : acache) (d b : Z) : Prop := ∃ p n, a_pins a !! p = Some (d, b, n).

(** [p] becomes a buffer of the block with one more user: the one that has it, or
    one nobody uses. *)
Definition pick (a : acache) (d b p n : Z) : Prop :=
  a_pins a !! p = Some (d, b, n) ∨ a_pins a !! p = None ∧ ¬ pinned a d b ∧ n = 0.

Inductive astep : cop → acache → acache → reply → Prop :=
  | A_read d b a p n : pick a d b p n →
      astep (CRead d b) a (mk_acache (a_disk a) (<[p := (d, b, n + 1)]> (a_pins a))) (Some (p, a_disk a d b))
  | A_fresh d b v a p n : pick a d b p n →
      astep (CFresh d b v) a (mk_acache (cset (a_disk a) d b v) (<[p := (d, b, n + 1)]> (a_pins a))) (Some (p, v))
  | A_write p v a d b n : a_pins a !! p = Some (d, b, n) →
      astep (CWrite p v) a (mk_acache (cset (a_disk a) d b v) (a_pins a)) None
  | A_put p ty a d b n : a_pins a !! p = Some (d, b, n) →
      astep (CPut p ty) a (mk_acache (a_disk a) (if n =? 1 then delete p (a_pins a) else <[p := (d, b, n - 1)]> (a_pins a))) None
  | A_sync d a : astep (CSync d) a a None.

(** What a client may ask for: there is a buffer for a block nobody uses yet, a
    buffer has at most 127 users, and only buffers in use are stored into and
    given back. *)
Definition legal (nr : Z) (a : acache) (op : cop) : Prop :=
  match op with
  | CRead d b | CFresh d b _ =>
      valid nr d b ∧ (∀ p n, a_pins a !! p = Some (d, b, n) → n < 127) ∧ (pinned a d b ∨ Z.of_nat (size (a_pins a)) < NR_BUFS)
  | CWrite p _ | CPut p _ => is_Some (a_pins a !! p)
  | CSync d => d ≠ NO_DEV
  end.

Record repr (nr : Z) s (a : acache) : Prop := {
  r_struct : ∃ L H, struct_inv s L H;
  r_holds : holds s (a_disk a);
  r_nr : nr_buf2 s = nr;
  r_pins p d b n : a_pins a !! p = Some (d, b, n) ↔
    ∃ x, info s !! p = Some x ∧ b_dev x = d ∧ b_blocknr x = b ∧ b_count x = n ∧ 0 < n;
  r_named p d b n : a_pins a !! p = Some (d, b, n) → d ≠ NO_DEV;
}.

Lemma room_lru nr s a L H : repr nr s a → struct_inv s L H → Z.of_nat (size (a_pins a)) < NR_BUFS → ∃ p L', L = p :: L'.
Proof.
  intros HR Hs Hsz. destruct L as [|p L]; [|eauto]. exfalso. apply Z.lt_nge in Hsz. apply Hsz.
  assert (Hsub : (list_to_set (seqZ 0 NR_BUFS) : gset Z) ⊆ dom (a_pins a)).
  { intros p. rewrite elem_of_list_to_set, elem_of_seqZ, elem_of_dom. intros Hp. destruct (proj2 (ci_slots _ _ _ Hs p)) as [x Hx]; [lia|].
    apply info_lookup in Hx. pose proof (ci_free _ _ _ Hs p _ Hx) as Hf. pose proof (ci_count _ _ _ Hs p _ Hx) as Hc.
    exists (b_dev x, b_blocknr x, b_count x). apply (r_pins _ _ _ HR). exists (erase x). split_and!; try done. cbn in *. destruct (decide (b_count x = 0)); [set_solver|lia]. }
  apply subseteq_size in Hsub. rewrite size_list_to_set in Hsub by apply NoDup_seqZ. rewrite length_seqZ, size_dom in Hsub. unfold NR_BUFS in *. lia.
Qed.

(** Getting a buffer for a block, read or not. *)
Lemma get_block_repr nr s a d b only : repr nr s a → legal nr a (CRead d b) → only ∈ [NORMAL; NO_READ] →
  ∃ s' p n x L H, get_block d b only s = Ok s' p ∧ pick a d b p n ∧ struct_inv s' L H ∧ nr_buf2 s' = nr ∧
    info s' !! p = Some x ∧ b_dev x = d ∧ b_blocknr x = b ∧ b_count x = n + 1 ∧ 0 ≤ n ∧
    (only = NORMAL → holds s' (a_disk a) ∧ b_data x = a_disk a d b) ∧ (holds s' (a_disk a) ∨ holds_but s' p (a_disk a)) ∧
    ¬ cached (delete p (info s')) d b ∧
    (∀ q, q ≠ p → user <$> info s' !! q = user <$> info s !! q).
Proof.
  intros HR (Hv & Hlim & Hroom) Ho. destruct (r_struct _ _ _ HR) as (L & H & Hs). pose proof (r_holds _ _ _ HR) as Hc. pose proof (r_nr _ _ _ HR) as Hnr. rewrite <- Hnr in Hv.
  assert (Hd : d ≠ NO_DEV) by apply Hv. destruct (lookup_spec s L H d b Hs) as (q & r & _ & _ & Hm). destruct r as [p|].
  - destruct Hm as (x & Hx & Ed & Eb). pose proof (info_lookup _ _ _ Hx) as Hix. pose proof (ci_count _ _ _ Hs _ _ Hix) as Hcnt. cbn in Hcnt.
    assert (Hpk : pick a d b p (b_count x)).
    { destruct (decide (b_count x = 0)) as [E|E]; [right|left; apply (r_pins _ _ _ HR); exists (erase x); split_and!; try done; cbn; lia].
      split; [|split; [|done]].
      - apply eq_None_not_Some. intros [[[d' b'] n'] (z & Hz & _ & _ & Hzc & ?)%(r_pins _ _ _ HR)]. simplify_eq/=. lia.
      - intros (p' & n' & (z & Hz & E1 & E2 & E3 & E4)%(r_pins _ _ _ HR)). assert (p' = p) as -> by (apply (c_uniq _ _ _ _ _ _ Hc p' z p (erase x)); cbn; congruence). simplify_eq/=. lia. }
    destruct (get_block_hit s L H (a_disk a) d b only p x Hs Hc Hd Hx Ed Eb) as (s' & L' & Hr & A1 & A2 & A3 & A4 & _).
    { destruct Hpk as [Hp|(_ & _ & E)]; [by apply (Hlim p)|lia]. }
    exists s', p, (b_count x). eexists _, L', H. split; [done|]. split; [done|]. split; [done|]. split; [congruence|]. split; [by rewrite A4, lookup_insert_eq|].
    split; [done|]. split; [done|]. split; [done|]. split; [lia|].
    split; [intros _; split; [done|]; cbn; rewrite <- Ed, <- Eb; apply (c_data _ _ _ _ _ _ Hc p _ Hix); cbn; congruence|]. split; [by left|].
    split; [|intros r Hrp; by rewrite A4, lookup_insert_ne]. rewrite A4, delete_insert_eq, <- Ed, <- Eb. apply (not_twice s (a_disk a) p (erase x) Hc Hix). cbn; congruence.
  - assert (Hnp : ¬ pinned a d b) by (intros (p & n & (x & Hx & E1 & E2 & _)%(r_pins _ _ _ HR)); apply Hm; by exists p, x).
    destruct (room_lru nr s a L H HR Hs) as (p & L' & ->); [by destruct Hroom|].
    rewrite (get_block_miss s _ H (a_disk a)) by done.
    destruct (get_oldest_spec s p L' H (a_disk a) d b only Hs Hc Hv Hm) as (s' & y & Hr & [(H' & Hst) Hn' Hb Hnew Hrest] & Hy & Eb & Ec & X1 & X2 & X3); [set_solver|].
    pose proof (info_lookup _ _ _ Hy) as Hiy. assert (Ed : b_dev y = d) by (apply elem_of_cons in Ho as [->|Ho]; [by apply X2|apply X1; set_solver]).
    exists s', p, 0, (erase y), L', H'. split; [done|]. split; [right; split; [|done]|].
    { apply eq_None_not_Some. intros [[[d' b'] n'] (z & Hz & _ & _ & Hzc & ?)%(r_pins _ _ _ HR)]. pose proof (proj1 (ci_free _ _ _ Hs p z Hz) ltac:(set_solver)). lia. }
    split; [done|]. split; [congruence|]. split; [done|]. split; [done|]. split; [done|]. split; [cbn; lia|]. split; [lia|].
    split; [|split; [by right|done]]. intros ->. destruct X3 as [E|[_ Edat]]; [done|congruence|]. split; [|done].
    assert (Ei : info s' = <[p := erase y]> (info s')) by (symmetry; by apply insert_id). unfold holds. rewrite Ei. apply coh_insert; [done|]. cbn. rewrite Ed, Eb. intros _. split; [by rewrite Hn'|done].
Qed.

(** Only the pin of [p] changes. *)
Lemma repr_pins nr s s' a C' pins' p : repr nr s a → (∃ L H, struct_inv s' L H) → holds s' C' → nr_buf2 s' = nr →
  (∀ q, q ≠ p → user <$> info s' !! q = user <$> info s !! q) → (∀ q, q ≠ p → pins' !! q = a_pins a !! q) →
  (∀ d b n, pins' !! p = Some (d, b, n) ↔ ∃ x, info s' !! p = Some x ∧ b_dev x = d ∧ b_blocknr x = b ∧ b_count x = n ∧ 0 < n) →
  (∀ d b n, pins' !! p = Some (d, b, n) → d ≠ NO_DEV) → repr nr s' (mk_acache C' pins').
Proof.
  intros HR Hst Hc Hnr Hus Hpins Hp Hd. split; [done..| |]; cbn; intros q d b n; (destruct (decide (q = p)) as [->|Hq]; [first [apply Hp|apply Hd]|rewrite Hpins by done]); [|apply (r_named _ _ _ HR)].
  rewrite (r_pins _ _ _ HR). specialize (Hus q Hq). destruct (info s' !! q) as [x'|], (info s !! q) as [x|]; unfold user in *; simplify_eq/=; [|naive_solver].
  split; intros (z & [= <-] & ?); eexists; (split; [reflexivity|]); naive_solver congruence.
Qed.

Lemma pin_buf nr s a p d b n : repr nr s a → a_pins a !! p = Some (d, b, n) →
  ∃ x, bufs s !! p = Some x ∧ b_dev x = d ∧ b_blocknr x = b ∧ b_count x = n ∧ 0 < n ∧ valid nr d b ∧ ¬ cached (delete p (info s)) d b.
Proof.
  intros HR Hp. pose proof (r_named _ _ _ HR _ _ _ _ Hp) as Hd. pose proof (r_holds _ _ _ HR) as Hc. apply (r_pins _ _ _ HR) in Hp as (x & Hx & Ed & Eb & Ec & Hn).
  pose proof (info_inv _ _ _ Hx) as (y & Hy & <-). cbn in Ed, Eb, Ec. subst. exists y. split_and!; try done.
  - rewrite <- (r_nr _ _ _ HR). by apply (c_valid _ _ _ _ _ _ Hc p (erase y)).
  - by apply (not_twice s (a_disk a) p (erase y)).
Qed.

Lemma cop_step nr s a op : repr nr s a → legal nr a op →
  ∃ s' a' r, run_cop op s = Ok s' r ∧ astep op a a' r ∧ repr nr s' a'.
Proof.
  intros HR. pose proof (r_struct _ _ _ HR) as (L0 & H0 & Hs0). pose proof (r_holds _ _ _ HR) as Hc0. destruct op as [d b|d b v|p v|p ty|d]; intros Hl; cbn [run_cop].
  - destruct (get_block_repr nr s a d b NORMAL HR Hl) as (s' & p & n & x & L & H & Hr & Hp & A1 & A2 & A3 & A4 & A5 & A6 & A7 & A8 & _ & _ & A9); [set_solver|].
    rewrite (bind_ok _ _ _ _ _ Hr). destruct (info_inv _ _ _ A3) as (y & Hy & <-). frun. destruct (A8 eq_refl) as [Hc Hdat]. cbn in Hdat. rewrite Hdat.
    eexists s', _, _. split; [done|]. split; [by apply A_read|]. eapply repr_pins; [done|eauto|done|done|done|intros; by rewrite lookup_insert_ne|..]; rewrite lookup_insert_eq.
    + intros d' b' n'. split; [intros [= <- <- <-]; exists (erase y); split_and!; try done; lia|]. intros (z & Hz & ? & ? & ? & ?). simplify_eq/=. congruence.
    + intros d' b' n' [= <- _ _]. apply Hl.
  - destruct (get_block_repr nr s a d b NO_READ HR Hl) as (s' & p & n & x & L & H & Hr & Hp & A1 & A2 & A3 & A4 & A5 & A6 & A7 & _ & A8 & Hn & A9); [set_solver|].
    rewrite (bind_ok _ _ _ _ _ Hr). destruct (info_inv _ _ _ A3) as (y & Hy & <-). cbn in A4, A5, A6. subst.
    destruct (write_buf_spec s' L H (a_disk a) p y v A1 Hy) as (s2 & Hr2 & B1 & B2 & B3 & B4); [apply Hl|done|done|]. rewrite (bind_ok _ _ _ _ _ Hr2).
    eexists s2, _, _. split; [done|]. split; [by apply A_fresh|]. eapply repr_pins; [done|eauto|done|done| |intros; by rewrite lookup_insert_ne|..]; rewrite ?lookup_insert_eq.
    + intros q Hq. rewrite B4, lookup_insert_ne by done. by apply A9.
    + intros d' b' n'. rewrite B4, lookup_insert_eq. split; [intros [= <- <- <-]; eexists; split; [reflexivity|]; split_and!; try done; lia|]. intros (z & Hz & ? & ? & ? & ?). simplify_eq/=. congruence.
    + intros d' b' n' [= <- _ _]. apply Hl.
  - destruct Hl as [[[d b] n] Hp]. destruct (pin_buf _ _ _ _ _ _ _ HR Hp) as (x & Hx & Ed & Eb & Ec & Hn & Hv & Hnt). subst d b n.
    destruct (write_buf_spec s L0 H0 (a_disk a) p x v Hs0 Hx) as (s2 & Hr2 & B1 & B2 & B3 & B4); [by rewrite (r_nr _ _ _ HR)|done|by left|]. rewrite (bind_ok _ _ _ _ _ Hr2).
    eexists s2, _, _. split; [done|]. split; [by eapply A_write|]. eapply (repr_pins _ _ _ _ _ _ p); [done|eauto|done|by rewrite B2, (r_nr _ _ _ HR)| |done|..].
    + intros q Hq. by rewrite B4, lookup_insert_ne.
    + intros d' b' n'. rewrite Hp, B4, lookup_insert_eq. split; [intros [= <- <- <-]; eexists; split; [reflexivity|]; done|]. intros (z & Hz & ? & ? & ? & ?). by simplify_eq/=.
    + intros d' b' n'. apply (r_named _ _ _ HR).
  - destruct Hl as [[[d b] n] Hp]. destruct (pin_buf _ _ _ _ _ _ _ HR Hp) as (x & Hx & Ed & Eb & Ec & Hn & Hv & Hnt). subst d b n.
    destruct (put_block_spec s L0 H0 (a_disk a) p x ty Hs0 Hc0 Hx Hn) as (s2 & L' & Hr2 & B1 & B2 & B3 & B4). rewrite (bind_ok _ _ _ _ _ Hr2).
    eexists s2, _, _. split; [done|]. split; [by eapply A_put|]. eapply (repr_pins _ _ _ _ _ _ p); [done|eauto|done|by rewrite B2, (r_nr _ _ _ HR)|..].
    + intros q Hq. by rewrite B4, lookup_insert_ne.
    + intros q Hq. destruct (_ =? _); [by rewrite lookup_delete_ne|by rewrite lookup_insert_ne].
    + intros d' b' n'. specialize (B4 p). rewrite lookup_insert_eq in B4. destruct (info s2 !! p) as [z|]; [|done]. unfold user in B4. cbn in B4.
      destruct (Z.eqb_spec (b_count x) 1) as [E|E]; [rewrite lookup_delete_eq; split; [done|]; intros (? & [= <-] & ? & ? & ? & ?); simplify_eq/=; lia|].
      rewrite lookup_insert_eq. split; [intros [= <- <- <-]; exists z; simplify_eq/=; split_and!; try done; lia|]. intros (? & [= <-] & ? & ? & ? & ?). simplify_eq/=. congruence.
    + intros d' b' n'. destruct (_ =? _); [by rewrite lookup_delete_eq|]. rewrite lookup_insert_eq. intros [= <- _ _]. apply Hv.
  - destruct (flushall_spec s d (a_disk a) Hc0 Hl (ci_slots _ _ _ Hs0)) as (s2 & Hr2 & B1 & B2 & B3 & B4). rewrite (bind_ok _ _ _ _ _ Hr2). pose proof B2 as [= E1 E2 E3].
    eexists s2, a, _. split; [done|]. split; [constructor|]. assert (Hus : ∀ q, user <$> info s2 !! q = user <$> info s !! q).
    { intros q. rewrite B3. destruct (info s !! q) as [z|]; [|done]. cbn. by repeat case_match. }
    replace a with (mk_acache (a_disk a) (a_pins a)) by (by destruct a). eapply (repr_pins _ _ _ _ _ _ 0); [done| |unfold holds; by rewrite E1, E2, E3|by rewrite E2, (r_nr _ _ _ HR)|done|done| |].
    + exists L0, H0. eapply (struct_ext s); try done. intros q. specialize (Hus q). destruct (info s2 !! q), (info s !! q); unfold user in *; simplify_eq/=; congruence.
    + intros d' b' n'. rewrite (r_pins _ _ _ HR). specialize (Hus 0). destruct (info s2 !! 0) as [x'|], (info s !! 0) as [x|]; unfold user in *; simplify_eq/=; [|naive_solver].
      split; intros (z & [= <-] & ?); eexists; (split; [reflexivity|]); naive_solver congruence.
    + apply (r_named _ _ _ HR).
Qed.

(** A client chooses its next call by the replies so far. *)
Fixpoint drive (n : nat) (client : list reply → cop) (h : list reply) : M cache (list reply) :=
  match n with
  | O => mret h
  | S n' => r ← run_cop (client h); drive n' client (h ++ [r])
  end.

Inductive atrace (client : list reply → cop) (a : acache) (h : list reply) : nat → acache → list reply → Prop :=
  | AT_start : atrace client a h 0 a h
  | AT_step n a1 h1 a2 r : atrace client a h n a1 h1 → astep (client h1) a1 a2 r → atrace client a h (S n) a2 (h1 ++ [r]).

Lemma bind_cong {S A B} (m : M S A) (k1 k2 : A → M S B) (t : S) : (∀ a (s' : S), k1 a s' = k2 a s') → (m ≫= k1) t = (m ≫= k2) t.
Proof. intros Hk. unfold mbind, M_bind. by destruct (m t). Qed.

Lemma drive_snoc n client h s : drive (S n) client h s = (h' ← drive n client h; r ← run_cop (client h'); mret (h' ++ [r])) s.
Proof.
  revert h s. induction n as [|n IH]; intros h s.
  - reflexivity.
  - change (drive (S (S n)) client h s) with ((r ← run_cop (client h); drive (S n) client (h ++ [r])) s).
    change (drive (S n) client h) with (r ← run_cop (client h); drive n client (h ++ [r])).
    rewrite bind_assoc. apply bind_cong. intros r s'. apply IH.
Qed.

(** Every call of a legal client is a step of the specification. *)
Lemma drive_repr nr client n s a : repr nr s a →
  (∀ m a' h, (m < n)%nat → atrace client a [] m a' h → legal nr a' (client h)) →
  ∃ s' a' h, drive n client [] s = Ok s' h ∧ atrace client a [] n a' h ∧ repr nr s' a'.
Proof.
  intros HR Hl. induction n as [|n IH]; [exists s, a, []; split; [done|]; split; [constructor|done]|].
  destruct IH as (s1 & a1 & h1 & Hr1 & Ht1 & HR1); [intros m a' h Hm; apply Hl; lia|].
  destruct (cop_step nr s1 a1 (client h1) HR1) as (s2 & a2 & r & Hr2 & Hst & HR2); [apply (Hl n); [lia|done]|].
  exists s2, a2, (h1 ++ [r]). rewrite drive_snoc, (bind_ok _ _ _ _ _ Hr1), (bind_ok _ _ _ _ _ Hr2). split; [done|]. split; [by eapply AT_step|done].
Qed.

(** A buffer at the front of the LRU chain is nobody's. *)
Lemma pins_slots nr s a p L H : repr nr s a → struct_inv s (p :: L) H → dom (a_pins a) ⊆ (list_to_set (seqZ 0 NR_BUFS) : gset Z) ∖ {[p]}.
Proof.
  intros HR Hs q. rewrite elem_of_dom. intros [[[d' b'] n] (x & Hx & _ & _ & Hc & Hpos)%(r_pins _ _ _ HR)]. pose proof (ci_free _ _ _ Hs q x Hx) as Hf.
  apply elem_of_difference. rewrite elem_of_list_to_set, elem_of_seqZ, elem_of_singleton. split.
  - assert (Hi : is_Some (bufs s !! q)) by (apply info_some; eauto). apply (ci_slots _ _ _ Hs) in Hi. lia.
  - intros ->. assert (b_count x = 0) by (apply Hf; by left). lia.
Qed.

(** C38: [get_block] stops the server when every buffer is in use and none of them
    for the block asked for. *)
Theorem all_buffers_in_use nr s a d b only : repr nr s a → valid nr d b → ¬ pinned a d b → Z.of_nat (size (a_pins a)) = NR_BUFS →
  get_block d b only s = Panic "all buffers in use" NR_BUFS.
Proof.
  intros HR Hv Hn Hsz. destruct (r_struct _ _ _ HR) as (L & H & Hs).
  assert (L = []) as ->.
  { destruct L as [|p L]; [done|]. exfalso. pose proof (pins_slots _ _ _ _ _ _ HR Hs) as Hsub. apply subseteq_size in Hsub.
    assert (Hp : is_Some (bufs s !! p)) by (eapply lru_member; [apply Hs|by left]). apply (ci_slots _ _ _ Hs) in Hp.
    rewrite size_difference in Hsub by (intros q ->%elem_of_singleton; apply elem_of_list_to_set, elem_of_seqZ; lia).
    rewrite size_list_to_set, size_singleton, length_seqZ, size_dom in Hsub by apply NoDup_seqZ. unfold NR_BUFS in *. lia. }
  rewrite (get_block_miss s [] H (a_disk a)); [|done|apply HR|by rewrite (r_nr _ _ _ HR)|].
  - unfold get_oldest. frun. by rewrite (chain_head _ _ _ (lo_nxt _ _ (ci_lru _ _ _ Hs))).
  - intros (p & x & Hx & <- & <-). apply Hn. exists p, (b_count x). apply (r_pins _ _ _ HR). exists x. split_and!; try done.
    pose proof (ci_count _ _ _ Hs p x Hx). pose proof (ci_free _ _ _ Hs p x Hx) as Hf. destruct (decide (b_count x = 0)) as [E|]; [|lia]. apply Hf in E. by apply elem_of_nil in E.
Qed.
End spec.

(** ** [buf_pool] *)
Section init.
Context {D : Driver} {RD : Reliable D}.
Implicit Types s : cache.

(** A loop that updates every buffer. *)
Lemma for_bufs (body : Z → M cache unit) (f : Z → buf → buf) n s :
  (∀ p s0 x, bufs s0 !! p = Some x → body p s0 = Ok (s0 <| bufs ::= <[p := f p x]> |>) ()) →
  (∀ p, 0 ≤ p < Z.of_nat n → is_Some (bufs s !! p)) →
  ∃ m, for_ 0 n body s = Ok (s <| bufs := m |>) () ∧
    ∀ p, m !! p = (if decide (0 ≤ p < Z.of_nat n) then f p else id) <$> bufs s !! p.
Proof.
  intros Hb Hs.
  destruct (for_inv (λ i s1, ∃ m, s1 = s <| bufs := m |> ∧ ∀ p, m !! p = (if decide (0 ≤ p < i) then f p else id) <$> bufs s !! p) body n 0 s) as (s' & Hr & m & -> & Hm).
  - intros j s0 Hj (m & -> & Hm). destruct (Hs j) as [x Hx]; [lia|]. assert (Hj' : bufs (s <| bufs := m |>) !! j = Some x).
    { cbn. rewrite Hm, Hx, decide_False by lia. done. }
    eexists. split; [by apply Hb|]. eexists (<[j := f j x]> m). split; [done|]. intros p. destruct (decide (p = j)) as [->|Hne].
    + rewrite lookup_insert_eq, Hx, decide_True by lia. done.
    + rewrite lookup_insert_ne, Hm by done. f_equiv. repeat case_decide; done || lia.
  - exists (bufs s). split; [by destruct s|]. intros p. rewrite decide_False by lia. by rewrite option_fmap_id.
  - exists m. split; [done|]. done.
Qed.

Lemma chain_up m n a : (∀ p, a ≤ p < a + Z.of_nat n → m !! p = Some (if p + 1 =? a + Z.of_nat n then None else Some (p + 1))) →
  chain m (if decide (n = 0%nat) then None else Some a) (seqZ a (Z.of_nat n)).
Proof.
  revert a. induction n as [|n IH]; intros a Hm; [done|]. rewrite seqZ_cons by lia. replace (Z.pred (Z.of_nat (S n))) with (Z.of_nat n) by lia.
  split; [done|]. eexists. split; [apply Hm; lia|]. specialize (IH (Z.succ a)). destruct n as [|n].
  - rewrite (proj2 (Z.eqb_eq _ _)) by lia. done.
  - rewrite (proj2 (Z.eqb_neq _ _)) by lia. apply IH. intros p Hp. rewrite Hm by lia. by replace (Z.succ a + Z.of_nat (S n)) with (a + Z.of_nat (S (S n))) by lia.
Qed.

Lemma chain_down m n : (∀ p, 0 ≤ p < Z.of_nat n → m !! p = Some (if p =? 0 then None else Some (p - 1))) →
  chain m (if decide (n = 0%nat) then None else Some (Z.of_nat n - 1)) (reverse (seqZ 0 (Z.of_nat n))).
Proof.
  induction n as [|n IH]; intros Hm; [done|]. replace (Z.of_nat (S n)) with (Z.of_nat n + 1) by lia. rewrite seqZ_app by lia. rewrite reverse_app. cbn [decide].
  change (reverse (seqZ (0 + Z.of_nat n) 1)) with [Z.of_nat n]. cbn [app]. split; [cbn; f_equal; lia|]. eexists. split; [apply Hm; lia|].
  destruct n as [|n]; [done|]. rewrite (proj2 (Z.eqb_neq _ _)) by lia. apply IH. intros p Hp. apply Hm. lia.
Qed.

(** The table the loader leaves: nothing in use and no block in either cache. *)
Record zeroed s : Prop := {
  z_slots : slots_ok s;
  z_count p x : bufs s !! p = Some x → b_count x = 0;
  z_hash h : 0 ≤ h < NR_BUF_HASH → buf_hash s !! h = Some None;
  z_two : two_ok (nr_buf2 s) (buf2_idx s) (buf2s s);
  z_dev2 i x : buf2s s !! i = Some x → b2_dev x = NO_DEV;
}.

Definition pool_buf (p : Z) (x : buf) : buf :=
  let nx := if p + 1 =? NR_BUFS then None else Some (p + 1) in
  x <| b_blocknr := NO_BLOCK |> <| b_dev := NO_DEV |> <| b_next := nx |> <| b_prev := if p =? 0 then None else Some (p - 1) |> <| b_hash := nx |>.

Lemma buf_pool_run s : slots_ok s → is_Some (buf_hash s !! 0) →
  ∃ m, buf_pool s = Ok (s <| bufs_in_use := 0 |> <| front := Some 0 |> <| rear := Some (NR_BUFS - 1) |> <| bufs := m |> <| buf_hash ::= <[0 := Some 0]> |>) () ∧
    ∀ p, m !! p = pool_buf p <$> bufs s !! p.
Proof.
  intros Hs [q0 Hq0]. assert (Hr : ∀ p, is_Some (bufs s !! p) → 0 ≤ p < NR_BUFS) by (intros p; apply Hs). unfold buf_pool. frun.
  set (s0 := upd rear _ _).
  destruct (for_bufs (λ p, st_buf p (λ x, x <| b_blocknr := NO_BLOCK |> <| b_dev := NO_DEV |> <| b_next := Some (p + 1) |> <| b_prev := Some (p - 1) |>))
    (λ p x, x <| b_blocknr := NO_BLOCK |> <| b_dev := NO_DEV |> <| b_next := Some (p + 1) |> <| b_prev := Some (p - 1) |>) (Z.to_nat NR_BUFS) s0) as (m1 & Hr1 & Hm1).
  { intros p s1 x Hx. by rewrite (st_buf_ok _ _ _ _ Hx). } { intros p Hp. apply Hs. unfold NR_BUFS in *. lia. }
  rewrite (bind_ok _ _ _ _ _ Hr1). cbn [bufs] in Hm1.
  assert (Hp1 : ∀ p x, bufs s !! p = Some x → m1 !! p = Some (x <| b_blocknr := NO_BLOCK |> <| b_dev := NO_DEV |> <| b_next := Some (p + 1) |> <| b_prev := Some (p - 1) |>)).
  { intros p x Hx. rewrite Hm1. change (bufs s0) with (bufs s). rewrite Hx, decide_True; [done|]. rewrite Z2Nat.id by done. apply Hr. eauto. }
  destruct (proj2 (Hs 0)) as [x0 Hx0]; [done|]. destruct (proj2 (Hs (NR_BUFS - 1))) as [x1 Hx1]; [done|].
  pose proof (Hp1 _ _ Hx0) as H0. pose proof (Hp1 _ _ Hx1) as H1.
  erewrite bind_ok; [|eapply st_buf_ok; exact H0]. erewrite bind_ok; [|eapply st_buf_ok; cbn; rewrite lookup_insert_ne by done; exact H1].
  match goal with |- context [mbind _ (for_ 0 _ _) ?st] => set (s2 := st) end.
  destruct (for_bufs (λ p, b ← ld_buf p; st_buf p (λ x, x <| b_hash := b_next b |>)) (λ p x, x <| b_hash := b_next x |>) (Z.to_nat NR_BUFS) s2) as (m2 & Hr2 & Hm2).
  { intros p s1 x Hx. frun. done. }
  { intros p Hp. destruct (proj2 (Hs p)) as [x Hx]; [unfold NR_BUFS in *; lia|]. cbn.
    destruct (decide (p = NR_BUFS - 1)) as [->|]; [rewrite lookup_insert_eq; eauto|rewrite lookup_insert_ne by done].
    destruct (decide (p = 0)) as [->|]; [rewrite lookup_insert_eq; eauto|rewrite lookup_insert_ne by done]. rewrite (Hp1 _ _ Hx). eauto. }
  rewrite (bind_ok _ _ _ _ _ Hr2). frun. erewrite st_hash_ok by exact Hq0. exists m2. split; [reflexivity|].
  intros p. rewrite Hm2. destruct (bufs s !! p) as [x|] eqn:Hx.
  - rewrite decide_True by (rewrite Z2Nat.id by done; apply Hr; eauto). unfold pool_buf. cbn [fmap option_fmap option_map].
    change (bufs s2) with (<[NR_BUFS - 1 := x1 <| b_blocknr := NO_BLOCK |> <| b_dev := NO_DEV |> <| b_next := Some (NR_BUFS - 1 + 1) |> <| b_prev := Some (NR_BUFS - 1 - 1) |> <| b_next := None |>]>
      (<[0 := x0 <| b_blocknr := NO_BLOCK |> <| b_dev := NO_DEV |> <| b_next := Some (0 + 1) |> <| b_prev := Some (0 - 1) |> <| b_prev := None |>]> m1)).
    destruct (decide (p = NR_BUFS - 1)) as [->|Hn]; [rewrite lookup_insert_eq; by simplify_eq|rewrite lookup_insert_ne by done].
    rewrite (proj2 (Z.eqb_neq (p + 1) NR_BUFS)) by (intros E; apply Hn; rewrite <- E; lia).
    destruct (decide (p = 0)) as [->|Hn0]; [rewrite lookup_insert_eq; by simplify_eq|rewrite lookup_insert_ne by done].
    rewrite (proj2 (Z.eqb_neq p 0)) by done. by rewrite (Hp1 _ _ Hx).
  - cbn. rewrite !lookup_insert_ne by congruence. rewrite Hm1. change (bufs s0) with (bufs s). by rewrite Hx.
Qed.

(** [buf_pool] makes the cache ready: from the zeroed tables it leaves every
    buffer free and on the hash chain of block 0, no block in the cache, and the
    cache holds what the devices hold. *)
Lemma buf_pool_repr s : zeroed s →
  ∃ s', buf_pool s = Ok s' () ∧ repr (nr_buf2 s) s' (mk_acache (λ d b, platter (wld s) d (b * BLOCK_SIZE)) ∅).
Proof.
  intros [Hs Hcnt Hh Ht Hd2]. destruct (buf_pool_run s Hs) as (m & Hr & Hm); [rewrite Hh by done; eauto|]. eexists. split; [exact Hr|]. set (s' := upd buf_hash _ _).
  assert (Hb : ∀ p x', bufs s' !! p = Some x' → ∃ x, bufs s !! p = Some x ∧ x' = pool_buf p x ∧ 0 ≤ p < NR_BUFS).
  { intros p x'. change (bufs s') with m. rewrite Hm. intros (x & Hx & ->)%fmap_Some. exists x. split; [done|]. split; [done|]. apply Hs. eauto. }
  assert (Hi : ∀ p x, info s' !! p = Some x → b_count x = 0 ∧ b_dev x = NO_DEV ∧ b_blocknr x = NO_BLOCK ∧ 0 ≤ p < NR_BUFS).
  { intros p x (y & (z & Hz & -> & Hp)%Hb & <-)%info_inv. split; [exact (Hcnt p z Hz)|done]. }
  assert (Hin : ∀ p, 0 ≤ p < NR_BUFS → ∃ x, m !! p = Some (pool_buf p x)).
  { intros p Hp. destruct (proj2 (Hs p) Hp) as [x Hx]. exists x. by rewrite Hm, Hx. }
  assert (Hch : ∀ mm, (∀ p, 0 ≤ p < NR_BUFS → mm !! p = Some (if p + 1 =? NR_BUFS then None else Some (p + 1))) → chain mm (Some 0) (seqZ 0 NR_BUFS)).
  { intros mm Hmm. by apply (chain_up mm (Z.to_nat NR_BUFS) 0). }
  split.
  - exists (seqZ 0 NR_BUFS), (λ h, if decide (h = 0) then seqZ 0 NR_BUFS else []). split.
    + intros p. change (bufs s') with m. rewrite Hm, <- (Hs p). apply fmap_is_Some.
    + split; [apply Hch|apply (chain_down _ (Z.to_nat NR_BUFS))|apply NoDup_seqZ]; intros p Hp; destruct (Hin p) as [x Hx]; try done;
        [change (nxt s') with (b_next <$> m)|change (prv s') with (b_prev <$> m)]; by rewrite lookup_fmap, Hx.
    + intros p x (E & _ & _ & Hp)%Hi. rewrite elem_of_seqZ. split; [done|]. intros _. lia.
    + intros p x (E & _)%Hi. lia.
    + done.
    + split.
      * intros h Hh'. change (buf_hash s') with (<[0 := Some 0]> (buf_hash s)). destruct (decide (h = 0)) as [->|Hne].
        -- exists (Some 0). rewrite lookup_insert_eq. split; [done|]. apply Hch. intros p Hp. destruct (Hin p Hp) as [x Hx]. change (hsh s') with (b_hash <$> m). by rewrite lookup_fmap, Hx.
        -- exists None. rewrite lookup_insert_ne by done. split; [by apply Hh|done].
      * intros h _. case_decide; [apply NoDup_seqZ|constructor].
      * intros h p _. split.
        -- case_decide as E; [|by intros ?%elem_of_nil]. intros Hp%elem_of_seqZ. split; [done|]. destruct (Hin p) as [x Hx]; [lia|]. exists (erase (pool_buf p x)).
           split; [by apply info_lookup|]. by rewrite E.
        -- intros (_ & x & (_ & _ & E & Hp)%Hi & <-). rewrite decide_True by (by rewrite E). rewrite elem_of_seqZ. lia.
    + done.
  - split.
    + intros p x (_ & E & _)%Hi. by rewrite E.
    + intros p x (_ & E & _)%Hi. by rewrite E.
    + intros p x q y (_ & E & _)%Hi. by rewrite E.
    + done.
    + intros d b i Hnr (Hd & _) (l1 & l2 & _ & Hf & _) _. unfold match2 in Hf. change (buf2s s') with (buf2s s) in Hf. destruct (buf2s s !! i) as [z|] eqn:Hz; [|done].
      destruct Hf as [_ <-]. by rewrite (Hd2 i z Hz) in Hd.
  - done.
  - intros p d b n. split; [done|]. intros (x & (E & _)%Hi & _ & _ & <- & ?). lia.
  - intros p d b n. done.
Qed.

(** C30: The buffer cache refines a store of blocks.  From the zeroed tables
    [buf_pool] returns, and whatever a client does then that asks for blocks of
    devices the drivers serve, gives back only buffers it uses and never uses all
    buffers at once, every call returns; a read gives the bytes last stored into
    that block (or those on the device), in a buffer nobody uses for another
    block, whatever was evicted, written back or kept in the second level cache
    before; and the chains and tables of the cache stay consistent. *)
Theorem cache_refines s client n : zeroed s →
  let a := mk_acache (λ d b, platter (wld s) d (b * BLOCK_SIZE)) ∅ in
  (∀ m a' h, (m < n)%nat → atrace client a [] m a' h → legal (nr_buf2 s) a' (client h)) →
  ∃ s0 s' a' h, buf_pool s = Ok s0 () ∧ drive n client [] s0 = Ok s' h ∧ atrace client a [] n a' h ∧ repr (nr_buf2 s) s' a'.
Proof.
  intros Hz a Hl. destruct (buf_pool_repr s Hz) as (s0 & Hr0 & HR0). destruct (drive_repr _ client n s0 a HR0 Hl) as (s' & a' & h & Hr & Ht & HR).
  exists s0, s', a', h. split_and!; assumption.
Qed.
End init.

(** ** A driver in memory, and the cache on it *)
Definition ram_get (w : gmap (Z * Z) block_data) (dev pos : Z) : block_data := default [] (w !! (dev, pos)).

Definition ram_request (dev : Z) (r : iorequest_s) (w : gmap (Z * Z) block_data) : gmap (Z * Z) block_data * iorequest_s :=
  if io_request r =? DEV_WRITE then (<[(dev, io_position r) := io_buf r]> w, mk_iorequest (io_position r) (io_buf r) 0 (io_request r))
  else (w, mk_iorequest (io_position r) (ram_get w dev (io_position r)) 0 (io_request r)).

Fixpoint ram_requests (dev : Z) (rs : list iorequest_s) (w : gmap (Z * Z) block_data) : gmap (Z * Z) block_data * list iorequest_s :=
  match rs with
  | [] => (w, [])
  | r :: rs => let '(w1, r1) := ram_request dev r w in let '(w2, rs2) := ram_requests dev rs w1 in (w2, r1 :: rs2)
  end.

#[export] Instance ram_driver : Driver := {|
  world := gmap (Z * Z) block_data;
  dev_read dev pos _ w := (w, (BLOCK_SIZE, ram_get w dev pos));
  dev_write dev pos d w := (<[(dev, pos) := d]> w, BLOCK_SIZE);
  dev_scattered := ram_requests;
|}.

Lemma ram_scattered dev iov : ∀ w, Forall (λ r, io_request r = DEV_WRITE ∧ True) iov → NoDup (io_position <$> iov) →
  ∃ w' iov', ram_requests dev iov w = (w', iov') ∧ length iov' = length iov ∧ Forall (λ r, io_nbytes r = 0) iov' ∧
    (∀ r, r ∈ iov → ram_get w' dev (io_position r) = io_buf r) ∧
    ∀ dev' pos', dev' ≠ dev ∨ pos' ∉ (io_position <$> iov) → ram_get w' dev' pos' = ram_get w dev' pos'.
Proof.
  induction iov as [|r iov IH]; intros w Hf Hnd; cbn [ram_requests].
  { exists w, []. split_and!; try done. by intros r ?%elem_of_nil. }
  apply Forall_cons in Hf as [[Hr _] Hf]. cbn in Hnd. apply NoDup_cons in Hnd as [Hn Hnd]. unfold ram_request. rewrite Hr. change (DEV_WRITE =? DEV_WRITE) with true. cbn match.
  destruct (IH (<[(dev, io_position r) := io_buf r]> w) Hf Hnd) as (w' & iov' & -> & Hl & Hz & Hin & Hout). eexists w', _. split; [done|].
  split; [cbn; by rewrite Hl|]. split; [by constructor|]. split.
  - intros x [->|Hx]%elem_of_cons; [|by apply Hin]. rewrite Hout by (by right). unfold ram_get. by rewrite lookup_insert_eq.
  - intros dev' pos' Hd. rewrite Hout by (cbn in Hd; set_solver). unfold ram_get. rewrite lookup_insert_ne; [done|]. cbn in Hd. set_solver.
Qed.

Lemma ram_put (w : gmap (Z * Z) block_data) dev pos d : ram_get (<[(dev, pos) := d]> w) dev pos = d ∧
  ∀ dev' pos', (dev', pos') ≠ (dev, pos) → ram_get (<[(dev, pos) := d]> w) dev' pos' = ram_get w dev' pos'.
Proof. unfold ram_get. rewrite lookup_insert_eq. split; [done|]. intros. by rewrite lookup_insert_ne. Qed.

#[export] Instance ram_reliable : Reliable ram_driver.
Proof.
  refine {| platter := ram_get; covers := λ _ _, True |}.
  - intros dev pos d w _. by exists w.
  - intros dev pos d w _. exists (<[(dev, pos) := d]> (w : gmap (Z * Z) block_data)). split; [done|]. exact (ram_put w dev pos d).
  - apply ram_scattered.
Defined.

(** The zeroed tables, with a second level cache of 64 blocks, on empty devices. *)
Definition zero_buf : buf := mk_buf [] None None None 0 0 0 0.
Definition cache_bss : cache :=
  mk_cache (list_to_map ((λ i, (i, zero_buf)) <$> seqZ 0 NR_BUFS)) (list_to_map ((λ i, (i, None)) <$> seqZ 0 NR_BUF_HASH)) None None 0
    (list_to_map ((λ i, (i, mk_buf2 0 0 0)) <$> seqZ 0 MAX_BUF2)) 64 0 0 ∅ [].

Lemma seqZ_table {A} (v : A) n i : (list_to_map ((λ i, (i, v)) <$> seqZ 0 n) : gmap Z A) !! i = if decide (0 ≤ i < n) then Some v else None.
Proof.
  case_decide as Hi.
  - apply elem_of_list_to_map_1.
    + rewrite <- list_fmap_compose. rewrite (list_fmap_ext _ id) by done. rewrite list_fmap_id. apply NoDup_seqZ.
    + apply list_elem_of_fmap. exists i. split; [done|]. apply elem_of_seqZ. lia.
  - apply not_elem_of_list_to_map_1. rewrite <- list_fmap_compose. rewrite (list_fmap_ext _ id) by done. rewrite list_fmap_id, elem_of_seqZ. lia.
Qed.

Lemma seqZ_slots {A} (v : A) n i : is_Some ((list_to_map ((λ i, (i, v)) <$> seqZ 0 n) : gmap Z A) !! i) ↔ 0 ≤ i < n.
Proof. rewrite seqZ_table. case_decide as Hi; split; [done|eauto|by intros []|done]. Qed.

Lemma cache_bss_zeroed : zeroed cache_bss.
Proof.
  split.
  - intros p. apply seqZ_slots.
  - intros p x. cbn [bufs cache_bss]. rewrite seqZ_table. case_decide; [by intros [= <-]|done].
  - intros h Hh. cbn [buf_hash cache_bss]. rewrite seqZ_table. by rewrite decide_True.
  - split; cbn [buf2s nr_buf2 buf2_idx cache_bss]; [unfold MAX_BUF2; lia|lia| |done]. intros i. apply seqZ_slots.
  - intros i x. cbn [buf2s cache_bss]. rewrite seqZ_table. case_decide; [by intros [= <-]|done].
Qed.

(** A client that stores a block, gives it back and reads it. *)
Definition demo_client (h : list reply) : cop :=
  match h with
  | [] => CFresh 769 5 [1; 2; 3]
  | [Some (p, _)] => CPut p FULL_DATA_BLOCK
  | _ => CRead 769 5
  end.

Abbreviation demo_disk := (λ d b, ram_get ∅ d (b * BLOCK_SIZE)).

(** The three calls of the client, as the specification has them. *)
Lemma demo_steps m a h : (m ≤ 3)%nat → atrace demo_client (mk_acache demo_disk ∅) [] m a h →
  (m < 3 → legal 64 a (demo_client h))%nat ∧
  match m with
  | O => h = [] ∧ a = mk_acache demo_disk ∅
  | 1%nat => ∃ p, h = [Some (p, [1; 2; 3])] ∧ a = mk_acache (cset demo_disk 769 5 [1; 2; 3]) {[p := (769, 5, 1)]}
  | 2%nat => ∃ p, h = [Some (p, [1; 2; 3]); None] ∧ a = mk_acache (cset demo_disk 769 5 [1; 2; 3]) ∅
  | _ => ∃ p q, h = [Some (p, [1; 2; 3]); None; Some (q, [1; 2; 3])]
  end.
Proof.
  assert (Hv : valid 64 769 5) by (unfold valid; split_and!; try done; lia).
  intros Hm Ht. induction Ht as [|m a1 h1 a2 r Ht IH Hst].
  { split; [|done]. intros _. cbn. split; [done|]. split; [done|]. right. rewrite map_size_empty. unfold NR_BUFS. lia. }
  destruct IH as [_ IH]; [lia|]. destruct m as [|[|[|m]]]; [..|lia].
  - destruct IH as [-> ->]. cbn in Hst. inversion Hst as [|d b v a p n Hp| | |]; subst. cbn in *.
    destruct Hp as [Hp|(_ & _ & ->)]; [done|]. split; [intros _; cbn; rewrite lookup_insert_eq; eauto|]. by exists p.
  - destruct IH as (p & -> & ->). cbn in Hst. inversion Hst as [| | |p0 ty a d b n Hp|]; subst. cbn in *. rewrite lookup_singleton_eq in Hp. injection Hp as <- <- <-.
    cbn. rewrite delete_singleton_eq. split; [|by exists p]. intros _. split; [done|]. split; [done|]. right. rewrite map_size_empty. unfold NR_BUFS. lia.
  - destruct IH as (p & -> & ->). cbn in Hst. inversion Hst as [d b a q n Hp| | | |]; subst. split; [lia|]. exists p, q. done.
Qed.

Lemma cache_refines_witness : ∃ s0 s' p q, buf_pool cache_bss = Ok s0 () ∧
  drive 3 demo_client [] s0 = Ok s' [Some (p, [1; 2; 3]); None; Some (q, [1; 2; 3])].
Proof.
  destruct (cache_refines cache_bss demo_client 3 cache_bss_zeroed) as (s0 & s' & a' & h & Hr0 & Hr & Ht & _).
  { intros m a h Hm Ht. apply (demo_steps m a h); [lia|exact Ht|exact Hm]. }
  destruct (proj2 (demo_steps 3 a' h ltac:(lia) Ht)) as (p & q & E). rewrite E in Hr. exists s0, s', p, q. split; [exact Hr0|exact Hr].
Defined.

(** A client that reads the blocks of a device one after the other. *)
Definition hog_client (h : list reply) : cop := CRead 769 (Z.of_nat (length h)).

Lemma hog_steps m a h : (m ≤ 80)%nat → atrace hog_client (mk_acache demo_disk ∅) [] m a h →
  length h = m ∧ size (a_pins a) = m ∧ (∀ p d b n, a_pins a !! p = Some (d, b, n) → b < Z.of_nat m) ∧ ((m < 80)%nat → legal 64 a (hog_client h)).
Proof.
  intros Hm Ht.
  assert (Hleg : ∀ a h k, length h = k → (k < 80)%nat → size (a_pins a) = k → (∀ p d b n, a_pins a !! p = Some (d, b, n) → b < Z.of_nat k) → legal 64 a (hog_client h)).
  { clear. intros a h k Hh Hk Hs Hp. cbn. rewrite Hh. split; [unfold valid; split_and!; try done; lia|]. split; [intros p n Hn; specialize (Hp p _ _ _ Hn); lia|].
    right. rewrite Hs. unfold NR_BUFS. lia. }
  induction Ht as [|m a1 h1 a2 r Ht IH Hst].
  { assert (Hp : ∀ p d b n, (∅ : gmap Z (Z * Z * Z)) !! p = Some (d, b, n) → b < 0) by (intros *; by rewrite lookup_empty). split; [done|]. split; [apply map_size_empty|]. split; [exact Hp|].
    intros _. apply (Hleg _ [] 0%nat); [done|lia|apply map_size_empty|exact Hp]. }
  destruct IH as (Hh & Hs & Hp & _); [lia|]. inversion Hst as [d b a p n Hpk Ed| | | |]. subst. cbn [a_pins] in *.
  assert (Hnone : a_pins a1 !! p = None ∧ n = 0).
  { destruct Hpk as [E|(E & _ & ->)]; [|done]. specialize (Hp _ _ _ _ E). lia. }
  destruct Hnone as [Hnone ->]. assert (H1 : length (h1 ++ [Some (p, a_disk a1 769 (Z.of_nat (length h1)))]) = S (length h1)) by (rewrite length_app; cbn; lia).
  assert (H2 : size (<[p := (769, Z.of_nat (length h1), 0 + 1)]> (a_pins a1)) = S (length h1)) by (by rewrite map_size_insert_None, Hs).
  assert (H3 : ∀ q d b n, <[p := (769, Z.of_nat (length h1), 0 + 1)]> (a_pins a1) !! q = Some (d, b, n) → b < Z.of_nat (S (length h1))).
  { intros q d b n. destruct (decide (q = p)) as [->|]; [rewrite lookup_insert_eq; intros [= _ <- _]; lia|]. rewrite lookup_insert_ne by done. intros E. specialize (Hp _ _ _ _ E). lia. }
  split; [exact H1|]. split; [exact H2|]. split; [exact H3|]. intros Hlt. by apply (Hleg _ _ (S (length h1))).
Qed.

Lemma all_buffers_in_use_witness : ∃ s0 s' h, buf_pool cache_bss = Ok s0 () ∧ drive 80 hog_client [] s0 = Ok s' h ∧
  get_block 769 80 NORMAL s' = Panic "all buffers in use" NR_BUFS.
Proof.
  destruct (buf_pool_repr cache_bss cache_bss_zeroed) as (s0 & Hr0 & HR0).
  destruct (drive_repr _ hog_client 80 s0 _ HR0) as (s' & a' & h & Hr & Ht & HR).
  { intros m a h Hm Ht. apply (hog_steps m a h); [lia|exact Ht|exact Hm]. }
  destruct (hog_steps 80 a' h ltac:(lia) Ht) as (_ & Hs & Hp & _). exists s0, s', h. split; [exact Hr0|]. split; [exact Hr|].
  apply (all_buffers_in_use 64 s' a' 769 80 NORMAL HR).
  - unfold valid. split_and!; [discriminate|discriminate|lia|lia|exact I].
  - intros (p & n & E). specialize (Hp _ _ _ _ E). lia.
  - rewrite Hs. reflexivity.
Defined.
