(* ===== verification/FsMap.v ===== *)
(** * Super blocks and bit maps of the file server (fs/super.c, fs/cache.c)

    The super block table with [read_super], [get_super] and [mounted], the
    allocation of bits in the inode and zone maps that live in blocks of the
    buffer cache ([alloc_bit], [free_bit]), the allocation of zones on top of
    it ([alloc_zone], [free_zone]), and the byte order conversions of
    fs/utility.c.  FsBitmap.v proves them against the cache's specification. *)

From stdpp Require Import base gmap strings pretty numbers fin_maps functions list.
From S2P Require Import Prelude FsCache.
Local Open Scope Z_scope.

(** ** Constants (fs/const.h, include/minix/const.h, errno.h) *)
Definition NR_SUPERS : Z := 8.
Definition SUPER_BLOCK : Z := 1.
Definition SUPER_MAGIC : Z := 0x137F.
Definition SUPER_V2 : Z := 0x2468.
Definition V1 : Z := 1.
Definition V2 : Z := 2.
Definition V1_NR_DZONES : Z := 7.
Definition V2_NR_DZONES : Z := 7.
Definition V1_INODES_PER_BLOCK : Z := BLOCK_SIZE / 32.
Definition V2_INODES_PER_BLOCK : Z := BLOCK_SIZE / 64.
Definition V1_INDIRECTS : Z := BLOCK_SIZE / 2.
Definition V2_INDIRECTS : Z := BLOCK_SIZE / 4.
Definition IMAP : Z := 0.
Definition ZMAP : Z := 1.
Definition NO_BIT : Z := 0.
Definition NO_ZONE : Z := 0.
Definition BYTE_SWAP : Z := 0.
Definition BITCHUNK_BITS : Z := 16.
Definition BITMAP_CHUNKS : Z := BLOCK_SIZE / 2.
Definition BITS_PER_BLOCK : Z := BITMAP_CHUNKS * BITCHUNK_BITS.
Definition FS_EINVAL : Z := -22.
Definition FS_ENOSPC : Z := -28.

(** ** Byte order *)

(** 16 and 32 bit values in the bytes of a block, low byte first as the i386
    has them. *)
Definition get16 (d : block_data) (o : nat) : option Z :=
  lo ← d !! o; hi ← d !! S o; Some (lo + 256 * hi).
Definition set16 (d : block_data) (o : nat) (v : Z) : block_data :=
  <[o := Z.land v 255]> (<[S o := Z.land (Z.shiftr v 8) 255]> d).
Definition get32 (d : block_data) (o : nat) : option Z :=
  lo ← get16 d o; hi ← get16 d (o + 2); Some (lo + 65536 * hi).

Definition conv2 (norm w : Z) : Z :=
  if negb (norm =? 0) then Z.land w 0xFFFF
  else Z.lor (Z.shiftl (Z.land w 255) 8) (Z.land (Z.shiftr w 8) 255).

Definition conv4 (norm x : Z) : Z :=
  if negb (norm =? 0) then x
  else
    let lo := conv2 0 (Z.land x 0xFFFF) in
    let hi := conv2 0 (Z.land (Z.shiftr x 16) 0xFFFF) in
    s32 (Z.lor (Z.shiftl lo 16) hi).

(** ** State *)
Record super_block := mk_super {
  s_ninodes : Z;
  s_nzones : Z;
  s_imap_blocks : Z;
  s_zmap_blocks : Z;
  s_firstdatazone : Z;
  s_log_zone_size : Z;
  s_max_size : Z;
  s_magic : Z;
  s_pad : Z;
  s_zones : Z;
  s_isup : Z;
  s_imount : Z;
  s_inodes_per_block : Z;
  s_dev : Z;
  s_rd_only : Z;
  s_native : Z;
  s_version : Z;
  s_ndzones : Z;
  s_nindirs : Z;
  s_isearch : Z;
  s_zsearch : Z;
}.
#[export] Instance super_eta : Eta super_block := λ s,
  mk_super (s_ninodes s) (s_nzones s) (s_imap_blocks s) (s_zmap_blocks s) (s_firstdatazone s) (s_log_zone_size s)
    (s_max_size s) (s_magic s) (s_pad s) (s_zones s) (s_isup s) (s_imount s) (s_inodes_per_block s) (s_dev s)
    (s_rd_only s) (s_native s) (s_version s) (s_ndzones s) (s_nindirs s) (s_isearch s) (s_zsearch s).

Section maps.
Context {D : Driver}.

(** The cache, the super block table and the globals [err_code] and [ROOT_DEV]. *)
Record fstate := mk_fstate {
  fs_cache : cache;
  supers : gmap Z super_block;
  err_code : Z;
  root_dev : Z;
}.
#[export] Instance fstate_eta : Eta fstate := λ f, mk_fstate (fs_cache f) (supers f) (err_code f) (root_dev f).

Abbreviation FS := (M fstate).

Definition in_cache {A} (m : M cache A) : FS A := zoom fs_cache (λ c f, f <| fs_cache := c |>) m.
Definition ld_super (i : Z) : FS super_block := m ← gets supers; deref (m !! i).
Definition st_super (i : Z) (f : super_block → super_block) : FS unit :=
  s ← ld_super i; modify (λ x, x <| supers ::= <[i := f s]> |>).

(** ** Bit maps *)

(** [for (i = 0; (k & (1 << i)) != 0; ++i) {}]: a 16 bit chunk ends it. *)
Fixpoint first_zero (fuel : nat) (k i : Z) : Z :=
  match fuel with
  | O => i
  | S fuel' => if TEST_BIT k (Z.shiftl 1 i) then first_zero fuel' k (i + 1) else i
  end.

(** The loop over the words of a block from [w] on; [n] words are left. *)
Fixpoint scan_words (n : nat) (native bp block map_bits w : Z) : M cache (option Z) :=
  match n with
  | O => mret None
  | S n' =>
      x ← ld_buf bp;
      c ← deref (get16 (b_data x) (Z.to_nat (2 * w)));
      if c =? 0xFFFF then scan_words n' native bp block map_bits (w + 1)
      else
        let k := u16 (conv2 native c) in
        let i := first_zero 16 k 0 in
        let b := u32 (block * BITS_PER_BLOCK + w * BITCHUNK_BITS + i) in
        if b >=? map_bits then mret None
        else
          let k := SET_BIT k (Z.shiftl 1 i) in
          st_buf bp (λ x, x <| b_data ::= λ d, set16 d (Z.to_nat (2 * w)) (conv2 native k) |>);;
          st_buf bp (λ x, x <| b_dirt := DIRTY |>);;
          mret (Some b)
  end.

Fixpoint scan_blocks (bcount : nat) (sp : super_block) (start_block bit_blocks map_bits block word : Z) : M cache Z :=
  match bcount with
  | O => mret NO_BIT
  | S bcount' =>
      bp ← get_block (s_dev sp) (u32 (start_block + block)) NORMAL;
      r ← scan_words (Z.to_nat (BITMAP_CHUNKS - word)) (s_native sp) bp block map_bits word;
      put_block (Some bp) MAP_BLOCK;;
      match r with
      | Some b => mret b
      | None => scan_blocks bcount' sp start_block bit_blocks map_bits (if block + 1 >=? bit_blocks then 0 else block + 1) 0
      end
  end.

Definition map_start (sp : super_block) (map : Z) : Z :=
  if map =? IMAP then SUPER_BLOCK + 1 else u32 (SUPER_BLOCK + 1 + s_imap_blocks sp).

Definition map_size (sp : super_block) (map : Z) : Z :=
  if map =? IMAP then s_ninodes sp + 1 else u32 (s_zones sp - (s_firstdatazone sp - 1)).

Definition map_blocks (sp : super_block) (map : Z) : Z :=
  u32 (if map =? IMAP then s_imap_blocks sp else s_zmap_blocks sp).

Definition alloc_bit (sp : super_block) (map origin : Z) : M cache Z :=
  if negb (s_rd_only sp =? 0) then panic "can't allocate bit on read-only filesys." NO_NUM
  else
    let map_bits := map_size sp map in
    let bit_blocks := map_blocks sp map in
    let origin := if origin >=? map_bits then 0 else origin in
    let block := origin / BITS_PER_BLOCK in
    let word := (origin mod BITS_PER_BLOCK) / BITCHUNK_BITS in
    scan_blocks (Z.to_nat (bit_blocks + 1)) sp (map_start sp map) bit_blocks map_bits block word.

Definition free_bit (sp : super_block) (map bit_returned : Z) : M cache unit :=
  if negb (s_rd_only sp =? 0) then panic "can't free bit on read-only filesys." NO_NUM
  else
    let block := bit_returned / BITS_PER_BLOCK in
    let word := (bit_returned mod BITS_PER_BLOCK) / BITCHUNK_BITS in
    let mask := Z.shiftl 1 (bit_returned mod BITCHUNK_BITS) in
    bp ← get_block (s_dev sp) (u32 (map_start sp map + block)) NORMAL;
    x ← ld_buf bp;
    c ← deref (get16 (b_data x) (Z.to_nat (2 * word)));
    let k := u16 (conv2 (s_native sp) c) in
    (if negb (TEST_BIT k mask)
     then panic (if map =? IMAP then "tried to free unused inode" else "tried to free unused block") NO_NUM else mret ());;
    let k := CLR_BIT k mask in
    st_buf bp (λ x, x <| b_data ::= λ d, set16 d (Z.to_nat (2 * word)) (conv2 (s_native sp) k) |>);;
    st_buf bp (λ x, x <| b_dirt := DIRTY |>);;
    put_block (Some bp) MAP_BLOCK.

(** ** The super block table *)
Fixpoint super_scan (n : nat) (i dev : Z) : FS (option Z) :=
  match n with
  | O => mret None
  | S n' => s ← ld_super i; if s_dev s =? dev then mret (Some i) else super_scan n' (i + 1) dev
  end.

Definition get_super (dev : Z) : FS Z :=
  r ← super_scan (Z.to_nat NR_SUPERS) 0 dev;
  match r with
  | Some sp => mret sp
  | None => panic "can't find superblock for device (in decimal)" dev
  end.

(** [zone0] is [rip->i_zone[0]]. *)
Definition mounted (zone0 : Z) : FS bool :=
  let dev := s16 zone0 in
  root ← gets root_dev;
  if dev =? root then mret true
  else r ← super_scan (Z.to_nat NR_SUPERS) 0 dev; mret (match r with Some _ => true | None => false end).

(** The structure as it lies in the block: [memcpy] of [SUPER_SIZE] bytes. *)
Definition super_bytes (d : block_data) : option super_block :=
  ni ← get16 d 0; nz ← get16 d 2; im ← get16 d 4; zm ← get16 d 6; fz ← get16 d 8; lz ← get16 d 10;
  ms ← get32 d 12; mg ← get16 d 16; pad ← get16 d 18; zs ← get32 d 20;
  isup ← get32 d 24; imount ← get32 d 28; ipb ← get32 d 32; dev ← get16 d 36;
  rd ← get32 d 40; nat ← get32 d 44; ver ← get32 d 48; ndz ← get32 d 52; nin ← get32 d 56; ise ← get32 d 60; zse ← get32 d 64;
  Some (mk_super ni nz (s16 im) (s16 zm) fz (s16 lz) ms (s16 mg) (s16 pad) zs isup imount ipb (s16 dev)
    (s32 rd) (s32 nat) (s32 ver) (s32 ndz) (s32 nin) ise zse).

(** Version and byte order by the magic number. *)
Definition super_kind (magic : Z) : option (Z * Z) :=
  if (magic =? SUPER_MAGIC) || (magic =? conv2 BYTE_SWAP SUPER_MAGIC)
  then Some (V1, if magic =? SUPER_MAGIC then 1 else 0)
  else if (magic =? SUPER_V2) || (magic =? conv2 BYTE_SWAP SUPER_V2)
  then Some (V2, if magic =? SUPER_V2 then 1 else 0)
  else None.

(** The fields that are swapped, and the ones computed from the version. *)
Definition super_fields (version native : Z) (s : super_block) : super_block :=
  let s := s <| s_ninodes ::= λ v, u16 (conv2 native v) |> <| s_nzones ::= λ v, u16 (conv2 native v) |>
    <| s_imap_blocks ::= λ v, s16 (conv2 native v) |> <| s_zmap_blocks ::= λ v, s16 (conv2 native v) |>
    <| s_firstdatazone ::= λ v, u16 (conv2 native v) |> <| s_log_zone_size ::= λ v, s16 (conv2 native v) |>
    <| s_max_size ::= λ v, u32 (conv4 native (s32 v)) |> <| s_zones ::= λ v, u32 (conv4 native (s32 v)) |> in
  let s :=
    if version =? V1
    then s <| s_zones := s_nzones s |> <| s_inodes_per_block := V1_INODES_PER_BLOCK |> <| s_ndzones := V1_NR_DZONES |> <| s_nindirs := V1_INDIRECTS |>
    else s <| s_inodes_per_block := V2_INODES_PER_BLOCK |> <| s_ndzones := V2_NR_DZONES |> <| s_nindirs := V2_INDIRECTS |> in
  s <| s_isearch := 0 |> <| s_zsearch := 0 |> <| s_version := version |> <| s_native := native |>.

Definition super_sane (s : super_block) : bool :=
  negb ((s_imap_blocks s <? 1) || (s_zmap_blocks s <? 1) || (s_ninodes s <? 1) || (s_zones s <? 1) || (u32 (s_log_zone_size s) >? 4)).

Definition read_super (i : Z) : FS Z :=
  s ← ld_super i;
  let dev := s_dev s in
  bp ← in_cache (get_block dev SUPER_BLOCK NORMAL);
  x ← in_cache (ld_buf bp);
  s ← deref (super_bytes (b_data x));
  st_super i (λ _, s);;
  in_cache (put_block (Some bp) ZUPER_BLOCK);;
  st_super i (λ s, s <| s_dev := NO_DEV |>);;
  match super_kind (s_magic s) with
  | None => mret FS_EINVAL
  | Some (version, native) =>
      st_super i (super_fields version native);;
      s ← ld_super i;
      if super_sane s then st_super i (λ s, s <| s_dev := dev |>);; mret 0
      else mret FS_EINVAL
  end.

(** ** Zones *)
Definition alloc_zone (dev z : Z) : FS Z :=
  i ← get_super dev;
  sp ← ld_super i;
  let bit := if z =? s_firstdatazone sp then s_zsearch sp else u32 (z - (s_firstdatazone sp - 1)) in
  b ← in_cache (alloc_bit sp ZMAP bit);
  if b =? NO_BIT then
    modify (λ f, f <| err_code := FS_ENOSPC |>);;
    root ← gets root_dev;
    in_cache (fs_printf ("No space on " +:+ (if s_dev sp =? root then "root " else "") +:+ "device " +:+ dev_name (s_dev sp) +:+ newline));;
    mret NO_ZONE
  else
    (if z =? s_firstdatazone sp then st_super i (λ s, s <| s_zsearch := b |>) else mret ());;
    mret (u32 (s_firstdatazone sp - 1 + b)).

Definition free_zone (dev numb : Z) : FS unit :=
  i ← get_super dev;
  sp ← ld_super i;
  if (numb <? s_firstdatazone sp) || (numb >=? s_zones sp) then mret ()
  else
    let bit := u32 (numb - (s_firstdatazone sp - 1)) in
    in_cache (free_bit sp ZMAP bit);;
    if bit <? s_zsearch sp then st_super i (λ s, s <| s_zsearch := bit |>) else mret ().
End maps.
