(* ===== verification/FsBitmap.v ===== *)
(** * Bit maps and zones against the cache's specification

    [alloc_bit] finds the first free bit of a map in search order and sets
    exactly that bit, [free_bit] undoes it, and [alloc_zone] and [free_zone]
    keep the promise of [s_zsearch].  The proofs use the buffer cache only
    through its specification ([repr] and [cop_step] of FsSpec.v). *)

From stdpp Require Import base gmap strings pretty numbers fin_maps functions list.
From S2P Require Import Prelude FsCache FsChains FsCoherence FsSpec FsMap.
Local Open Scope Z_scope.


(** ** Byte order *)
Lemma lor_add a b n : 0 ≤ n → 0 ≤ b < 2 ^ n → Z.lor (Z.shiftl a n) b = a * 2 ^ n + b.
Proof.
  intros Hn Hb. rewrite <- Z.shiftl_mul_pow2 by done. assert (E : Z.land (Z.shiftl a n) b = 0).
  { apply Z.bits_inj'. intros i Hi. rewrite Z.land_spec, Z.bits_0. destruct (decide (i < n)); [by rewrite Z.shiftl_spec_low|].
    replace b with (b mod 2 ^ n) by (by apply Z.mod_small). by rewrite Z.mod_pow2_bits_high, andb_false_r by lia. }
  rewrite Z.add_nocarry_lxor by done. by rewrite Z.lxor_lor.
Qed.

Lemma land_255 x : Z.land x 255 = x mod 256.
Proof. change 255 with (Z.ones 8). by rewrite Z.land_ones. Qed.

Lemma conv2_norm n w : n ≠ 0 → 0 ≤ w < 65536 → conv2 n w = w.
Proof. intros Hn Hw. unfold conv2. rewrite (proj2 (Z.eqb_neq _ _) Hn). cbn [negb]. change 0xFFFF with (Z.ones 16). rewrite Z.land_ones by done. by apply Z.mod_small. Qed.

Lemma conv2_swap w : 0 ≤ w < 65536 → conv2 0 w = w mod 256 * 256 + w / 256.
Proof.
  intros Hw. unfold conv2. cbn [Z.eqb negb]. rewrite !land_255, Z.shiftr_div_pow2 by done. change (2 ^ 8) with 256.
  pose proof (Z.mod_pos_bound w 256 ltac:(lia)). assert (0 ≤ w / 256 < 256) by (split; [apply Z.div_pos; lia|apply Z.div_lt_upper_bound; lia]).
  rewrite (Z.mod_small (w / 256)) by done. apply (lor_add (w mod 256) (w / 256) 8); lia.
Qed.

Lemma conv2_range n w : 0 ≤ w < 65536 → 0 ≤ conv2 n w < 65536.
Proof.
  intros Hw. destruct (decide (n = 0)) as [->|]; [|by rewrite conv2_norm]. rewrite conv2_swap by done. pose proof (Z.mod_pos_bound w 256 ltac:(lia)).
  assert (0 ≤ w / 256 < 256) by (split; [apply Z.div_pos; lia|apply Z.div_lt_upper_bound; lia]). lia.
Qed.

Lemma conv2_twice n w : 0 ≤ w < 65536 → conv2 n (conv2 n w) = w.
Proof.
  intros Hw. destruct (decide (n = 0)) as [->|]; [|rewrite (conv2_norm n w) by done; by rewrite conv2_norm]. rewrite (conv2_swap (conv2 0 w)) by by apply conv2_range. rewrite conv2_swap by done.
  pose proof (Z.mod_pos_bound w 256 ltac:(lia)). assert (0 ≤ w / 256 < 256) by (split; [apply Z.div_pos; lia|apply Z.div_lt_upper_bound; lia]).
  rewrite (Z.add_comm (w mod 256 * 256) (w / 256)), Z.mod_add, Z.div_add by lia. rewrite (Z.mod_small (w / 256)), (Z.div_small (w / 256)) by lia. pose proof (Z.div_mod w 256). lia.
Qed.

Lemma conv2_full n w : 0 ≤ w < 65536 → conv2 n w = 0xFFFF → w = 0xFFFF.
Proof. intros Hw E. rewrite <- (conv2_twice n w Hw), E. by destruct n. Qed.

(** ** Chunks in a block *)
Record wf_block (d : block_data) : Prop := {
  wf_length : length d = Z.to_nat BLOCK_SIZE;
  wf_bytes i v : d !! i = Some v → 0 ≤ v < 256;
}.

Lemma get16_ok d w : wf_block d → 0 ≤ w < BITMAP_CHUNKS → ∃ c, get16 d (Z.to_nat (2 * w)) = Some c ∧ 0 ≤ c < 65536.
Proof.
  intros [Hl Hb] Hw. unfold BITMAP_CHUNKS in Hw. change (BLOCK_SIZE / 2) with 512 in Hw. change (Z.to_nat BLOCK_SIZE) with 1024%nat in Hl.
  destruct (lookup_lt_is_Some_2 d (Z.to_nat (2 * w))) as [lo Hlo]; [lia|]. destruct (lookup_lt_is_Some_2 d (S (Z.to_nat (2 * w)))) as [hi Hhi]; [lia|].
  unfold get16. rewrite Hlo. cbn. rewrite Hhi. cbn. eexists. split; [done|]. pose proof (Hb _ _ Hlo). pose proof (Hb _ _ Hhi). lia.
Qed.

Lemma set16_wf d w v : wf_block d → wf_block (set16 d w v).
Proof.
  intros [Hl Hb]. split; [unfold set16; by rewrite !length_insert|]. intros i x. unfold set16. rewrite !land_255. rewrite !list_lookup_insert.
  repeat case_decide; try (intros [= <-]; apply Z.mod_pos_bound; lia); apply Hb.
Qed.

Lemma get_set16 d w w' v : wf_block d → 0 ≤ w < BITMAP_CHUNKS → 0 ≤ w' < BITMAP_CHUNKS → 0 ≤ v < 65536 →
  get16 (set16 d (Z.to_nat (2 * w)) v) (Z.to_nat (2 * w')) = if decide (w' = w) then Some v else get16 d (Z.to_nat (2 * w')).
Proof.
  intros [Hl _] Hw Hw' Hv. unfold BITMAP_CHUNKS in *. change (BLOCK_SIZE / 2) with 512 in *. change (Z.to_nat BLOCK_SIZE) with 1024%nat in Hl.
  unfold get16, set16. rewrite !land_255, Z.shiftr_div_pow2 by done. change (2 ^ 8) with 256. case_decide as E.
  - subst w'. rewrite list_lookup_insert_eq by (rewrite length_insert; lia). cbn. rewrite list_lookup_insert_ne, list_lookup_insert_eq by lia. cbn. f_equal.
    rewrite (Z.mod_small (v / 256)) by (split; [apply Z.div_pos; lia|apply Z.div_lt_upper_bound; lia]). pose proof (Z.div_mod v 256). lia.
  - by rewrite !list_lookup_insert_ne by lia.
Qed.

(** Bit [n] of a block of a map. *)
Definition mapbit (native : Z) (d : block_data) (n : Z) : bool :=
  match get16 d (Z.to_nat (2 * (n / BITCHUNK_BITS))) with
  | Some c => Z.testbit (conv2 native c) (n mod BITCHUNK_BITS)
  | None => false
  end.

Lemma mapbit_word native d w c j : get16 d (Z.to_nat (2 * w)) = Some c → 0 ≤ j < 16 → mapbit native d (w * 16 + j) = Z.testbit (conv2 native c) j.
Proof.
  intros Hc Hj. unfold mapbit, BITCHUNK_BITS. replace ((w * 16 + j) / 16) with w by (rewrite Z.div_add_l, Z.div_small by lia; lia).
  rewrite Hc. f_equal. rewrite Z.add_comm, Z.mod_add by lia. by apply Z.mod_small.
Qed.

Lemma testbit_full j : 0 ≤ j < 16 → Z.testbit 0xFFFF j = true.
Proof. intros Hj. change 0xFFFF with (Z.ones 16). by apply Z.ones_spec_low. Qed.

Lemma first_zero_spec fuel k i : 0 ≤ i →
  let r := first_zero fuel k i in
  i ≤ r ≤ i + Z.of_nat fuel ∧ (∀ j, i ≤ j < r → Z.testbit k j = true) ∧ (r < i + Z.of_nat fuel → Z.testbit k r = false).
Proof.
  revert i. induction fuel as [|fuel IH]; intros i Hi; cbn -[Z.of_nat Z.shiftl]; [split; [lia|]; split; [lia|lia]|].
  rewrite TEST_BIT_shift by done. destruct (Z.testbit k i) eqn:E; [|split; [lia|]; split; [lia|done]].
  destruct (IH (i + 1)) as (H1 & H2 & H3); [lia|]. split; [lia|]. split; [|intros; apply H3; lia].
  intros j Hj. destruct (decide (j = i)) as [->|]; [done|]. apply H2. lia.
Qed.

Lemma bits_below a k n : 0 ≤ a < 2 ^ n → 0 ≤ n → n ≤ k → Z.testbit a k = false.
Proof. intros Ha Hn Hk. replace a with (a mod 2 ^ n) by (by apply Z.mod_small). by apply Z.mod_pow2_bits_high. Qed.

(** A chunk that is not full has a zero bit. *)
Lemma first_zero_chunk k : 0 ≤ k < 65536 → k ≠ 0xFFFF →
  let i := first_zero 16 k 0 in 0 ≤ i < 16 ∧ Z.testbit k i = false ∧ ∀ j, 0 ≤ j < i → Z.testbit k j = true.
Proof.
  intros Hk Hne i. destruct (first_zero_spec 16 k 0 ltac:(lia)) as (H1 & H2 & H3). fold i in H1, H2, H3. change (Z.of_nat 16) with 16 in *.
  assert (i ≠ 16); [|split; [lia|]; split; [apply H3; lia|apply H2]]. intros E. apply Hne. apply Z.bits_inj'. intros n Hn.
  destruct (decide (n < 16)); [rewrite testbit_full by lia; apply H2; lia|]. rewrite !(bits_below _ n 16); done || lia.
Qed.

Lemma SET_BIT_range k i : 0 ≤ k < 65536 → 0 ≤ i < 16 → 0 ≤ SET_BIT k (Z.shiftl 1 i) < 65536.
Proof.
  intros Hk Hi. assert (Hn : 0 ≤ SET_BIT k (Z.shiftl 1 i)) by (apply SET_BIT_nonneg; [lia|apply Z.shiftl_nonneg; lia]). split; [done|].
  change 65536 with (2 ^ 16). destruct (decide (SET_BIT k (Z.shiftl 1 i) = 0)) as [->|Hz]; [done|]. apply Z.log2_lt_pow2; [lia|].
  unfold SET_BIT in *. rewrite Z.log2_lor by (lia || (apply Z.shiftl_nonneg; lia)). apply Z.max_lub_lt.
  - destruct (decide (k = 0)) as [->|]; [done|]. apply Z.log2_lt_pow2; lia.
  - rewrite Z.shiftl_1_l, Z.log2_pow2; lia.
Qed.

Lemma CLR_BIT_range k b : 0 ≤ k < 65536 → 0 ≤ CLR_BIT k b < 65536.
Proof.
  intros Hk. split; [apply CLR_BIT_nonneg; lia|]. change 65536 with (2 ^ 16) in *. destruct (decide (CLR_BIT k b = 0)) as [->|Hz]; [done|].
  assert (0 ≤ CLR_BIT k b) by (apply CLR_BIT_nonneg; lia). destruct (decide (k = 0)) as [->|]; [done|]. apply Z.log2_lt_pow2; [lia|]. 
  apply Z.le_lt_trans with (Z.log2 k); [|apply Z.log2_lt_pow2; lia]. unfold CLR_BIT in *.
  destruct (Z.le_gt_cases (Z.log2 (Z.land k (Z.lnot b))) (Z.log2 k)); [done|]. exfalso. pose proof (Z.bit_log2 (Z.land k (Z.lnot b)) ltac:(lia)) as E.
  rewrite Z.land_spec, (Z.bits_above_log2 k) in E by lia. done.
Qed.

(** Storing a chunk with one bit changed changes one bit of the map. *)
Lemma mapbit_store native d w c k i (v : bool) n : wf_block d → 0 ≤ w < BITMAP_CHUNKS → 0 ≤ i < 16 → 0 ≤ n < BITS_PER_BLOCK →
  get16 d (Z.to_nat (2 * w)) = Some c → 0 ≤ k < 65536 → (∀ j, 0 ≤ j < 16 → Z.testbit k j = if i =? j then v else Z.testbit (conv2 native c) j) →
  mapbit native (set16 d (Z.to_nat (2 * w)) (conv2 native k)) n = if w * 16 + i =? n then v else mapbit native d n.
Proof.
  intros Hd Hw Hi Hn Hc Hk Hb. pose proof (Z.div_mod n 16 ltac:(lia)) as En. pose proof (Z.mod_pos_bound n 16 ltac:(lia)) as Hm.
  unfold BITS_PER_BLOCK, BITCHUNK_BITS in Hn. assert (Hw' : 0 ≤ n / 16 < BITMAP_CHUNKS) by (split; [apply Z.div_pos; lia|apply Z.div_lt_upper_bound; lia]).
  unfold mapbit at 1. unfold BITCHUNK_BITS. rewrite get_set16 by (done || by apply conv2_range). destruct (decide (n / 16 = w)) as [E|E].
  - rewrite conv2_twice by done. rewrite Hb by done. unfold mapbit, BITCHUNK_BITS. rewrite E, Hc.
    destruct (Z.eqb_spec i (n mod 16)), (Z.eqb_spec (w * 16 + i) n); done || lia.
  - rewrite (proj2 (Z.eqb_neq _ _)) by (intros <-; apply E; rewrite Z.div_add_l, Z.div_small by lia; lia). done.
Qed.

(** ** Searching a map *)

(** [b] is the first element of [l] with [P]; no element of [l] has [P]. *)
Definition first_in (P : Z → Prop) (l : list Z) (b : Z) : Prop := ∃ l1 l2, l = l1 ++ b :: l2 ∧ P b ∧ ∀ x, x ∈ l1 → ¬ P x.
Definition none_in (P : Z → Prop) (l : list Z) : Prop := ∀ x, x ∈ l → ¬ P x.

Lemma first_in_app P l1 l2 b : none_in P l1 → first_in P l2 b → first_in P (l1 ++ l2) b.
Proof. intros Hn (m1 & m2 & -> & Hb & Hm). exists (l1 ++ m1), m2. rewrite <- app_assoc. split_and!; try done. intros x [?|?]%elem_of_app; auto. Qed.
Lemma first_in_l P l1 l2 b : first_in P l1 b → first_in P (l1 ++ l2) b.
Proof. intros (m1 & m2 & -> & Hb & Hm). exists m1, (m2 ++ l2). rewrite <- app_assoc. done. Qed.
Lemma none_in_app P l1 l2 : none_in P l1 → none_in P l2 → none_in P (l1 ++ l2).
Proof. intros H1 H2 x [?|?]%elem_of_app; auto. Qed.

Lemma first_in_seqZ (P : Z → Prop) a n b : a ≤ b < a + n → P b → (∀ x, a ≤ x < b → ¬ P x) → first_in P (seqZ a n) b.
Proof.
  intros Hb HP Hn. exists (seqZ a (b - a)), (seqZ (b + 1) (a + n - b - 1)). split_and!; try done.
  - replace n with ((b - a) + (1 + (a + n - b - 1))) at 1 by lia. rewrite seqZ_app, (seqZ_app _ 1) by lia. f_equal.
    replace (a + (b - a)) with b by lia. done.
  - intros x Hx%elem_of_seqZ. apply Hn. lia.
Qed.

Section search.
Context {D : Driver} {RD : Reliable D}.
Implicit Types s : cache.

(** The free bits of a block that are in the map. *)
Definition free_in (native : Z) (d : block_data) (block map_bits n : Z) : Prop :=
  mapbit native d (n - block * BITS_PER_BLOCK) = false ∧ n < map_bits.

Lemma scan_words_spec n : ∀ s native p x block map_bits w, bufs s !! p = Some x → wf_block (b_data x) → 0 ≤ block < 32768 → 0 ≤ w → w + Z.of_nat n = BITMAP_CHUNKS →
  let d := b_data x in let base := block * BITS_PER_BLOCK in
  let l := seqZ (base + w * 16) (BITS_PER_BLOCK - w * 16) in
  scan_words n native p block map_bits w s = Ok s None ∧ none_in (free_in native d block map_bits) l ∨
  ∃ b d', first_in (free_in native d block map_bits) l b ∧ wf_block d' ∧ base ≤ b < base + BITS_PER_BLOCK ∧
    (∀ j, 0 ≤ j < BITS_PER_BLOCK → mapbit native d' j = if b - base =? j then true else mapbit native d j) ∧
    ∃ s', scan_words n native p block map_bits w s = Ok s' (Some b) ∧ write_buf p d' s = Ok s' ().
Proof.
  induction n as [|n IH]; intros s native p x block map_bits w Hx Hd Hbl Hw Hn d base l.
  { left. split; [done|]. unfold l. intros y Hy%elem_of_seqZ. unfold BITS_PER_BLOCK, BITMAP_CHUNKS, BITCHUNK_BITS, BLOCK_SIZE in *. lia. }
  assert (Hw' : 0 ≤ w < BITMAP_CHUNKS) by lia. destruct (get16_ok d w Hd Hw') as (c & Hc & Hcr).
  cbn [scan_words]. frun. erewrite bind_ok; [|by apply deref_ok]. 
  assert (El : l = seqZ (base + w * 16) 16 ++ seqZ (base + (w + 1) * 16) (BITS_PER_BLOCK - (w + 1) * 16)).
  { unfold l. replace (BITS_PER_BLOCK - w * 16) with (16 + (BITS_PER_BLOCK - (w + 1) * 16)) by lia. rewrite seqZ_app; [f_equal; f_equal; lia|lia|].
    unfold BITS_PER_BLOCK, BITCHUNK_BITS. lia. }
  assert (Hword : ∀ j, 0 ≤ j < 16 → mapbit native d (base + w * 16 + j - base) = Z.testbit (conv2 native c) j).
  { intros j Hj. replace (base + w * 16 + j - base) with (w * 16 + j) by lia. by apply mapbit_word. }
  destruct (Z.eqb_spec c 0xFFFF) as [->|Hne].
  { assert (Hnone : none_in (free_in native d block map_bits) (seqZ (base + w * 16) 16)).
    { intros y Hy%elem_of_seqZ [Hf _]. fold base in Hf. replace y with (base + w * 16 + (y - base - w * 16)) in Hf by lia. rewrite Hword in Hf by lia.
      assert (E : conv2 native 0xFFFF = 0xFFFF) by (destruct native; reflexivity). rewrite E, testbit_full in Hf by lia. done. }
    destruct (IH s native p x block map_bits (w + 1) Hx Hd Hbl) as [[Hr Hl]|(b & d' & Hf & Hrest)]; [lia|lia|left|right].
    - split; [done|]. rewrite El. by apply none_in_app.
    - exists b, d'. split; [|done]. rewrite El. by apply first_in_app. }
  assert (Ek : u16 (conv2 native c) = conv2 native c) by (unfold u16; apply Z.mod_small, conv2_range; lia). cbv zeta. rewrite Ek. set (k := conv2 native c) in *.
  assert (Hkr : 0 ≤ k < 65536) by by apply conv2_range.
  destruct (first_zero_chunk k Hkr) as (Hi & Hz & Hbelow); [intros E; apply Hne; by apply (conv2_full native)|]. set (i := first_zero 16 k 0) in *.
  assert (Eb : u32 (block * BITS_PER_BLOCK + w * BITCHUNK_BITS + i) = base + w * 16 + i).
  { unfold u32. rewrite Z.mod_small; [done|]. unfold base, BITS_PER_BLOCK, BITCHUNK_BITS, BITMAP_CHUNKS in *. change (BLOCK_SIZE / 2) with 512 in *. lia. }
  rewrite Eb. assert (HBP : BITS_PER_BLOCK = BITMAP_CHUNKS * 16) by done.
  assert (Hlow : ∀ y, base + w * 16 ≤ y < base + w * 16 + i → ¬ free_in native d block map_bits y).
  { intros y Hy [Hf _]. fold base in Hf. replace y with (base + w * 16 + (y - base - w * 16)) in Hf by lia. rewrite Hword, Hbelow in Hf by lia. done. }
  destruct (_ >=? map_bits) eqn:Eg; rewrite Z.geb_leb in Eg.
  { apply Z.leb_le in Eg. left. split; [done|]. intros y Hy%elem_of_seqZ Hf. apply (Hlow y); [|done]. destruct Hf. lia. }
  apply Z.leb_gt in Eg. right. exists (base + w * 16 + i), (set16 d (Z.to_nat (2 * w)) (conv2 native (SET_BIT k (Z.shiftl 1 i)))).
  split; [apply first_in_seqZ; [lia| |done]; split; [fold base; by rewrite Hword|done]|]. split; [by apply set16_wf|]. split; [lia|]. split.
  - intros j Hj. rewrite (mapbit_store native d w c (SET_BIT k (Z.shiftl 1 i)) i true j) by (done || (by apply SET_BIT_range) || (intros; rewrite SET_BIT_shift by lia; by destruct (_ =? _))).
    by replace (base + w * 16 + i - base) with (w * 16 + i) by lia.
  - frun. eexists. split; [reflexivity|]. unfold write_buf. erewrite st_buf_ok by done. f_equal. unfold upd. cbn. f_equal. by rewrite insert_insert_eq.
Qed.

(** ** The cache through its specification *)

(** There is a buffer for one more block. *)
Definition roomy (a : acache) : Prop :=
  Z.of_nat (size (a_pins a)) < NR_BUFS ∧ ∀ p d b n, a_pins a !! p = Some (d, b, n) → n < 127.

Lemma astep_read d b a a' r : astep (CRead d b) a a' r →
  ∃ p n, pick a d b p n ∧ a' = mk_acache (a_disk a) (<[p := (d, b, n + 1)]> (a_pins a)) ∧ r = Some (p, a_disk a d b).
Proof. inversion 1; subst; eauto 10. Qed.

Lemma use_get nr s a d b : repr nr s a → valid nr d b → roomy a →
  ∃ s' p n x, get_block d b NORMAL s = Ok s' p ∧ bufs s' !! p = Some x ∧ b_data x = a_disk a d b ∧ pick a d b p n ∧
    repr nr s' (mk_acache (a_disk a) (<[p := (d, b, n + 1)]> (a_pins a))).
Proof.
  intros HR Hv [Hsz Hlim]. destruct (cop_step nr s a (CRead d b) HR) as (s' & a' & r & Hrun & Hst & HR').
  { split; [done|]. split; [intros p n; apply Hlim|by right]. }
  cbn in Hrun. apply bind_inv in Hrun as (s1 & p1 & Hget & Hrun). apply bind_inv in Hrun as (s2 & y & Hld & Hrun). injection Hrun as -> Er.
  destruct (astep_read _ _ _ _ _ Hst) as (p & n & Hp & -> & Er'). rewrite Er' in Er. injection Er as -> Edat. unfold ld_buf in Hld. apply bind_inv in Hld as (s2 & m & Hm & Hld). injection Hm as <- <-.
  destruct (bufs s1 !! p) as [z|] eqn:Hz; [|done]. cbn in Hld. injection Hld as <- <-. by exists s1, p, n, z.
Qed.

Lemma pick_cases nr s a d b p n : repr nr s a → pick a d b p n → n = 0 ∧ a_pins a !! p = None ∨ 0 < n ∧ a_pins a !! p = Some (d, b, n).
Proof.
  intros HR [Hp|(Hp & _ & ->)]; [right|by left]. split; [|done]. by apply (r_pins _ _ _ HR) in Hp as (x & _ & _ & _ & _ & ?).
Qed.

Lemma use_write nr s s' a p d b n v : repr nr s a → a_pins a !! p = Some (d, b, n) → write_buf p v s = Ok s' () →
  repr nr s' (mk_acache (cset (a_disk a) d b v) (a_pins a)).
Proof.
  intros HR Hp Hw. destruct (cop_step nr s a (CWrite p v) HR) as (s1 & a1 & r & Hrun & Hst & HR1); [cbn; eauto|].
  cbn in Hrun. rewrite (bind_ok _ _ _ _ _ Hw) in Hrun. injection Hrun as -> <-. inversion Hst as [| |? ? ? d' b' n' Hp'| |]; subst. rewrite Hp in Hp'. by injection Hp' as <- <- <-.
Qed.

(** Giving back a buffer just taken leaves the users as they were. *)
Lemma use_put nr s a pins p d b n ty : repr nr s a → a_pins a = <[p := (d, b, n + 1)]> pins → n = 0 ∧ pins !! p = None ∨ 0 < n ∧ pins !! p = Some (d, b, n) →
  ∃ s', put_block (Some p) ty s = Ok s' () ∧ repr nr s' (mk_acache (a_disk a) pins).
Proof.
  intros HR Ep Hn. destruct (cop_step nr s a (CPut p ty) HR) as (s1 & a1 & r & Hrun & Hst & HR1); [cbn; rewrite Ep, lookup_insert_eq; eauto|].
  cbn -[put_block] in Hrun. apply bind_inv in Hrun as (s2 & [] & Hput & Hrun). injection Hrun as -> <-. exists s1. split; [done|]. inversion Hst as [| | |? ? ? d' b' n' Hp'|]; subst.
  rewrite Ep, lookup_insert_eq in Hp'. injection Hp' as <- <- <-. rewrite Ep in HR1.
  destruct Hn as [[-> Hp]|[Hn Hp]].
  - cbn in HR1. by rewrite delete_insert_id in HR1.
  - rewrite (proj2 (Z.eqb_neq _ _)) in HR1 by lia. rewrite insert_insert_eq in HR1. replace (n + 1 - 1) with n in HR1 by lia. by rewrite insert_id in HR1.
Qed.
End search.

Lemma first_in_app_inv P l1 l2 b : first_in P (l1 ++ l2) b → first_in P l1 b ∨ none_in P l1 ∧ first_in P l2 b.
Proof.
  intros (m1 & m2 & E & Hb & Hm). apply app_eq_app in E as (l & [[-> E]|[-> E]]).
  - destruct l as [|y l]; cbn in E; subst.
    + right. rewrite app_nil_r. split; [done|]. exists [], m2. split; [done|]. split; [done|]. by intros x ?%elem_of_nil.
    + injection E as -> ->. left. by exists m1, l.
  - right. split; [intros x Hx; apply Hm, elem_of_app; by left|]. exists l, m2. split; [done|]. split; [done|]. intros x Hx. apply Hm, elem_of_app. by right.
Qed.

Lemma first_in_seqZ_inv (P : Z → Prop) a n b : first_in P (seqZ a n) b → a ≤ b < a + n ∧ P b ∧ ∀ x, a ≤ x < b → ¬ P x.
Proof.
  intros (l1 & l2 & E & Hb & Hl). assert (Hi : ∀ i y, (l1 ++ b :: l2) !! i = Some y → y = a + Z.of_nat i ∧ Z.of_nat i < n).
  { intros i y Hy. rewrite <- E in Hy. by apply lookup_seqZ in Hy. }
  destruct (Hi (length l1) b) as [Eb Hn]; [by apply list_lookup_middle|]. split; [lia|]. split; [done|]. intros x Hx. apply Hl.
  destruct (lookup_lt_is_Some_2 l1 (Z.to_nat (x - a))) as [y Hy]; [lia|]. destruct (Hi (Z.to_nat (x - a)) y) as [Ey _]; [by apply lookup_app_l_Some|].
  replace x with y by lia. by eapply list_elem_of_lookup_2.
Qed.

(** ** The maps of a file system *)
Section map.
Context {D : Driver} {RD : Reliable D}.
Implicit Types s : cache.
Context (nr : Z) (sp : super_block) (map : Z).

Abbreviation dev := (s_dev sp).
Abbreviation start := (map_start sp map).
Abbreviation blocks := (map_blocks sp map).
Abbreviation bits := (map_size sp map).

(** The blocks of the map can be read and hold bytes, and the map fits in them. *)
Record map_ok (a : acache) : Prop := {
  mo_valid i : 0 ≤ i < blocks → valid nr dev (start + i);
  mo_wf i : 0 ≤ i < blocks → wf_block (a_disk a dev (start + i));
  mo_blocks : 1 ≤ blocks < 32768;
  mo_bits : 1 ≤ bits ≤ blocks * BITS_PER_BLOCK;
  mo_start : 0 ≤ start;
}.

Definition bit_at (a : acache) (n : Z) : bool :=
  mapbit (s_native sp) (a_disk a dev (start + n / BITS_PER_BLOCK)) (n mod BITS_PER_BLOCK).

Definition is_free (a : acache) (n : Z) : Prop := bit_at a n = false ∧ n < bits.

(** Exactly bit [b] of the map becomes [v]; nothing else changes. *)
Record bit_set (a a' : acache) (b : Z) (v : bool) : Prop := {
  bs_pins : a_pins a' = a_pins a;
  bs_disk d blk : ¬ (d = dev ∧ blk = start + b / BITS_PER_BLOCK) → a_disk a' d blk = a_disk a d blk;
  bs_bits n : 0 ≤ n < blocks * BITS_PER_BLOCK → bit_at a' n = if b =? n then v else bit_at a n;
  bs_wf i : 0 ≤ i < blocks → wf_block (a_disk a' dev (start + i));
}.

(** The bits in the order the search looks at them. *)
Definition next_block (block : Z) : Z := if block + 1 >=? blocks then 0 else block + 1.

Fixpoint visit (bcount : nat) (block word : Z) : list Z :=
  match bcount with
  | O => []
  | S n => seqZ (block * BITS_PER_BLOCK + word * 16) (BITS_PER_BLOCK - word * 16) ++ visit n (next_block block) 0
  end.

Lemma in_block block n : block * BITS_PER_BLOCK ≤ n < block * BITS_PER_BLOCK + BITS_PER_BLOCK → n / BITS_PER_BLOCK = block ∧ n mod BITS_PER_BLOCK = n - block * BITS_PER_BLOCK.
Proof.
  intros Hn. assert (HB : 0 < BITS_PER_BLOCK) by done.
  assert (E : n / BITS_PER_BLOCK = block) by (symmetry; apply (Z.div_unique_pos _ _ _ (n - block * BITS_PER_BLOCK)); lia). split; [done|]. rewrite Z.mod_eq, E by lia. lia.
Qed.

Lemma block_div n k : 0 ≤ n < k * BITS_PER_BLOCK → 0 ≤ n / BITS_PER_BLOCK < k ∧ 0 ≤ n mod BITS_PER_BLOCK < BITS_PER_BLOCK.
Proof.
  intros Hn. assert (HB : 0 < BITS_PER_BLOCK) by done. split; [|by apply Z.mod_pos_bound]. split; [apply Z.div_pos; lia|apply Z.div_lt_upper_bound; lia].
Qed.

Lemma first_in_iff (P Q : Z → Prop) l b : (∀ x, x ∈ l → P x ↔ Q x) → first_in P l b → first_in Q l b.
Proof.
  intros HPQ (l1 & l2 & -> & Hb & Hl). exists l1, l2. split; [done|]. split; [apply HPQ; [|done]; rewrite elem_of_app, elem_of_cons; by right; left|].
  intros x Hx. rewrite <- HPQ; [by apply Hl|]. rewrite elem_of_app. by left.
Qed.

Lemma free_in_iff a block w x : 0 ≤ w → x ∈ seqZ (block * BITS_PER_BLOCK + w * 16) (BITS_PER_BLOCK - w * 16) →
  free_in (s_native sp) (a_disk a dev (start + block)) block bits x ↔ is_free a x.
Proof.
  intros Hw Hx%elem_of_seqZ. destruct (in_block block x) as [E1 E2]; [lia|]. unfold free_in, is_free, bit_at. by rewrite E1, E2.
Qed.

(** New contents of one block of the map with one bit changed. *)
Lemma bit_set_intro a block b v d' : map_ok a → 0 ≤ block < blocks → block * BITS_PER_BLOCK ≤ b < block * BITS_PER_BLOCK + BITS_PER_BLOCK → wf_block d' →
  (∀ j, 0 ≤ j < BITS_PER_BLOCK → mapbit (s_native sp) d' j = if b - block * BITS_PER_BLOCK =? j then v else mapbit (s_native sp) (a_disk a dev (start + block)) j) →
  bit_set a (mk_acache (cset (a_disk a) dev (start + block) d') (a_pins a)) b v.
Proof.
  intros Ha Hbl Hb Hd Hj. destruct (in_block block b Hb) as [E1 E2]. split; [done|..]; cbn.
  - intros d blk Hne. unfold cset. rewrite E1 in Hne. by rewrite decide_False.
  - intros n Hn. unfold bit_at. cbn. unfold cset. destruct (block_div n _ Hn) as [Hq Hr]. case_decide as E.
    + destruct E as [_ E]. assert (Eq : n / BITS_PER_BLOCK = block) by lia. rewrite Hj, Eq by done. pose proof (Z.div_mod n BITS_PER_BLOCK ltac:(done)) as En. rewrite Eq in En.
      destruct (Z.eqb_spec (b - block * BITS_PER_BLOCK) (n mod BITS_PER_BLOCK)), (Z.eqb_spec b n); done || lia.
    + destruct (Z.eqb_spec b n) as [<-|]; [|done]. by destruct E; rewrite E1.
  - intros i Hi. unfold cset. case_decide; [done|]. by apply (mo_wf a Ha).
Qed.

Lemma scan_blocks_spec bc : ∀ s a block w, repr nr s a → roomy a → map_ok a → 0 ≤ block < blocks → 0 ≤ w < BITMAP_CHUNKS →
  (∃ s', scan_blocks bc sp start blocks bits block w s = Ok s' NO_BIT ∧ repr nr s' a ∧ none_in (is_free a) (visit bc block w)) ∨
  ∃ s' a' b, scan_blocks bc sp start blocks bits block w s = Ok s' b ∧ first_in (is_free a) (visit bc block w) b ∧ repr nr s' a' ∧ bit_set a a' b true.
Proof.
  induction bc as [|bc IH]; intros s a block w HR Hro Ha Hbl Hw.
  { left. exists s. split; [done|]. split; [done|]. by intros x ?%elem_of_nil. }
  cbn [scan_blocks visit]. pose proof (mo_valid a Ha block Hbl) as Hv. assert (Eu : u32 (start + block) = start + block).
  { unfold u32. apply Z.mod_small. destruct Hv as (_ & _ & Hv & _). lia. }
  rewrite Eu. destruct (use_get nr s a dev (start + block) HR Hv Hro) as (s1 & p & n & x & Hr1 & Hx & Hdat & Hpk & HR1). rewrite (bind_ok _ _ _ _ _ Hr1).
  pose proof (pick_cases _ _ _ _ _ _ _ HR Hpk) as Hcases. set (l := seqZ _ _).
  assert (Hiff : ∀ y, y ∈ l → free_in (s_native sp) (b_data x) block bits y ↔ is_free a y) by (intros y Hy; rewrite Hdat; apply (free_in_iff a block w); [lia|done]).
  destruct (scan_words_spec (Z.to_nat (BITMAP_CHUNKS - w)) s1 (s_native sp) p x block bits w Hx) as [[Hr2 Hnone]|(b & d' & Hfst & Hwf & Hbr & Hbits & s2 & Hr2 & Hwr)].
  { rewrite Hdat. by apply (mo_wf a Ha). } { pose proof (mo_blocks a Ha). lia. } { lia. } { lia. }
  - rewrite (bind_ok _ _ _ _ _ Hr2). destruct (use_put nr s1 _ (a_pins a) p dev (start + block) n MAP_BLOCK HR1 eq_refl Hcases) as (s3 & Hr3 & HR3). cbn in HR3.
    rewrite (bind_ok _ _ _ _ _ Hr3). assert (HR3' : repr nr s3 a) by (by destruct a). fold (next_block block).
    assert (Hnl : none_in (is_free a) l) by (intros y Hy; rewrite <- Hiff by done; by apply Hnone).
    destruct (IH s3 a (next_block block) 0 HR3' Hro Ha) as [(s' & Hr & HR' & Hn')|(s' & a' & b & Hr & Hf' & HR' & Hbs)].
    { unfold next_block. destruct (Z.geb_spec (block + 1) blocks); lia. } { done. }
    + left. exists s'. split; [done|]. split; [done|]. by apply none_in_app.
    + right. exists s', a', b. split; [done|]. split; [by apply first_in_app|done].
  - rewrite (bind_ok _ _ _ _ _ Hr2). pose proof (use_write nr s1 s2 _ p dev (start + block) (n + 1) d' HR1 (lookup_insert_eq _ _ _) Hwr) as HR2. cbn in HR2.
    destruct (use_put nr s2 _ (a_pins a) p dev (start + block) n MAP_BLOCK HR2 eq_refl Hcases) as (s3 & Hr3 & HR3). cbn in HR3. rewrite (bind_ok _ _ _ _ _ Hr3).
    right. eexists s3, _, b. split; [done|]. split; [apply first_in_l; by eapply first_in_iff|]. split; [exact HR3|]. eapply bit_set_intro; try done. by rewrite <- Hdat.
Qed.

Lemma next_block_lt block : block + 1 < blocks → next_block block = block + 1.
Proof. intros H. unfold next_block. destruct (Z.geb_spec (block + 1) blocks); lia. Qed.

(** Blocks that follow each other are looked at from end to end. *)
Lemma visit_run n1 n2 block w : 0 ≤ w < BITMAP_CHUNKS → block + Z.of_nat (S n1) ≤ blocks →
  visit (S n1 + n2) block w = seqZ (block * BITS_PER_BLOCK + w * 16) (Z.of_nat (S n1) * BITS_PER_BLOCK - w * 16) ++ visit n2 (next_block (block + Z.of_nat n1)) 0.
Proof.
  assert (HB : BITS_PER_BLOCK = BITMAP_CHUNKS * 16) by done. revert block w. induction n1 as [|n1 IH]; intros block w Hw Hb.
  - cbn [visit Nat.add]. replace (block + Z.of_nat 0) with block by lia. f_equal; try done; try (f_equal; lia).
  - change (visit (S (S n1) + n2) block w) with (seqZ (block * BITS_PER_BLOCK + w * 16) (BITS_PER_BLOCK - w * 16) ++ visit (S n1 + n2) (next_block block) 0).
    rewrite next_block_lt, IH by (done || lia). rewrite app_assoc. f_equal; [|f_equal; f_equal; lia].
    replace (Z.of_nat (S (S n1)) * BITS_PER_BLOCK - w * 16) with ((BITS_PER_BLOCK - w * 16) + (Z.of_nat (S n1) * BITS_PER_BLOCK)) by lia.
    rewrite (seqZ_app _ (BITS_PER_BLOCK - w * 16)); [|lia|apply Z.mul_nonneg_nonneg; [lia|done]]. f_equal. f_equal; lia.
Qed.

Lemma visit_all block w : 0 ≤ w < BITMAP_CHUNKS → 0 ≤ block < blocks →
  visit (Z.to_nat (blocks + 1)) block w = seqZ (block * BITS_PER_BLOCK + w * 16) (blocks * BITS_PER_BLOCK - (block * BITS_PER_BLOCK + w * 16)) ++ seqZ 0 ((block + 1) * BITS_PER_BLOCK).
Proof.
  intros Hw Hb. replace (Z.to_nat (blocks + 1)) with (S (Z.to_nat (blocks - block - 1)) + (S (Z.to_nat block) + 0))%nat by lia.
  rewrite visit_run by lia. replace (Z.of_nat (S (Z.to_nat (blocks - block - 1)))) with (blocks - block) by lia. f_equal; [f_equal; lia|]. replace (next_block _) with 0.
  - rewrite visit_run by (done || lia). cbn [visit]. rewrite app_nil_r. replace (Z.of_nat (S (Z.to_nat block))) with (block + 1) by lia. f_equal; lia.
  - unfold next_block. destruct (Z.geb_spec (block + Z.of_nat (Z.to_nat (blocks - block - 1)) + 1) blocks); lia.
Qed.

(** Where the search of [alloc_bit] starts: the chunk of [origin]. *)
Definition search_from (origin : Z) : Z := if origin >=? bits then 0 else 16 * (origin / 16).

Lemma alloc_bit_search s a origin : repr nr s a → roomy a → map_ok a → s_rd_only sp = 0 → 0 ≤ origin →
  let l := seqZ (search_from origin) (blocks * BITS_PER_BLOCK - search_from origin) ++ seqZ 0 ((search_from origin / BITS_PER_BLOCK + 1) * BITS_PER_BLOCK) in
  0 ≤ search_from origin < bits ∧
  ((∃ s', alloc_bit sp map origin s = Ok s' NO_BIT ∧ repr nr s' a ∧ none_in (is_free a) l) ∨
   ∃ s' a' b, alloc_bit sp map origin s = Ok s' b ∧ first_in (is_free a) l b ∧ repr nr s' a' ∧ bit_set a a' b true).
Proof.
  intros HR Hro Ha Hrd Ho l. pose proof (mo_bits a Ha) as Hbits. pose proof (mo_blocks a Ha) as Hblocks. assert (HB : BITS_PER_BLOCK = 512 * 16) by done.
  set (o := if origin >=? bits then 0 else origin). assert (Hor : 0 ≤ o < bits) by (unfold o; destruct (Z.geb_spec origin bits); lia).
  assert (Es : search_from origin = 16 * (o / 16)) by (unfold search_from, o; by destruct (origin >=? bits)).
  set (w := (o mod BITS_PER_BLOCK) / BITCHUNK_BITS). set (block := o / BITS_PER_BLOCK). destruct (block_div o blocks) as [Hblk Hmod]; [lia|]. fold block in Hblk.
  assert (Hw : 0 ≤ w < BITMAP_CHUNKS) by (unfold w, BITCHUNK_BITS; split; [apply Z.div_pos; lia|apply Z.div_lt_upper_bound; [lia|]; change (16 * BITMAP_CHUNKS) with BITS_PER_BLOCK; lia]).
  assert (Ew : search_from origin = block * BITS_PER_BLOCK + w * 16).
  { rewrite Es. pose proof (Z.div_mod o BITS_PER_BLOCK ltac:(done)) as Eo. fold block in Eo. rewrite Eo at 1. rewrite HB at 1.
    replace (512 * 16 * block + o mod BITS_PER_BLOCK) with (512 * block * 16 + o mod BITS_PER_BLOCK) by lia. rewrite Z.div_add_l by lia. fold BITCHUNK_BITS. fold w. unfold BITCHUNK_BITS. lia. }
  assert (Eb : search_from origin / BITS_PER_BLOCK = block).
  { rewrite Ew. apply in_block. unfold BITMAP_CHUNKS in Hw. change (BLOCK_SIZE / 2) with 512 in Hw. lia. }
  assert (El : visit (Z.to_nat (blocks + 1)) block w = l) by (unfold l; rewrite Eb, Ew; by apply visit_all).
  split; [rewrite Es; pose proof (Z.div_mod o 16); pose proof (Z.mod_pos_bound o 16); lia|]. unfold alloc_bit. rewrite Hrd. cbn [Z.eqb negb]. fold o block w. rewrite <- El.
  by apply scan_blocks_spec.
Qed.

(** What the order of the search says about the bit it finds, or about all bits. *)
Lemma set_bit a n : ¬ is_free a n → n < bits → bit_at a n = true.
Proof. intros Hn Hb. destruct (bit_at a n) eqn:E; [done|by destruct Hn]. Qed.

Lemma search_order a o b : map_ok a → 0 ≤ o < bits →
  first_in (is_free a) (seqZ o (blocks * BITS_PER_BLOCK - o) ++ seqZ 0 ((o / BITS_PER_BLOCK + 1) * BITS_PER_BLOCK)) b →
  0 ≤ b < bits ∧ bit_at a b = false ∧
  (o ≤ b ∧ (∀ n, o ≤ n < b → bit_at a n = true) ∨
   b < o ∧ (∀ n, o ≤ n < bits → bit_at a n = true) ∧ ∀ n, 0 ≤ n < b → bit_at a n = true).
Proof.
  intros Ha Hor Hf. pose proof (mo_bits a Ha) as Hbits.
  apply first_in_app_inv in Hf as [(Hr1 & [Hfb Hbb] & Hl)%first_in_seqZ_inv|[Hn (Hr1 & [Hfb Hbb] & Hl)%first_in_seqZ_inv]]; (split; [lia|]); (split; [done|]).
  - left. split; [lia|]. intros n Hnr. apply set_bit; [by apply Hl|lia].
  - destruct (decide (b < o)) as [Hlt|Hge].
    + right. split; [done|]. split; intros n Hnr; (apply set_bit; [|lia]); [apply Hn, elem_of_seqZ; lia|apply Hl; lia].
    + exfalso. apply (Hn b); [apply elem_of_seqZ; lia|done].
Qed.

Lemma search_none a o : map_ok a → 0 ≤ o < bits →
  none_in (is_free a) (seqZ o (blocks * BITS_PER_BLOCK - o) ++ seqZ 0 ((o / BITS_PER_BLOCK + 1) * BITS_PER_BLOCK)) → ∀ n, 0 ≤ n < bits → bit_at a n = true.
Proof.
  intros Ha Hor Hn n Hnr. pose proof (mo_bits a Ha) as Hbits.
  pose proof (Z.div_mod o BITS_PER_BLOCK ltac:(done)). pose proof (Z.mod_pos_bound o BITS_PER_BLOCK ltac:(done)).
  apply set_bit; [|lia]. apply Hn. rewrite elem_of_app, !elem_of_seqZ. lia.
Qed.

(** C35: [alloc_bit] returns the first free bit of the map in the order of its
    search, which starts at the chunk of [origin], goes to the end of the map and
    then through it from the start, and sets exactly that bit; it returns
    [NO_BIT] only when every bit of the map is in use, and then changes nothing. *)
Theorem alloc_bit_first_fit s a origin : repr nr s a → roomy a → map_ok a → s_rd_only sp = 0 → 0 ≤ origin → bit_at a 0 = true →
  let o := search_from origin in
  (∃ s', alloc_bit sp map origin s = Ok s' NO_BIT ∧ repr nr s' a ∧ ∀ n, 0 ≤ n < bits → bit_at a n = true) ∨
  ∃ s' a' b, alloc_bit sp map origin s = Ok s' b ∧ b ≠ NO_BIT ∧ 0 < b < bits ∧ bit_at a b = false ∧ repr nr s' a' ∧ bit_set a a' b true ∧
    (o ≤ b ∧ (∀ n, o ≤ n < b → bit_at a n = true) ∨
     b < o ∧ (∀ n, o ≤ n < bits → bit_at a n = true) ∧ ∀ n, 0 ≤ n < b → bit_at a n = true).
Proof.
  intros HR Hro Ha Hrd Ho H0 o. destruct (alloc_bit_search s a origin HR Hro Ha Hrd Ho) as [Hor [(s' & Hr & HR' & Hn)|(s' & a' & b & Hr & Hf & HR' & Hbs)]]; [left|right].
  - exists s'. split; [done|]. split; [done|]. by eapply search_none.
  - destruct (search_order a o b Ha Hor Hf) as (Hb & Hfb & Hord). assert (b ≠ 0) by congruence. exists s', a', b. split_and!; try done; lia.
Qed.
End map.

(** ** Giving bits back *)
Section free.
Context {D : Driver} {RD : Reliable D}.
Implicit Types s : cache.
Context (nr : Z) (sp : super_block) (map : Z).

Abbreviation dev := (s_dev sp).
Abbreviation start := (map_start sp map).
Abbreviation blocks := (map_blocks sp map).
Abbreviation bits := (map_size sp map).

Lemma free_bit_spec s a b : repr nr s a → roomy a → map_ok nr sp map a → s_rd_only sp = 0 → 0 ≤ b < blocks * BITS_PER_BLOCK →
  if bit_at sp map a b
  then ∃ s' a', free_bit sp map b s = Ok s' () ∧ repr nr s' a' ∧ bit_set sp map a a' b false
  else free_bit sp map b s = Panic (if map =? IMAP then "tried to free unused inode" else "tried to free unused block") NO_NUM.
Proof.
  intros HR Hro Ha Hrd Hb. destruct (block_div b _ Hb) as [Hblk Hmod]. set (block := b / BITS_PER_BLOCK) in *. pose proof (mo_valid _ _ _ _ Ha block Hblk) as Hv.
  assert (Eu : u32 (start + block) = start + block).
  { unfold u32. apply Z.mod_small. destruct Hv as (_ & _ & Hv & _). lia. }
  unfold free_bit. rewrite Hrd. cbn [Z.eqb negb]. fold block. rewrite Eu.
  destruct (use_get nr s a dev (start + block) HR Hv Hro) as (s1 & p & n & x & Hr1 & Hx & Hdat & Hpk & HR1). rewrite (bind_ok _ _ _ _ _ Hr1).
  pose proof (pick_cases _ _ _ _ _ _ _ HR Hpk) as Hcases. pose proof (mo_wf _ _ _ _ Ha block Hblk) as Hwf. rewrite <- Hdat in Hwf.
  set (w := (b mod BITS_PER_BLOCK) / BITCHUNK_BITS). set (i := b mod BITCHUNK_BITS).
  assert (Hw : 0 ≤ w < BITMAP_CHUNKS) by (unfold w, BITCHUNK_BITS; split; [apply Z.div_pos; lia|apply Z.div_lt_upper_bound; [lia|]; change (16 * BITMAP_CHUNKS) with BITS_PER_BLOCK; lia]).
  assert (Hi : 0 ≤ i < 16) by (apply Z.mod_pos_bound; done).
  assert (Em : b mod BITS_PER_BLOCK = w * 16 + i).
  { pose proof (Z.div_mod (b mod BITS_PER_BLOCK) BITCHUNK_BITS ltac:(done)) as E. fold w in E. unfold i. 
    assert (E2 : b mod BITS_PER_BLOCK mod BITCHUNK_BITS = b mod BITCHUNK_BITS).
    { pose proof (Z.div_mod b BITS_PER_BLOCK ltac:(done)) as Ebb. rewrite Ebb at 2. unfold BITS_PER_BLOCK at 2.
      replace (BITMAP_CHUNKS * BITCHUNK_BITS * (b / BITS_PER_BLOCK) + b mod BITS_PER_BLOCK) with (b mod BITS_PER_BLOCK + BITMAP_CHUNKS * (b / BITS_PER_BLOCK) * BITCHUNK_BITS) by lia.
      by rewrite Z.mod_add. }
    rewrite E2 in E. unfold BITCHUNK_BITS in *. lia. }
  frun. destruct (get16_ok (b_data x) w Hwf Hw) as (c & Hc & Hcr). erewrite bind_ok; [|by apply deref_ok].
  assert (Ek : u16 (conv2 (s_native sp) c) = conv2 (s_native sp) c) by (unfold u16; apply Z.mod_small, conv2_range; lia). cbv zeta. rewrite Ek. set (k := conv2 (s_native sp) c) in *.
  assert (Hkr : 0 ≤ k < 65536) by by apply conv2_range. rewrite TEST_BIT_shift by lia.
  assert (Ebit : bit_at sp map a b = Z.testbit k i) by (unfold bit_at; fold block; rewrite <- Hdat, Em; by apply mapbit_word). rewrite Ebit.
  destruct (Z.testbit k i); cbn [negb]; [|done]. frun. set (d' := set16 (b_data x) (Z.to_nat (2 * w)) (conv2 (s_native sp) (CLR_BIT k (Z.shiftl 1 i)))).
  match goal with |- context [put_block _ _ ?st] => set (s2 := st) end.
  assert (Hwr : write_buf p d' s1 = Ok s2 ()).
  { unfold write_buf. erewrite st_buf_ok by done. f_equal. unfold s2, upd. cbn. f_equal. by rewrite insert_insert_eq. }
  pose proof (use_write nr s1 s2 _ p dev (start + block) (n + 1) d' HR1 (lookup_insert_eq _ _ _) Hwr) as HR2. cbn in HR2.
  destruct (use_put nr s2 _ (a_pins a) p dev (start + block) n MAP_BLOCK HR2 eq_refl Hcases) as (s3 & Hr3 & HR3). cbn in HR3.
  eexists s3, _. split; [done|]. split; [exact HR3|]. pose proof (Z.div_mod b BITS_PER_BLOCK ltac:(done)) as Eb. fold block in Eb.
  eapply (bit_set_intro nr); [done|done|lia|by apply set16_wf|].
  intros j Hj. unfold d'. rewrite (mapbit_store (s_native sp) (b_data x) w c (CLR_BIT k (Z.shiftl 1 i)) i false j) by (done || (by apply CLR_BIT_range) || (intros; rewrite CLR_BIT_shift by lia; by destruct (_ =? _))).
  rewrite <- Hdat. by replace (b - block * BITS_PER_BLOCK) with (w * 16 + i) by lia.
Qed.

Lemma map_ok_set a a' b v : map_ok nr sp map a → bit_set sp map a a' b v → map_ok nr sp map a'.
Proof. intros [H1 H2 H3 H4 H5] Hbs. split; try done. apply Hbs. Qed.

Lemma roomy_pins a a' : a_pins a' = a_pins a → roomy a → roomy a'.
Proof. intros E. unfold roomy. by rewrite E. Qed.

(** C36: A bit just allocated is given back by [free_bit]: every bit of the map is
    then as before and no other block has changed; giving it back twice stops the
    server. *)
Theorem alloc_free_bit s a origin s' b : repr nr s a → roomy a → map_ok nr sp map a → s_rd_only sp = 0 → 0 ≤ origin → bit_at sp map a 0 = true →
  alloc_bit sp map origin s = Ok s' b → b ≠ NO_BIT →
  ∃ s2 a2, free_bit sp map b s' = Ok s2 () ∧ repr nr s2 a2 ∧ a_pins a2 = a_pins a ∧
    (∀ n, 0 ≤ n < blocks * BITS_PER_BLOCK → bit_at sp map a2 n = bit_at sp map a n) ∧
    (∀ d blk, ¬ (d = dev ∧ blk = start + b / BITS_PER_BLOCK) → a_disk a2 d blk = a_disk a d blk) ∧
    free_bit sp map b s2 = Panic (if map =? IMAP then "tried to free unused inode" else "tried to free unused block") NO_NUM.
Proof.
  intros HR Hro Ha Hrd Ho H0 Hrun Hb. destruct (alloc_bit_search nr sp map s a origin HR Hro Ha Hrd Ho) as [Hor [(s1 & Hr & _)|(s1 & a1 & b1 & Hr & Hf & HR1 & Hbs)]].
  { rewrite Hr in Hrun. by injection Hrun as <- <-. }
  rewrite Hr in Hrun. injection Hrun as -> ->. destruct Hf as (l1 & l2 & El & [Hfree Hlt] & _).
  assert (Hbr : 0 ≤ b < blocks * BITS_PER_BLOCK).
  { assert (Hin : b ∈ l1 ++ b :: l2) by (rewrite elem_of_app, elem_of_cons; by right; left). rewrite <- El, elem_of_app, !elem_of_seqZ in Hin. pose proof (mo_bits _ _ _ _ Ha). lia. }
  pose proof (map_ok_set _ _ _ _ Ha Hbs) as Ha1. pose proof (free_bit_spec s' a1 b HR1 (roomy_pins _ _ (bs_pins _ _ _ _ _ _ Hbs) Hro) Ha1 Hrd Hbr) as Hfr.
  rewrite (bs_bits _ _ _ _ _ _ Hbs), Z.eqb_refl in Hfr by done. destruct Hfr as (s2 & a2 & Hr2 & HR2 & Hbs2). exists s2, a2. split; [done|]. split; [done|].
  split; [by rewrite (bs_pins _ _ _ _ _ _ Hbs2), (bs_pins _ _ _ _ _ _ Hbs)|]. split; [|split].
  - intros n Hn. rewrite (bs_bits _ _ _ _ _ _ Hbs2), (bs_bits _ _ _ _ _ _ Hbs) by done. by destruct (Z.eqb_spec b n) as [<-|].
  - intros d blk Hne. rewrite (bs_disk _ _ _ _ _ _ Hbs2), (bs_disk _ _ _ _ _ _ Hbs); done.
  - pose proof (free_bit_spec s2 a2 b HR2) as Hfr. rewrite (bs_bits _ _ _ _ _ _ Hbs2), Z.eqb_refl in Hfr by done. apply Hfr; [|by eapply map_ok_set|done|done].
    eapply roomy_pins; [apply (bs_pins _ _ _ _ _ _ Hbs2)|]. eapply roomy_pins; [apply (bs_pins _ _ _ _ _ _ Hbs)|done].
Qed.
End free.

(** ** Zones *)
Section zones.
Context {D : Driver} {RD : Reliable D}.
Implicit Types f : fstate.
Context (nr dev : Z).

(** The zones of [dev] that are free, and what the super block promises about the
    start of the zone map. *)
Record zone_inv f (i : Z) (sp : super_block) (a : acache) (free : gset Z) : Prop := {
  zi_super : supers f !! i = Some sp;
  zi_dev : s_dev sp = dev;
  zi_index : 0 ≤ i < NR_SUPERS;
  zi_first j : 0 ≤ j < i → ∃ sp', supers f !! j = Some sp' ∧ s_dev sp' ≠ dev;
  zi_repr : repr nr (fs_cache f) a;
  zi_room : roomy a;
  zi_map : map_ok nr sp ZMAP a;
  zi_write : s_rd_only sp = 0;
  zi_zero : bit_at sp ZMAP a 0 = true;
  zi_range : 1 ≤ s_firstdatazone sp ≤ s_zones sp ∧ s_zones sp < 2 ^ 32;
  zi_free z : z ∈ free ↔ s_firstdatazone sp ≤ z < s_zones sp ∧ bit_at sp ZMAP a (z - (s_firstdatazone sp - 1)) = false;
  zi_search : 0 ≤ s_zsearch sp ∧ ∀ n, 0 ≤ n < s_zsearch sp → n < map_size sp ZMAP → bit_at sp ZMAP a n = true;
}.

Lemma super_scan_spec f i n j : (∀ k, j ≤ k < i → ∃ sp, supers f !! k = Some sp ∧ s_dev sp ≠ dev) → (∃ sp, supers f !! i = Some sp ∧ s_dev sp = dev) →
  j ≤ i < j + Z.of_nat n → super_scan n j dev f = Ok f (Some i).
Proof.
  revert j. induction n as [|n IH]; intros j Hbefore (sp & Hsp & Hd) Hj; [lia|]. cbn [super_scan].
  assert (Hld : ∀ k sp, supers f !! k = Some sp → ld_super k f = Ok f sp) by (intros k sp' Hk; unfold ld_super; rewrite (bind_ok _ _ _ _ _ (gets_ok _ _)); by apply deref_ok).
  destruct (decide (j = i)) as [->|Hne].
  - rewrite (bind_ok _ _ _ _ _ (Hld _ _ Hsp)). by rewrite (proj2 (Z.eqb_eq _ _) Hd).
  - destruct (Hbefore j) as (sp' & Hsp' & Hne'); [lia|]. rewrite (bind_ok _ _ _ _ _ (Hld _ _ Hsp')), (proj2 (Z.eqb_neq _ _) Hne').
    apply IH; [intros k Hk; apply Hbefore; lia|by exists sp|lia].
Qed.

Lemma get_super_spec f i sp a free : zone_inv f i sp a free → get_super dev f = Ok f i ∧ ld_super i f = Ok f sp.
Proof.
  intros H. split.
  - unfold get_super. erewrite bind_ok; [|apply (super_scan_spec f i)]; [done|intros k Hk; by apply (zi_first _ _ _ _ _ H)| |].
    + exists sp. split; [apply H|apply H].
    + pose proof (zi_index _ _ _ _ _ H). lia.
  - unfold ld_super. rewrite (bind_ok _ _ _ _ _ (gets_ok _ _)). apply deref_ok, H.
Qed.

(** The number of a zone and its bit. *)
Lemma zone_bits f i sp a free : zone_inv f i sp a free → map_size sp ZMAP = s_zones sp - (s_firstdatazone sp - 1).
Proof. intros H. unfold map_size. cbn [Z.eqb ZMAP IMAP]. pose proof (zi_range _ _ _ _ _ H). unfold u32. rewrite Z.mod_small; lia. Qed.
End zones.

Section zone_ops.
Context {D : Driver} {RD : Reliable D}.
Implicit Types f : fstate.
Context (nr dev : Z).

Lemma repr_console s a (g : list string → list string) : repr nr s a → repr nr (s <| fs_console ::= g |>) a.
Proof.
  intros [(L & H & [H1 [A1 A2 A3] H3 H4 H5 [B1 B2 B3] H7]) Hh Hn Hp Hd]. split; [|exact Hh|exact Hn|exact Hp|exact Hd].
  exists L, H. split; [exact H1|split; [exact A1|exact A2|exact A3]|exact H3|exact H4|exact H5|split; [exact B1|exact B2|exact B3]|exact H7].
Qed.

Lemma in_cache_ok {A} (m : M cache A) f c r : m (fs_cache f) = Ok c r → in_cache m f = Ok (f <| fs_cache := c |>) r.
Proof. intros H. unfold in_cache. by rewrite (zoom_ok _ _ _ _ _ _ H). Qed.

(** The search start does not matter for the map. *)
Lemma map_search sp z : map_size (sp <| s_zsearch := z |>) ZMAP = map_size sp ZMAP ∧ map_start (sp <| s_zsearch := z |>) ZMAP = map_start sp ZMAP ∧
  map_blocks (sp <| s_zsearch := z |>) ZMAP = map_blocks sp ZMAP ∧ ∀ a n, bit_at (sp <| s_zsearch := z |>) ZMAP a n = bit_at sp ZMAP a n.
Proof. done. Qed.

Lemma map_ok_search sp z a : map_ok nr sp ZMAP a → map_ok nr (sp <| s_zsearch := z |>) ZMAP a.
Proof. intros [H1 H2 H3 H4 H5]. split; assumption. Qed.

(** One bit changes and the search start with it. *)
Lemma zone_inv_set f f' i sp a a' free b v zs : zone_inv nr dev f i sp a free → repr nr (fs_cache f') a' → bit_set sp ZMAP a a' b v → 0 < b < map_size sp ZMAP →
  supers f' = <[i := sp <| s_zsearch := zs |>]> (supers f) → 0 ≤ zs →
  (∀ n, 0 ≤ n < zs → n < map_size sp ZMAP → (if b =? n then v else bit_at sp ZMAP a n) = true) →
  zone_inv nr dev f' i (sp <| s_zsearch := zs |>) a'
    (if v then free ∖ {[s_firstdatazone sp - 1 + b]} else free ∪ {[s_firstdatazone sp - 1 + b]}).
Proof.
  intros H HR Hbs Hb Hsup Hzs Hpr. pose proof (zone_bits _ _ _ _ _ _ _ H) as Ebits. destruct (zi_range _ _ _ _ _ _ _ H) as [[Hr1 Hr2] Hr3]. pose proof (mo_bits _ _ _ _ (zi_map _ _ _ _ _ _ _ H)) as Hmb.
  assert (Hbit : ∀ n, 0 ≤ n < map_size sp ZMAP → bit_at sp ZMAP a' n = if b =? n then v else bit_at sp ZMAP a n) by (intros n Hn; apply (bs_bits _ _ _ _ _ _ Hbs); lia).
  split; [by rewrite Hsup, lookup_insert_eq|apply H|apply H| |done| | |apply H| |done| |].
  - intros j Hj. destruct (zi_first _ _ _ _ _ _ _ H j Hj) as (sp' & Hsp' & Hne). exists sp'. rewrite Hsup, lookup_insert_ne by lia. done.
  - eapply roomy_pins; [apply (bs_pins _ _ _ _ _ _ Hbs)|apply H].
  - apply map_ok_search. eapply map_ok_set; [apply H|done].
  - change (bit_at sp ZMAP a' 0 = true). rewrite Hbit by lia. rewrite (proj2 (Z.eqb_neq _ _)) by lia. apply H.
  - intros z. change (bit_at (sp <| s_zsearch := zs |>) ZMAP a' (z - (s_firstdatazone (sp <| s_zsearch := zs |>) - 1))) with (bit_at sp ZMAP a' (z - (s_firstdatazone sp - 1))).
    cbn [s_firstdatazone s_zones]. change (s_firstdatazone (sp <| s_zsearch := zs |>)) with (s_firstdatazone sp). change (s_zones (sp <| s_zsearch := zs |>)) with (s_zones sp).
    assert (Hz : s_firstdatazone sp ≤ z < s_zones sp → bit_at sp ZMAP a' (z - (s_firstdatazone sp - 1)) = if b =? z - (s_firstdatazone sp - 1) then v else bit_at sp ZMAP a (z - (s_firstdatazone sp - 1))) by (intros; apply Hbit; lia).
    destruct v; rewrite ?elem_of_difference, ?elem_of_union, elem_of_singleton, (zi_free _ _ _ _ _ _ _ H z).
    + split.
      * intros [[Hzr Hzb] Hne]. split; [done|]. rewrite Hz by done. by rewrite (proj2 (Z.eqb_neq _ _)) by lia.
      * intros [Hzr Hzb]. rewrite Hz in Hzb by done. destruct (Z.eqb_spec b (z - (s_firstdatazone sp - 1))); [done|]. split; [done|lia].
    + split.
      * intros [[Hzr Hzb]| ->]; [split; [done|]; rewrite Hz by done; by destruct (_ =? _)|]. split; [lia|]. rewrite Hz by lia. by rewrite (proj2 (Z.eqb_eq _ _)) by lia.
      * intros [Hzr Hzb]. rewrite Hz in Hzb by done. destruct (Z.eqb_spec b (z - (s_firstdatazone sp - 1))); [right; lia|by left].
  - split; [done|]. change (∀ n, 0 ≤ n < zs → n < map_size sp ZMAP → bit_at sp ZMAP a' n = true). intros n Hn Hlt. rewrite Hbit by lia. by apply Hpr.
Qed.

(** Only blocks of the zone map change. *)
Definition zone_frame (sp : super_block) (a a' : acache) : Prop :=
  a_pins a' = a_pins a ∧ ∀ d blk, ¬ (d = s_dev sp ∧ map_start sp ZMAP ≤ blk < map_start sp ZMAP + map_blocks sp ZMAP) → a_disk a' d blk = a_disk a d blk.

Lemma bit_set_frame sp a a' b v : map_ok nr sp ZMAP a → bit_set sp ZMAP a a' b v → 0 ≤ b < map_size sp ZMAP → zone_frame sp a a'.
Proof.
  intros Ha Hbs Hb. split; [apply (bs_pins _ _ _ _ _ _ Hbs)|]. intros d blk Hne. apply (bs_disk _ _ _ _ _ _ Hbs). intros [-> ->]. apply Hne. split; [done|].
  pose proof (mo_bits _ _ _ _ Ha). destruct (block_div b (map_blocks sp ZMAP)) as [? _]; lia.
Qed.

Lemma alloc_zone_step f i sp a free z : zone_inv nr dev f i sp a free → 0 ≤ z < 2 ^ 32 →
  (free = ∅ ∧ ∃ f', alloc_zone dev z f = Ok f' NO_ZONE ∧ err_code f' = FS_ENOSPC ∧ zone_inv nr dev f' i sp a free) ∨
  ∃ f' zs a' r, alloc_zone dev z f = Ok f' r ∧ r ∈ free ∧ r ≠ NO_ZONE ∧ zone_inv nr dev f' i (sp <| s_zsearch := zs |>) a' (free ∖ {[r]}) ∧ zone_frame sp a a'.
Proof.
  intros H Hz. destruct (get_super_spec nr dev f i sp a free H) as [Hgs Hld]. pose proof (zone_bits _ _ _ _ _ _ _ H) as Ebits. destruct (zi_range _ _ _ _ _ _ _ H) as [[Hr1 Hr2] Hr3].
  pose proof (zi_search _ _ _ _ _ _ _ H) as [Hzs Hzp].
  unfold alloc_zone. rewrite (bind_ok _ _ _ _ _ Hgs), (bind_ok _ _ _ _ _ Hld). set (bit := if z =? s_firstdatazone sp then s_zsearch sp else u32 (z - (s_firstdatazone sp - 1))).
  assert (Hbit : 0 ≤ bit) by (unfold bit; destruct (_ =? _); [done|unfold u32; by apply Z.mod_pos_bound]).
  assert (Ebit : z = s_firstdatazone sp → bit = s_zsearch sp) by (intros E; unfold bit; by rewrite (proj2 (Z.eqb_eq _ _) E)). clearbody bit.
  destruct (alloc_bit_search nr sp ZMAP (fs_cache f) a bit (zi_repr _ _ _ _ _ _ _ H) (zi_room _ _ _ _ _ _ _ H) (zi_map _ _ _ _ _ _ _ H) (zi_write _ _ _ _ _ _ _ H) Hbit)
    as [Hor [(c & Hr & HR' & Hn)|(c & a' & b & Hr & Hf & HR' & Hbs)]]; rewrite (bind_ok _ _ _ _ _ (in_cache_ok _ _ _ _ Hr)).
  - left. assert (free = ∅) as ->.
    { apply elem_of_equiv_empty_L. intros y [Hyr Hyb]%(zi_free _ _ _ _ _ _ _ H). rewrite (search_none nr sp ZMAP a _ (zi_map _ _ _ _ _ _ _ H) Hor Hn) in Hyb by lia. done. }
    split; [done|]. change (NO_BIT =? NO_BIT) with true. cbn match. frun. erewrite bind_ok; [|by apply in_cache_ok]. eexists. split; [done|]. split; [done|].
    destruct H as [H1 H2 H3 H4 H5 H6 H7 H8 H9 H10 H11 H12]. split; try assumption. by apply repr_console.
  - right. destruct (search_order nr sp ZMAP a _ b (zi_map _ _ _ _ _ _ _ H) Hor Hf) as (Hb & Hfb & Hord).
    assert (Hb0 : b ≠ 0) by (intros ->; by rewrite (zi_zero _ _ _ _ _ _ _ H) in Hfb). rewrite (proj2 (Z.eqb_neq b NO_BIT)) by done.
    set (f1 := f <| fs_cache := c |>). assert (Er : u32 (s_firstdatazone sp - 1 + b) = s_firstdatazone sp - 1 + b) by (unfold u32; apply Z.mod_small; lia).
    assert (Hin : s_firstdatazone sp - 1 + b ∈ free).
    { apply (zi_free _ _ _ _ _ _ _ H). split; [lia|]. by replace (s_firstdatazone sp - 1 + b - (s_firstdatazone sp - 1)) with b by lia. }
    assert (∃ zs f', (if z =? s_firstdatazone sp then st_super i (λ s, s <| s_zsearch := b |>) else mret ()) f1 = Ok f' () ∧ fs_cache f' = c ∧
      supers f' = <[i := sp <| s_zsearch := zs |>]> (supers f) ∧ 0 ≤ zs ∧ ∀ n, 0 ≤ n < zs → n < map_size sp ZMAP → (if b =? n then true else bit_at sp ZMAP a n) = true) as (zs & f' & Hrs & Hc & Hsup & Hzs' & Hpr).
    { destruct (Z.eqb_spec z (s_firstdatazone sp)) as [Ez|Hne].
      - exists b. assert (Hld1 : ld_super i f1 = Ok f1 sp) by (unfold ld_super; rewrite (bind_ok _ _ _ _ _ (gets_ok _ _)); apply deref_ok, H).
        unfold st_super. rewrite (bind_ok _ _ _ _ _ Hld1). eexists. split; [done|]. split; [done|]. split; [done|]. split; [lia|].
        intros n Hn Hlt. destruct (Z.eqb_spec b n); [done|]. rewrite (Ebit Ez) in Hord.
        destruct (decide (n < s_zsearch sp)) as [?|Hge]; [apply Hzp; lia|]. destruct Hord as [[_ Hord]|(_ & _ & Hord)]; apply Hord; [|lia]. split; [|lia].
        unfold search_from. destruct (_ >=? _); [lia|]. pose proof (Z.div_mod (s_zsearch sp) 16). pose proof (Z.mod_pos_bound (s_zsearch sp) 16). lia.
      - exists (s_zsearch sp), f1. split; [done|]. split; [done|]. split; [|split; [done|intros n Hn Hlt; destruct (_ =? _); [done|by apply Hzp]]].
        change (supers f1) with (supers f). symmetry. replace (sp <| s_zsearch := s_zsearch sp |>) with sp by by destruct sp. apply insert_id, H. }
    rewrite (bind_ok _ _ _ _ _ Hrs), Er. eexists f', _, a', _. split; [done|]. split; [done|]. split; [unfold NO_ZONE; lia|].
    split; [eapply (zone_inv_set f f' i sp a a' free b true zs); try done; [by rewrite Hc|lia]|].
    eapply bit_set_frame; [apply (zi_map _ _ _ _ _ _ _ H)|done|lia].
Qed.

Lemma free_zone_step f i sp a free z : zone_inv nr dev f i sp a free → s_firstdatazone sp ≤ z < s_zones sp → z ∉ free →
  ∃ f' zs a', free_zone dev z f = Ok f' () ∧ zone_inv nr dev f' i (sp <| s_zsearch := zs |>) a' (free ∪ {[z]}) ∧ zone_frame sp a a'.
Proof.
  intros H Hz Hnf. destruct (get_super_spec nr dev f i sp a free H) as [Hgs Hld]. pose proof (zone_bits _ _ _ _ _ _ _ H) as Ebits. destruct (zi_range _ _ _ _ _ _ _ H) as [[Hr1 Hr2] Hr3].
  pose proof (zi_search _ _ _ _ _ _ _ H) as [Hzs Hzp]. pose proof (mo_bits _ _ _ _ (zi_map _ _ _ _ _ _ _ H)) as Hmb.
  unfold free_zone. rewrite (bind_ok _ _ _ _ _ Hgs), (bind_ok _ _ _ _ _ Hld). rewrite (proj2 (Z.ltb_ge _ _)), Z.geb_leb, (proj2 (Z.leb_gt _ _)) by lia. cbn [orb].
  assert (Eu : u32 (z - (s_firstdatazone sp - 1)) = z - (s_firstdatazone sp - 1)) by (unfold u32; apply Z.mod_small; lia). rewrite Eu. set (b := z - (s_firstdatazone sp - 1)).
  pose proof (free_bit_spec nr sp ZMAP (fs_cache f) a b (zi_repr _ _ _ _ _ _ _ H) (zi_room _ _ _ _ _ _ _ H) (zi_map _ _ _ _ _ _ _ H) (zi_write _ _ _ _ _ _ _ H) ltac:(unfold b; lia)) as Hfr.
  destruct (bit_at sp ZMAP a b) eqn:Eb; [|by destruct Hnf; apply (zi_free _ _ _ _ _ _ _ H)]. destruct Hfr as (c & a' & Hr & HR' & Hbs).
  rewrite (bind_ok _ _ _ _ _ (in_cache_ok _ _ _ _ Hr)). set (f1 := f <| fs_cache := c |>). replace z with (s_firstdatazone sp - 1 + b) by (unfold b; lia).
  destruct (Z.ltb_spec b (s_zsearch sp)) as [Hlt|Hge].
  - assert (Hld1 : ld_super i f1 = Ok f1 sp) by (unfold ld_super; rewrite (bind_ok _ _ _ _ _ (gets_ok _ _)); apply deref_ok, H).
    unfold st_super. rewrite (bind_ok _ _ _ _ _ Hld1). eexists _, b, a'. split; [done|]. split; [|eapply bit_set_frame; [apply (zi_map _ _ _ _ _ _ _ H)|done|unfold b; lia]].
    eapply (zone_inv_set f _ i sp a a' free b false b); try done; try (unfold b; lia). intros n Hn Hlt'. rewrite (proj2 (Z.eqb_neq _ _)) by lia. apply Hzp; lia.
  - eexists f1, (s_zsearch sp), a'. split; [done|]. split; [|eapply bit_set_frame; [apply (zi_map _ _ _ _ _ _ _ H)|done|unfold b; lia]].
    eapply (zone_inv_set f _ i sp a a' free b false (s_zsearch sp)); try done; try (unfold b; lia).
    + change (supers f1) with (supers f). symmetry. replace (sp <| s_zsearch := s_zsearch sp |>) with sp by by destruct sp. apply insert_id, H.
    + intros n Hn Hlt'. rewrite (proj2 (Z.eqb_neq _ _)) by lia. by apply Hzp.
Qed.

(** *** Sequences of calls *)
Inductive zop := ZAlloc (near : Z) | ZFree (z : Z).

Definition run_zop (op : zop) : M fstate Z :=
  match op with ZAlloc near => alloc_zone dev near | ZFree z => free_zone dev z;; mret 0 end.

(** A client chooses its next call by the results so far. *)
Fixpoint zdrive (n : nat) (client : list Z → zop) (h : list Z) : M fstate (list Z) :=
  match n with O => mret h | S n' => r ← run_zop (client h); zdrive n' client (h ++ [r]) end.

(** Free zones: an allocation hands out one of them, and none only if there is
    none left; a zone that is given back becomes free. *)
Inductive zstep : zop → Z → gset Z → gset Z → Prop :=
  | Z_some near z free : z ∈ free → z ≠ NO_ZONE → zstep (ZAlloc near) z free (free ∖ {[z]})
  | Z_none near : zstep (ZAlloc near) NO_ZONE ∅ ∅
  | Z_free z free : zstep (ZFree z) 0 free (free ∪ {[z]}).

Inductive ztrace (client : list Z → zop) : nat → gset Z → list Z → gset Z → list Z → Prop :=
  | ZT_done free h : ztrace client 0 free h free h
  | ZT_step n free h r free1 free2 h2 : zstep (client h) r free free1 → ztrace client n free1 (h ++ [r]) free2 h2 → ztrace client (S n) free h free2 h2.

Definition zlegal (lo hi : Z) (free : gset Z) (op : zop) : Prop :=
  match op with ZAlloc near => 0 ≤ near < 2 ^ 32 | ZFree z => lo ≤ z < hi ∧ z ∉ free end.

Lemma zop_step f i sp a free op : zone_inv nr dev f i sp a free → zlegal (s_firstdatazone sp) (s_zones sp) free op →
  ∃ f' sp' a' free' r, run_zop op f = Ok f' r ∧ zstep op r free free' ∧ zone_inv nr dev f' i sp' a' free' ∧
    s_firstdatazone sp' = s_firstdatazone sp ∧ s_zones sp' = s_zones sp.
Proof.
  intros H. destruct op as [near|z]; intros Hl; cbn [run_zop].
  - destruct (alloc_zone_step f i sp a free near H Hl) as [(-> & f' & Hr & _ & H')|(f' & zs & a' & r & Hr & Hin & Hne & H' & _)].
    + exists f', sp, a, ∅, NO_ZONE. split; [done|]. split; [apply Z_none|]. split; [exact H'|done].
    + exists f', (sp <| s_zsearch := zs |>), a', (free ∖ {[r]}), r. split; [done|]. split; [by apply Z_some|]. done.
  - destruct Hl as [Hr Hn]. destruct (free_zone_step f i sp a free z H Hr Hn) as (f' & zs & a' & Hrun & H' & _).
    exists f', (sp <| s_zsearch := zs |>), a', (free ∪ {[z]}), 0. rewrite (bind_ok _ _ _ _ _ Hrun). split; [done|]. split; [apply Z_free|]. done.
Qed.

(** C31: Zones are handed out and taken back like elements of a set.  Whatever
    sequence of [alloc_zone] and [free_zone] calls a client makes that gives back
    only zones in use, every call returns; an allocation returns a zone that was
    free and that nobody gets again before it is given back, and fails only when
    no zone is free; and the promise of [s_zsearch], that all zones below it are
    in use, holds after every call. *)
Theorem zones_refine n client f i sp a free h : zone_inv nr dev f i sp a free →
  (∀ m free' h', (m < n)%nat → ztrace client m free h free' h' → zlegal (s_firstdatazone sp) (s_zones sp) free' (client h')) →
  ∃ f' sp' a' free' h', zdrive n client h f = Ok f' h' ∧ ztrace client n free h free' h' ∧ zone_inv nr dev f' i sp' a' free'.
Proof.
  revert f sp a free h. induction n as [|n IH]; intros f sp a free h H Hl.
  { exists f, sp, a, free, h. split; [done|]. split; [constructor|done]. }
  destruct (zop_step f i sp a free (client h) H) as (f1 & sp1 & a1 & free1 & r & Hr & Hst & H1 & E1 & E2); [apply (Hl 0%nat); [lia|constructor]|].
  destruct (IH f1 sp1 a1 free1 (h ++ [r]) H1) as (f2 & sp2 & a2 & free2 & h2 & Hr2 & Ht2 & H2).
  { intros m free' h' Hm Ht. rewrite E1, E2. apply (Hl (S m)); [lia|]. by eapply ZT_step. }
  exists f2, sp2, a2, free2, h2. cbn [zdrive]. rewrite (bind_ok _ _ _ _ _ Hr). split; [done|]. split; [by eapply ZT_step|done].
Qed.

(** C39: [free_zone] ignores a number that is not the number of a zone of the
    device, and stops the server when the zone is not in use. *)
Theorem free_zone_errors f i sp a free z : zone_inv nr dev f i sp a free →
  (¬ s_firstdatazone sp ≤ z < s_zones sp → free_zone dev z f = Ok f ()) ∧
  (z ∈ free → free_zone dev z f = Panic "tried to free unused block" NO_NUM).
Proof.
  intros H. destruct (get_super_spec nr dev f i sp a free H) as [Hgs Hld]. destruct (zi_range _ _ _ _ _ _ _ H) as [[Hr1 Hr2] Hr3]. pose proof (zone_bits _ _ _ _ _ _ _ H) as Ebits.
  unfold free_zone. rewrite (bind_ok _ _ _ _ _ Hgs), (bind_ok _ _ _ _ _ Hld). rewrite Z.geb_leb. split.
  - intros Hz. destruct (Z.ltb_spec z (s_firstdatazone sp)), (Z.leb_spec (s_zones sp) z); try done; lia.
  - intros [Hz Hb]%(zi_free _ _ _ _ _ _ _ H). rewrite (proj2 (Z.ltb_ge _ _)), (proj2 (Z.leb_gt _ _)) by lia. cbn [orb].
    assert (Eu : u32 (z - (s_firstdatazone sp - 1)) = z - (s_firstdatazone sp - 1)) by (unfold u32; apply Z.mod_small; lia). rewrite Eu.
    pose proof (mo_bits _ _ _ _ (zi_map _ _ _ _ _ _ _ H)) as Hmb.
    pose proof (free_bit_spec nr sp ZMAP (fs_cache f) a (z - (s_firstdatazone sp - 1)) (zi_repr _ _ _ _ _ _ _ H) (zi_room _ _ _ _ _ _ _ H) (zi_map _ _ _ _ _ _ _ H) (zi_write _ _ _ _ _ _ _ H) ltac:(lia)) as Hfr.
    rewrite Hb in Hfr. unfold in_cache, zoom, mbind, M_bind. by rewrite Hfr.
Qed.
End zone_ops.

(** ** A small file system *)
Definition map_image : block_data := 1 :: replicate 1023 0.
Definition disk_image : gmap (Z * Z) block_data := {[ (769, 2 * BLOCK_SIZE) := map_image; (769, 3 * BLOCK_SIZE) := map_image ]}.
Definition disk_bss : cache := cache_bss <| wld := disk_image |>.
Definition disk_abs : acache := mk_acache (λ d b, ram_get disk_image d (b * BLOCK_SIZE)) ∅.
Definition small_super : super_block := mk_super 100 50 1 1 10 0 0 SUPER_MAGIC 0 50 0 0 V1_INODES_PER_BLOCK 769 0 1 V1 V1_NR_DZONES V1_INDIRECTS 0 0.
Definition small_free : gset Z := list_to_set (seqZ 10 40).

Lemma disk_ready : ∃ s, buf_pool disk_bss = Ok s () ∧ repr 64 s disk_abs.
Proof.
  destruct (buf_pool_repr disk_bss) as (s & Hr & HR); [|exists s; split; [exact Hr|exact HR]].
  destruct cache_bss_zeroed as [H1 H2 H3 [A1 A2 A3 A4] H5]. split; [exact H1|exact H2|exact H3|split; assumption|exact H5].
Qed.

Lemma map_image_wf : wf_block map_image.
Proof.
  split; [reflexivity|]. intros i v. unfold map_image. destruct i as [|i]; cbn [lookup]; [intros [= <-]; lia|]. intros Hv.
  assert (Hin : v ∈ replicate 1023 0) by (by eapply list_elem_of_lookup_2). apply elem_of_replicate in Hin as [-> _]. lia.
Qed.

Lemma small_map_ok : map_ok 64 small_super ZMAP disk_abs.
Proof.
  split.
  - change (map_blocks small_super ZMAP) with 1. change (map_start small_super ZMAP) with 3. change (s_dev small_super) with 769. intros i Hi. split_and!; done || lia.
  - change (map_blocks small_super ZMAP) with 1. change (map_start small_super ZMAP) with 3. change (s_dev small_super) with 769. intros i Hi. replace (3 + i) with 3 by lia. exact map_image_wf.
  - done.
  - done.
  - done.
Qed.

Lemma small_bits n : 0 ≤ n < 41 → bit_at small_super ZMAP disk_abs n = (n =? 0).
Proof.
  intros Hn. assert (H : forallb (λ k, bool_decide (bit_at small_super ZMAP disk_abs k = (k =? 0))) (seqZ 0 41) = true) by (vm_compute; reflexivity).
  rewrite forallb_forall in H. specialize (H n). eapply bool_decide_eq_true_1, H, list_elem_of_In, elem_of_seqZ. lia.
Qed.

Lemma small_roomy : roomy disk_abs.
Proof. split; [reflexivity|]. intros p d b n. cbn [a_pins disk_abs]. by rewrite lookup_empty. Qed.

Lemma alloc_bit_first_fit_witness : ∃ s s', buf_pool disk_bss = Ok s () ∧ alloc_bit small_super ZMAP 0 s = Ok s' 1.
Proof.
  destruct disk_ready as (s & Hr & HR). exists s.
  destruct (alloc_bit_first_fit 64 small_super ZMAP s disk_abs 0 HR small_roomy small_map_ok eq_refl ltac:(lia) (small_bits 0 ltac:(lia)))
    as [(s' & _ & _ & Hfull)|(s' & a' & b & Hrun & _ & Hb & _ & _ & _ & Hord)].
  - specialize (Hfull 1 ltac:(split; [lia|reflexivity])). rewrite small_bits in Hfull by lia. discriminate Hfull.
  - exists s'. split; [exact Hr|]. replace 1 with b; [exact Hrun|]. change (map_size small_super ZMAP) with 41 in *. change (search_from small_super ZMAP 0) with 0 in *.
    destruct Hord as [[_ Hord]|[Hlt _]]; [|lia]. destruct (decide (b = 1)) as [E|E]; [exact E|]. specialize (Hord 1 ltac:(lia)). rewrite small_bits in Hord by lia. discriminate Hord.
Defined.

Lemma alloc_free_bit_witness : ∃ s s1 s2, buf_pool disk_bss = Ok s () ∧ alloc_bit small_super ZMAP 0 s = Ok s1 1 ∧ free_bit small_super ZMAP 1 s1 = Ok s2 () ∧
  free_bit small_super ZMAP 1 s2 = Panic "tried to free unused block" NO_NUM.
Proof.
  destruct disk_ready as (s & Hr & HR).
  destruct (alloc_bit_search 64 small_super ZMAP s disk_abs 0 HR small_roomy small_map_ok eq_refl ltac:(lia)) as [Hor [(s1 & _ & _ & Hn)|(s1 & a1 & b & Hrun & Hf & _)]].
  - exfalso. pose proof (search_none 64 small_super ZMAP disk_abs _ small_map_ok Hor Hn 1 ltac:(split; [lia|reflexivity])) as E. rewrite small_bits in E by lia. discriminate E.
  - destruct (search_order 64 small_super ZMAP disk_abs _ b small_map_ok Hor Hf) as (Hb & Hfb & Hord). change (map_size small_super ZMAP) with 41 in *. change (search_from small_super ZMAP 0) with 0 in *.
    assert (b = 1) as ->.
    { rewrite small_bits in Hfb by lia. apply Z.eqb_neq in Hfb. destruct (decide (b = 1)) as [E|E]; [exact E|].
      destruct Hord as [[_ Hord]|[Hlt _]]; [|lia]. specialize (Hord 1 ltac:(lia)). rewrite small_bits in Hord by lia. discriminate Hord. }
    destruct (alloc_free_bit 64 small_super ZMAP s disk_abs 0 s1 1 HR small_roomy small_map_ok eq_refl ltac:(lia) (small_bits 0 ltac:(lia)) Hrun ltac:(discriminate))
      as (s2 & a2 & Hr2 & _ & _ & _ & _ & Hr3).
    exists s, s1, s2. split; [exact Hr|]. split; [exact Hrun|]. split; [exact Hr2|exact Hr3].
Defined.

(** The file server with this device mounted. *)
Definition small_fs (c : cache) : fstate := mk_fstate c {[0 := small_super]} 0 0.

Lemma small_zone_inv c : repr 64 c disk_abs → zone_inv 64 769 (small_fs c) 0 small_super disk_abs small_free.
Proof.
  intros HR. split; [apply lookup_singleton_eq|reflexivity|unfold NR_SUPERS; lia|lia|exact HR|exact small_roomy|exact small_map_ok|reflexivity|by apply small_bits|
    cbn; lia| |cbn; split; [lia|intros n Hn; lia]].
  intros z. unfold small_free. rewrite elem_of_list_to_set, elem_of_seqZ. change (s_firstdatazone small_super) with 10. change (s_zones small_super) with 50.
  split; [intros Hz; split; [lia|]; rewrite small_bits by lia; apply Z.eqb_neq; lia|lia].
Qed.

(** A client that takes a zone, gives it back and takes another. *)
Definition zone_client (h : list Z) : zop :=
  match h with [] => ZAlloc 10 | [z] => ZFree z | _ => ZAlloc 20 end.

Lemma zone_client_legal m free h : (m < 3)%nat → ztrace zone_client m small_free [] free h → zlegal 10 50 free (zone_client h).
Proof.
  intros Hm Ht. inversion Ht as [|n0 f0 h0 r1 free1 f2 h2 Hs1 Ht1]; subst; [cbn; lia|]. cbn in Hs1.
  assert (Hr : r1 ∈ small_free ∧ free1 = small_free ∖ {[r1]}).
  { inversion Hs1; subst; done. }
  destruct Hr as [Hr ->]. unfold small_free in Hr. rewrite elem_of_list_to_set, elem_of_seqZ in Hr.
  inversion Ht1 as [|n1 f1 h1 r2 free2 f3 h3 Hs2 Ht2]; subst; [cbn; split; [lia|set_solver]|].
  inversion Ht2; subst; [cbn; lia|]. lia.
Qed.

Lemma zones_refine_witness : ∃ s f' free' h', buf_pool disk_bss = Ok s () ∧ zdrive 769 3 zone_client [] (small_fs s) = Ok f' h' ∧ ztrace zone_client 3 small_free [] free' h'.
Proof.
  destruct disk_ready as (s & Hr & HR).
  destruct (zones_refine 64 769 3 zone_client (small_fs s) 0 small_super disk_abs small_free [] (small_zone_inv s HR)) as (f' & sp' & a' & free' & h' & Hrun & Ht & _).
  - intros m free' h' Hm Ht. exact (zone_client_legal m free' h' Hm Ht).
  - exists s, f', free', h'. split; [exact Hr|]. split; [exact Hrun|exact Ht].
Defined.

Lemma free_zone_errors_witness : ∃ s, buf_pool disk_bss = Ok s () ∧ free_zone 769 9 (small_fs s) = Ok (small_fs s) () ∧
  free_zone 769 20 (small_fs s) = Panic "tried to free unused block" NO_NUM.
Proof.
  destruct disk_ready as (s & Hr & HR). exists s. split; [exact Hr|].
  destruct (free_zone_errors 64 769 (small_fs s) 0 small_super disk_abs small_free 9 (small_zone_inv s HR)) as [H9 _].
  destruct (free_zone_errors 64 769 (small_fs s) 0 small_super disk_abs small_free 20 (small_zone_inv s HR)) as [_ H20].
  split; [apply H9; cbn; lia|apply H20; apply elem_of_list_to_set, elem_of_seqZ; lia].
Defined.
