(* ===== verification/FsInode.v ===== *)
(** * Inodes and the zones of files (fs/inode.c, fs/write.c, fs/read.c, fs/link.c)

    The inode table with every operation of fs/inode.c, the map from the
    positions of a file to the blocks of its device ([read_map], [write_map] and
    the indirect blocks), the blocks a file gets ([new_block], [clear_zone]) and
    gives back ([truncate]).  FsFile.v proves them against the specifications of
    the buffer cache and of the zones. *)

From stdpp Require Import base gmap strings pretty numbers fin_maps functions list.
From S2P Require Import Prelude FsCache FsMap.
Local Open Scope Z_scope.

(** ** Constants (fs/const.h, fs/inode.h, include/minix/const.h, errno.h) *)
Definition NR_INODES : Z := 64.
Definition V1_NR_TZONES : Z := 9.
Definition V2_NR_TZONES : Z := 10.
Definition V1_INODE_SIZE : Z := 32.
Definition V2_INODE_SIZE : Z := 64.
Definition NO_PIPE : Z := 0.
Definition I_PIPE : Z := 1.
Definition PIPE_SIZE : Z := V1_NR_DZONES * BLOCK_SIZE.
Definition ATIME : Z := 2.
Definition CTIME : Z := 4.
Definition MTIME : Z := 8.
Definition I_TYPE : Z := 0xF000.
Definition I_BLOCK_SPECIAL : Z := 0x6000.
Definition I_CHAR_SPECIAL : Z := 0x2000.
Definition I_NOT_ALLOC : Z := 0.
Definition BYTE : Z := 255.
Definition FS_OK : Z := 0.
Definition FS_ENFILE : Z := -23.
Definition FS_EFBIG : Z := -27.
Definition FS_EROFS : Z := -30.

(** A zone number of a V2 file system, in the byte order of the disk or back. *)
Definition conv_zone (native z : Z) : Z := u32 (conv4 native (s32 z)).

(** 8 and 32 bit values in the bytes of a block. *)
Definition get8 (d : block_data) (o : nat) : option Z := d !! o.
Definition set8 (d : block_data) (o : nat) (v : Z) : block_data := <[o := Z.land v 255]> d.
Definition set32 (d : block_data) (o : nat) (v : Z) : block_data := set16 (set16 d (o + 2) (Z.shiftr v 16)) o v.

(** ** State *)

(** [i_sp] points into the super block table. *)
Record inode := mk_inode {
  i_mode : Z;
  i_nlinks : Z;
  i_uid : Z;
  i_gid : Z;
  i_size : Z;
  i_atime : Z;
  i_mtime : Z;
  i_ctime : Z;
  i_zone : list Z;
  i_dev : Z;
  i_num : Z;
  i_count : Z;
  i_ndzones : Z;
  i_nindirs : Z;
  i_sp : option Z;
  i_dirt : Z;
  i_pipe : Z;
  i_mount : Z;
  i_seek : Z;
  i_update : Z;
}.
#[export] Instance inode_eta : Eta inode := λ r,
  mk_inode (i_mode r) (i_nlinks r) (i_uid r) (i_gid r) (i_size r) (i_atime r) (i_mtime r) (i_ctime r) (i_zone r)
    (i_dev r) (i_num r) (i_count r) (i_ndzones r) (i_nindirs r) (i_sp r) (i_dirt r) (i_pipe r) (i_mount r) (i_seek r) (i_update r).

Section inodes.
Context {D : Driver}.

(** The inode table on top of the cache and the super blocks; the user and group
    the current call is made for; and the outcome of a message to the clock task: the
    status [sendrec] returns and the time in the answer. *)
Record istate := mk_istate {
  fsys : fstate;
  inodes : gmap Z inode;
  fp_effuid : Z;
  fp_effgid : Z;
  clock_status : Z;
  clock_now : Z;
}.
#[export] Instance istate_eta : Eta istate := λ s, mk_istate (fsys s) (inodes s) (fp_effuid s) (fp_effgid s) (clock_status s) (clock_now s).

Abbreviation FI := (M istate).

Definition in_fs {A} (m : M fstate A) : FI A := zoom fsys (λ f s, s <| fsys := f |>) m.
Definition in_buf {A} (m : M cache A) : FI A := in_fs (in_cache m).
Definition ld_inode (p : Z) : FI inode := m ← gets inodes; deref (m !! p).
Definition st_inode (p : Z) (f : inode → inode) : FI unit :=
  r ← ld_inode p; modify (λ s, s <| inodes ::= <[p := f r]> |>).

(** [rip->i_sp] *)
Definition inode_super (r : inode) : FI super_block := sp ← notnull (i_sp r); in_fs (ld_super sp).

(** [rip->i_zone[n]], out of its bounds a wild access. *)
Definition ld_zone (r : inode) (n : Z) : FI Z := deref (if n <? 0 then None else i_zone r !! Z.to_nat n).
Definition st_zone (p n z : Z) : FI unit :=
  r ← ld_inode p;
  _ ← ld_zone r n;
  st_inode p (λ r, r <| i_zone ::= <[Z.to_nat n := z]> |>).

(** ** Indirect blocks (fs/read.c, fs/write.c) *)
Definition zero_block (bp : Z) : M cache unit :=
  st_buf bp (λ x, x <| b_data := replicate (Z.to_nat BLOCK_SIZE) 0 |>);;
  st_buf bp (λ x, x <| b_dirt := DIRTY |>).

Definition rd_indir (bp index : Z) : M fstate Z :=
  x ← in_cache (ld_buf bp);
  i ← get_super (b_dev x);
  sp ← ld_super i;
  zone ← (if s_version sp =? V1
          then c ← deref (get16 (b_data x) (Z.to_nat (2 * index))); mret (conv2 (s_native sp) c)
          else c ← deref (get32 (b_data x) (Z.to_nat (4 * index))); mret (conv_zone (s_native sp) c));
  if negb (zone =? NO_ZONE) && ((zone <? s_firstdatazone sp) || (zone >=? s_zones sp)) then
    in_cache (fs_printf ("Illegal zone number " +:+ pretty (s32 zone) +:+ " in indirect block, index " +:+ pretty index +:+ newline));;
    panic "check file system" NO_NUM
  else mret zone.

Definition wr_indir (bp index zone : Z) : M fstate unit :=
  x ← in_cache (ld_buf bp);
  i ← get_super (b_dev x);
  sp ← ld_super i;
  if s_version sp =? V1
  then
    _ ← deref (get16 (b_data x) (Z.to_nat (2 * index)));
    in_cache (st_buf bp (λ x, x <| b_data ::= λ d, set16 d (Z.to_nat (2 * index)) (conv2 (s_native sp) (s32 zone)) |>))
  else
    _ ← deref (get32 (b_data x) (Z.to_nat (4 * index)));
    in_cache (st_buf bp (λ x, x <| b_data ::= λ d, set32 d (Z.to_nat (4 * index)) (conv_zone (s_native sp) zone) |>)).

(** ** Positions and blocks *)

(** The entry [excess] of the indirect block in zone [z]; [boff] is the block
    within the zone it names. *)
Definition read_single (r : inode) (scale z excess boff : Z) : M fstate Z :=
  if z =? NO_ZONE then mret NO_BLOCK
  else
    bp ← in_cache (get_block (i_dev r) (u32 (Z.shiftl z scale)) NORMAL);
    z ← rd_indir bp excess;
    in_cache (put_block (Some bp) INDIRECT_BLOCK);;
    if z =? NO_ZONE then mret NO_BLOCK else mret (u32 (Z.shiftl z scale + boff)).

Definition read_map (rip position : Z) : FI Z :=
  r ← ld_inode rip;
  sp ← inode_super r;
  let scale := s_log_zone_size sp in
  let block_pos := position / BLOCK_SIZE in
  let zone := Z.shiftr block_pos scale in
  let boff := block_pos - Z.shiftl zone scale in
  let dzones := i_ndzones r in
  let nr_indirects := i_nindirs r in
  if zone <? dzones then
    z ← ld_zone r zone;
    if z =? NO_ZONE then mret NO_BLOCK else mret (u32 (Z.shiftl z scale + boff))
  else
    let excess := zone - dzones in
    if excess <? nr_indirects then
      z ← ld_zone r dzones;
      in_fs (read_single r scale z excess boff)
    else
      z ← ld_zone r (dzones + 1);
      if z =? NO_ZONE then mret NO_BLOCK
      else
        let excess := excess - nr_indirects in
        bp ← in_buf (get_block (i_dev r) (u32 (Z.shiftl z scale)) NORMAL);
        (if nr_indirects =? 0 then undef DivZero else mret ());;
        z ← in_fs (rd_indir bp (excess / nr_indirects));
        in_buf (put_block (Some bp) INDIRECT_BLOCK);;
        in_fs (read_single r scale z (excess mod nr_indirects) boff).

(** The end of [write_map]: entry [excess] of the indirect block in zone [z1]. *)
Definition write_single (dev scale z1 excess new_zone : Z) (new_ind : bool) : M fstate unit :=
  bp ← in_cache (get_block dev (u32 (Z.shiftl z1 scale)) (if new_ind then NO_READ else NORMAL));
  (if new_ind then in_cache (zero_block bp) else mret ());;
  wr_indir bp excess new_zone;;
  in_cache (st_buf bp (λ x, x <| b_dirt := DIRTY |>));;
  in_cache (put_block (Some bp) INDIRECT_BLOCK).

(** The single indirect zone [z1] is created when there is none: [dbl] is the
    double indirect block that names it and the index there, or [None] when the
    inode does. *)
Definition new_single (rip dev z1 : Z) (dbl : option (Z * Z)) : FI (Z * bool) :=
  if z1 =? NO_ZONE then
    r ← ld_inode rip;
    z0 ← ld_zone r 0;
    z1 ← in_fs (alloc_zone dev z0);
    match dbl with
    | None => st_zone rip (i_ndzones r) z1
    | Some (bp, ind_ex) => in_fs (wr_indir bp ind_ex z1);; in_buf (st_buf bp (λ x, x <| b_dirt := DIRTY |>))
    end;;
    mret (z1, true)
  else mret (z1, false).

(** From the single indirect zone on: [bp] is the double indirect block, if any. *)
Definition write_indirect (rip dev scale z1 excess new_zone : Z) (dbl : option (Z * Z)) : FI Z :=
  w ← new_single rip dev z1 dbl;
  let '(z1, new_ind) := w : Z * bool in
  in_buf (put_block (fst <$> dbl) INDIRECT_BLOCK);;
  if new_ind && (z1 =? NO_ZONE) then e ← gets (λ s, err_code (fsys s)); mret e
  else in_fs (write_single dev scale z1 excess new_zone new_ind);; mret FS_OK.

(** The double indirect zone [z] of the inode [r], created when there is none. *)
Definition new_double (rip : Z) (r : inode) (z : Z) : FI (Z * bool) :=
  if z =? NO_ZONE then
    z0 ← ld_zone r 0;
    z ← in_fs (alloc_zone (i_dev r) z0);
    (if z =? NO_ZONE then mret () else st_zone rip (i_ndzones r + 1) z);;
    mret (z, true)
  else mret (z, false).

Definition write_map (rip position new_zone : Z) : FI Z :=
  st_inode rip (λ r, r <| i_dirt := DIRTY |>);;
  r ← ld_inode rip;
  sp ← inode_super r;
  let scale := s_log_zone_size sp in
  let zone := Z.shiftr (position / BLOCK_SIZE) scale in
  let zones := i_ndzones r in
  let nr_indirects := i_nindirs r in
  if zone <? zones then st_zone rip zone new_zone;; mret FS_OK
  else
    let excess := zone - zones in
    if excess <? nr_indirects then
      z1 ← ld_zone r zones;
      write_indirect rip (i_dev r) scale z1 excess new_zone None
    else
      z ← ld_zone r (zones + 1);
      w ← new_double rip r z;
      let '(z, new_dbl) := w : Z * bool in
      if z =? NO_ZONE then e ← gets (λ s, err_code (fsys s)); mret e
      else
        (if nr_indirects =? 0 then undef DivZero else mret ());;
        let excess := excess - nr_indirects in
        let ind_ex := excess / nr_indirects in
        let excess := excess mod nr_indirects in
        if ind_ex >=? nr_indirects then mret FS_EFBIG
        else
          bp ← in_buf (get_block (i_dev r) (u32 (Z.shiftl z scale)) (if new_dbl then NO_READ else NORMAL));
          (if new_dbl then in_buf (zero_block bp) else mret ());;
          z1 ← in_fs (rd_indir bp ind_ex);
          write_indirect rip (i_dev r) scale z1 excess new_zone (Some (bp, ind_ex)).

(** ** Blocks of a file (fs/write.c) *)

(** [for (b = blo; b <= bhi; b++)]. *)
Fixpoint clear_blocks (fuel : nat) (dev b bhi : Z) : M cache unit :=
  match fuel with
  | O => λ _, NoFuel
  | S fuel' =>
      if b <=? bhi then
        bp ← get_block dev b NO_READ;
        zero_block bp;;
        put_block (Some bp) FULL_DATA_BLOCK;;
        clear_blocks fuel' dev (u32 (b + 1)) bhi
      else mret ()
  end.

Definition clear_zone (rip pos flag : Z) : FI unit :=
  r ← ld_inode rip;
  sp ← inode_super r;
  let scale := s_log_zone_size sp in
  if scale =? 0 then mret ()
  else
    let zone_size := u32 (Z.shiftl BLOCK_SIZE scale) in
    (if zone_size =? 0 then undef DivZero else mret ());;
    let pos := if flag =? 1 then u32 (pos / zone_size * zone_size) else pos in
    let next := u32 (pos + BLOCK_SIZE - 1) in
    if negb (next / zone_size =? pos / zone_size) then mret ()
    else
      blo ← read_map rip next;
      if blo =? NO_BLOCK then mret ()
      else
        let bhi := u32 (Z.shiftl (Z.shiftr blo scale + 1) scale - 1) in
        in_buf (clear_blocks (Z.to_nat (bhi - blo + 2)) (i_dev r) blo bhi).

Definition new_block (rip position : Z) : FI (option Z) :=
  r ← ld_inode rip;
  b ← read_map rip position;
  b ← (if b =? NO_BLOCK then
         z0 ← ld_zone r 0;
         z ← (if z0 =? NO_ZONE then sp ← inode_super r; mret (s_firstdatazone sp) else mret z0);
         z ← in_fs (alloc_zone (i_dev r) z);
         if z =? NO_ZONE then mret None
         else
           e ← write_map rip position z;
           if negb (e =? FS_OK) then
             in_fs (free_zone (i_dev r) z);;
             in_fs (modify (λ f, f <| err_code := e |>));;
             mret None
           else
             r ← ld_inode rip;
             (if negb (position =? i_size r) then clear_zone rip position 1 else mret ());;
             sp ← inode_super r;
             let scale := s_log_zone_size sp in
             let base_block := u32 (Z.shiftl z scale) in
             let zone_size := u32 (Z.shiftl BLOCK_SIZE scale) in
             (if zone_size =? 0 then undef DivZero else mret ());;
             mret (Some (u32 (base_block + position mod zone_size / BLOCK_SIZE)))
       else mret (Some b));
  match b with
  | None => mret None
  | Some b =>
      bp ← in_buf (get_block (i_dev r) b NO_READ);
      in_buf (zero_block bp);;
      mret (Some bp)
  end.

(** ** The inode table (fs/inode.c) *)
Definition dup_inode (ip : Z) : FI unit := st_inode ip (λ r, r <| i_count ::= Z.succ |>).

Definition wipe_inode (rip : Z) : FI unit :=
  st_inode rip (λ r, r <| i_size := 0 |> <| i_update := Z.lor ATIME (Z.lor CTIME MTIME) |> <| i_dirt := DIRTY |>
                       <| i_zone := replicate (Z.to_nat V2_NR_TZONES) NO_ZONE |>).

Definition free_inode (dev inumb : Z) : M fstate unit :=
  i ← get_super dev;
  sp ← ld_super i;
  if (inumb <=? 0) || (inumb >? s_ninodes sp) then mret ()
  else
    in_cache (free_bit sp IMAP inumb);;
    if inumb <? s_isearch sp then st_super i (λ s, s <| s_isearch := inumb |>) else mret ().

Definition clock_time : FI Z :=
  k ← gets clock_status;
  if negb (k =? FS_OK) then panic "clock_time err" k else gets clock_now.

Definition update_times (rip : Z) : FI unit :=
  r ← ld_inode rip;
  sp ← inode_super r;
  if negb (s_rd_only sp =? 0) then mret ()
  else
    cur_time ← clock_time;
    (if TEST_BIT (i_update r) ATIME then st_inode rip (λ r, r <| i_atime := cur_time |>) else mret ());;
    (if TEST_BIT (i_update r) CTIME then st_inode rip (λ r, r <| i_ctime := cur_time |>) else mret ());;
    (if TEST_BIT (i_update r) MTIME then st_inode rip (λ r, r <| i_mtime := cur_time |>) else mret ());;
    st_inode rip (λ r, r <| i_update := 0 |>).

(** [n] zone numbers of [w] bytes from offset [o] of a block on. *)
Fixpoint get_zones (get : nat → option Z) (n o w : nat) : option (list Z) :=
  match n with
  | O => Some []
  | S n' => z ← get o; zs ← get_zones get n' (o + w) w; Some (z :: zs)
  end.

Fixpoint set_zones (set : block_data → nat → Z → block_data) (d : block_data) (zs : list Z) (o w : nat) : block_data :=
  match zs with
  | [] => d
  | z :: zs => set_zones set (set d o z) zs (o + w) w
  end.

(** The V1 inode at offset [o] of a block: [d1_mode], [d1_uid], [d1_size],
    [d1_mtime], [d1_gid], [d1_nlinks], [d1_zone]. *)
Definition old_read (norm : Z) (d : block_data) (o : nat) (r : inode) : option inode :=
  mode ← get16 d o; uid ← get16 d (o + 2); size ← get32 d (o + 4); mtime ← get32 d (o + 8);
  gid ← get8 d (o + 12); nlinks ← get8 d (o + 13);
  zs ← get_zones (λ o, conv2 norm <$> get16 d o) (Z.to_nat V1_NR_TZONES) (o + 14) 2;
  let mtime := conv4 norm (s32 mtime) in
  Some (r <| i_mode := conv2 norm mode |> <| i_uid := s16 (conv2 norm uid) |> <| i_size := u32 (conv4 norm (s32 size)) |>
          <| i_mtime := mtime |> <| i_atime := mtime |> <| i_ctime := mtime |> <| i_nlinks := s8 nlinks |> <| i_gid := s8 gid |>
          <| i_ndzones := V1_NR_DZONES |> <| i_nindirs := V1_INDIRECTS |>
          <| i_zone ::= λ l, zs ++ drop (Z.to_nat V1_NR_TZONES) l |>).

Definition old_write (norm : Z) (d : block_data) (o : nat) (r : inode) : block_data :=
  let d := set16 d o (conv2 norm (i_mode r)) in
  let d := set16 d (o + 2) (conv2 norm (i_uid r)) in
  let d := set32 d (o + 4) (conv4 norm (s32 (i_size r))) in
  let d := set32 d (o + 8) (conv4 norm (i_mtime r)) in
  let d := set8 d (o + 13) (i_nlinks r) in
  let d := set8 d (o + 12) (i_gid r) in
  set_zones (λ d o z, set16 d o (conv2 norm (s32 z))) d (take (Z.to_nat V1_NR_TZONES) (i_zone r)) (o + 14) 2.

(** The V2 inode: [d2_mode], [d2_nlinks], [d2_uid], [d2_gid], [d2_size],
    [d2_atime], [d2_mtime], [d2_ctime], [d2_zone]. *)
Definition new_read (norm : Z) (d : block_data) (o : nat) (r : inode) : option inode :=
  mode ← get16 d o; nlinks ← get16 d (o + 2); uid ← get16 d (o + 4); gid ← get16 d (o + 6);
  size ← get32 d (o + 8); atime ← get32 d (o + 12); mtime ← get32 d (o + 16); ctime ← get32 d (o + 20);
  zs ← get_zones (λ o, conv_zone norm <$> get32 d o) (Z.to_nat V2_NR_TZONES) (o + 24) 4;
  Some (r <| i_mode := conv2 norm mode |> <| i_uid := s16 (conv2 norm uid) |> <| i_nlinks := s8 (conv2 norm nlinks) |> <| i_gid := s8 (conv2 norm gid) |>
          <| i_size := u32 (conv4 norm (s32 size)) |> <| i_atime := conv4 norm (s32 atime) |> <| i_ctime := conv4 norm (s32 ctime) |> <| i_mtime := conv4 norm (s32 mtime) |>
          <| i_ndzones := V2_NR_DZONES |> <| i_nindirs := V2_INDIRECTS |> <| i_zone := zs |>).

Definition new_write (norm : Z) (d : block_data) (o : nat) (r : inode) : block_data :=
  let d := set16 d o (conv2 norm (i_mode r)) in
  let d := set16 d (o + 4) (conv2 norm (i_uid r)) in
  let d := set16 d (o + 2) (conv2 norm (i_nlinks r)) in
  let d := set16 d (o + 6) (conv2 norm (i_gid r)) in
  let d := set32 d (o + 8) (conv4 norm (s32 (i_size r))) in
  let d := set32 d (o + 12) (conv4 norm (i_atime r)) in
  let d := set32 d (o + 20) (conv4 norm (i_ctime r)) in
  let d := set32 d (o + 16) (conv4 norm (i_mtime r)) in
  set_zones (λ d o z, set32 d o (conv4 norm (s32 z))) d (i_zone r) (o + 24) 4.

(** [old_icopy] and [new_icopy], by the version of the file system. *)
Definition icopy (version norm bp : Z) (o : nat) (rip rw_flag : Z) : FI unit :=
  r ← ld_inode rip;
  x ← in_buf (ld_buf bp);
  if rw_flag =? READING then
    r' ← deref ((if version =? V1 then old_read else new_read) norm (b_data x) o r);
    st_inode rip (λ _, r')
  else in_buf (st_buf bp (λ x, x <| b_data ::= λ d, (if version =? V1 then old_write else new_write) norm d o r |>)).

Definition rw_inode (rip rw_flag : Z) : FI unit :=
  r ← ld_inode rip;
  i ← in_fs (get_super (i_dev r));
  sp ← in_fs (ld_super i);
  st_inode rip (λ r, r <| i_sp := Some i |>);;
  let offset := u32 (s_imap_blocks sp + s_zmap_blocks sp + 2) in
  let n := u32 (i_num r - 1) in
  (if s_inodes_per_block sp =? 0 then undef DivZero else mret ());;
  let b := u32 (n / s_inodes_per_block sp + offset) in
  bp ← in_buf (get_block (i_dev r) b NORMAL);
  let dip := V1_INODE_SIZE * (n mod V1_INODES_PER_BLOCK) in
  let dip2 := V2_INODE_SIZE * (n mod V2_INODES_PER_BLOCK) in
  (if rw_flag =? WRITING then
     r ← ld_inode rip;
     (if negb (i_update r =? 0) then update_times rip else mret ());;
     if s_rd_only sp =? 0 then in_buf (st_buf bp (λ x, x <| b_dirt := DIRTY |>)) else mret ()
   else mret ());;
  icopy (s_version sp) (s_native sp) bp (Z.to_nat (if s_version sp =? V1 then dip else dip2)) rip rw_flag;;
  in_buf (put_block (Some bp) INODE_BLOCK);;
  st_inode rip (λ r, r <| i_dirt := CLEAN |>).

(** The table is searched for the inode and for a free slot, the last one. *)
Fixpoint inode_scan (n : nat) (i dev numb : Z) (xp : option Z) : FI (Z + option Z) :=
  match n with
  | O => mret (inr xp)
  | S n' =>
      r ← ld_inode i;
      if i_count r >? 0 then
        if (i_dev r =? dev) && (i_num r =? numb) then mret (inl i) else inode_scan n' (i + 1) dev numb xp
      else inode_scan n' (i + 1) dev numb (Some i)
  end.

Definition get_inode (dev numb : Z) : FI (option Z) :=
  f ← inode_scan (Z.to_nat NR_INODES) 0 dev numb None;
  match f with
  | inl rip => dup_inode rip;; mret (Some rip)
  | inr None => in_fs (modify (λ f, f <| err_code := FS_ENFILE |>));; mret None
  | inr (Some xp) =>
      st_inode xp (λ r, r <| i_dev := dev |> <| i_num := u16 numb |> <| i_count := 1 |>);;
      (if negb (dev =? NO_DEV) then rw_inode xp READING else mret ());;
      st_inode xp (λ r, r <| i_update := 0 |>);;
      mret (Some xp)
  end.

Definition alloc_inode (dev bits : Z) : FI (option Z) :=
  i ← in_fs (get_super dev);
  sp ← in_fs (ld_super i);
  if negb (s_rd_only sp =? 0) then in_fs (modify (λ f, f <| err_code := FS_EROFS |>));; mret None
  else
    b ← in_buf (alloc_bit sp IMAP (s_isearch sp));
    if b =? NO_BIT then
      in_fs (modify (λ f, f <| err_code := FS_ENFILE |>));;
      root ← gets (λ s, root_dev (fsys s));
      in_buf (fs_printf ("Out of i-nodes on " +:+ (if s_dev sp =? root then "root " else "") +:+ "device " +:+ dev_name (s_dev sp) +:+ newline));;
      mret None
    else
      in_fs (st_super i (λ s, s <| s_isearch := b |>));;
      rip ← get_inode NO_DEV (s32 b);
      match rip with
      | None => in_buf (free_bit sp IMAP b);; mret None
      | Some rip =>
          uid ← gets fp_effuid;
          gid ← gets fp_effgid;
          st_inode rip (λ r, r <| i_mode := bits |> <| i_nlinks := 0 |> <| i_uid := uid |> <| i_gid := gid |> <| i_dev := dev |>
                               <| i_ndzones := s_ndzones sp |> <| i_nindirs := s_nindirs sp |> <| i_sp := Some i |>);;
          wipe_inode rip;;
          mret (Some rip)
      end.

(** ** Giving the zones of a file back (fs/link.c) *)
Fixpoint truncate_data (fuel : nat) (rip dev scale zone_size position : Z) : FI unit :=
  match fuel with
  | O => λ _, NoFuel
  | S fuel' =>
      r ← ld_inode rip;
      if position <? i_size r then
        b ← read_map rip position;
        (if negb (b =? NO_BLOCK) then in_fs (free_zone dev (Z.shiftr b scale)) else mret ());;
        truncate_data fuel' rip dev scale zone_size (u32 (position + zone_size))
      else mret ()
  end.

Definition truncate (rip : Z) : FI unit :=
  r ← ld_inode rip;
  let file_type := Z.land (i_mode r) I_TYPE in
  if (file_type =? I_CHAR_SPECIAL) || (file_type =? I_BLOCK_SPECIAL) then mret ()
  else
    let dev := i_dev r in
    sp ← inode_super r;
    let scale := s_log_zone_size sp in
    let zone_size := u32 (Z.shiftl BLOCK_SIZE scale) in
    let nr_indirects := i_nindirs r in
    let waspipe := i_pipe r =? I_PIPE in
    (if waspipe then st_inode rip (λ r, r <| i_size := PIPE_SIZE |>) else mret ());;
    r ← ld_inode rip;
    truncate_data (Z.to_nat (i_size r / BLOCK_SIZE + 2)) rip dev scale zone_size 0;;
    st_inode rip (λ r, r <| i_dirt := DIRTY |>);;
    if waspipe then wipe_inode rip
    else
      r ← ld_inode rip;
      let single := i_ndzones r in
      z ← ld_zone r single;
      in_fs (free_zone dev z);;
      z ← ld_zone r (single + 1);
      if negb (z =? NO_ZONE) then
        bp ← in_buf (get_block dev (u32 (Z.shiftl z scale)) NORMAL);
        in_fs (for_ 0 (Z.to_nat nr_indirects) (λ i, z1 ← rd_indir bp i; free_zone dev z1));;
        in_buf (put_block (Some bp) INDIRECT_BLOCK);;
        in_fs (free_zone dev z)
      else mret ().

(** The caller gives up its use of the inode (fs/inode.c). *)
Definition put_inode (ripo : option Z) : FI unit :=
  match ripo with
  | None => mret ()
  | Some rip =>
      st_inode rip (λ r, r <| i_count ::= Z.pred |>);;
      r ← ld_inode rip;
      if negb (i_count r =? 0) then mret ()
      else
        (if Z.land (i_nlinks r) BYTE =? 0 then
           truncate rip;;
           st_inode rip (λ r, r <| i_mode := I_NOT_ALLOC |> <| i_dirt := DIRTY |>);;
           in_fs (free_inode (i_dev r) (i_num r))
         else if i_pipe r =? I_PIPE then truncate rip else mret ());;
        st_inode rip (λ r, r <| i_pipe := NO_PIPE |>);;
        r ← ld_inode rip;
        if i_dirt r =? DIRTY then rw_inode rip WRITING else mret ()
  end.
End inodes.
