(* ===== verification/FsBytes.v ===== *)
(** * Values in the bytes of a block

    Storing and fetching 8, 16 and 32 bit values at byte offsets, the byte
    order conversion of 32 bit values, and the entries of indirect blocks in the
    two versions and byte orders of the file system. *)

From stdpp Require Import base gmap strings pretty numbers fin_maps functions list.
From S2P Require Import Prelude FsCache FsMap FsBitmap FsInode.
Local Open Scope Z_scope.

(** ** Offsets *)
Lemma get16_set16 d o v : (S o < length d)%nat → get16 (set16 d o v) o = Some (u16 v).
Proof.
  intros Ho. unfold get16, set16. rewrite !land_255, Z.shiftr_div_pow2 by done. change (2 ^ 8) with 256.
  rewrite list_lookup_insert_eq by (rewrite length_insert; lia). cbn. rewrite list_lookup_insert_ne, list_lookup_insert_eq by lia. cbn. f_equal.
  unfold u16. change (2 ^ 16) with (256 * 256). rewrite Z.rem_mul_r by lia. lia.
Qed.

Lemma get16_set16_ne d o o' v : (S o < o' ∨ S o' < o)%nat → get16 (set16 d o v) o' = get16 d o'.
Proof. intros Ho. unfold get16, set16. by rewrite !list_lookup_insert_ne by lia. Qed.

Lemma get16_set8_ne d o o' v : (o < o' ∨ S o' < o)%nat → get16 (set8 d o v) o' = get16 d o'.
Proof. intros Ho. unfold get16, set8. by rewrite !list_lookup_insert_ne by lia. Qed.

Lemma get8_set8 d o v : (o < length d)%nat → get8 (set8 d o v) o = Some (v mod 256).
Proof. intros Ho. unfold get8, set8. by rewrite land_255, list_lookup_insert_eq. Qed.

Lemma get8_set8_ne d o o' v : o ≠ o' → get8 (set8 d o v) o' = get8 d o'.
Proof. intros Ho. unfold get8, set8. by rewrite list_lookup_insert_ne. Qed.

Lemma get8_set16_ne d o o' v : (S o < o' ∨ o' < o)%nat → get8 (set16 d o v) o' = get8 d o'.
Proof. intros Ho. unfold get8, set16. by rewrite !list_lookup_insert_ne by lia. Qed.

Lemma length_set16 d o v : length (set16 d o v) = length d.
Proof. unfold set16. by rewrite !length_insert. Qed.
Lemma length_set8 d o v : length (set8 d o v) = length d.
Proof. unfold set8. by rewrite !length_insert. Qed.
Lemma length_set32 d o v : length (set32 d o v) = length d.
Proof. unfold set32. by rewrite !length_set16. Qed.

Lemma get32_set32 d o v : (o + 3 < length d)%nat → get32 (set32 d o v) o = Some (u32 v).
Proof.
  intros Ho. unfold get32, set32. rewrite get16_set16 by (rewrite length_set16; lia). cbn [mbind option_bind].
  rewrite get16_set16_ne, get16_set16 by lia. cbn. f_equal. rewrite Z.shiftr_div_pow2 by done. unfold u16, u32. change (2 ^ 16) with 65536. change (2 ^ 32) with (65536 * 65536).
  by rewrite (Z.rem_mul_r v) by lia.
Qed.

Lemma get32_set16_ne d o o' v : (S o < o' ∨ o' + 3 < o)%nat → get32 (set16 d o v) o' = get32 d o'.
Proof. intros Ho. unfold get32. by rewrite !get16_set16_ne by lia. Qed.
Lemma get32_set8_ne d o o' v : (o < o' ∨ o' + 3 < o)%nat → get32 (set8 d o v) o' = get32 d o'.
Proof. intros Ho. unfold get32. by rewrite !get16_set8_ne by lia. Qed.
Lemma get32_set32_ne d o o' v : (o + 3 < o' ∨ o' + 3 < o)%nat → get32 (set32 d o v) o' = get32 d o'.
Proof. intros Ho. unfold set32. by rewrite !get32_set16_ne by lia. Qed.
Lemma get16_set32_ne d o o' v : (o + 3 < o' ∨ S o' < o)%nat → get16 (set32 d o v) o' = get16 d o'.
Proof. intros Ho. unfold set32. by rewrite !get16_set16_ne by lia. Qed.
Lemma get8_set32_ne d o o' v : (o + 3 < o' ∨ o' < o)%nat → get8 (set32 d o v) o' = get8 d o'.
Proof. intros Ho. unfold set32. by rewrite !get8_set16_ne by lia. Qed.

Create Rewrite HintDb bytes.
#[export] Hint Rewrite length_set8 length_set16 length_set32 : bytes.
#[export] Hint Rewrite get8_set8 get16_set16 get32_set32 get8_set8_ne get8_set16_ne get8_set32_ne get16_set8_ne get16_set16_ne get16_set32_ne
  get32_set8_ne get32_set16_ne get32_set32_ne using (autorewrite with bytes; lia) : bytes.

Lemma set8_wf d o v : wf_block d → wf_block (set8 d o v).
Proof.
  intros [Hl Hb]. split; [by rewrite length_set8|]. intros i x. unfold set8. rewrite land_255, list_lookup_insert. case_decide; [intros [= <-]; by apply Z.mod_pos_bound|apply Hb].
Qed.
Lemma set32_wf d o v : wf_block d → wf_block (set32 d o v).
Proof. intros H. by apply set16_wf, set16_wf. Qed.

Lemma get16_some d o : wf_block d → (S o < Z.to_nat BLOCK_SIZE)%nat → ∃ v, get16 d o = Some v ∧ 0 ≤ v < 65536.
Proof.
  intros [Hl Hb] Ho. destruct (lookup_lt_is_Some_2 d o) as [x Hx]; [lia|]. destruct (lookup_lt_is_Some_2 d (S o)) as [y Hy]; [lia|].
  exists (x + 256 * y). unfold get16. rewrite Hx. cbn. rewrite Hy. split; [done|]. pose proof (Hb _ _ Hx). pose proof (Hb _ _ Hy). lia.
Qed.
Lemma get32_some d o : wf_block d → (o + 3 < Z.to_nat BLOCK_SIZE)%nat → ∃ v, get32 d o = Some v ∧ 0 ≤ v < 2 ^ 32.
Proof.
  intros Hd Ho. destruct (get16_some d o Hd) as (x & Hx & ?); [lia|]. destruct (get16_some d (o + 2) Hd) as (y & Hy & ?); [lia|].
  exists (x + 65536 * y). unfold get32. rewrite Hx. cbn. rewrite Hy. split; [done|lia].
Qed.

(** ** Byte order of 32 bit values *)

Lemma conv4_swap x : conv4 0 x = s32 (conv2 0 (x mod 65536) * 65536 + conv2 0 (x / 65536 mod 65536)).
Proof.
  unfold conv4. cbn [Z.eqb negb]. change 0xFFFF with (Z.ones 16). rewrite !Z.land_ones, Z.shiftr_div_pow2 by done. change (2 ^ 16) with 65536. cbv zeta. f_equal.
  apply (lor_add _ _ 16); [done|]. apply conv2_range. by apply Z.mod_pos_bound.
Qed.

Lemma s32_halves x y : 0 ≤ y < 65536 → s32 (x * 65536 + y) mod 65536 = y ∧ s32 (x * 65536 + y) / 65536 mod 65536 = x mod 65536.
Proof.
  intros Hy. unfold s32. set (v := x * 65536 + y). pose proof (Z.div_mod (v + 2 ^ 31) (2 ^ 32) ltac:(lia)) as E.
  replace ((v + 2 ^ 31) mod 2 ^ 32 - 2 ^ 31) with (y + (x - 65536 * ((v + 2 ^ 31) / 2 ^ 32)) * 65536) by lia. split.
  - rewrite Z.mod_add by lia. by apply Z.mod_small.
  - rewrite Z.div_add, Z.div_small by lia. rewrite Z.add_0_l. replace (x - 65536 * ((v + 2 ^ 31) / 2 ^ 32)) with (x + (- ((v + 2 ^ 31) / 2 ^ 32)) * 65536) by lia. by rewrite Z.mod_add by lia.
Qed.

Lemma conv4_twice n x : - 2 ^ 31 ≤ x < 2 ^ 31 → conv4 n (conv4 n x) = x.
Proof.
  intros Hx. destruct (decide (n = 0)) as [->|Hn]; [|unfold conv4; by rewrite (proj2 (Z.eqb_neq _ _) Hn)].
  rewrite !conv4_swap. pose proof (Z.mod_pos_bound x 65536 ltac:(lia)) as H1. pose proof (Z.mod_pos_bound (x / 65536) 65536 ltac:(lia)) as H2.
  pose proof (conv2_range 0 _ H1) as R1. pose proof (conv2_range 0 _ H2) as R2.
  destruct (s32_halves (conv2 0 (x mod 65536)) (conv2 0 (x / 65536 mod 65536)) R2) as [E1 E2]. rewrite E1, E2. rewrite (Z.mod_small (conv2 0 (x mod 65536))) by done.
  rewrite !conv2_twice by done. rewrite <- (s32_id x Hx) at 3. unfold s32. f_equal.
  assert (E : x / 65536 mod 65536 * 65536 + x mod 65536 = u32 x).
  { unfold u32. change (2 ^ 32) with (65536 * 65536). rewrite Z.rem_mul_r by lia. lia. }
  rewrite E. unfold u32. by rewrite Zplus_mod_idemp_l.
Qed.

Lemma conv4_range n x : - 2 ^ 31 ≤ x < 2 ^ 31 → - 2 ^ 31 ≤ conv4 n x < 2 ^ 31.
Proof.
  intros Hx. destruct (decide (n = 0)) as [->|Hn]; [|unfold conv4; by rewrite (proj2 (Z.eqb_neq _ _) Hn)]. rewrite conv4_swap. unfold s32.
  match goal with |- context [?a mod ?b] => pose proof (Z.mod_pos_bound a b ltac:(lia)) end. lia.
Qed.


Lemma conv_zone_twice n z : 0 ≤ z < 2 ^ 32 → conv_zone n (conv_zone n z) = z.
Proof. intros Hz. unfold conv_zone. rewrite s32_u32, (s32_id (conv4 _ _)) by apply conv4_range, s32_range. rewrite conv4_twice by apply s32_range. rewrite u32_s32. by apply u32_id. Qed.
Lemma conv_zone_range n z : 0 ≤ conv_zone n z < 2 ^ 32.
Proof. apply u32_range. Qed.
Lemma conv_zone_0 n : conv_zone n 0 = 0.
Proof. by destruct n. Qed.
Lemma conv2_0 n : conv2 n 0 = 0.
Proof. by destruct n. Qed.

(** ** Entries of an indirect block *)
Definition ind_get (sp : super_block) (d : block_data) (j : Z) : option Z :=
  if s_version sp =? V1 then conv2 (s_native sp) <$> get16 d (Z.to_nat (2 * j)) else conv_zone (s_native sp) <$> get32 d (Z.to_nat (4 * j)).
Definition ind (sp : super_block) (d : block_data) (j : Z) : Z := default 0 (ind_get sp d j).
Definition ind_set (sp : super_block) (d : block_data) (j z : Z) : block_data :=
  if s_version sp =? V1 then set16 d (Z.to_nat (2 * j)) (conv2 (s_native sp) (s32 z)) else set32 d (Z.to_nat (4 * j)) (conv_zone (s_native sp) z).

(** The number of entries, and the zone numbers an entry can hold. *)
Definition ind_max (sp : super_block) : Z := if s_version sp =? V1 then V1_INDIRECTS else V2_INDIRECTS.
Definition ind_fits (sp : super_block) (z : Z) : Prop := 0 ≤ z < (if s_version sp =? V1 then 65536 else 2 ^ 32).

Lemma ind_get_some sp d j : wf_block d → 0 ≤ j < ind_max sp → ind_get sp d j = Some (ind sp d j) ∧ ind_fits sp (ind sp d j).
Proof.
  intros Hd. unfold ind, ind_get, ind_max, ind_fits. destruct (_ =? V1); unfold V1_INDIRECTS, V2_INDIRECTS; intros Hj.
  - change (BLOCK_SIZE / 2) with 512 in Hj. destruct (get16_some d (Z.to_nat (2 * j)) Hd) as (v & -> & Hv); [change (Z.to_nat BLOCK_SIZE) with 1024%nat; lia|]. cbn. split; [done|]. by apply conv2_range.
  - change (BLOCK_SIZE / 4) with 256 in Hj. destruct (get32_some d (Z.to_nat (4 * j)) Hd) as (v & -> & Hv); [change (Z.to_nat BLOCK_SIZE) with 1024%nat; lia|]. cbn. split; [done|]. apply conv_zone_range.
Qed.

Lemma ind_set_wf sp d j z : wf_block d → wf_block (ind_set sp d j z).
Proof. intros Hd. unfold ind_set. destruct (_ =? V1); [by apply set16_wf|by apply set32_wf]. Qed.

Lemma conv2_s32 n z : 0 ≤ z < 65536 → conv2 n (s32 z) = conv2 n z.
Proof. intros Hz. by rewrite s32_id by lia. Qed.

Lemma ind_set_get sp d j z k : wf_block d → 0 ≤ j < ind_max sp → 0 ≤ k < ind_max sp → ind_fits sp z → ind sp (ind_set sp d j z) k = if decide (k = j) then z else ind sp d k.
Proof.
  intros [Hl Hb]. change (Z.to_nat BLOCK_SIZE) with 1024%nat in Hl. unfold ind, ind_get, ind_set, ind_max, ind_fits. destruct (_ =? V1); unfold V1_INDIRECTS, V2_INDIRECTS; intros Hj Hk Hz.
  - change (BLOCK_SIZE / 2) with 512 in *. rewrite conv2_s32 by done. case_decide as E.
    + subst. rewrite get16_set16 by lia. cbn. unfold u16. rewrite (Z.mod_small (conv2 _ _)) by (by apply conv2_range). by apply conv2_twice.
    + by rewrite get16_set16_ne by lia.
  - change (BLOCK_SIZE / 4) with 256 in *. case_decide as E.
    + subst. rewrite get32_set32 by lia. cbn. rewrite u32_id by apply conv_zone_range. by apply conv_zone_twice.
    + by rewrite get32_set32_ne by lia.
Qed.

Definition zeros : block_data := replicate (Z.to_nat BLOCK_SIZE) 0.

Lemma zeros_wf : wf_block zeros.
Proof. split; [apply length_replicate|]. intros i v Hv. apply lookup_replicate in Hv as [-> _]. lia. Qed.

Lemma get16_zeros o : default 0 (get16 zeros o) = 0.
Proof.
  unfold get16, zeros. destruct (replicate _ 0 !! o) as [x|] eqn:Hx; [|done]. apply lookup_replicate in Hx as [-> _]. cbn.
  destruct (replicate _ 0 !! S o) as [y|] eqn:Hy; [|done]. by apply lookup_replicate in Hy as [-> _].
Qed.

Lemma ind_zeros sp j : ind sp zeros j = 0.
Proof.
  unfold ind, ind_get. destruct (_ =? V1).
  - pose proof (get16_zeros (Z.to_nat (2 * j))) as E. destruct (get16 zeros _) as [v|]; [|done]. cbn in *. subst. apply conv2_0.
  - unfold get32. pose proof (get16_zeros (Z.to_nat (4 * j))) as E1. pose proof (get16_zeros (Z.to_nat (4 * j) + 2)) as E2.
    destruct (get16 zeros (Z.to_nat (4 * j))) as [v|]; [|done]. cbn in *. subst. destruct (get16 zeros _) as [w|]; [|done]. cbn in *. subst. apply conv_zone_0.
Qed.
