(* ===== verification/FsFile.v ===== *)
(** * The blocks of a file

    [read_map] and [write_map] against their specification: a file is a
    function from zone indices to zones, whatever is in the inode and in its
    indirect blocks.  The proofs use the buffer cache and the zones through their
    specifications ([repr], [zone_inv]). *)

From stdpp Require Import base gmap strings pretty numbers fin_maps functions list.
From S2P Require Import Prelude FsCache FsChains FsCoherence FsSpec FsMap FsBitmap FsInode FsBytes.
Local Open Scope Z_scope.

(** ** Blocks in use *)
Section use.
Context {D : Driver} {RD : Reliable D}.
Implicit Types s : cache.
Context (nr : Z).

Lemma pin_data s a p d b n : repr nr s a → a_pins a !! p = Some (d, b, n) → ∃ x, bufs s !! p = Some x ∧ b_dev x = d ∧ b_data x = a_disk a d b.
Proof.
  intros HR Hp. pose proof (r_named _ _ _ HR _ _ _ _ Hp) as Hd. destruct (pin_buf _ _ _ _ _ _ _ HR Hp) as (x & Hx & Ed & Eb & _). exists x.
  assert (E : b_data x = a_disk a d b). { subst. apply (c_data _ _ _ _ _ _ (r_holds _ _ _ HR) p (erase x)); [by apply info_lookup|done]. }
  done.
Qed.

Lemma astep_fresh d b v a a' r : astep (CFresh d b v) a a' r →
  ∃ p n, pick a d b p n ∧ a' = mk_acache (cset (a_disk a) d b v) (<[p := (d, b, n + 1)]> (a_pins a)) ∧ r = Some (p, v).
Proof. inversion 1; subst; eauto 10. Qed.

(** [zero_block] stores a block of zeros. *)
Lemma zero_block_write s p : zero_block p s = write_buf p zeros s.
Proof.
  unfold zero_block, write_buf. fold zeros. destruct (bufs s !! p) as [x|] eqn:Hx.
  - frun. f_equal. unfold upd. cbn. f_equal. by rewrite insert_insert_eq.
  - assert (H : ∀ f, st_buf p f s = Undef WildPtr) by (intros f; unfold st_buf, ld_buf, mbind, M_bind, gets, deref; by rewrite Hx).
    unfold mbind, M_bind. by rewrite !H.
Qed.

Lemma use_fresh s a d b : repr nr s a → valid nr d b → roomy a →
  ∃ s1 s2 p n, get_block d b NO_READ s = Ok s1 p ∧ zero_block p s1 = Ok s2 () ∧ pick a d b p n ∧
    repr nr s2 (mk_acache (cset (a_disk a) d b zeros) (<[p := (d, b, n + 1)]> (a_pins a))).
Proof.
  intros HR Hv [Hsz Hlim]. destruct (cop_step nr s a (CFresh d b zeros) HR) as (s' & a' & r & Hrun & Hst & HR').
  { split; [done|]. split; [intros p n; apply Hlim|by right]. }
  cbn in Hrun. apply bind_inv in Hrun as (s1 & p1 & Hget & Hrun). apply bind_inv in Hrun as (s2 & [] & Hw & Hrun). injection Hrun as -> Er.
  destruct (astep_fresh _ _ _ _ _ _ Hst) as (p & n & Hp & -> & Er'). rewrite Er' in Er. injection Er as ->. exists s1, s', p, n.
  split; [done|]. split; [by rewrite zero_block_write|]. done.
Qed.

(** A change of the bytes of a buffer in use, then the mark that it is dirty. *)
Lemma use_store s a p d b n g : repr nr s a → a_pins a !! p = Some (d, b, n) →
  ∃ s1 s2, st_buf p (λ x, x <| b_data ::= g |>) s = Ok s1 () ∧ st_buf p (λ x, x <| b_dirt := DIRTY |>) s1 = Ok s2 () ∧
    repr nr s2 (mk_acache (cset (a_disk a) d b (g (a_disk a d b))) (a_pins a)).
Proof.
  intros HR Hp. destruct (pin_data _ _ _ _ _ _ HR Hp) as (x & Hx & Ed & Edat). eexists _, _. split; [by apply st_buf_ok|]. split; [apply st_buf_ok; cbn; by rewrite lookup_insert_eq|].
  eapply use_write; [done|done|]. unfold write_buf. erewrite st_buf_ok by done. f_equal. unfold upd. cbn. rewrite insert_insert_eq, Edat. done.
Qed.
End use.

(** ** The zones of a device and their blocks *)
Section layout.
Context {D : Driver} {RD : Reliable D}.
Context (nr : Z) (sp : super_block).

(** The first block of a zone. *)
Definition zblk (z : Z) : Z := Z.shiftl z (s_log_zone_size sp).
Definition data_zone (z : Z) : Prop := s_firstdatazone sp ≤ z < s_zones sp.
Definition zone_val (z : Z) : Prop := z = NO_ZONE ∨ data_zone z.

Record layout (dsk : Z → Z → block_data) : Prop := {
  la_scale : 0 ≤ s_log_zone_size sp ≤ 4;
  la_nind : s_nindirs sp = ind_max sp;
  la_fits z : data_zone z → ind_fits sp z;
  la_first : 1 ≤ s_firstdatazone sp;
  la_map : map_start sp ZMAP + map_blocks sp ZMAP ≤ zblk (s_firstdatazone sp);
  la_valid z k : data_zone z → 0 ≤ k < 2 ^ s_log_zone_size sp → valid nr (s_dev sp) (zblk z + k);
  la_wf z k : data_zone z → 0 ≤ k < 2 ^ s_log_zone_size sp → wf_block (dsk (s_dev sp) (zblk z + k));
}.

Lemma zblk_mul z : 0 ≤ s_log_zone_size sp → zblk z = z * 2 ^ s_log_zone_size sp.
Proof. intros H. unfold zblk. by rewrite Z.shiftl_mul_pow2. Qed.

Lemma zblk_u32 dsk z : layout dsk → data_zone z → u32 (zblk z) = zblk z ∧ valid nr (s_dev sp) (zblk z) ∧ wf_block (dsk (s_dev sp) (zblk z)).
Proof.
  intros Hl Hz. pose proof (la_scale _ Hl) as Hs. assert (Hk : 0 ≤ 0 < 2 ^ s_log_zone_size sp) by (split; [lia|apply Z.pow_pos_nonneg; lia]).
  pose proof (la_valid _ Hl z 0 Hz Hk) as Hv. pose proof (la_wf _ Hl z 0 Hz Hk) as Hw. rewrite Z.add_0_r in Hv, Hw. split; [|done]. apply u32_id. destruct Hv as (_ & _ & Hv & _). lia.
Qed.

Lemma zblk_u32_k dsk z k : layout dsk → data_zone z → 0 ≤ k < 2 ^ s_log_zone_size sp → u32 (zblk z + k) = zblk z + k.
Proof. intros Hl Hz Hk. pose proof (la_valid _ Hl z k Hz Hk) as (_ & _ & Hv & _). apply u32_id. lia. Qed.

(** Blocks of different zones are different, and no block of the zone map. *)
Lemma zblk_inj dsk z z' k k' : layout dsk → 0 ≤ k < 2 ^ s_log_zone_size sp → 0 ≤ k' < 2 ^ s_log_zone_size sp → zblk z + k = zblk z' + k' → z = z' ∧ k = k'.
Proof.
  intros Hl Hk Hk'. pose proof (la_scale _ Hl). rewrite !zblk_mul by lia. intros E. assert (z = z') by nia. subst. lia.
Qed.

Lemma zblk_not_map dsk z k : layout dsk → data_zone z → 0 ≤ k → ¬ (map_start sp ZMAP ≤ zblk z + k < map_start sp ZMAP + map_blocks sp ZMAP).
Proof.
  intros Hl Hz Hk Hin. pose proof (la_map _ Hl) as Hm. pose proof (la_scale _ Hl). assert (zblk (s_firstdatazone sp) ≤ zblk z); [|lia].
  rewrite !zblk_mul by lia. apply Z.mul_le_mono_nonneg_r; [apply Z.pow_nonneg; lia|apply Hz].
Qed.

Lemma zone_val_fits dsk z : layout dsk → zone_val z → ind_fits sp z.
Proof. intros Hl [->|Hz]; [|by apply (la_fits _ Hl)]. unfold ind_fits, NO_ZONE. destruct (_ =? V1); lia. Qed.

(** The layout does not depend on where the search for free zones starts, and only
    the bytes of data zones matter. *)
Lemma layout_disk dsk dsk' : layout dsk → (∀ z k, data_zone z → 0 ≤ k < 2 ^ s_log_zone_size sp → wf_block (dsk' (s_dev sp) (zblk z + k))) → layout dsk'.
Proof. intros [H1 H2 H3 H4 H5 H6 H7] H. by split. Qed.

Lemma layout_cset dsk b v : layout dsk → wf_block v → layout (cset dsk (s_dev sp) b v).
Proof. intros Hl Hv. eapply layout_disk; [done|]. intros z k Hz Hk. unfold cset. case_decide; [done|]. by apply (la_wf _ Hl). Qed.
End layout.

Lemma layout_search {D : Driver} {RD : Reliable D} nr sp zs dsk : layout nr sp dsk → layout nr (sp <| s_zsearch := zs |>) dsk.
Proof. intros [H1 H2 H3 H4 H5 H6 H7]. by split. Qed.

(** ** The tree of indirect blocks *)
Section tree.
Context {D : Driver} {RD : Reliable D}.
Context (nr : Z) (sp : super_block).
Implicit Types dsk : Z → Z → block_data.
Implicit Types r : inode.

(** The zones that hold zone numbers: the single indirect one, the double
    indirect one, and the ones the double indirect block names. *)
Inductive node := Single | Double | Under (j : Z).
#[export] Instance node_eq_dec : EqDecision node.
Proof. solve_decision. Defined.

Definition node_ok (n : node) : Prop := match n with Under j => 0 ≤ j < ind_max sp | _ => True end.

Definition izone r (k : Z) : Z := default NO_ZONE (i_zone r !! Z.to_nat k).
Definition single_zone r : Z := izone r V1_NR_DZONES.
Definition double_zone r : Z := izone r (V1_NR_DZONES + 1).

(** Entry [j] of the indirect block in zone [z], none if there is no such zone. *)
Definition entry dsk (z j : Z) : Z := if z =? NO_ZONE then NO_ZONE else ind sp (dsk (s_dev sp) (zblk sp z)) j.

Definition zat dsk r (n : node) : Z :=
  match n with Single => single_zone r | Double => double_zone r | Under j => entry dsk (double_zone r) j end.

(** The zone of a file's zone index: the map of the file. *)
Definition max_zones : Z := V1_NR_DZONES + ind_max sp + ind_max sp * ind_max sp.

Definition place (n : Z) : option node * Z :=
  if n <? V1_NR_DZONES then (None, n)
  else let e := n - V1_NR_DZONES in
    if e <? ind_max sp then (Some Single, e) else (Some (Under ((e - ind_max sp) / ind_max sp)), (e - ind_max sp) mod ind_max sp).

Definition at_place dsk r (q : option node * Z) : Z :=
  match q with (None, k) => izone r k | (Some n, j) => entry dsk (zat dsk r n) j end.

Definition file_zone dsk r (n : Z) : Z := at_place dsk r (place n).

Definition place_ok (q : option node * Z) : Prop :=
  match q with
  | (None, k) => 0 ≤ k < V1_NR_DZONES
  | (Some n, j) => node_ok n ∧ n ≠ Double ∧ 0 ≤ j < ind_max sp
  end.

Record tree_ok dsk r (free : gset Z) : Prop := {
  t_len : length (i_zone r) = Z.to_nat V2_NR_TZONES;
  t_val n : node_ok n → zone_val sp (zat dsk r n);
  t_used n : node_ok n → zat dsk r n ∉ free;
  t_inj n m : node_ok n → node_ok m → zat dsk r n = zat dsk r m → zat dsk r n ≠ NO_ZONE → n = m;
  t_leaf q : place_ok q → zone_val sp (at_place dsk r q);
}.

Lemma ind_max_pos : 0 < ind_max sp.
Proof. unfold ind_max. by destruct (_ =? V1). Qed.

Lemma place_is_ok n : 0 ≤ n < max_zones → place_ok (place n).
Proof.
  intros Hn. pose proof ind_max_pos. unfold place, max_zones in *. destruct (Z.ltb_spec n V1_NR_DZONES); [split; lia|]. destruct (Z.ltb_spec (n - V1_NR_DZONES) (ind_max sp)).
  - split; [done|]. split; [done|]. lia.
  - split; [|split; [done|by apply Z.mod_pos_bound]]. split; [apply Z.div_pos; lia|apply Z.div_lt_upper_bound; lia].
Qed.

Lemma place_inj n m : 0 ≤ n → 0 ≤ m → place n = place m → n = m.
Proof.
  intros Hn Hm. pose proof ind_max_pos. unfold place. destruct (Z.ltb_spec n V1_NR_DZONES), (Z.ltb_spec m V1_NR_DZONES);
    repeat match goal with |- context [?a <? ind_max sp] => destruct (Z.ltb_spec a (ind_max sp)) end; intros [=]; try lia.
  pose proof (Z.div_mod (n - V1_NR_DZONES - ind_max sp) (ind_max sp)). pose proof (Z.div_mod (m - V1_NR_DZONES - ind_max sp) (ind_max sp)). nia.
Qed.

(** Only the entries of the indirect blocks matter for the map. *)
Definition same_entries dsk dsk' : Prop :=
  ∀ z j, data_zone sp z → 0 ≤ j < ind_max sp → ind sp (dsk' (s_dev sp) (zblk sp z)) j = ind sp (dsk (s_dev sp) (zblk sp z)) j.

Lemma entry_same dsk dsk' z j : same_entries dsk dsk' → zone_val sp z → 0 ≤ j < ind_max sp → entry dsk' z j = entry dsk z j.
Proof. intros H [->|Hz] Hj; [done|]. unfold entry. destruct (Z.eqb_spec z NO_ZONE); [done|]. by apply H. Qed.

Lemma tree_ok_ext dsk dsk' r free free' : tree_ok dsk r free → free' ⊆ free → same_entries dsk dsk' →
  tree_ok dsk' r free' ∧ (∀ n, node_ok n → zat dsk' r n = zat dsk r n) ∧ ∀ q, place_ok q → at_place dsk' r q = at_place dsk r q.
Proof.
  intros [H1 H2 H3 H4 H5] Hf Hd.
  assert (Hz : ∀ n, node_ok n → zat dsk' r n = zat dsk r n) by (intros [| |j] Hn; [done|done|]; apply entry_same; [done|apply (H2 Double I)|done]).
  assert (Hq : ∀ q, place_ok q → at_place dsk' r q = at_place dsk r q).
  { intros [[n|] j]; cbn [at_place]; [|done]. intros (Hn & _ & Hj). rewrite Hz by done. apply entry_same; [done|by apply H2|done]. }
  split; [|split; [exact Hz|exact Hq]]. split; [done|..].
  - intros n Hn. rewrite Hz by done. by apply H2.
  - intros n Hn. rewrite Hz by done. specialize (H3 n Hn). set_solver.
  - intros n m Hn Hm. rewrite !Hz by done. by apply H4.
  - intros q Hp. rewrite Hq by done. by apply H5.
Qed.

(** The indirect zones are the old ones, or new where there was none, and then
    they were free. *)
Definition nodes_from dsk r (free : gset Z) dsk' r' : Prop := ∀ n, node_ok n → zat dsk' r' n = zat dsk r n ∨ zat dsk r n = NO_ZONE ∧ zat dsk' r' n ∈ free.

(** A fresh zone becomes the zone of node [m], which had none; its block is
    empty: the map of the file stays. *)
Lemma tree_graft dsk r free dsk' r' z m : tree_ok dsk r free → z ∈ free → data_zone sp z → z ≠ NO_ZONE → node_ok m → zat dsk r m = NO_ZONE →
  length (i_zone r') = length (i_zone r) → (∀ k, 0 ≤ k < V1_NR_DZONES → izone r' k = izone r k) →
  (∀ n, node_ok n → zat dsk' r' n = if decide (n = m) then z else zat dsk r n) →
  (∀ n j, node_ok n → n ≠ Double → 0 ≤ j < ind_max sp → entry dsk' (zat dsk r n) j = entry dsk (zat dsk r n) j) →
  (∀ j, 0 ≤ j < ind_max sp → entry dsk' z j = NO_ZONE) →
  tree_ok dsk' r' (free ∖ {[z]}) ∧ nodes_from dsk r free dsk' r' ∧ ∀ q, place_ok q → at_place dsk' r' q = at_place dsk r q.
Proof.
  intros [H1 H2 H3 H4 H5] Hz Hdz Hz0 Hm Hm0 Hl Hk Hat He Hez.
  assert (Hq : ∀ q, place_ok q → at_place dsk' r' q = at_place dsk r q).
  { intros [[n|] j]; cbn [at_place]; [|by apply Hk]. intros (Hn & Hnd & Hj). rewrite Hat by done. case_decide as E; [subst; rewrite Hm0, Hez by done; done|by apply He]. }
  split; [|split; [intros n Hn; rewrite Hat by done; case_decide; [subst; by right|by left]|exact Hq]]. split; [by rewrite Hl|..].
  - intros n Hn. rewrite Hat by done. case_decide; [by right|by apply H2].
  - intros n Hn. rewrite Hat by done. specialize (H3 n Hn). case_decide; set_solver.
  - intros n n' Hn Hn'. rewrite !Hat by done. repeat case_decide; subst; try done.
    + intros ->. by destruct (H3 n' Hn').
    + intros <-. by destruct (H3 n Hn).
    + by apply H4.
  - intros q Hp. rewrite Hq by done. by apply H5.
Qed.

(** Storing an entry of an indirect block in place. *)
Lemma tree_leaf dsk r free n j z : tree_ok dsk r free → node_ok n → n ≠ Double → zat dsk r n ≠ NO_ZONE → 0 ≤ j < ind_max sp → zone_val sp z → layout nr sp dsk →
  let b := zblk sp (zat dsk r n) in
  let dsk' := cset dsk (s_dev sp) b (ind_set sp (dsk (s_dev sp) b) j z) in
  tree_ok dsk' r free ∧ (∀ m, node_ok m → zat dsk' r m = zat dsk r m) ∧
  ∀ q, place_ok q → at_place dsk' r q = if decide (q = (Some n, j)) then z else at_place dsk r q.
Proof.
  intros [H1 H2 H3 H4 H5] Hn Hnd Hz1 Hj Hz Hla b dsk'. destruct (H2 n Hn) as [?|Hdz]; [done|]. destruct (zblk_u32 _ _ _ _ Hla Hdz) as (_ & _ & Hwf).
  assert (Hpow : 0 < 2 ^ s_log_zone_size sp) by (apply Z.pow_pos_nonneg; pose proof (la_scale _ _ _ Hla); lia).
  assert (Hother : ∀ z' k, z' ≠ zat dsk r n → entry dsk' z' k = entry dsk z' k).
  { intros z' k Hne. unfold entry. destruct (z' =? NO_ZONE); [done|]. unfold dsk', cset. rewrite decide_False; [done|]. intros [_ E]. apply Hne.
    apply (zblk_inj nr sp dsk z' (zat dsk r n) 0 0 Hla); lia. }
  assert (Hself : ∀ k, 0 ≤ k < ind_max sp → entry dsk' (zat dsk r n) k = if decide (k = j) then z else entry dsk (zat dsk r n) k).
  { intros k Hk. unfold entry. rewrite (proj2 (Z.eqb_neq _ _) Hz1). unfold dsk', cset. rewrite decide_True by done. apply ind_set_get; try done. by eapply zone_val_fits. }
  assert (Hat : ∀ m, node_ok m → zat dsk' r m = zat dsk r m).
  { intros [| |i] Hm; [done|done|]. cbn [zat]. destruct (decide (double_zone r = NO_ZONE)) as [E|E]; [by rewrite E|]. apply Hother. intros E'. apply Hnd. symmetry. apply (H4 Double n I Hn E' E). }
  assert (Hq : ∀ q, place_ok q → at_place dsk' r q = if decide (q = (Some n, j)) then z else at_place dsk r q).
  { intros [[m|] k]; [|intros _; by rewrite decide_False]. intros (Hm & Hmd & Hk). cbn [at_place]. rewrite Hat by done. destruct (decide (m = n)) as [->|Hne].
    - rewrite Hself by done. repeat case_decide; congruence.
    - rewrite decide_False by congruence. destruct (decide (zat dsk r m = NO_ZONE)) as [E|E]; [by rewrite E|]. apply Hother. intros E'. apply Hne. by apply H4. }
  split; [|split; [exact Hat|exact Hq]]. split; [done|..].
  - intros m Hm. rewrite Hat by done. by apply H2.
  - intros m Hm. rewrite Hat by done. by apply H3.
  - intros m m' Hm Hm'. rewrite !Hat by done. by apply H4.
  - intros q Hp. rewrite Hq by done. case_decide; [done|by apply H5].
Qed.

(** Storing a zone number of the inode. *)
Lemma izone_set r k z k' : 0 ≤ k < V2_NR_TZONES → 0 ≤ k' → length (i_zone r) = Z.to_nat V2_NR_TZONES →
  izone (r <| i_zone ::= <[Z.to_nat k := z]> |>) k' = if decide (k' = k) then z else izone r k'.
Proof.
  intros Hk Hk' Hl. unfold izone. change (i_zone (r <| i_zone ::= <[Z.to_nat k := z]> |>)) with (<[Z.to_nat k := z]> (i_zone r)). unfold V2_NR_TZONES in *.
  case_decide as E; [subst; by rewrite list_lookup_insert_eq by lia|by rewrite list_lookup_insert_ne by lia].
Qed.

Lemma tree_direct dsk r free k z : tree_ok dsk r free → 0 ≤ k < V1_NR_DZONES → zone_val sp z →
  let r' := r <| i_zone ::= <[Z.to_nat k := z]> |> in
  tree_ok dsk r' free ∧ (∀ m, zat dsk r' m = zat dsk r m) ∧ ∀ q, place_ok q → at_place dsk r' q = if decide (q = (None, k)) then z else at_place dsk r q.
Proof.
  intros [H1 H2 H3 H4 H5] Hk Hz r'. unfold V1_NR_DZONES in Hk.
  assert (Hi : ∀ k', 0 ≤ k' → izone r' k' = if decide (k' = k) then z else izone r k') by (intros; apply izone_set; unfold V2_NR_TZONES; done || lia).
  assert (Hat : ∀ m, zat dsk r' m = zat dsk r m).
  { intros m. destruct m; cbn [zat]; unfold single_zone, double_zone, V1_NR_DZONES; rewrite Hi, decide_False by lia; done. }
  assert (Hq : ∀ q, place_ok q → at_place dsk r' q = if decide (q = (None, k)) then z else at_place dsk r q).
  { intros [[m|] j]; cbn [at_place]; [by rewrite Hat, decide_False|]. intros Hj. cbn in Hj. rewrite Hi by lia. repeat case_decide; congruence. }
  split; [|split; [exact Hat|exact Hq]]. split; [by rewrite <- H1; apply length_insert|..].
  - intros m Hm. rewrite Hat by done. by apply H2.
  - intros m Hm. rewrite Hat by done. by apply H3.
  - intros m m' Hm Hm'. rewrite !Hat by done. by apply H4.
  - intros q Hp. rewrite Hq by done. case_decide; [done|by apply H5].
Qed.
End tree.

Section graft.
Context {D : Driver} {RD : Reliable D}.
Context (nr : Z) (sp : super_block).
Implicit Types dsk : Z → Z → block_data.
Implicit Types r : inode.

Lemma entry_zeros dsk z j : entry sp (cset dsk (s_dev sp) (zblk sp z) zeros) z j = NO_ZONE.
Proof. unfold entry. destruct (_ =? _); [done|]. unfold cset. rewrite decide_True by done. apply ind_zeros. Qed.

Lemma entry_cset_ne dsk z z' v j : layout nr sp dsk → z' ≠ z → entry sp (cset dsk (s_dev sp) (zblk sp z) v) z' j = entry sp dsk z' j.
Proof.
  intros Hla Hne. assert (Hpow : 0 < 2 ^ s_log_zone_size sp) by (apply Z.pow_pos_nonneg; pose proof (la_scale _ _ _ Hla); lia).
  unfold entry. destruct (z' =? NO_ZONE); [done|]. unfold cset. rewrite decide_False; [done|]. intros [_ E]. apply Hne. apply (zblk_inj nr sp dsk z' z 0 0 Hla); lia.
Qed.

(** The zone named by the inode: the single (7) or the double (8) indirect one. *)
Lemma graft_inode dsk r free k z : tree_ok sp dsk r free → layout nr sp dsk → z ∈ free → data_zone sp z → z ≠ NO_ZONE →
  k = V1_NR_DZONES ∨ k = V1_NR_DZONES + 1 → izone r k = NO_ZONE →
  let r' := r <| i_zone ::= <[Z.to_nat k := z]> |> in
  let dsk' := cset dsk (s_dev sp) (zblk sp z) zeros in
  tree_ok sp dsk' r' (free ∖ {[z]}) ∧ nodes_from sp dsk r free dsk' r' ∧ ∀ q, place_ok sp q → at_place sp dsk' r' q = at_place sp dsk r q.
Proof.
  intros Ht Hla Hz Hdz Hz0 Hk Hk0 r' dsk'. set (m := if decide (k = V1_NR_DZONES) then Single else Double). pose proof (t_len _ _ _ _ Ht) as Hl.
  assert (Hi : ∀ k', 0 ≤ k' → izone r' k' = if decide (k' = k) then z else izone r k') by (intros; apply izone_set; unfold V1_NR_DZONES, V2_NR_TZONES in *; done || lia).
  assert (Hne : ∀ n, node_ok sp n → zat sp dsk r n ≠ z) by (intros n Hn E; apply (t_used _ _ _ _ Ht n Hn); by rewrite E).
  assert (Hm : zat sp dsk r m = NO_ZONE) by (unfold m; destruct Hk as [-> | ->]; [rewrite decide_True by done|rewrite decide_False by (unfold V1_NR_DZONES; lia)]; done).
  eapply (tree_graft sp dsk r free dsk' r' z m); try done.
  - unfold m. by case_decide.
  - unfold r'. apply length_insert.
  - intros k' Hk'. rewrite Hi, decide_False by (unfold V1_NR_DZONES in *; lia). done.
  - intros n Hn. assert (E7 : single_zone r' = if decide (V1_NR_DZONES = k) then z else single_zone r) by (apply Hi; done). 
    assert (E8 : double_zone r' = if decide (V1_NR_DZONES + 1 = k) then z else double_zone r) by (apply Hi; done). unfold m, V1_NR_DZONES in *.
    destruct n as [| |j]; cbn [zat].
    + rewrite E7. destruct Hk; subst k; repeat case_decide; simplify_eq; try done; lia.
    + rewrite E8. destruct Hk; subst k; repeat case_decide; simplify_eq; try done; lia.
    + rewrite (decide_False (P := Under j = _)) by (by destruct (decide (k = 7))). rewrite E8. case_decide as E.
      * unfold dsk'. rewrite entry_zeros. change (double_zone r) with (izone r (7 + 1)). rewrite E, Hk0. done.
      * apply entry_cset_ne; [done|]. apply (Hne Double I).
  - intros n j Hn _ _. apply entry_cset_ne; [done|by apply Hne].
  - intros j _. apply entry_zeros.
Qed.

(** The zone named by the double indirect block. *)
Lemma graft_under dsk r free i z : tree_ok sp dsk r free → layout nr sp dsk → z ∈ free → data_zone sp z → z ≠ NO_ZONE → 0 ≤ i < ind_max sp →
  double_zone r ≠ NO_ZONE → zat sp dsk r (Under i) = NO_ZONE →
  let b := zblk sp (double_zone r) in
  let dsk1 := cset dsk (s_dev sp) b (ind_set sp (dsk (s_dev sp) b) i z) in
  let dsk' := cset dsk1 (s_dev sp) (zblk sp z) zeros in
  tree_ok sp dsk' r (free ∖ {[z]}) ∧ nodes_from sp dsk r free dsk' r ∧ ∀ q, place_ok sp q → at_place sp dsk' r q = at_place sp dsk r q.
Proof.
  intros Ht Hla Hz Hdz Hz0 Hi Hd Hi0 b dsk1 dsk'. assert (Hne : ∀ n, node_ok sp n → zat sp dsk r n ≠ z) by (intros n Hn E; apply (t_used _ _ _ _ Ht n Hn); by rewrite E).
  destruct (t_val _ _ _ _ Ht Double I) as [?|Hdd]; [done|]. cbn [zat] in Hdd. destruct (zblk_u32 _ _ _ _ Hla Hdd) as (_ & _ & Hwf).
  assert (Hla1 : layout nr sp dsk1) by (apply layout_cset; [done|by apply ind_set_wf]).
  eapply (tree_graft sp dsk r free dsk' r z (Under i)); try done.
  - intros [| |j] Hn; cbn [zat]; [by rewrite decide_False|by rewrite decide_False|]. unfold dsk'. rewrite entry_cset_ne by (done || apply (Hne Double I)).
    unfold entry at 1. rewrite (proj2 (Z.eqb_neq _ _) Hd). unfold dsk1, cset. rewrite decide_True by done. fold b. rewrite ind_set_get by (done || by apply (la_fits _ _ _ Hla)).
    unfold entry. rewrite (proj2 (Z.eqb_neq _ _) Hd). repeat case_decide; simplify_eq; done.
  - intros n j Hn Hnd Hj. unfold dsk'. rewrite entry_cset_ne by (done || by apply Hne). destruct (decide (zat sp dsk r n = NO_ZONE)) as [E|E]; [by rewrite E|].
    apply entry_cset_ne; [done|]. intros E'. apply Hnd. by apply (t_inj _ _ _ _ Ht).
  - intros j _. apply entry_zeros.
Qed.

(** Storing "no zone" where there was none changes nothing. *)
Lemma same_entries_none dsk z j : layout nr sp dsk → data_zone sp z → 0 ≤ j < ind_max sp → ind sp (dsk (s_dev sp) (zblk sp z)) j = NO_ZONE →
  same_entries sp dsk (cset dsk (s_dev sp) (zblk sp z) (ind_set sp (dsk (s_dev sp) (zblk sp z)) j NO_ZONE)).
Proof.
  intros Hla Hz Hj H0 z' k Hz' Hk. destruct (zblk_u32 _ _ _ _ Hla Hz) as (_ & _ & Hwf). unfold cset. case_decide as E; [|done]. destruct E as [_ E].
  rewrite ind_set_get by (done || (eapply zone_val_fits; [done|by left])). case_decide; [subst; congruence|]. by rewrite E.
Qed.

Lemma same_entries_map dsk dsk' : layout nr sp dsk → (∀ d blk, ¬ (d = s_dev sp ∧ map_start sp ZMAP ≤ blk < map_start sp ZMAP + map_blocks sp ZMAP) → dsk' d blk = dsk d blk) →
  same_entries sp dsk dsk' ∧ layout nr sp dsk'.
Proof.
  intros Hla H. split.
  - intros z j Hz Hj. rewrite H; [done|]. intros [_ Hin]. apply (zblk_not_map nr sp dsk z 0 Hla Hz); [lia|]. by rewrite Z.add_0_r.
  - eapply layout_disk; [done|]. intros z k Hz Hk. rewrite H; [by apply (la_wf _ _ _ Hla)|]. intros [_ Hin]. by apply (zblk_not_map nr sp dsk z k Hla Hz); [lia|].
Qed.
End graft.

(** ** Reading and storing entries *)
Section entries.
Context {D : Driver} {RD : Reliable D}.
Implicit Types f : fstate.
Context (nr dev : Z).

(** The zone map stays when other blocks change. *)
Lemma zone_inv_cache f i sp a free c a' : zone_inv nr dev f i sp a free → repr nr c a' → roomy a' →
  (∀ blk, map_start sp ZMAP ≤ blk < map_start sp ZMAP + map_blocks sp ZMAP → a_disk a' dev blk = a_disk a dev blk) →
  zone_inv nr dev (f <| fs_cache := c |>) i sp a' free.
Proof.
  intros H HR Hro Hd. pose proof (zi_dev _ _ _ _ _ _ _ H) as Edev. pose proof (zone_bits _ _ _ _ _ _ _ H) as Ebits. pose proof (zi_range _ _ _ _ _ _ _ H) as Hrange.
  assert (Hbit : ∀ n, 0 ≤ n < map_size sp ZMAP → bit_at sp ZMAP a' n = bit_at sp ZMAP a n).
  { intros n Hn. unfold bit_at. rewrite Edev, Hd; [done|]. pose proof (mo_bits _ _ _ _ (zi_map _ _ _ _ _ _ _ H)). destruct (block_div n (map_blocks sp ZMAP)) as [? _]; lia. }
  pose proof (mo_bits _ _ _ _ (zi_map _ _ _ _ _ _ _ H)) as Hmb.
  split; [apply H|done|apply H|apply H|done|done| |apply H| |done| |].
  - destruct (zi_map _ _ _ _ _ _ _ H) as [H1 H2 H3 H4 H5]. split; try done. intros k Hk. rewrite Edev, Hd by lia. rewrite <- Edev. by apply H2.
  - rewrite Hbit by lia. apply H.
  - intros z. rewrite (zi_free _ _ _ _ _ _ _ H z). split; intros [Hz Hb]; (split; [done|]); rewrite Hbit in * by lia; done.
  - destruct (zi_search _ _ _ _ _ _ _ H) as [H1 H2]. split; [done|]. intros n Hn Hlt. rewrite Hbit by lia. by apply H2.
Qed.

(** There are buffers for two more blocks. *)
Definition spare (a : acache) : Prop :=
  Z.of_nat (size (a_pins a)) + 1 < NR_BUFS ∧ ∀ p d b n, a_pins a !! p = Some (d, b, n) → n < 126.

Lemma spare_roomy a : spare a → roomy a.
Proof. intros [H1 H2]. split; [lia|]. intros p d b n Hp. specialize (H2 _ _ _ _ Hp). lia. Qed.

Lemma spare_pin a dsk d b p n : spare a → n = 0 ∧ a_pins a !! p = None ∨ 0 < n ∧ a_pins a !! p = Some (d, b, n) → roomy (mk_acache dsk (<[p := (d, b, n + 1)]> (a_pins a))).
Proof.
  intros [H1 H2] Hn. split; cbn.
  - rewrite map_size_insert. destruct (a_pins a !! p); unfold id; lia.
  - intros p' d' b' n'. rewrite lookup_insert. case_decide; [intros [= _ _ <-]; destruct Hn as [[-> _]|[_ Hp]]; [lia|specialize (H2 _ _ _ _ Hp); lia]|]. intros Hp. specialize (H2 _ _ _ _ Hp). lia.
Qed.

Section at_device.
Context (fs : fstate) (i : Z) (sp : super_block) (a : acache) (free : gset Z) (Hzi : zone_inv nr dev fs i sp a free) (Hla : layout nr sp (a_disk a)).

Lemma rd_indir_spec (p b n j : Z) : a_pins a !! p = Some (dev, b, n) → wf_block (a_disk a dev b) → 0 ≤ j < ind_max sp → zone_val sp (ind sp (a_disk a dev b) j) →
  rd_indir p j fs = Ok fs (ind sp (a_disk a dev b) j).
Proof.
  intros Hp Hwf Hj Hval. destruct (get_super_spec nr dev fs i sp a free Hzi) as [Hgs Hld]. destruct (pin_data nr _ _ _ _ _ _ (zi_repr _ _ _ _ _ _ _ Hzi) Hp) as (x & Hx & Ed & Edat).
  destruct (ind_get_some sp _ j Hwf Hj) as [Hg _]. set (v := ind sp (a_disk a dev b) j) in *.
  unfold rd_indir. rewrite (bind_ok _ _ _ _ _ (in_cache_ok _ _ _ _ (ld_buf_ok _ _ _ Hx))). replace (fs <| fs_cache := fs_cache fs |>) with fs by (by destruct fs).
  rewrite Ed, (bind_ok _ _ _ _ _ Hgs), (bind_ok _ _ _ _ _ Hld), Edat. rewrite (bind_ok _ _ fs fs v).
  - destruct (_ && _) eqn:E; [|done]. exfalso. apply andb_true_iff in E as [E1 E2]. destruct Hval as [E0|[Hz1 Hz2]]; [by rewrite E0 in E1|].
    apply orb_true_iff in E2 as [E2|E2]; [apply Z.ltb_lt in E2; lia|]. rewrite Z.geb_leb in E2. apply Z.leb_le in E2. lia.
  - unfold ind_get in Hg. destruct (_ =? V1); [destruct (get16 _ _) as [c|]|destruct (get32 _ _) as [c|]]; cbn in Hg; try done; injection Hg as Hg; rewrite <- Hg; done.
Qed.

Lemma wr_indir_spec (p b n j z : Z) : a_pins a !! p = Some (dev, b, n) → wf_block (a_disk a dev b) → 0 ≤ j < ind_max sp →
  ∃ f1 (c : cache), wr_indir p j z fs = Ok f1 () ∧ in_cache (st_buf p (λ x, x <| b_dirt := DIRTY |>)) f1 = Ok (fs <| fs_cache := c |>) () ∧
    repr nr c (mk_acache (cset (a_disk a) dev b (ind_set sp (a_disk a dev b) j z)) (a_pins a)).
Proof.
  intros Hp Hwf Hj. destruct (get_super_spec nr dev fs i sp a free Hzi) as [Hgs Hld]. destruct (pin_data nr _ _ _ _ _ _ (zi_repr _ _ _ _ _ _ _ Hzi) Hp) as (x & Hx & Ed & Edat).
  destruct (ind_get_some sp _ j Hwf Hj) as [Hg _]. set (g d := ind_set sp d j z). destruct (use_store nr _ _ _ _ _ _ g (zi_repr _ _ _ _ _ _ _ Hzi) Hp) as (s1 & s2 & Hr1 & Hr2 & HR).
  exists (fs <| fs_cache := s1 |>), s2. split; [|split; [|exact HR]].
  - unfold wr_indir. rewrite (bind_ok _ _ _ _ _ (in_cache_ok _ _ _ _ (ld_buf_ok _ _ _ Hx))). replace (fs <| fs_cache := fs_cache fs |>) with fs by (by destruct fs).
    rewrite Ed, (bind_ok _ _ _ _ _ Hgs), (bind_ok _ _ _ _ _ Hld), Edat. unfold ind_get in Hg. unfold g, ind_set in Hr1. 
    destruct (_ =? V1); [destruct (get16 _ _) as [c|]|destruct (get32 _ _) as [c|]]; cbn in Hg; try done; cbn [deref]; rewrite ret_bind; by apply in_cache_ok.
  - erewrite in_cache_ok; [|exact Hr2]. by destruct fs.
Qed.

End at_device.

Section reading.
Context (fs : fstate) (i : Z) (sp : super_block) (a : acache) (free : gset Z) (Hzi : zone_inv nr dev fs i sp a free) (Hla : layout nr sp (a_disk a)).

(** The block [boff] of a zone. *)
Definition block_of (z boff : Z) : Z := if z =? NO_ZONE then NO_BLOCK else u32 (zblk sp z + boff).

Context (Hspare : spare a).

(** An indirect block, in use once more. *)
Lemma get_indirect z : data_zone sp z →
  ∃ (c : cache) p n, get_block dev (u32 (zblk sp z)) NORMAL (fs_cache fs) = Ok c p ∧ (n = 0 ∧ a_pins a !! p = None ∨ 0 < n ∧ a_pins a !! p = Some (dev, zblk sp z, n)) ∧
    zone_inv nr dev (fs <| fs_cache := c |>) i sp (mk_acache (a_disk a) (<[p := (dev, zblk sp z, n + 1)]> (a_pins a))) free.
Proof.
  intros Hz. pose proof (zi_dev _ _ _ _ _ _ _ Hzi) as Edev. destruct (zblk_u32 _ _ _ _ Hla Hz) as (Eu & Hv & _). rewrite Edev in Hv. rewrite Eu.
  destruct (use_get nr (fs_cache fs) a dev (zblk sp z) (zi_repr _ _ _ _ _ _ _ Hzi) Hv (spare_roomy _ Hspare)) as (c & p & n & x & Hr & _ & _ & Hpk & HR).
  pose proof (pick_cases _ _ _ _ _ _ _ (zi_repr _ _ _ _ _ _ _ Hzi) Hpk) as Hc. exists c, p, n. split; [done|]. split; [done|].
  eapply zone_inv_cache; [done|done|by apply (spare_pin a _ dev (zblk sp z))|done].
Qed.

Lemma read_single_spec (ip : inode) z j boff : i_dev ip = dev → zone_val sp z → 0 ≤ j < ind_max sp → zone_val sp (entry sp (a_disk a) z j) →
  ∃ c : cache, read_single ip (s_log_zone_size sp) z j boff fs = Ok (fs <| fs_cache := c |>) (block_of (entry sp (a_disk a) z j) boff) ∧ repr nr c a.
Proof.
  intros Ei Hz Hj He. pose proof (zi_dev _ _ _ _ _ _ _ Hzi) as Edev. unfold read_single, entry in *. rewrite Ei. fold (zblk sp z). destruct (Z.eqb_spec z NO_ZONE) as [->|Hz0].
  { exists (fs_cache fs). split; [by destruct fs|apply Hzi]. }
  destruct Hz as [?|Hz]; [done|]. destruct (get_indirect z Hz) as (c & p & n & Hr & Hc & Hi). destruct (zblk_u32 _ _ _ _ Hla Hz) as (_ & _ & Hwf).
  rewrite (bind_ok _ _ _ _ _ (in_cache_ok _ _ _ _ Hr)). rewrite Edev in *.
  rewrite (bind_ok _ _ _ _ _ (rd_indir_spec _ _ _ _ _ Hi p (zblk sp z) (n + 1) j (lookup_insert_eq _ _ _) Hwf Hj He)).
  destruct (use_put nr c _ (a_pins a) p dev (zblk sp z) n INDIRECT_BLOCK (zi_repr _ _ _ _ _ _ _ Hi) eq_refl Hc) as (c2 & Hr2 & HR2).
  exists c2. cbn [a_disk] in *. split; [|by destruct a]. erewrite bind_ok; [|apply in_cache_ok; exact Hr2]. unfold block_of, zblk. by destruct (_ =? NO_ZONE).
Qed.
End reading.
End entries.

(** ** Files *)
Section file.
Context {D : Driver} {RD : Reliable D}.
Context (nr dev rip : Z).
Implicit Types st : istate.
Implicit Types fs : fstate.

Definition with_cache st (c : cache) : istate := st <| fsys ::= λ g, g <| fs_cache := c |> |>.

Lemma in_fs_ok {A} (m : M fstate A) st fs v : m (fsys st) = Ok fs v → in_fs m st = Ok (st <| fsys := fs |>) v.
Proof. intros E. unfold in_fs. by rewrite (zoom_ok _ _ _ _ _ _ E). Qed.
Lemma in_buf_ok {A} (m : M cache A) st c v : m (fs_cache (fsys st)) = Ok c v → in_buf m st = Ok (with_cache st c) v.
Proof. intros E. unfold in_buf. by rewrite (in_fs_ok _ _ _ _ (in_cache_ok _ _ _ _ E)). Qed.
Lemma ld_inode_ok st p ip : inodes st !! p = Some ip → ld_inode p st = Ok st ip.
Proof. intros E. unfold ld_inode. rewrite (bind_ok _ _ _ _ _ (gets_ok _ _)). by apply deref_ok. Qed.
Lemma st_inode_ok st p ip g : inodes st !! p = Some ip → st_inode p g st = Ok (st <| inodes ::= <[p := g ip]> |>) ().
Proof. intros E. unfold st_inode. by rewrite (bind_ok _ _ _ _ _ (ld_inode_ok _ _ _ E)). Qed.

(** The inode in slot [rip] and its device. *)
Record file_base st (ip : inode) (i : Z) (sp : super_block) (a : acache) (free : gset Z) : Prop := {
  fi_inode : inodes st !! rip = Some ip;
  fi_zi : zone_inv nr dev (fsys st) i sp a free;
  fi_la : layout nr sp (a_disk a);
  fi_spare : spare a;
  fi_dev : i_dev ip = dev;
  fi_sp : i_sp ip = Some i;
  fi_nd : i_ndzones ip = V1_NR_DZONES;
  fi_ni : i_nindirs ip = ind_max sp;
}.

(** The file of the inode: its zones are those of its device. *)
Record file_inv st (ip : inode) (i : Z) (sp : super_block) (a : acache) (free : gset Z) : Prop := {
  fi_base :> file_base st ip i sp a free;
  fi_tree : tree_ok sp (a_disk a) ip free;
}.

Definition zone_index (sp : super_block) (pos : Z) : Z := Z.shiftr (pos / BLOCK_SIZE) (s_log_zone_size sp).
Definition zone_off (sp : super_block) (pos : Z) : Z := pos / BLOCK_SIZE - Z.shiftl (zone_index sp pos) (s_log_zone_size sp).

(** The block of a position by the map of the file. *)
Definition file_block (sp : super_block) (a : acache) (ip : inode) (pos : Z) : Z :=
  block_of sp (file_zone sp (a_disk a) ip (zone_index sp pos)) (zone_off sp pos).

Lemma zone_index_nonneg sp pos : 0 ≤ pos → 0 ≤ zone_index sp pos.
Proof. intros Hp. apply Z.shiftr_nonneg, Z.div_pos; done. Qed.

Lemma ld_zone_ok st ip k : length (i_zone ip) = Z.to_nat V2_NR_TZONES → 0 ≤ k < V2_NR_TZONES → ld_zone ip k st = Ok st (izone ip k).
Proof.
  intros Hl Hk. unfold ld_zone, izone. rewrite (proj2 (Z.ltb_ge _ _)) by lia. destruct (lookup_lt_is_Some_2 (i_zone ip) (Z.to_nat k)) as [z Hz]; [lia|]. by rewrite Hz.
Qed.

Lemma inode_super_ok st ip i sp a free : file_base st ip i sp a free → inode_super ip st = Ok st sp.
Proof.
  intros Hf. unfold inode_super. rewrite (fi_sp _ _ _ _ _ _ Hf). cbn [notnull]. rewrite ret_bind. destruct (get_super_spec nr dev _ _ _ _ _ (fi_zi _ _ _ _ _ _ Hf)) as [_ Hld].
  rewrite (in_fs_ok _ _ _ _ Hld). by destruct st.
Qed.

(** Reading leaves the file as it is. *)
Lemma file_inv_cache st ip i sp a free c : file_inv st ip i sp a free → repr nr c a → file_inv (with_cache st c) ip i sp a free.
Proof.
  intros [[H1 H2 H3 H4 H5 H6 H7 H8] H9] HR. split; [|done]. split; try done. apply (zone_inv_cache nr dev (fsys st) i sp a free c a H2 HR); [apply H2|done].
Qed.

Lemma read_map_spec st ip i sp a free pos : file_inv st ip i sp a free → 0 ≤ pos → zone_index sp pos < max_zones sp →
  ∃ c, read_map rip pos st = Ok (with_cache st c) (file_block sp a ip pos) ∧ repr nr c a.
Proof.
  intros Hf Hp Hm. pose proof (zone_index_nonneg sp pos Hp) as Hn. pose proof (fi_tree _ _ _ _ _ _ Hf) as Ht. pose proof (t_len _ _ _ _ Ht) as Hl. pose proof (fi_zi _ _ _ _ _ _ Hf) as Hz.
  pose proof (ind_max_pos sp) as Hmax. assert (Hrefl : with_cache st (fs_cache (fsys st)) = st) by (by destruct st as [[] ? ? ? ?]).
  pose proof (place_is_ok sp _ (conj Hn Hm)) as Hpl. pose proof (t_leaf _ _ _ _ Ht _ Hpl) as Hleaf.
  unfold read_map. rewrite (bind_ok _ _ _ _ _ (ld_inode_ok _ _ _ (fi_inode _ _ _ _ _ _ Hf))), (bind_ok _ _ _ _ _ (inode_super_ok _ _ _ _ _ _ Hf)).
  cbv zeta. rewrite (fi_nd _ _ _ _ _ _ Hf), (fi_ni _ _ _ _ _ _ Hf). fold (zone_index sp pos). fold (zone_off sp pos). unfold file_block, file_zone. set (n := zone_index sp pos) in *. unfold place in *.
  destruct (Z.ltb_spec n V1_NR_DZONES) as [Hlt|Hge].
  { erewrite bind_ok; [|apply ld_zone_ok; [done|unfold V1_NR_DZONES, V2_NR_TZONES in *; lia]]. exists (fs_cache (fsys st)). rewrite Hrefl. split; [|apply Hz].
    cbn [at_place]. unfold block_of, zblk. by destruct (_ =? _). }
  destruct (Z.ltb_spec (n - V1_NR_DZONES) (ind_max sp)) as [Hlt|Hge2].
  { erewrite bind_ok; [|apply ld_zone_ok; done]. fold (single_zone ip). destruct Hpl as (_ & _ & Hj).
    destruct (read_single_spec nr dev (fsys st) i sp a free Hz (fi_la _ _ _ _ _ _ Hf) (fi_spare _ _ _ _ _ _ Hf) ip (single_zone ip) (n - V1_NR_DZONES) (zone_off sp pos)
      (fi_dev _ _ _ _ _ _ Hf) (t_val _ _ _ _ Ht Single I) Hj Hleaf) as (c & Hr & HR).
    exists c. rewrite (in_fs_ok _ _ _ _ Hr). split; [by destruct st|done]. }
  erewrite bind_ok; [|apply ld_zone_ok; done]. fold (double_zone ip). set (e := n - V1_NR_DZONES - ind_max sp) in *. cbn [at_place] in *. destruct Hpl as ((Hu & _) & _ & Hj). 
  destruct (Z.eqb_spec (double_zone ip) NO_ZONE) as [E0|Hd0].
  { exists (fs_cache (fsys st)). rewrite Hrefl. split; [|apply Hz]. cbn [zat]. rewrite E0. done. }
  destruct (t_val _ _ _ _ Ht Double I) as [?|Hdd]; [done|]. cbn [zat] in Hdd. rewrite (fi_dev _ _ _ _ _ _ Hf). fold (zblk sp (double_zone ip)).
  destruct (get_indirect nr dev (fsys st) i sp a free Hz (fi_la _ _ _ _ _ _ Hf) (fi_spare _ _ _ _ _ _ Hf) _ Hdd) as (c & p & k & Hr & Hc & Hi).
  destruct (zblk_u32 _ _ _ _ (fi_la _ _ _ _ _ _ Hf) Hdd) as (_ & _ & Hwf). pose proof (zi_dev _ _ _ _ _ _ _ Hz) as Edev. rewrite Edev in Hwf.
  rewrite (bind_ok _ _ _ _ _ (in_buf_ok _ _ _ _ Hr)), (proj2 (Z.eqb_neq (ind_max sp) 0)), ret_bind by lia.
  assert (Hui : node_ok sp (Under (e / ind_max sp))) by (split; [done|apply Z.div_lt_upper_bound; [lia|]; unfold max_zones, e in *; lia]).
  pose proof (t_val _ _ _ _ Ht _ Hui) as Huv. unfold zat, entry in Huv. rewrite (proj2 (Z.eqb_neq _ _) Hd0), Edev in Huv.
  pose proof (rd_indir_spec nr dev _ _ _ _ _ Hi p (zblk sp (double_zone ip)) (k + 1) (e / ind_max sp) (lookup_insert_eq _ _ _) Hwf Hui Huv) as Hrd.
  erewrite bind_ok; [|apply in_fs_ok; exact Hrd].
  destruct (use_put nr c _ (a_pins a) p dev (zblk sp (double_zone ip)) k INDIRECT_BLOCK (zi_repr _ _ _ _ _ _ _ Hi) eq_refl Hc) as (c2 & Hr2 & HR2). cbn [a_disk] in *.
  assert (HRa : repr nr c2 a) by (by destruct a).
  erewrite bind_ok; [|apply in_buf_ok; exact Hr2]. pose proof (file_inv_cache _ _ _ _ _ _ c2 Hf HRa) as Hf2.
  destruct (read_single_spec nr dev _ i sp a free (fi_zi _ _ _ _ _ _ Hf2) (fi_la _ _ _ _ _ _ Hf) (fi_spare _ _ _ _ _ _ Hf) ip (zat sp (a_disk a) ip (Under (e / ind_max sp))) (e mod ind_max sp) (zone_off sp pos)
      (fi_dev _ _ _ _ _ _ Hf) (t_val _ _ _ _ Ht _ Hui) Hj Hleaf) as (c3 & Hr3 & HR3).
  assert (Ez : zat sp (a_disk a) ip (Under (e / ind_max sp)) = ind sp (a_disk a dev (zblk sp (double_zone ip))) (e / ind_max sp))
    by (unfold zat, entry; by rewrite (proj2 (Z.eqb_neq _ _) Hd0), Edev).
  exists c3. split; [|done]. rewrite Ez in *. erewrite in_fs_ok; [|exact Hr3]. done.
Qed.
End file.

(** ** Storing into indirect blocks *)
Section storing.
Context {D : Driver} {RD : Reliable D}.
Context (nr dev : Z).
Context (fs : fstate) (i : Z) (sp : super_block) (a : acache) (free : gset Z).
Context (Hzi : zone_inv nr dev fs i sp a free) (Hla : layout nr sp (a_disk a)) (Hspare : spare a).

(** What the block of an indirect zone holds before an entry is stored: zeros in
    a new one. *)
Definition init_disk (new : bool) (z : Z) : Z → Z → block_data :=
  if new then cset (a_disk a) (s_dev sp) (zblk sp z) zeros else a_disk a.

Lemma init_layout new z : layout nr sp (init_disk new z).
Proof. unfold init_disk. destruct new; [apply layout_cset; [done|apply zeros_wf]|done]. Qed.

Lemma get_for_write z (new : bool) : data_zone sp z →
  ∃ c1 c2 p n, get_block dev (u32 (zblk sp z)) (if new then NO_READ else NORMAL) (fs_cache fs) = Ok c1 p ∧
    (if new then zero_block p else mret ()) c1 = Ok c2 () ∧ (n = 0 ∧ a_pins a !! p = None ∨ 0 < n ∧ a_pins a !! p = Some (dev, zblk sp z, n)) ∧
    zone_inv nr dev (fs <| fs_cache := c2 |>) i sp (mk_acache (init_disk new z) (<[p := (dev, zblk sp z, n + 1)]> (a_pins a))) free.
Proof.
  intros Hz. destruct new; cbn [init_disk].
  - pose proof (zi_dev _ _ _ _ _ _ _ Hzi) as Edev. destruct (zblk_u32 _ _ _ _ Hla Hz) as (Eu & Hv & _). rewrite Edev in *. rewrite Eu.
    destruct (use_fresh nr (fs_cache fs) a dev (zblk sp z) (zi_repr _ _ _ _ _ _ _ Hzi) Hv (spare_roomy _ Hspare)) as (c1 & c2 & p & n & Hr1 & Hr2 & Hpk & HR).
    pose proof (pick_cases _ _ _ _ _ _ _ (zi_repr _ _ _ _ _ _ _ Hzi) Hpk) as Hc. exists c1, c2, p, n. split; [done|]. split; [done|]. split; [done|].
    eapply zone_inv_cache; [done|done|by apply (spare_pin a _ dev (zblk sp z))|]. intros blk Hb. cbn. unfold cset. rewrite decide_False; [done|]. intros [_ ->].
    apply (zblk_not_map nr sp _ z 0 Hla Hz); [lia|]. by rewrite Z.add_0_r.
  - destruct (get_indirect nr dev fs i sp a free Hzi Hla Hspare z Hz) as (c & p & n & Hr & Hc & Hi). exists c, c, p, n. done.
Qed.

Lemma write_single_spec z1 j z new : data_zone sp z1 → 0 ≤ j < ind_max sp →
  let dsk := init_disk new z1 in
  ∃ c : cache, write_single dev (s_log_zone_size sp) z1 j z new fs = Ok (fs <| fs_cache := c |>) () ∧
    repr nr c (mk_acache (cset dsk (s_dev sp) (zblk sp z1) (ind_set sp (dsk (s_dev sp) (zblk sp z1)) j z)) (a_pins a)).
Proof.
  intros Hz1 Hj dsk. pose proof (zi_dev _ _ _ _ _ _ _ Hzi) as Edev. destruct (get_for_write z1 new Hz1) as (c1 & c2 & p & n & Hr1 & Hr2 & Hc & Hi). fold dsk in Hi.
  destruct (zblk_u32 _ _ _ _ (init_layout new z1) Hz1) as (_ & _ & Hwf). fold dsk in Hwf. rewrite Edev in *.
  destruct (wr_indir_spec nr dev _ _ _ _ _ Hi p (zblk sp z1) (n + 1) j z (lookup_insert_eq _ _ _) Hwf Hj) as (f1 & c3 & Hr3 & Hr4 & HR). cbn [a_disk a_pins] in *.
  destruct (use_put nr c3 _ (a_pins a) p dev (zblk sp z1) n INDIRECT_BLOCK HR eq_refl Hc) as (c4 & Hr5 & HR5). cbn [a_disk] in HR5. exists c4. split; [|done].
  unfold write_single. fold (zblk sp z1). rewrite (bind_ok _ _ _ _ _ (in_cache_ok _ _ _ _ Hr1)).
  rewrite (bind_ok _ _ _ (fs <| fs_cache := c2 |>) ()); [|destruct new; [erewrite in_cache_ok; [|exact Hr2]; done|injection Hr2 as ->; done]].
  rewrite (bind_ok _ _ _ _ _ Hr3), (bind_ok _ _ _ _ _ Hr4). erewrite in_cache_ok; [|exact Hr5]. done.
Qed.
End storing.

(** ** Storing a zone number *)
Section growth.
Context {D : Driver} {RD : Reliable D}.

(** The file gets zones that were free, every zone that is not free any more
    holds zone numbers of the file, and no zone in use changes that holds none. *)
Record grows (sp : super_block) (a : acache) (ip : inode) (free : gset Z) (a' : acache) (ip' : inode) (free' : gset Z) : Prop := {
  g_pins : a_pins a' = a_pins a;
  g_inode : ip' = ip <| i_zone := i_zone ip' |> <| i_dirt := i_dirt ip' |>;
  g_free : free' ⊆ free;
  g_nodes : nodes_from sp (a_disk a) ip free (a_disk a') ip';
  g_taken z : z ≠ NO_ZONE → z ∈ free → z ∉ free' → ∃ n, node_ok sp n ∧ zat sp (a_disk a') ip' n = z;
  g_frame z k : data_zone sp z → 0 ≤ k < 2 ^ s_log_zone_size sp → z ∉ free → (∀ n, node_ok sp n → zat sp (a_disk a) ip n ≠ z) →
    a_disk a' (s_dev sp) (zblk sp z + k) = a_disk a (s_dev sp) (zblk sp z + k);
}.

Lemma grows_refl sp a ip free : grows sp a ip free a ip free.
Proof. split; [done|by destruct ip|done|by left|done|done]. Qed.

Lemma grows_dirty sp a ip free d : grows sp a ip free a (ip <| i_dirt := d |>) free.
Proof. split; [done|by destruct ip|done|by left|done|done]. Qed.

Lemma grows_trans sp a ip free a1 ip1 free1 a2 ip2 free2 : grows sp a ip free a1 ip1 free1 → grows sp a1 ip1 free1 a2 ip2 free2 → grows sp a ip free a2 ip2 free2.
Proof.
  intros [A1 A2 A3 A4 A6 A5] [B1 B2 B3 B4 B6 B5]. split.
  - by rewrite B1.
  - rewrite B2, A2. by destruct ip.
  - by transitivity free1.
  - intros n Hn. destruct (B4 n Hn) as [E|[E E']]; [rewrite E; by apply A4|right]. split; [destruct (A4 n Hn) as [?|[? _]]; congruence|set_solver].
  - intros z Hz Hf Hf2. destruct (decide (z ∈ free1)) as [H1|H1]; [by apply B6|]. destruct (A6 z Hz Hf H1) as (n & Hn & E). exists n. split; [done|].
    destruct (B4 n Hn) as [?|[? _]]; congruence.
  - intros z k Hz Hk Hf Hn. rewrite B5, A5; try done; [set_solver|]. intros n Hno E. destruct (A4 n Hno) as [E'|[_ E']]; [apply (Hn n Hno); congruence|set_solver].
Qed.

(** Only the zone map changes. *)
Lemma grows_map nr sp a a' ip free : layout nr sp (a_disk a) → tree_ok sp (a_disk a) ip free → zone_frame sp a a' → grows sp a ip free a' ip free.
Proof.
  intros Hla Ht [Hp Hd]. destruct (same_entries_map nr sp _ _ Hla Hd) as [Hs _]. destruct (tree_ok_ext sp _ _ _ _ _ Ht ltac:(reflexivity) Hs) as (_ & Hz & _).
  split; [done|by destruct ip|done|intros n Hn; left; by apply Hz|done|]. intros z k Hz' Hk _ _. apply Hd. intros [_ Hin]. by apply (zblk_not_map nr sp _ z k Hla Hz'); [lia|].
Qed.

(** The zones taken from the free ones hold zone numbers of the file. *)
Definition taken (sp : super_block) (free free' : gset Z) (dsk' : Z → Z → block_data) (ip' : inode) : Prop :=
  free' ⊆ free ∧ ∀ z, z ≠ NO_ZONE → z ∈ free → z ∉ free' → ∃ n, node_ok sp n ∧ zat sp dsk' ip' n = z.
Lemma taken_none sp free dsk' ip' : taken sp free free dsk' ip'.
Proof. by split. Qed.
Lemma taken_one sp free dsk' ip' x n : node_ok sp n → zat sp dsk' ip' n = x → taken sp free (free ∖ {[x]}) dsk' ip'.
Proof. intros Hn Hx. split; [set_solver|]. intros z _ Hz Hz'. assert (z = x) as -> by (destruct (decide (z = x)); [done|set_solver]). by exists n. Qed.

(** Blocks of indirect zones, or of zones that were free, change. *)
Lemma grows_block nr sp a ip free dsk' ip' free' z0 v : layout nr sp (a_disk a) → ip' = ip <| i_zone := i_zone ip' |> <| i_dirt := i_dirt ip' |> → taken sp free free' dsk' ip' → nodes_from sp (a_disk a) ip free dsk' ip' →
  dsk' = cset (a_disk a) (s_dev sp) (zblk sp z0) v → z0 ∈ free ∨ (∃ n, node_ok sp n ∧ zat sp (a_disk a) ip n = z0) →
  grows sp a ip free (mk_acache dsk' (a_pins a)) ip' free'.
Proof.
  intros Hla Hi [Hf Ht] Hn -> Hz0. split; [done|done|done|done|exact Ht|]. intros z k Hz Hk Hzf Hzn. cbn. unfold cset. rewrite decide_False; [done|]. intros [_ E].
  assert (Hpow : 0 < 2 ^ s_log_zone_size sp) by (apply Z.pow_pos_nonneg; pose proof (la_scale _ _ _ Hla); lia).
  destruct (zblk_inj nr sp _ z z0 k 0 Hla Hk) as [-> _]; [lia|lia|]. destruct Hz0 as [?|(n & Hno & <-)]; [done|]. by apply (Hzn n).
Qed.
End growth.

Section writing.
Context {D : Driver} {RD : Reliable D}.
Context (nr dev rip : Z).
Implicit Types st : istate.

(** The map changes at one place, or nowhere. *)
Definition stored (sp : super_block) (dsk dsk' : Z → Z → block_data) (ip ip' : inode) (q : option node * Z) (z : Z) : Prop :=
  ∀ q', place_ok sp q' → at_place sp dsk' ip' q' = if decide (q' = q) then z else at_place sp dsk ip q'.
Definition kept (sp : super_block) (dsk dsk' : Z → Z → block_data) (ip ip' : inode) : Prop :=
  ∀ q', place_ok sp q' → at_place sp dsk' ip' q' = at_place sp dsk ip q'.

(** None of this depends on where the search for free zones starts. *)
Lemma tree_search sp zs dsk ip free : tree_ok sp dsk ip free → tree_ok (sp <| s_zsearch := zs |>) dsk ip free.
Proof. intros [H1 H2 H3 H4 H5]. split; [exact H1|exact H2|exact H3|exact H4|exact H5]. Qed.
Lemma grows_search sp zs a ip free a' ip' free' : grows (sp <| s_zsearch := zs |>) a ip free a' ip' free' → grows sp a ip free a' ip' free'.
Proof. intros [H1 H2 H3 H4 H5 H6]. split; [exact H1|exact H2|exact H3|exact H4|exact H5|exact H6]. Qed.
Lemma search_id sp : sp <| s_zsearch := s_zsearch sp |> = sp.
Proof. by destruct sp. Qed.

Lemma write_leaf st ip i sp a free nd j z new z1 : file_base nr dev rip st ip i sp a free →
  let dsk0 := init_disk sp a new z1 in
  tree_ok sp dsk0 ip free → node_ok sp nd → nd ≠ Double → zat sp dsk0 ip nd = z1 → z1 ≠ NO_ZONE → 0 ≤ j < ind_max sp → zone_val sp z →
  ∃ c dsk', in_fs (write_single dev (s_log_zone_size sp) z1 j z new) st = Ok (with_cache st c) () ∧
    file_inv nr dev rip (with_cache st c) ip i sp (mk_acache dsk' (a_pins a)) free ∧
    stored sp dsk0 dsk' ip ip (Some nd, j) z ∧ grows sp (mk_acache dsk0 (a_pins a)) ip free (mk_acache dsk' (a_pins a)) ip free.
Proof.
  intros [H1 H2 H3 H4 H5 H6 H7 H8] dsk0 Ht Hn Hnd Hz1 Hz10 Hj Hz. pose proof (init_layout nr sp a H3 new z1) as Hla0. fold dsk0 in Hla0.
  destruct (t_val _ _ _ _ Ht nd Hn) as [?|Hdz]; [congruence|]. rewrite Hz1 in Hdz.
  destruct (write_single_spec nr dev (fsys st) i sp a free H2 H3 H4 z1 j z new Hdz Hj) as (c & Hr & HR). fold dsk0 in HR.
  pose proof (tree_leaf nr sp dsk0 ip free nd j z Ht Hn Hnd) as Hleaf. cbn zeta in Hleaf. rewrite Hz1 in Hleaf. destruct (Hleaf Hz10 Hj Hz Hla0) as (Ht' & Hzat & Hst).
  destruct (zblk_u32 _ _ _ _ Hla0 Hdz) as (_ & _ & Hwf). set (dsk' := cset dsk0 _ _ _) in *. exists c, dsk'. rewrite (in_fs_ok _ _ _ _ Hr). split; [by destruct st|]. split; [split; [|exact Ht']|split; [exact Hst|]].
  - split; try done; [|apply layout_cset; [done|by apply ind_set_wf]]. apply (zone_inv_cache nr dev (fsys st) i sp a free c _ H2 HR); [apply (spare_roomy (mk_acache dsk' (a_pins a))), H4|].
    intros blk Hb. cbn [a_disk]. assert (Hne : blk ≠ zblk sp z1) by (intros ->; apply (zblk_not_map nr sp _ z1 0 Hla0 Hdz); [lia|by rewrite Z.add_0_r]).
    unfold dsk', cset. rewrite decide_False by tauto. unfold dsk0, init_disk. destruct new; [|done]. unfold cset. by rewrite decide_False by tauto.
  - eapply (grows_block nr sp (mk_acache dsk0 (a_pins a)) ip free dsk' ip free z1); [done|by destruct ip|apply taken_none|intros n Hno; left; by apply Hzat|reflexivity|right; by exists nd].
Qed.

Lemma st_zone_ok st ip k z : inodes st !! rip = Some ip → length (i_zone ip) = Z.to_nat V2_NR_TZONES → 0 ≤ k < V2_NR_TZONES →
  st_zone rip k z st = Ok (st <| inodes ::= <[rip := ip <| i_zone ::= <[Z.to_nat k := z]> |>]> |>) ().
Proof. intros Hi Hl Hk. unfold st_zone. rewrite (bind_ok _ _ _ _ _ (ld_inode_ok _ _ _ Hi)). erewrite bind_ok; [|by apply ld_zone_ok]. by apply st_inode_ok. Qed.

(** The inode stays when a zone number is stored that it holds already. *)
Lemma izone_same ip k z : length (i_zone ip) = Z.to_nat V2_NR_TZONES → 0 ≤ k < V2_NR_TZONES → izone ip k = z → ip <| i_zone ::= <[Z.to_nat k := z]> |> = ip.
Proof.
  intros Hl Hk. unfold izone. destruct (lookup_lt_is_Some_2 (i_zone ip) (Z.to_nat k)) as [y Hy]; [lia|]. rewrite Hy. cbn [default from_option id]. intros <-.
  assert (E : <[Z.to_nat k := y]> (i_zone ip) = i_zone ip) by (by apply list_insert_id). destruct ip. unfold upd. cbn in *. by rewrite E.
Qed.

Lemma zone_near sp dsk ip free : layout nr sp dsk → tree_ok sp dsk ip free → 0 ≤ izone ip 0 < 2 ^ 32.
Proof.
  intros Hla Ht. assert (Hv : zone_val sp (izone ip 0)) by (apply (t_leaf _ _ _ _ Ht (None, 0)); done). pose proof (zone_val_fits _ _ _ _ Hla Hv) as Hf. unfold ind_fits in Hf. destruct (_ =? V1); lia.
Qed.
End writing.

Section indirect.
Context {D : Driver} {RD : Reliable D}.
Context (nr dev rip : Z).
Implicit Types st : istate.

(** One zone is taken. *)
Lemma size_take (free : gset Z) x : x ∈ free → size free = S (size (free ∖ {[x]})).
Proof. intros Hx. rewrite (size_difference free {[x]}) by set_solver. rewrite size_singleton. assert (size free ≠ 0%nat) by (apply size_non_empty_iff; set_solver). lia. Qed.

(** What storing zone [z] at place [q] of the map comes to: it is there, at the
    cost of at most [c] zones for indirect blocks, or there were fewer than [c] free
    zones, none is left, and the map is as before. *)
Definition outcome (c : nat) st ip (i : Z) sp a (free : gset Z) (q : option node * Z) (z : Z) st' (e : Z) : Prop :=
  ∃ ip' zs a' free', inodes st' = <[rip := ip']> (inodes st) ∧ file_inv nr dev rip st' ip' i (sp <| s_zsearch := zs |>) a' free' ∧
    grows sp a ip free a' ip' free' ∧
    (e = FS_OK ∧ (size free ≤ size free' + c)%nat ∧ stored sp (a_disk a) (a_disk a') ip ip' q z ∨ e = FS_ENOSPC ∧ free' = ∅ ∧ (size free < c)%nat ∧ kept sp (a_disk a) (a_disk a') ip ip').

Lemma with_cache_id st : with_cache st (fs_cache (fsys st)) = st.
Proof. by destruct st as [[] ? ? ? ?]. Qed.

Lemma write_in_single st ip i sp a free j z : file_inv nr dev rip st ip i sp a free → 0 ≤ j < ind_max sp → zone_val sp z →
  ∃ st' e, write_indirect rip dev (s_log_zone_size sp) (single_zone ip) j z None st = Ok st' e ∧ outcome 1 st ip i sp a free (Some Single, j) z st' e.
Proof.
  intros Hf Hj Hz. pose proof (fi_tree _ _ _ _ _ _ _ _ _ Hf) as Ht. pose proof (t_len _ _ _ _ Ht) as Hl. pose proof (fi_la _ _ _ _ _ _ _ _ _ Hf) as Hla. pose proof (fi_inode _ _ _ _ _ _ _ _ _ Hf) as Hin.
  assert (Hk7 : 0 ≤ V1_NR_DZONES < V2_NR_TZONES) by done.
  unfold write_indirect, new_single. change (put_block (fst <$> None) INDIRECT_BLOCK) with (mret () : M cache unit).
  destruct (Z.eqb_spec (single_zone ip) NO_ZONE) as [E0|E0].
  - rewrite bind_assoc, (bind_ok _ _ _ _ _ (ld_inode_ok _ _ _ Hin)), bind_assoc. erewrite bind_ok; [|by apply ld_zone_ok]. rewrite bind_assoc, (fi_nd _ _ _ _ _ _ _ _ _ Hf).
    destruct (alloc_zone_step nr dev (fsys st) i sp a free (izone ip 0) (fi_zi _ _ _ _ _ _ _ _ _ Hf) (zone_near nr _ _ _ _ Hla Ht)) as [(-> & fs' & Hr & Hec & Hz')|(fs' & zs & a1 & x & Hr & Hx & Hx0 & Hz' & Hfr)].
    + rewrite (bind_ok _ _ _ _ _ (in_fs_ok _ _ _ _ Hr)), bind_assoc. erewrite bind_ok; [|by apply (st_zone_ok rip _ ip)]. rewrite ret_bind. cbn [andb Z.eqb].
      erewrite bind_ok; [|by apply in_buf_ok]. rewrite with_cache_id. eexists _, _. split; [reflexivity|]. rewrite izone_same by done.
      exists ip, (s_zsearch sp), a, ∅. rewrite search_id. split; [done|]. split; [|split; [apply grows_refl|right; split_and!; try done; rewrite size_empty; lia]].
      destruct Hf as [[H1 H2 H3 H4 H5 H6 H7 H8] H9]. split; [|done]. split; try done. cbn. apply lookup_insert_eq.
    + rewrite (bind_ok _ _ _ _ _ (in_fs_ok _ _ _ _ Hr)), bind_assoc. erewrite bind_ok; [|by apply (st_zone_ok rip _ ip)]. rewrite ret_bind. rewrite (proj2 (Z.eqb_neq _ _) Hx0). cbn [andb].
      erewrite bind_ok; [|by apply in_buf_ok]. rewrite with_cache_id. set (ip1 := ip <| i_zone ::= _ |>). set (st1 := _ <| inodes ::= _ |>). set (sp1 := sp <| s_zsearch := zs |>) in *.
      destruct Hfr as [Hp Hd]. destruct (same_entries_map nr sp _ _ Hla Hd) as [Hs Hla1]. destruct (tree_ok_ext sp _ _ _ _ _ Ht ltac:(reflexivity) Hs) as (Ht1 & Hz1 & Hq1).
      assert (Hdx : data_zone sp x) by (by apply (zi_free _ _ _ _ _ _ _ (fi_zi _ _ _ _ _ _ _ _ _ Hf)) in Hx as [? _]).
      destruct (graft_inode nr sp _ ip free V1_NR_DZONES x Ht1 Hla1 Hx Hdx Hx0 (or_introl eq_refl) E0) as (Ht2 & Hn2 & Hq2). fold ip1 in Ht2, Hn2, Hq2.
      assert (Hb1 : file_base nr dev rip st1 ip1 i sp1 a1 (free ∖ {[x]})).
      { destruct Hf as [[H1 H2 H3 H4 H5 H6 H7 H8] H9]. split; try done; [apply lookup_insert_eq|by apply layout_search|unfold spare; by rewrite Hp]. }
      assert (Hx1 : single_zone ip1 = x) by (unfold single_zone, ip1; rewrite izone_set by done; by rewrite decide_True).
      destruct (write_leaf nr dev rip st1 ip1 i sp1 a1 (free ∖ {[x]}) Single j z true x Hb1 (tree_search _ zs _ _ _ Ht2) I ltac:(done)) as (c & dsk' & Hrun & Hf' & Hst & Hg); [|done|done|done|].
      { exact Hx1. }
      erewrite bind_ok; [|exact Hrun]. eexists _, _. split; [reflexivity|]. exists ip1, zs, (mk_acache dsk' (a_pins a1)), (free ∖ {[x]}). split; [done|]. split; [exact Hf'|]. split.
      * eapply grows_trans; [apply (grows_map nr sp a a1 ip free Hla Ht (conj Hp Hd))|]. eapply grows_trans; [|apply (grows_search _ zs), Hg].
        eapply (grows_block nr sp a1 ip free _ ip1 (free ∖ {[x]}) x zeros); [done|by destruct ip|by apply (taken_one _ _ _ _ x Single)|exact Hn2|reflexivity|by left].
      * left. split; [done|]. split; [rewrite (size_take free x Hx); lia|]. intros q Hq. etransitivity; [exact (Hst q Hq)|]. case_decide; [done|]. etransitivity; [exact (Hq2 q Hq)|]. by apply Hq1.
  - rewrite ret_bind. cbn [andb]. erewrite bind_ok; [|by apply in_buf_ok]. rewrite with_cache_id.
    destruct (write_leaf nr dev rip st ip i sp a free Single j z false (single_zone ip) (fi_base _ _ _ _ _ _ _ _ _ Hf) Ht I ltac:(done) eq_refl E0 Hj Hz) as (c & dsk' & Hrun & Hf' & Hst & Hg).
    erewrite bind_ok; [|exact Hrun]. eexists _, _. split; [reflexivity|]. exists ip, (s_zsearch sp), (mk_acache dsk' (a_pins a)), free. rewrite search_id. split; [cbn; by rewrite insert_id|].
    split; [done|]. split; [by destruct a|]. left. split; [done|]. split; [lia|exact Hst].
Qed.
End indirect.

Section under.
Context {D : Driver} {RD : Reliable D}.
Context (nr dev rip : Z).
Implicit Types st : istate.
Implicit Types fs : fstate.

(** Block [b] is in use once more than [pins] says, in buffer [p]. *)
Definition once_more (pins : gmap Z (Z * Z * Z)) (p b n : Z) : Prop := n = 0 ∧ pins !! p = None ∨ 0 < n ∧ pins !! p = Some (dev, b, n).

(** An entry of the double indirect block is stored and the block given back. *)
Lemma store_double fs i sp a free pins p n z j v : zone_inv nr dev fs i sp a free → layout nr sp (a_disk a) → a_pins a = <[p := (dev, zblk sp z, n + 1)]> pins →
  once_more pins p (zblk sp z) n → spare (mk_acache (a_disk a) pins) → data_zone sp z → 0 ≤ j < ind_max sp →
  ∃ f1 c1 c2, wr_indir p j v fs = Ok f1 () ∧ in_cache (st_buf p (λ x, x <| b_dirt := DIRTY |>)) f1 = Ok (fs <| fs_cache := c1 |>) () ∧
    put_block (Some p) INDIRECT_BLOCK c1 = Ok c2 () ∧
    zone_inv nr dev (fs <| fs_cache := c2 |>) i sp (mk_acache (cset (a_disk a) (s_dev sp) (zblk sp z) (ind_set sp (a_disk a (s_dev sp) (zblk sp z)) j v)) pins) free.
Proof.
  intros Hz Hla Hp Hn Hsp Hdz Hj. pose proof (zi_dev _ _ _ _ _ _ _ Hz) as Edev. destruct (zblk_u32 _ _ _ _ Hla Hdz) as (_ & _ & Hwf). rewrite Edev in *.
  destruct (wr_indir_spec nr dev fs i sp a free Hz p (zblk sp z) (n + 1) j v) as (f1 & c1 & Hr1 & Hr2 & HR); [by rewrite Hp, lookup_insert_eq|done|done|].
  destruct (use_put nr c1 _ pins p dev (zblk sp z) n INDIRECT_BLOCK HR Hp Hn) as (c2 & Hr3 & HR3). exists f1, c1, c2. split; [done|]. split; [done|]. split; [done|].
  eapply zone_inv_cache; [done|exact HR3|by apply (spare_roomy (mk_acache _ pins))|]. intros blk Hb. cbn. unfold cset. rewrite decide_False; [done|]. intros [_ ->].
  apply (zblk_not_map nr sp _ z 0 Hla Hdz); [lia|by rewrite Z.add_0_r].
Qed.

(** The file with its double indirect block in use. *)
Record pinned_inv st (ip : inode) (i : Z) (sp : super_block) (dsk : Z → Z → block_data) pins (p n : Z) (free : gset Z) : Prop := {
  pi_inode : inodes st !! rip = Some ip;
  pi_zi : zone_inv nr dev (fsys st) i sp (mk_acache dsk (<[p := (dev, zblk sp (double_zone ip), n + 1)]> pins)) free;
  pi_la : layout nr sp dsk;
  pi_spare : spare (mk_acache dsk pins);
  pi_dev : i_dev ip = dev;
  pi_sp : i_sp ip = Some i;
  pi_nd : i_ndzones ip = V1_NR_DZONES;
  pi_ni : i_nindirs ip = ind_max sp;
  pi_tree : tree_ok sp dsk ip free;
  pi_once : once_more pins p (zblk sp (double_zone ip)) n;
  pi_double : double_zone ip ≠ NO_ZONE;
}.

(** Giving the block back. *)
Lemma unpin st ip i sp dsk pins p n free : pinned_inv st ip i sp dsk pins p n free →
  ∃ c, put_block (Some p) INDIRECT_BLOCK (fs_cache (fsys st)) = Ok c () ∧ file_inv nr dev rip (with_cache st c) ip i sp (mk_acache dsk pins) free.
Proof.
  intros [H1 H2 H3 H4 H5 H6 H7 H8 H9 H10 H11]. destruct (use_put nr _ _ pins p dev _ n INDIRECT_BLOCK (zi_repr _ _ _ _ _ _ _ H2) eq_refl H10) as (c & Hr & HR). cbn [a_disk] in HR.
  exists c. split; [done|]. split; [|done]. split; try done. apply (zone_inv_cache nr dev _ _ _ _ _ c _ H2 HR); [by apply spare_roomy|done].
Qed.
End under.

Section under_write.
Context {D : Driver} {RD : Reliable D}.
Context (nr dev rip : Z).
Implicit Types st : istate.

(** An entry just stored. *)
Lemma entry_store sp dsk z j v m : layout nr sp dsk → data_zone sp z → z ≠ NO_ZONE → 0 ≤ j < ind_max sp → 0 ≤ m < ind_max sp → data_zone sp v →
  entry sp (cset dsk (s_dev sp) (zblk sp z) (ind_set sp (dsk (s_dev sp) (zblk sp z)) j v)) z m = if decide (m = j) then v else entry sp dsk z m.
Proof.
  intros Hla Hz Hz0 Hj Hm Hv. destruct (zblk_u32 _ _ _ _ Hla Hz) as (_ & _ & Hwf). unfold entry. rewrite (proj2 (Z.eqb_neq _ _) Hz0). unfold cset. rewrite decide_True by done.
  apply ind_set_get; try done. by apply (la_fits _ _ _ Hla).
Qed.

Section at_state.
Context st (ip : inode) (i : Z) (sp : super_block) (dsk : Z → Z → block_data) (pins : gmap Z (Z * Z * Z)) (p n : Z) (free : gset Z).
Context (Hpi : pinned_inv nr dev rip st ip i sp dsk pins p n free).
Context (k j z : Z) (Hk : 0 ≤ k < ind_max sp) (Hj : 0 ≤ j < ind_max sp) (Hz : zone_val sp z).

Abbreviation z1 := (zat sp dsk ip (Under k)).
Abbreviation run := (write_indirect rip dev (s_log_zone_size sp) z1 j z (Some (p, k))).
Abbreviation a := (mk_acache dsk pins).

(** The single indirect block exists. *)
Lemma under_old : z1 ≠ NO_ZONE → ∃ st' e, run st = Ok st' e ∧ outcome nr dev rip 1 st ip i sp a free (Some (Under k), j) z st' e.
Proof.
  intros Hz1. unfold write_indirect, new_single. rewrite (proj2 (Z.eqb_neq _ _) Hz1), ret_bind. cbn [andb fmap option_fmap option_map fst].
  destruct (unpin _ _ _ _ _ _ _ _ _ _ _ _ Hpi) as (c & Hr & Hf). rewrite (bind_ok _ _ _ _ _ (in_buf_ok _ _ _ _ Hr)).
  destruct (write_leaf nr dev rip _ ip i sp a free (Under k) j z false z1 (fi_base _ _ _ _ _ _ _ _ _ Hf) (fi_tree _ _ _ _ _ _ _ _ _ Hf) Hk ltac:(done) eq_refl Hz1 Hj Hz) as (c' & dsk' & Hrun & Hf' & Hst & Hg).
  erewrite bind_ok; [|exact Hrun]. eexists _, _. split; [reflexivity|]. exists ip, (s_zsearch sp), (mk_acache dsk' pins), free. rewrite search_id.
  split; [cbn; by rewrite insert_id by apply (pi_inode _ _ _ _ _ _ _ _ _ _ _ _ Hpi)|]. split; [exact Hf'|]. split; [exact Hg|]. left. split; [done|]. split; [lia|exact Hst].
Qed.

Lemma double_data : data_zone sp (double_zone ip).
Proof. destruct (t_val _ _ _ _ (pi_tree _ _ _ _ _ _ _ _ _ _ _ _ Hpi) Double I) as [?|?]; [by destruct (pi_double _ _ _ _ _ _ _ _ _ _ _ _ Hpi)|done]. Qed.

(** It is created, or there is no zone for it. *)
Lemma under_new : z1 = NO_ZONE → ∃ st' e, run st = Ok st' e ∧ outcome nr dev rip 1 st ip i sp a free (Some (Under k), j) z st' e.
Proof.
  intros Hz1. destruct Hpi as [H1 H2 H3 H4 H5 H6 H7 H8 Ht H10 H11]. pose proof (t_len _ _ _ _ Ht) as Hl. pose proof double_data as Hdd.
  unfold write_indirect, new_single. rewrite Hz1. change (NO_ZONE =? NO_ZONE) with true. cbn match. cbn [fmap option_fmap option_map fst].
  rewrite bind_assoc, (bind_ok _ _ _ _ _ (ld_inode_ok _ _ _ H1)), bind_assoc. erewrite bind_ok; [|by apply ld_zone_ok]. rewrite bind_assoc.
  destruct (alloc_zone_step nr dev (fsys st) i sp _ free (izone ip 0) H2 (zone_near nr _ _ _ _ H3 Ht)) as [(Ef & fs' & Hr & Hec & Hz')|(fs' & zs & a1 & x & Hr & Hx & Hx0 & Hz' & Hp & Hd)];
    rewrite (bind_ok _ _ _ _ _ (in_fs_ok _ _ _ _ Hr)), bind_assoc, bind_assoc.
  - destruct (store_double nr dev fs' i sp _ _ pins p n (double_zone ip) k NO_ZONE Hz' H3 eq_refl H10 H4 Hdd Hk) as (f1 & c1 & c2 & Hr1 & Hr2 & Hr3 & Hz2). cbn [a_disk] in Hz2.
    erewrite bind_ok; [|apply in_fs_ok; exact Hr1]. erewrite bind_ok; [|apply in_fs_ok; exact Hr2]. rewrite ret_bind. erewrite bind_ok; [|apply in_buf_ok; exact Hr3]. cbn [andb Z.eqb].
    eexists _, _. split; [reflexivity|]. assert (Hk0 : ind sp (dsk (s_dev sp) (zblk sp (double_zone ip))) k = NO_ZONE).
    { change (entry sp dsk (double_zone ip) k = NO_ZONE) in Hz1. unfold entry in Hz1. by rewrite (proj2 (Z.eqb_neq _ _) H11) in Hz1. }
    pose proof (same_entries_none nr sp dsk (double_zone ip) k H3 Hdd Hk Hk0) as Hs. set (dsk2 := cset dsk _ _ _) in *. destruct (tree_ok_ext sp _ _ _ _ _ Ht ltac:(reflexivity) Hs) as (Ht2 & Hn2 & Hq2).
    exists ip, (s_zsearch sp), (mk_acache dsk2 pins), free. rewrite search_id. split; [cbn; by rewrite insert_id|]. split; [split; [|done]|split; [|right; split_and!; try done; rewrite Ef, size_empty; lia]].
    + split; try done. destruct (zblk_u32 _ _ _ _ H3 Hdd) as (_ & _ & Hwf). apply layout_cset; [done|by apply ind_set_wf].
    + eapply (grows_block nr sp a ip free dsk2 ip free (double_zone ip)); [done|by destruct ip|apply taken_none|intros m Hm; left; by apply Hn2|reflexivity|right; by exists Double].
  - cbn [a_disk a_pins] in *. destruct (same_entries_map nr sp _ _ H3 Hd) as [Hs Hla1]. destruct (tree_ok_ext sp _ _ _ _ _ Ht ltac:(reflexivity) Hs) as (Ht1 & Hn1 & Hq1).
    assert (Hdx : data_zone sp x) by (by apply (zi_free _ _ _ _ _ _ _ H2) in Hx as [? _]). set (sp1 := sp <| s_zsearch := zs |>) in *.
    destruct (store_double nr dev fs' i sp1 a1 _ pins p n (double_zone ip) k x Hz' (layout_search _ _ zs _ Hla1) Hp H10 H4 Hdd Hk) as (f1 & c1 & c2 & Hr1 & Hr2 & Hr3 & Hz2).
    erewrite bind_ok; [|apply in_fs_ok; exact Hr1]. erewrite bind_ok; [|apply in_fs_ok; exact Hr2]. rewrite ret_bind. erewrite bind_ok; [|apply in_buf_ok; exact Hr3].
    rewrite (proj2 (Z.eqb_neq _ _) Hx0). cbn [andb]. set (st1 := with_cache _ c2). set (dsk2 := cset (a_disk a1) _ _ _) in *.
    destruct (graft_under nr sp (a_disk a1) ip free k x Ht1 Hla1 Hx Hdx Hx0 Hk H11) as (Ht2 & Hn2 & Hq2); [by rewrite Hn1|]. change (cset (a_disk a1) (s_dev sp) (zblk sp (double_zone ip)) _) with dsk2 in Ht2, Hn2, Hq2.
    destruct (zblk_u32 _ _ _ _ Hla1 Hdd) as (_ & _ & Hwf1).
    assert (Hdsk2 : ∀ m, node_ok sp m → zat sp dsk2 ip m = if decide (m = Under k) then x else zat sp (a_disk a1) ip m).
    { intros [| |m] Hm; cbn [zat]; [done|done|]. etransitivity; [exact (entry_store sp (a_disk a1) (double_zone ip) k x m Hla1 Hdd H11 Hk Hm Hdx)|]. repeat case_decide; simplify_eq; done. }
    assert (Hla2 : layout nr sp dsk2) by (apply (layout_cset nr sp); [done|by apply ind_set_wf]).
    assert (Hxd : double_zone ip ≠ x) by (intros E; apply (t_used _ _ _ _ Ht Double I); cbn [zat]; by rewrite E).
    assert (Hsame : ∀ m, node_ok sp m → zat sp (cset dsk2 (s_dev sp) (zblk sp x) zeros) ip m = zat sp dsk2 ip m).
    { intros [| |m] Hm; cbn [zat]; [done|done|]. by apply (entry_cset_ne nr). }
    assert (Hb1 : file_base nr dev rip st1 ip i sp1 (mk_acache dsk2 pins) (free ∖ {[x]})).
    { split; try done. apply (layout_cset nr sp1); [by apply layout_search|by apply ind_set_wf]. }
    destruct (write_leaf nr dev rip st1 ip i sp1 (mk_acache dsk2 pins) (free ∖ {[x]}) (Under k) j z true x Hb1 (tree_search _ zs _ _ _ Ht2) Hk ltac:(done)) as (c & dsk' & Hrun & Hf' & Hst & Hg); [|done|done|done|].
    { change (zat sp (cset dsk2 (s_dev sp) (zblk sp x) zeros) ip (Under k) = x). by rewrite Hsame, Hdsk2, decide_True. }
    erewrite bind_ok; [|exact Hrun]. eexists _, _. split; [reflexivity|]. exists ip, zs, (mk_acache dsk' pins), (free ∖ {[x]}). split; [cbn; by rewrite insert_id|]. split; [exact Hf'|]. split.
    + eapply grows_trans; [apply (grows_map nr sp a (mk_acache (a_disk a1) pins) ip free H3 Ht (conj eq_refl Hd))|].
      eapply grows_trans; [eapply (grows_block nr sp (mk_acache (a_disk a1) pins) ip free dsk2 ip free (double_zone ip)); [exact Hla1|by destruct ip|apply taken_none| |reflexivity|right; by exists Double]|].
      { intros m Hm. rewrite Hdsk2 by done. case_decide; [subst; right; split; [cbn [a_disk]; by rewrite Hn1|done]|by left]. }
      eapply grows_trans; [eapply (grows_block nr sp (mk_acache dsk2 pins) ip free _ ip (free ∖ {[x]}) x zeros); [exact Hla2|by destruct ip|apply (taken_one _ _ _ _ x (Under k) Hk); by rewrite Hsame, Hdsk2, decide_True| |reflexivity|by left]|apply (grows_search _ zs), Hg].
      intros m Hm. left. by apply Hsame.
    + left. split; [done|]. split; [rewrite (size_take free x Hx); lia|]. intros q Hq. etransitivity; [exact (Hst q Hq)|]. case_decide; [done|]. etransitivity; [exact (Hq2 q Hq)|]. by apply Hq1.
Qed.
End at_state.
End under_write.

(** ** [write_map] *)
Section write_map.
Context {D : Driver} {RD : Reliable D}.
Context (nr dev rip : Z).
Implicit Types st : istate.

(** Steps that keep the map may come before. *)
Lemma outcome_after c0 c st ip i sp a free st1 ip1 zs a1 free1 q z st' e : place_ok sp q → (size free ≤ size free1 + c0)%nat → inodes st1 = <[rip := ip1]> (inodes st) → grows sp a ip free a1 ip1 free1 →
  kept sp (a_disk a) (a_disk a1) ip ip1 → outcome nr dev rip c st1 ip1 i (sp <| s_zsearch := zs |>) a1 free1 q z st' e → outcome nr dev rip (c0 + c) st ip i sp a free q z st' e.
Proof.
  intros Hpq Hc Hi Hg Hk (ip2 & zs2 & a2 & free2 & Hi2 & Hf2 & Hg2 & Hor). exists ip2, zs2, a2, free2. split; [by rewrite Hi2, Hi, insert_insert_eq|]. split; [exact Hf2|].
  split; [eapply grows_trans; [done|]; by eapply grows_search|]. destruct Hor as [(He & Hc2 & Hs)|(He & H0 & Hc2 & Hk2)]; [left|right].
  - split; [done|]. split; [lia|]. intros q' Hq'. etransitivity; [exact (Hs q' Hq')|]. case_decide; [done|]. by apply Hk.
  - split; [done|]. split; [done|]. split; [lia|]. intros q' Hq'. etransitivity; [exact (Hk2 q' Hq')|]. by apply Hk.
Qed.

Lemma file_inv_dirty st ip i sp a free d : file_inv nr dev rip st ip i sp a free →
  let ip0 := ip <| i_dirt := d |> in file_inv nr dev rip (st <| inodes ::= <[rip := ip0]> |>) ip0 i sp a free.
Proof.
  intros [[H1 H2 H3 H4 H5 H6 H7 H8] [T1 T2 T3 T4 T5]] ip0. split; [split; try done; apply lookup_insert_eq|]. split; [exact T1|exact T2|exact T3|exact T4|exact T5].
Qed.

(** A zone number in the inode. *)
Lemma write_direct st ip i sp a free k z : file_inv nr dev rip st ip i sp a free → 0 ≤ k < V1_NR_DZONES → zone_val sp z →
  ∃ st', st_zone rip k z st = Ok st' () ∧ outcome nr dev rip 0 st ip i sp a free (None, k) z st' FS_OK.
Proof.
  intros Hf Hk Hz. pose proof (fi_tree _ _ _ _ _ _ _ _ _ Hf) as Ht. destruct (tree_direct sp (a_disk a) ip free k z Ht Hk Hz) as (Ht' & Hat & Hst).
  eexists. split; [apply (st_zone_ok rip _ ip); [apply Hf|apply Ht|unfold V1_NR_DZONES, V2_NR_TZONES in *; lia]|]. eexists _, (s_zsearch sp), a, free. rewrite search_id. split; [done|].
  split; [split; [|exact Ht']|split; [|left; split; [done|]; split; [lia|exact Hst]]].
  - destruct Hf as [[H1 H2 H3 H4 H5 H6 H7 H8] _]. split; try done. apply lookup_insert_eq.
  - split; [done|by destruct ip|done|intros n _; left; apply Hat|done|done].
Qed.

(** The double indirect block is taken into use, from the disk or new. *)
Lemma pin_double st ip i sp a free (new : bool) : file_base nr dev rip st ip i sp a free → tree_ok sp (init_disk sp a new (double_zone ip)) ip free → double_zone ip ≠ NO_ZONE →
  ∃ c1 c2 p n, get_block dev (u32 (zblk sp (double_zone ip))) (if new then NO_READ else NORMAL) (fs_cache (fsys st)) = Ok c1 p ∧
    (if new then zero_block p else mret ()) c1 = Ok c2 () ∧
    pinned_inv nr dev rip (with_cache st c2) ip i sp (init_disk sp a new (double_zone ip)) (a_pins a) p n free.
Proof.
  intros [H1 H2 H3 H4 H5 H6 H7 H8] Ht Hd. assert (Hdd : data_zone sp (double_zone ip)) by (by destruct (t_val _ _ _ _ Ht Double I)).
  destruct (get_for_write nr dev (fsys st) i sp a free H2 H3 H4 _ new Hdd) as (c1 & c2 & p & n & Hr1 & Hr2 & Hn & Hz). exists c1, c2, p, n. split; [done|]. split; [done|].
  split; try done. by apply init_layout.
Qed.

(** From the double indirect block in use on. *)
Lemma write_in_double st ip i sp dsk pins p n free k j z : pinned_inv nr dev rip st ip i sp dsk pins p n free → 0 ≤ k < ind_max sp → 0 ≤ j < ind_max sp → zone_val sp z →
  ∃ st' e, (z1 ← in_fs (rd_indir p k); write_indirect rip dev (s_log_zone_size sp) z1 j z (Some (p, k))) st = Ok st' e ∧
    outcome nr dev rip 1 st ip i sp (mk_acache dsk pins) free (Some (Under k), j) z st' e.
Proof.
  intros Hpi Hk Hj Hz. pose proof (double_data _ _ _ _ _ _ _ _ _ _ _ _ Hpi) as Hdd. destruct Hpi as [H1 H2 H3 H4 H5 H6 H7 H8 Ht H10 H11] eqn:Epi. clear Epi.
  destruct (zblk_u32 _ _ _ _ H3 Hdd) as (_ & _ & Hwf). pose proof (zi_dev _ _ _ _ _ _ _ H2) as Edev. pose proof (t_val _ _ _ _ Ht (Under k) Hk) as Hv.
  assert (Ez : zat sp dsk ip (Under k) = ind sp (dsk dev (zblk sp (double_zone ip))) k) by (unfold zat, entry; by rewrite (proj2 (Z.eqb_neq _ _) H11), Edev).
  rewrite Edev in Hwf. rewrite Ez in Hv. pose proof (rd_indir_spec nr dev _ _ _ _ _ H2 p _ _ k (lookup_insert_eq _ _ _) Hwf Hk Hv) as Hrd. cbn [a_disk] in Hrd. rewrite <- Ez in Hrd.
  erewrite bind_ok; [|apply in_fs_ok; exact Hrd]. replace (st <| fsys := fsys st |>) with st by (by destruct st).
  destruct (decide (zat sp dsk ip (Under k) = NO_ZONE)) as [E|E]; [by eapply under_new|by eapply under_old].
Qed.
End write_map.

Section write_spec.
Context {D : Driver} {RD : Reliable D}.
Context (nr dev rip : Z).
Implicit Types st : istate.

(** The double indirect zone: the one there is, a new and empty one, or none. *)
Lemma new_double_spec st ip i sp a free : file_inv nr dev rip st ip i sp a free →
  (double_zone ip ≠ NO_ZONE ∧ new_double rip ip (double_zone ip) st = Ok st (double_zone ip, false)) ∨
  (∃ st', new_double rip ip (double_zone ip) st = Ok st' (NO_ZONE, true) ∧ err_code (fsys st') = FS_ENOSPC ∧ free = ∅ ∧
     inodes st' = inodes st ∧ file_inv nr dev rip st' ip i sp a free) ∨
  ∃ st' zs a1 x ip1, new_double rip ip (double_zone ip) st = Ok st' (x, true) ∧ x ∈ free ∧ x ≠ NO_ZONE ∧ x = double_zone ip1 ∧ inodes st' = <[rip := ip1]> (inodes st) ∧
    file_base nr dev rip st' ip1 i (sp <| s_zsearch := zs |>) a1 (free ∖ {[x]}) ∧ tree_ok sp (init_disk sp a1 true x) ip1 (free ∖ {[x]}) ∧
    grows sp a ip free (mk_acache (init_disk sp a1 true x) (a_pins a)) ip1 (free ∖ {[x]}) ∧ kept sp (a_disk a) (init_disk sp a1 true x) ip ip1 ∧ a_pins a1 = a_pins a.
Proof.
  intros Hf. pose proof (fi_tree _ _ _ _ _ _ _ _ _ Hf) as Ht. pose proof (t_len _ _ _ _ Ht) as Hl. pose proof (fi_la _ _ _ _ _ _ _ _ _ Hf) as Hla. unfold new_double.
  destruct (Z.eqb_spec (double_zone ip) NO_ZONE) as [E0|E0]; [right|by left]. erewrite bind_ok; [|by apply ld_zone_ok]. rewrite (fi_dev _ _ _ _ _ _ _ _ _ Hf), (fi_nd _ _ _ _ _ _ _ _ _ Hf).
  destruct (alloc_zone_step nr dev (fsys st) i sp a free (izone ip 0) (fi_zi _ _ _ _ _ _ _ _ _ Hf) (zone_near nr _ _ _ _ Hla Ht)) as [(-> & fs' & Hr & Hec & Hz')|(fs' & zs & a1 & x & Hr & Hx & Hx0 & Hz' & Hp & Hd)];
    rewrite (bind_ok _ _ _ _ _ (in_fs_ok _ _ _ _ Hr)).
  - left. eexists. split; [reflexivity|]. split; [done|]. split; [done|]. split; [done|]. destruct Hf as [[H1 H2 H3 H4 H5 H6 H7 H8] H9]. split; [|done]. by split.
  - right. rewrite (proj2 (Z.eqb_neq _ _) Hx0). erewrite bind_ok; [|apply (st_zone_ok rip _ ip); [apply Hf|done|done]].
    set (ip1 := ip <| i_zone ::= _ |>). set (st1 := _ <| inodes ::= _ |>). destruct (same_entries_map nr sp _ _ Hla Hd) as [Hs Hla1]. destruct (tree_ok_ext sp _ _ _ _ _ Ht ltac:(reflexivity) Hs) as (Ht1 & _ & Hq1).
    assert (Hdx : data_zone sp x) by (by apply (zi_free _ _ _ _ _ _ _ (fi_zi _ _ _ _ _ _ _ _ _ Hf)) in Hx as [? _]).
    destruct (graft_inode nr sp _ ip free (V1_NR_DZONES + 1) x Ht1 Hla1 Hx Hdx Hx0 (or_intror eq_refl) E0) as (Ht2 & Hn2 & Hq2). fold ip1 in Ht2, Hn2, Hq2.
    assert (Hx1 : double_zone ip1 = x) by (unfold double_zone, ip1; rewrite izone_set by done; by rewrite decide_True).
    exists st1, zs, a1, x, ip1. split; [done|]. split; [done|]. split; [done|]. split; [done|]. split; [done|].
    split; [|split; [exact Ht2|split; [|split; [|done]]]].
    + destruct Hf as [[H1 H2 H3 H4 H5 H6 H7 H8] H9]. split; try done; [apply lookup_insert_eq|by apply layout_search|unfold spare; by rewrite Hp].
    + eapply grows_trans; [apply (grows_map nr sp a a1 ip free Hla Ht (conj Hp Hd))|]. rewrite <- Hp.
      eapply (grows_block nr sp a1 ip free _ ip1 (free ∖ {[x]}) x zeros); [done|by destruct ip|by apply (taken_one _ _ _ _ x Double)|exact Hn2|reflexivity|by left].
    + intros q Hq. etransitivity; [exact (Hq2 q Hq)|]. by apply Hq1.
Qed.

Lemma write_map_spec st ip i sp a free pos z : file_inv nr dev rip st ip i sp a free → 0 ≤ pos → zone_index sp pos < max_zones sp → zone_val sp z →
  ∃ st' e, write_map rip pos z st = Ok st' e ∧ outcome nr dev rip 2 st ip i sp a free (place sp (zone_index sp pos)) z st' e.
Proof.
  intros Hf0 Hpos Hm Hz. pose proof (zone_index_nonneg sp pos Hpos) as Hn. unfold write_map. erewrite bind_ok; [|apply st_inode_ok, Hf0].
  pose proof (file_inv_dirty nr dev rip _ _ _ _ _ _ DIRTY Hf0) as Hf. cbn zeta in Hf. set (ip1 := ip <| i_dirt := DIRTY |>) in *. set (st1 := st <| inodes ::= _ |>) in *.
  assert (Hback : ∀ c st' e q, (c ≤ 2)%nat → place_ok sp q → outcome nr dev rip c st1 ip1 i sp a free q z st' e → outcome nr dev rip 2 st ip i sp a free q z st' e).
  { intros c st' e q Hc Hq Ho. replace 2%nat with (2 - c + c)%nat by lia. eapply (outcome_after nr dev rip (2 - c) c st ip i sp a free st1 ip1 (s_zsearch sp) a free); [done|lia|done|apply grows_dirty|by intros ??|by rewrite search_id]. }
  pose proof (place_is_ok sp _ (conj Hn Hm)) as Hpl. pose proof (fi_tree _ _ _ _ _ _ _ _ _ Hf) as Ht. pose proof (t_len _ _ _ _ Ht) as Hl. pose proof (ind_max_pos sp) as Hmax.
  rewrite (bind_ok _ _ _ _ _ (ld_inode_ok _ _ _ (fi_inode _ _ _ _ _ _ _ _ _ Hf))), (bind_ok _ _ _ _ _ (inode_super_ok _ _ _ _ _ _ _ _ _ Hf)). cbv zeta.
  rewrite (fi_nd _ _ _ _ _ _ _ _ _ Hf), (fi_ni _ _ _ _ _ _ _ _ _ Hf), (fi_dev _ _ _ _ _ _ _ _ _ Hf). fold (zone_index sp pos). set (n := zone_index sp pos) in *. unfold place in *.
  destruct (Z.ltb_spec n V1_NR_DZONES) as [Hlt|Hge].
  { destruct (write_direct nr dev rip st1 ip1 i sp a free n z Hf (conj Hn Hlt) Hz) as (st' & Hr & Ho). erewrite bind_ok; [|exact Hr]. eexists _, _. split; [reflexivity|]. by apply (Hback 0%nat); [lia|..]. }
  destruct (Z.ltb_spec (n - V1_NR_DZONES) (ind_max sp)) as [Hlt|Hge2].
  { erewrite bind_ok; [|apply ld_zone_ok; done]. fold (single_zone ip1). destruct (write_in_single nr dev rip st1 ip1 i sp a free (n - V1_NR_DZONES) z Hf) as (st' & e & Hr & Ho); [lia|done|].
    exists st', e. split; [done|]. by apply (Hback 1%nat); [lia|..]. }
  erewrite bind_ok; [|apply ld_zone_ok; done]. fold (double_zone ip1). set (e0 := n - V1_NR_DZONES - ind_max sp) in *. destruct Hpl as (Hk & Hnd & Hj). cbn [node_ok] in Hk.
  destruct (new_double_spec st1 ip1 i sp a free Hf) as [[Hd Hr]|[(st2 & Hr & Hec & -> & Hin & Hf2)|(st2 & zs & a1 & x & ip2 & Hr & Hxf & Hx & Ex & Hin & Hb2 & Ht2 & Hg2 & Hk2 & Hp2)]]; rewrite (bind_ok _ _ _ _ _ Hr).
  - rewrite (proj2 (Z.eqb_neq _ _) Hd), (proj2 (Z.eqb_neq (ind_max sp) 0)), ret_bind, Z.geb_leb, (proj2 (Z.leb_gt _ _)) by lia. fold (zblk sp (double_zone ip1)).
    destruct (pin_double nr dev rip st1 ip1 i sp a free false (fi_base _ _ _ _ _ _ _ _ _ Hf) Ht Hd) as (c1 & c2 & p & m & Hr1 & Hr2 & Hpi). injection Hr2 as <-.
    erewrite bind_ok; [|apply in_buf_ok; exact Hr1]. rewrite ret_bind. destruct (write_in_double nr dev rip _ ip1 i sp _ _ p m free _ _ z Hpi Hk Hj Hz) as (st' & e & Hrun & Ho).
    exists st', e. split; [exact Hrun|]. apply (Hback 1%nat); [lia|done|]. by destruct a.
  - eexists _, _. split; [reflexivity|]. rewrite Hec. apply (Hback 2%nat); [lia|done|]. exists ip1, (s_zsearch sp), a, ∅. rewrite search_id. split; [rewrite Hin; symmetry; apply insert_id, Hf|].
    split; [done|]. split; [apply grows_refl|]. right. split; [done|]. split; [done|]. split; [rewrite size_empty; lia|by intros ??].
  - rewrite (proj2 (Z.eqb_neq _ _) Hx), (proj2 (Z.eqb_neq (ind_max sp) 0)), ret_bind, Z.geb_leb, (proj2 (Z.leb_gt _ _)) by lia. fold (zblk sp x). subst x. set (sp1 := sp <| s_zsearch := zs |>) in *.
    destruct (pin_double nr dev rip st2 ip2 i sp1 a1 _ true Hb2 (tree_search _ zs _ _ _ Ht2) Hx) as (c1 & c2 & p & m & Hr1 & Hr2 & Hpi).
    erewrite bind_ok; [|apply in_buf_ok; exact Hr1]. erewrite bind_ok; [|apply in_buf_ok; exact Hr2].
    destruct (write_in_double nr dev rip _ ip2 i sp1 _ _ p m _ _ _ z Hpi Hk Hj Hz) as (st' & e & Hrun & Ho). exists st', e. split; [exact Hrun|]. apply (Hback 2%nat); [lia|done|].
    rewrite Hp2 in Ho. eapply (outcome_after nr dev rip 1 1 st1 ip1 i sp a free (with_cache st2 c2) ip2 zs); [done| |exact Hin|exact Hg2|exact Hk2|exact Ho].
    rewrite (size_take free _ Hxf). lia.
Qed.
End write_spec.

(** ** Sequences of calls *)
Section sequences.
Context {D : Driver} {RD : Reliable D}.
Context (nr dev rip : Z).
Implicit Types st : istate.

(** Ask for the block of a position; put a zone at a position. *)
Inductive fop := FMap (pos : Z) | FSet (pos z : Z).

Definition run_fop (op : fop) : M istate Z :=
  match op with FMap pos => read_map rip pos | FSet pos z => write_map rip pos z end.

Fixpoint fdrive (n : nat) (client : list Z → fop) (h : list Z) : M istate (list Z) :=
  match n with O => mret h | S n' => x ← run_fop (client h); fdrive n' client (h ++ [x]) end.

(** A file is a function from zone indices to zones, beside the number of free
    zones of the device: asking changes neither; a zone is put where it was to be
    put, at the cost of at most two zones, or, if fewer than two were free, nowhere. *)
Definition fmap_t : Type := (Z → Z) * nat.
Inductive fstep (sp : super_block) : fop → Z → fmap_t → fmap_t → Prop :=
  | F_map pos m c : fstep sp (FMap pos) (block_of sp (m (zone_index sp pos)) (zone_off sp pos)) (m, c) (m, c)
  | F_set pos z m c c' : (c' ≤ c ≤ c' + 2)%nat → fstep sp (FSet pos z) FS_OK (m, c) (λ n, if decide (n = zone_index sp pos) then z else m n, c')
  | F_full pos z m c : (c < 2)%nat → fstep sp (FSet pos z) FS_ENOSPC (m, c) (m, 0%nat).

Inductive ftrace (sp : super_block) (client : list Z → fop) : nat → fmap_t → list Z → fmap_t → list Z → Prop :=
  | FT_done m h : ftrace sp client 0 m h m h
  | FT_step n m h x m1 m2 h2 : fstep sp (client h) x m m1 → ftrace sp client n m1 (h ++ [x]) m2 h2 → ftrace sp client (S n) m h m2 h2.

Lemma fstep_search sp zs op x m m' : fstep (sp <| s_zsearch := zs |>) op x m m' → fstep sp op x m m'.
Proof. destruct 1; [exact (F_map sp pos m c)|by apply (F_set sp pos z m)|by apply (F_full sp pos z m)]. Qed.
Lemma ftrace_search sp zs client n m h m' h' : ftrace (sp <| s_zsearch := zs |>) client n m h m' h' → ftrace sp client n m h m' h'.
Proof. induction 1; [constructor|]. eapply FT_step; [by eapply fstep_search|done]. Qed.

(** Positions that the inode and its indirect blocks reach, and zones of the
    device. *)
Definition flegal (sp : super_block) (op : fop) : Prop :=
  match op with
  | FMap pos => 0 ≤ pos ∧ zone_index sp pos < max_zones sp
  | FSet pos z => 0 ≤ pos ∧ zone_index sp pos < max_zones sp ∧ zone_val sp z
  end.

(** [m] is the map of the file. *)
Definition is_map (sp : super_block) (a : acache) (ip : inode) (m : Z → Z) : Prop := ∀ n, 0 ≤ n < max_zones sp → file_zone sp (a_disk a) ip n = m n.

Lemma fop_step st ip i sp a free m op : file_inv nr dev rip st ip i sp a free → is_map sp a ip m → flegal sp op →
  ∃ st' x m' ip' zs a' free', run_fop op st = Ok st' x ∧ fstep sp op x (m, size free) (m', size free') ∧ file_inv nr dev rip st' ip' i (sp <| s_zsearch := zs |>) a' free' ∧
    is_map sp a' ip' m' ∧ grows sp a ip free a' ip' free'.
Proof.
  intros Hf Hm. destruct op as [pos|pos z]; cbn [run_fop].
  - intros [Hp Hi]. destruct (read_map_spec nr dev rip st ip i sp a free pos Hf Hp Hi) as (c & Hr & HR). exists (with_cache st c), (file_block sp a ip pos), m, ip, (s_zsearch sp), a, free. rewrite search_id.
    split; [done|]. split; [|split; [by apply file_inv_cache|split; [done|apply grows_refl]]]. unfold file_block. rewrite Hm by (split; [by apply zone_index_nonneg|done]). apply F_map.
  - intros (Hp & Hi & Hz). pose proof (zone_index_nonneg sp pos Hp) as Hn. destruct (write_map_spec nr dev rip st ip i sp a free pos z Hf Hp Hi Hz) as (st' & e & Hr & ip' & zs & a' & free' & _ & Hf' & Hg & Hor).
    pose proof (subseteq_size _ _ (g_free _ _ _ _ _ _ _ Hg)) as Hsz. destruct Hor as [(-> & Hc & Hs)|(-> & -> & Hc & Hk)].
    + exists st', FS_OK, (λ n, if decide (n = zone_index sp pos) then z else m n), ip', zs, a', free'. split; [done|]. split; [by apply F_set|]. split; [done|]. split; [|done].
      intros k Hk. unfold file_zone. rewrite (Hs _ (place_is_ok sp k Hk)). destruct (decide (k = zone_index sp pos)) as [->|Hne]; [by rewrite decide_True|].
      rewrite decide_False; [by apply Hm|]. intros E. apply Hne. by apply (place_inj sp); [lia|done|].
    + exists st', FS_ENOSPC, m, ip', zs, a', ∅. split; [done|]. split; [rewrite size_empty; by apply F_full|]. split; [done|]. split; [|done].
      intros k Hk'. unfold file_zone. rewrite (Hk _ (place_is_ok sp k Hk')). by apply Hm.
Qed.

(** C32: A file is a function from zone indices to zones.  Whatever sequence of
    [read_map] and [write_map] calls a client makes within the reach of the inode
    and of zones of the device, every call returns; [read_map] gives the block of
    the zone last put at that position ([NO_BLOCK] if there is none), whatever was
    put elsewhere and whichever indirect blocks had to be created, in both versions
    and byte orders of the file system; [write_map] takes at most two free zones,
    fails only with [ENOSPC] and only if fewer than two zones are free, and then
    leaves the map as it was.  No zone is lost: those no longer free are indirect
    zones of the file; and no zone in use changes except these. *)
Theorem file_map_refines n client st ip i sp a free m h : file_inv nr dev rip st ip i sp a free → is_map sp a ip m →
  (∀ k m' h', (k < n)%nat → ftrace sp client k (m, size free) h m' h' → flegal sp (client h')) →
  ∃ st' h' m' ip' zs a' free', fdrive n client h st = Ok st' h' ∧ ftrace sp client n (m, size free) h (m', size free') h' ∧
    file_inv nr dev rip st' ip' i (sp <| s_zsearch := zs |>) a' free' ∧ is_map sp a' ip' m' ∧ grows sp a ip free a' ip' free'.
Proof.
  revert st ip sp a free m h. induction n as [|n IH]; intros st ip sp a free m h Hf Hm Hl.
  { exists st, h, m, ip, (s_zsearch sp), a, free. rewrite search_id. split; [done|]. split; [constructor|]. split; [done|]. split; [done|apply grows_refl]. }
  destruct (fop_step st ip i sp a free m (client h) Hf Hm) as (st1 & x & m1 & ip1 & zs1 & a1 & free1 & Hr1 & Hs1 & Hf1 & Hm1 & Hg1); [apply (Hl 0%nat (m, size free)); [lia|constructor]|].
  destruct (IH st1 ip1 (sp <| s_zsearch := zs1 |>) a1 free1 m1 (h ++ [x]) Hf1 Hm1) as (st2 & h2 & m2 & ip2 & zs2 & a2 & free2 & Hr2 & Ht2 & Hf2 & Hm2 & Hg2).
  { intros k m' h' Hk Ht. apply (Hl (S k) m'); [lia|]. eapply FT_step; [done|]. by eapply ftrace_search. }
  exists st2, h2, m2, ip2, zs2, a2, free2. cbn [fdrive]. rewrite (bind_ok _ _ _ _ _ Hr1). split; [done|]. split; [eapply FT_step; [done|]; by eapply ftrace_search|].
  split; [exact Hf2|]. split; [exact Hm2|]. eapply grows_trans; [done|]. by eapply grows_search.
Qed.
End sequences.

(** ** A file on a small file system *)
Definition file_image : gmap (Z * Z) block_data :=
  list_to_map ((λ b, ((769, b * BLOCK_SIZE), if (b =? 2) || (b =? 3) then map_image else zeros)) <$> seqZ 0 50).
Definition file_bss : cache := cache_bss <| wld := file_image |>.
Definition file_abs : acache := mk_acache (λ d b, ram_get file_image d (b * BLOCK_SIZE)) ∅.
Definition empty_inode : inode := mk_inode 0x8000 1 0 0 0 0 0 0 (replicate 10 0) 769 1 1 V1_NR_DZONES V1_INDIRECTS (Some 0) CLEAN 0 0 0 0.
Definition file_state (c : cache) : istate := mk_istate (small_fs c) {[5 := empty_inode]} 0 0 FS_OK 0.

Lemma file_ready : ∃ s, buf_pool file_bss = Ok s () ∧ repr 64 s file_abs.
Proof.
  destruct (buf_pool_repr file_bss) as (s & Hr & HR); [|exists s; split; [exact Hr|exact HR]].
  destruct cache_bss_zeroed as [H1 H2 H3 [A1 A2 A3 A4] H5]. split; [exact H1|exact H2|exact H3|split; assumption|exact H5].
Qed.

Lemma file_image_block b : 0 ≤ b < 50 → a_disk file_abs 769 b = if (b =? 2) || (b =? 3) then map_image else zeros.
Proof.
  intros Hb. assert (H : forallb (λ k, bool_decide (a_disk file_abs 769 k = if (k =? 2) || (k =? 3) then map_image else zeros)) (seqZ 0 50) = true) by (vm_compute; reflexivity).
  rewrite forallb_forall in H. specialize (H b). eapply bool_decide_eq_true_1, H, list_elem_of_In, elem_of_seqZ. lia.
Qed.

Lemma file_bits n : 0 ≤ n < 41 → bit_at small_super ZMAP file_abs n = (n =? 0).
Proof.
  intros Hn. assert (H : forallb (λ k, bool_decide (bit_at small_super ZMAP file_abs k = (k =? 0))) (seqZ 0 41) = true) by (vm_compute; reflexivity).
  rewrite forallb_forall in H. specialize (H n). eapply bool_decide_eq_true_1, H, list_elem_of_In, elem_of_seqZ. lia.
Qed.

Lemma file_map_ok : map_ok 64 small_super ZMAP file_abs.
Proof.
  split; [..|done|done|done]; change (map_blocks small_super ZMAP) with 1; change (map_start small_super ZMAP) with 3; change (s_dev small_super) with 769; intros k Hk.
  - split_and!; done || lia.
  - rewrite file_image_block by lia. replace (3 + k) with 3 by lia. exact map_image_wf.
Qed.

Lemma file_roomy : roomy file_abs ∧ spare file_abs.
Proof. split; (split; [reflexivity|intros p d b n; cbn [a_pins file_abs]; by rewrite lookup_empty]). Qed.

Lemma file_zone_inv c : repr 64 c file_abs → zone_inv 64 769 (small_fs c) 0 small_super file_abs small_free.
Proof.
  intros HR. split; [apply lookup_singleton_eq|reflexivity|unfold NR_SUPERS; lia|lia|exact HR|apply file_roomy|exact file_map_ok|reflexivity|by apply file_bits|
    cbn; lia| |cbn; split; [lia|intros n Hn; lia]].
  intros z. unfold small_free. rewrite elem_of_list_to_set, elem_of_seqZ. change (s_firstdatazone small_super) with 10. change (s_zones small_super) with 50.
  split; [intros Hz; split; [lia|]; rewrite file_bits by lia; apply Z.eqb_neq; lia|lia].
Qed.

Lemma file_layout : layout 64 small_super (a_disk file_abs).
Proof.
  split; change (s_log_zone_size small_super) with 0; unfold data_zone, zblk; change (s_log_zone_size small_super) with 0; change (s_firstdatazone small_super) with 10;
    change (s_zones small_super) with 50; change (s_dev small_super) with 769; try done; intros z.
  - intros Hz. unfold ind_fits. change (s_version small_super =? V1) with true. cbn match. lia.
  - intros k Hz Hk. rewrite Z.shiftl_0_r. split_and!; done || lia.
  - intros k Hz Hk. rewrite Z.shiftl_0_r, file_image_block by lia. destruct (_ || _) eqn:E; [exact map_image_wf|exact zeros_wf].
Qed.

Lemma empty_izone k : izone empty_inode k = NO_ZONE.
Proof. unfold izone. change (i_zone empty_inode) with (replicate 10 0). destruct (replicate 10 0 !! Z.to_nat k) as [v|] eqn:E; [|done]. by apply lookup_replicate in E as [-> _]. Qed.

Lemma empty_zat dsk n : zat small_super dsk empty_inode n = NO_ZONE.
Proof. destruct n; cbn [zat]; unfold single_zone, double_zone; by rewrite empty_izone. Qed.

Lemma empty_place dsk q : at_place small_super dsk empty_inode q = NO_ZONE.
Proof. destruct q as [[n|] k]; cbn [at_place]; [by rewrite empty_zat|apply empty_izone]. Qed.

Lemma file_state_inv c : repr 64 c file_abs → file_inv 64 769 5 (file_state c) empty_inode 0 small_super file_abs small_free.
Proof.
  intros HR. split; [split|].
  - apply lookup_singleton_eq.
  - exact (file_zone_inv c HR).
  - exact file_layout.
  - apply file_roomy.
  - reflexivity.
  - reflexivity.
  - reflexivity.
  - reflexivity.
  - split; [reflexivity|..].
    + intros n _. left. apply empty_zat.
    + intros n _. rewrite empty_zat. unfold small_free. rewrite elem_of_list_to_set, elem_of_seqZ. unfold NO_ZONE. lia.
    + intros n m _ _ _ H. by rewrite empty_zat in H.
    + intros q _. left. apply empty_place.
Qed.

(** A zone is put into a position behind the double indirect block, and asked for. *)
Definition file_client (h : list Z) : fop :=
  match h with [] => FSet (600 * BLOCK_SIZE) 40 | [_] => FMap (600 * BLOCK_SIZE) | _ => FMap 0 end.

Lemma file_map_refines_witness : ∃ c st' m', buf_pool file_bss = Ok c () ∧ fdrive 5 3 file_client [] (file_state c) = Ok st' [0; 40; 0] ∧
  ftrace small_super file_client 3 (λ _, NO_ZONE, size small_free) [] m' [0; 40; 0].
Proof.
  destruct file_ready as (c & Hr & HR). exists c.
  assert (Hm : is_map small_super file_abs empty_inode (λ _, NO_ZONE)) by (intros n _; apply empty_place).
  destruct (file_map_refines 64 769 5 3 file_client (file_state c) empty_inode 0 small_super file_abs small_free (λ _, NO_ZONE) [] (file_state_inv c HR) Hm)
    as (st' & h' & m' & ip' & zs & a' & free' & Hrun & Ht & _).
  - intros k m' h' _ _. destruct h' as [|? [|? ?]]; cbn [file_client flegal]; repeat split; try (right; split); vm_compute; first [reflexivity|intros E; discriminate E].
  - assert (Hh : match buf_pool file_bss with Ok c _ => match fdrive 5 3 file_client [] (file_state c) with Ok _ h => h | _ => [] end | _ => [] end = [0; 40; 0]) by (vm_compute; reflexivity).
    rewrite Hr, Hrun in Hh. rewrite Hh in *. exists st', (m', size free'). split; [exact Hr|]. split; [exact Hrun|exact Ht].
Defined.
