(* ===== verification/FsIcopy.v ===== *)
(** * Inodes on disk

    What [rw_inode] writes it reads back, in both versions and byte orders of the
    file system, and the other inodes of the block are not touched. *)

From stdpp Require Import base gmap strings pretty numbers fin_maps functions list.
From S2P Require Import Prelude FsCache FsChains FsCoherence FsSpec FsMap FsBitmap FsInode FsBytes FsFile.
Local Open Scope Z_scope.

(** ** Bytes outside the inode *)
Definition only_in (o n : nat) (d d' : block_data) : Prop := length d' = length d ∧ ∀ k, (k < o ∨ o + n ≤ k)%nat → d' !! k = d !! k.

Lemma only_in_refl o n d : only_in o n d d.
Proof. by split. Qed.
Lemma only_in_trans o n d1 d2 d3 : only_in o n d1 d2 → only_in o n d2 d3 → only_in o n d1 d3.
Proof. intros [L1 H1] [L2 H2]. split; [congruence|]. intros k Hk. by rewrite H2, H1. Qed.
Lemma only_in_weaken o n o' n' d d' : only_in o' n' d d' → (o ≤ o')%nat → (o' + n' ≤ o + n)%nat → only_in o n d d'.
Proof. intros [L H] Ho Hn. split; [done|]. intros k Hk. apply H. lia. Qed.
Lemma only_in_set8 o n d k v : (o ≤ k < o + n)%nat → only_in o n d (set8 d k v).
Proof. intros Hk. split; [apply length_set8|]. intros i Hi. unfold set8. by rewrite list_lookup_insert_ne by lia. Qed.
Lemma only_in_set16 o n d k v : (o ≤ k ∧ k + 1 < o + n)%nat → only_in o n d (set16 d k v).
Proof. intros Hk. split; [apply length_set16|]. intros i Hi. unfold set16. by rewrite !list_lookup_insert_ne by lia. Qed.
Lemma only_in_set32 o n d k v : (o ≤ k ∧ k + 3 < o + n)%nat → only_in o n d (set32 d k v).
Proof. intros Hk. unfold set32. eapply only_in_trans; apply only_in_set16; lia. Qed.

Lemma get8_only o n d d' k : only_in o n d d' → (k < o ∨ o + n ≤ k)%nat → get8 d' k = get8 d k.
Proof. intros [_ H]. apply H. Qed.
Lemma get16_only o n d d' k : only_in o n d d' → (k + 1 < o ∨ o + n ≤ k)%nat → get16 d' k = get16 d k.
Proof. intros [_ H] Hk. unfold get16. by rewrite !H by lia. Qed.
Lemma get32_only o n d d' k : only_in o n d d' → (k + 3 < o ∨ o + n ≤ k)%nat → get32 d' k = get32 d k.
Proof. intros H Hk. unfold get32. by rewrite !(get16_only o n d d') by (done || lia). Qed.

(** ** Zone numbers in a row *)
Lemma set_zones_only set d zs o w : (∀ d k v, only_in k w d (set d k v)) → only_in o (length zs * w) d (set_zones set d zs o w).
Proof.
  intros Hset. revert d o. induction zs as [|z zs IH]; intros d o; cbn [set_zones length]; [apply only_in_refl|].
  eapply only_in_trans; [eapply only_in_weaken; [apply (Hset d o z)|lia|lia]|eapply only_in_weaken; [apply IH|lia|lia]].
Qed.

Lemma get_zones_only get get' n o w : (∀ k, (o ≤ k ∧ k + w ≤ o + n * w)%nat → get' k = get k) → get_zones get' n o w = get_zones get n o w.
Proof.
  revert o. induction n as [|n IH]; intros o H; cbn [get_zones]; [done|]. rewrite H by lia. destruct (get o); cbn; [|done]. rewrite IH; [done|]. intros k Hk. apply H. lia.
Qed.

(** What is stored zone by zone is fetched again, if it is so for one zone. *)
Lemma set_get_zones (get : block_data → nat → option Z) set (P : Z → Prop) d zs o w :
  (∀ d k v, only_in k w d (set d k v)) → (∀ d d' k o n, only_in o n d d' → (k + w ≤ o ∨ o + n ≤ k)%nat → get d' k = get d k) →
  (∀ d k v, P v → (k + w ≤ length d)%nat → get (set d k v) k = Some v) → (o + length zs * w ≤ length d)%nat → Forall P zs →
  get_zones (get (set_zones set d zs o w)) (length zs) o w = Some zs.
Proof.
  intros Hset Hext Hone. revert d o. induction zs as [|z zs IH]; intros d o Hl HP; [done|]. apply Forall_cons in HP as [Hz HP]. cbn [set_zones length get_zones] in *.
  rewrite (Hext _ _ o (o + w)%nat (length zs * w)%nat (set_zones_only set (set d o z) zs (o + w) w Hset)) by lia. rewrite Hone by (done || lia). cbn. rewrite IH; [done| |done].
  rewrite (proj1 (Hset d o z)). lia.
Qed.

(** ** Values through the disk *)
Lemma conv2_u16 n v : conv2 n v = conv2 n (u16 v).
Proof.
  unfold conv2, u16. destruct (negb _).
  - change 0xFFFF with (Z.ones 16). rewrite !Z.land_ones by done. by rewrite Z.mod_mod.
  - rewrite !land_255, !Z.shiftr_div_pow2 by done. change (2 ^ 16) with (256 * 256). change (2 ^ 8) with 256. f_equal.
    + f_equal. rewrite Z.mod_mod_divide; [done|by exists 256].
    + pose proof (Z.mod_pos_bound v 256 ltac:(lia)). rewrite (Z.rem_mul_r v 256 256) by lia. replace (v mod 256 + 256 * (v / 256 mod 256)) with (v / 256 mod 256 * 256 + v mod 256) by lia.
      rewrite Z.div_add_l, (Z.div_small (v mod 256)), Z.add_0_r by lia. by rewrite Z.mod_mod.
Qed.

Lemma u16_range v : 0 ≤ u16 v < 65536.
Proof. unfold u16. by apply Z.mod_pos_bound. Qed.
Lemma u16_id v : 0 ≤ v < 65536 → u16 v = v.
Proof. apply Z.mod_small. Qed.
Lemma through16 n v : conv2 n (u16 (conv2 n v)) = u16 v.
Proof.
  rewrite (conv2_u16 n v). pose proof (conv2_range n _ (u16_range v)) as H. rewrite (u16_id _ H). apply conv2_twice, u16_range.
Qed.
Lemma s16_u16 v : - 2 ^ 15 ≤ v < 2 ^ 15 → s16 (u16 v) = v.
Proof. intros Hv. unfold s16, u16. rewrite Zplus_mod_idemp_l, Z.mod_small; lia. Qed.
Lemma s8_mod v : - 2 ^ 7 ≤ v < 2 ^ 7 → s8 (v mod 256) = v.
Proof. intros Hv. unfold s8. change 256 with (2 ^ 8). rewrite Zplus_mod_idemp_l, Z.mod_small; lia. Qed.
Lemma s8_u16 v : - 2 ^ 7 ≤ v < 2 ^ 7 → s8 (u16 v) = v.
Proof.
  intros Hv. rewrite <- (s8_mod v Hv) at 2. unfold s8, u16. f_equal. rewrite <- (Zplus_mod_idemp_l (v mod 2 ^ 16)), Z.mod_mod_divide by (by exists 256). done.
Qed.
Lemma through32 n v : - 2 ^ 31 ≤ v < 2 ^ 31 → conv4 n (s32 (u32 (conv4 n v))) = v.
Proof. intros Hv. rewrite s32_u32, s32_id by (by apply conv4_range). by apply conv4_twice. Qed.
Lemma through32u n v : 0 ≤ v < 2 ^ 32 → u32 (conv4 n (s32 (u32 (conv4 n (s32 v))))) = v.
Proof. intros Hv. rewrite through32 by apply s32_range. rewrite u32_s32. by apply u32_id. Qed.

(** ** An inode through the disk *)

(** The values its fields can have. *)
Record inode_typed (ip : inode) : Prop := {
  it_mode : 0 ≤ i_mode ip < 2 ^ 16;
  it_nlinks : - 2 ^ 7 ≤ i_nlinks ip < 2 ^ 7;
  it_uid : - 2 ^ 15 ≤ i_uid ip < 2 ^ 15;
  it_gid : - 2 ^ 7 ≤ i_gid ip < 2 ^ 7;
  it_size : 0 ≤ i_size ip < 2 ^ 32;
  it_atime : - 2 ^ 31 ≤ i_atime ip < 2 ^ 31;
  it_mtime : - 2 ^ 31 ≤ i_mtime ip < 2 ^ 31;
  it_ctime : - 2 ^ 31 ≤ i_ctime ip < 2 ^ 31;
  it_len : length (i_zone ip) = Z.to_nat V2_NR_TZONES;
  it_zones : Forall (λ z, 0 ≤ z < 2 ^ 32) (i_zone ip);
}.

(** What a slot that held [r0] holds after [r] has been read into it.  V1 has one
    time, and no tenth zone number. *)
Definition reread2 (r0 ip : inode) : inode :=
  r0 <| i_mode := i_mode ip |> <| i_uid := i_uid ip |> <| i_nlinks := i_nlinks ip |> <| i_gid := i_gid ip |> <| i_size := i_size ip |>
     <| i_atime := i_atime ip |> <| i_ctime := i_ctime ip |> <| i_mtime := i_mtime ip |> <| i_ndzones := V2_NR_DZONES |> <| i_nindirs := V2_INDIRECTS |> <| i_zone := i_zone ip |>.
Definition reread1 (r0 ip : inode) : inode :=
  r0 <| i_mode := i_mode ip |> <| i_uid := i_uid ip |> <| i_size := i_size ip |> <| i_mtime := i_mtime ip |> <| i_atime := i_mtime ip |> <| i_ctime := i_mtime ip |>
     <| i_nlinks := i_nlinks ip |> <| i_gid := i_gid ip |> <| i_ndzones := V1_NR_DZONES |> <| i_nindirs := V1_INDIRECTS |>
     <| i_zone ::= λ l, take 9 (i_zone ip) ++ drop 9 l |>.

Lemma new_through n d o r0 ip : inode_typed ip → (o + 64 ≤ length d)%nat → new_read n (new_write n d o ip) o r0 = Some (reread2 r0 ip).
Proof.
  intros [] Ho. unfold new_write. set (d8 := set32 _ (o + 16) _).
  assert (Hl8 : length d8 = length d) by (unfold d8; by autorewrite with bytes).
  assert (Hs : ∀ d k v, only_in k 4 d (set32 d k (conv4 n (s32 v)))) by (intros; apply only_in_set32; lia).
  pose proof (set_zones_only (λ d o z, set32 d o (conv4 n (s32 z))) d8 (i_zone ip) (o + 24) 4 Hs) as Hf. rewrite it_len0 in Hf. change (Z.to_nat V2_NR_TZONES * 4)%nat with 40%nat in Hf.
  assert (E1 : get16 d8 o = Some (u16 (conv2 n (i_mode ip)))) by (unfold d8; by autorewrite with bytes).
  assert (E2 : get16 d8 (o + 2) = Some (u16 (conv2 n (i_nlinks ip)))) by (unfold d8; by autorewrite with bytes).
  assert (E3 : get16 d8 (o + 4) = Some (u16 (conv2 n (i_uid ip)))) by (unfold d8; by autorewrite with bytes).
  assert (E4 : get16 d8 (o + 6) = Some (u16 (conv2 n (i_gid ip)))) by (unfold d8; by autorewrite with bytes).
  assert (E5 : get32 d8 (o + 8) = Some (u32 (conv4 n (s32 (i_size ip))))) by (unfold d8; by autorewrite with bytes).
  assert (E6 : get32 d8 (o + 12) = Some (u32 (conv4 n (i_atime ip)))) by (unfold d8; by autorewrite with bytes).
  assert (E7 : get32 d8 (o + 16) = Some (u32 (conv4 n (i_mtime ip)))) by (unfold d8; by autorewrite with bytes).
  assert (E8 : get32 d8 (o + 20) = Some (u32 (conv4 n (i_ctime ip)))) by (unfold d8; by autorewrite with bytes).
  unfold new_read. rewrite !(get16_only _ _ _ _ _ Hf), !(get32_only _ _ _ _ _ Hf) by lia. rewrite E1, E2, E3, E4, E5, E6, E7, E8. cbn [mbind option_bind].
  rewrite <- it_len0 at 1.
  rewrite (set_get_zones (λ d o, conv_zone n <$> get32 d o) (λ d o z, set32 d o (conv4 n (s32 z))) (λ z, 0 ≤ z < 2 ^ 32)); [..|rewrite it_len0, Hl8; change (Z.to_nat V2_NR_TZONES) with 10%nat; lia|done].
  - cbn [mbind option_bind]. f_equal. unfold reread2. rewrite !through16, (u16_id (i_mode ip)), s16_u16, !s8_u16, through32u, !through32 by lia. done.
  - done.
  - intros d1 d2 k o1 n1 H1 Hk. by rewrite (get32_only _ _ _ _ _ H1) by lia.
  - intros d1 k v Hv Hk. rewrite get32_set32 by lia. cbn. f_equal. by apply through32u.
Qed.

Lemma old_through n d o r0 ip : inode_typed ip → Forall (λ z, z < 65536) (take 9 (i_zone ip)) → (o + 32 ≤ length d)%nat →
  old_read n (old_write n d o ip) o r0 = Some (reread1 r0 ip).
Proof.
  intros [] Hz Ho. unfold old_write. change (Z.to_nat V1_NR_TZONES) with 9%nat. set (d6 := set8 _ (o + 12) _).
  assert (Hl6 : length d6 = length d) by (unfold d6; by autorewrite with bytes).
  assert (Hs : ∀ d k v, only_in k 2 d (set16 d k (conv2 n (s32 v)))) by (intros; apply only_in_set16; lia).
  assert (Ht : length (take 9 (i_zone ip)) = 9%nat) by (rewrite length_take, it_len0; done).
  pose proof (set_zones_only (λ d o z, set16 d o (conv2 n (s32 z))) d6 (take 9 (i_zone ip)) (o + 14) 2 Hs) as Hf. rewrite Ht in Hf.
  assert (E1 : get16 d6 o = Some (u16 (conv2 n (i_mode ip)))) by (unfold d6; by autorewrite with bytes).
  assert (E2 : get16 d6 (o + 2) = Some (u16 (conv2 n (i_uid ip)))) by (unfold d6; by autorewrite with bytes).
  assert (E3 : get32 d6 (o + 4) = Some (u32 (conv4 n (s32 (i_size ip))))) by (unfold d6; by autorewrite with bytes).
  assert (E4 : get32 d6 (o + 8) = Some (u32 (conv4 n (i_mtime ip)))) by (unfold d6; by autorewrite with bytes).
  assert (E5 : get8 d6 (o + 12) = Some (i_gid ip mod 256)) by (unfold d6; by autorewrite with bytes).
  assert (E6 : get8 d6 (o + 13) = Some (i_nlinks ip mod 256)) by (unfold d6; by autorewrite with bytes).
  unfold old_read. change (Z.to_nat V1_NR_TZONES) with 9%nat. rewrite !(get16_only _ _ _ _ _ Hf), !(get32_only _ _ _ _ _ Hf), !(get8_only _ _ _ _ _ Hf) by lia. rewrite E1, E2, E3, E4, E5, E6. cbn [mbind option_bind].
  replace 9%nat with (length (take 9 (i_zone ip))) at 1.
  rewrite (set_get_zones (λ d o, conv2 n <$> get16 d o) (λ d o z, set16 d o (conv2 n (s32 z))) (λ z, 0 ≤ z < 65536)); [..|rewrite Ht, Hl6; lia|].
  - cbn [mbind option_bind]. f_equal. unfold reread1. rewrite !through16, (u16_id (i_mode ip)), s16_u16, !s8_mod, through32u, !through32 by lia. done.
  - done.
  - intros d1 d2 k o1 n1 H1 Hk. by rewrite (get16_only _ _ _ _ _ H1) by lia.
  - intros d1 k v Hv Hk. rewrite get16_set16 by lia. cbn. rewrite s32_id by lia. by rewrite through16, u16_id.
  - apply Forall_forall. intros z Hin. rewrite Forall_forall in Hz, it_zones0. split; [apply it_zones0; eapply elem_of_take in Hin as (i & Hi & _); by eapply list_elem_of_lookup_2|by apply Hz].
Qed.

(** Nothing else is written. *)
Lemma new_write_only n d o ip : length (i_zone ip) = Z.to_nat V2_NR_TZONES → only_in o 64 d (new_write n d o ip).
Proof.
  intros Hl. unfold new_write. eapply only_in_trans; [|eapply only_in_weaken; [apply set_zones_only|lia|rewrite Hl; change (Z.to_nat V2_NR_TZONES) with 10%nat; lia]; intros; apply only_in_set32; lia].
  repeat (eapply only_in_trans; [|first [apply only_in_set32; lia|apply only_in_set16; lia]]). apply only_in_refl.
Qed.
Lemma old_write_only n d o ip : only_in o 32 d (old_write n d o ip).
Proof.
  unfold old_write. eapply only_in_trans; [|eapply only_in_weaken; [apply set_zones_only|lia|rewrite length_take; change (Z.to_nat V1_NR_TZONES) with 9%nat; lia]; intros; apply only_in_set16; lia].
  repeat (eapply only_in_trans; [|first [apply only_in_set32; lia|apply only_in_set16; lia|apply only_in_set8; lia]]). apply only_in_refl.
Qed.

Lemma new_read_only n d d' o o' r0 : only_in o 64 d d' → (o' + 64 ≤ o ∨ o + 64 ≤ o')%nat → new_read n d' o' r0 = new_read n d o' r0.
Proof.
  intros H Ho. unfold new_read. rewrite !(get16_only _ _ _ _ _ H), !(get32_only _ _ _ _ _ H) by lia.
  by rewrite (get_zones_only (λ k, conv_zone n <$> get32 d k) (λ k, conv_zone n <$> get32 d' k)) by (intros k Hk; change (Z.to_nat V2_NR_TZONES) with 10%nat in Hk; by rewrite (get32_only _ _ _ _ _ H) by lia).
Qed.
Lemma old_read_only n d d' o o' r0 : only_in o 32 d d' → (o' + 32 ≤ o ∨ o + 32 ≤ o')%nat → old_read n d' o' r0 = old_read n d o' r0.
Proof.
  intros H Ho. unfold old_read. rewrite !(get16_only _ _ _ _ _ H), !(get32_only _ _ _ _ _ H), !(get8_only _ _ _ _ _ H) by lia.
  by rewrite (get_zones_only (λ k, conv2 n <$> get16 d k) (λ k, conv2 n <$> get16 d' k)) by (intros k Hk; change (Z.to_nat V1_NR_TZONES) with 9%nat in Hk; by rewrite (get16_only _ _ _ _ _ H) by lia).
Qed.

(** Reading from a block of bytes always succeeds. *)
Lemma get_zones_some get n o w : (∀ k, (o ≤ k ∧ k + w ≤ o + n * w)%nat → is_Some (get k)) → is_Some (get_zones get n o w).
Proof.
  revert o. induction n as [|n IH]; intros o H; cbn [get_zones]; [by eexists|]. destruct (H o) as [z ->]; [lia|]. cbn. destruct (IH (o + w)%nat) as [zs ->]; [intros k Hk; apply H; lia|]. by eexists.
Qed.
Lemma get16_is_some d o : (o + 1 < length d)%nat → is_Some (get16 d o).
Proof. intros Ho. unfold get16. destruct (lookup_lt_is_Some_2 d o) as [x ->]; [lia|]. cbn. destruct (lookup_lt_is_Some_2 d (S o)) as [y ->]; [lia|]. by eexists. Qed.
Lemma get32_is_some d o : (o + 3 < length d)%nat → is_Some (get32 d o).
Proof. intros Ho. unfold get32. destruct (get16_is_some d o) as [x ->]; [lia|]. cbn. destruct (get16_is_some d (o + 2)) as [y ->]; [lia|]. by eexists. Qed.

Lemma new_read_some n d o r0 : (o + 64 ≤ length d)%nat → is_Some (new_read n d o r0).
Proof.
  intros Ho. unfold new_read. repeat (match goal with |- context [get16 d ?k ≫= _] => destruct (get16_is_some d k) as [? ->]; [lia|]; cbn [mbind option_bind] end).
  repeat (match goal with |- context [get32 d ?k ≫= _] => destruct (get32_is_some d k) as [? ->]; [lia|]; cbn [mbind option_bind] end).
  destruct (get_zones_some (λ k, conv_zone n <$> get32 d k) (Z.to_nat V2_NR_TZONES) (o + 24) 4) as [zs ->]; [|by eexists].
  intros k Hk. change (Z.to_nat V2_NR_TZONES) with 10%nat in Hk. apply fmap_is_Some, get32_is_some. lia.
Qed.
Lemma old_read_some n d o r0 : (o + 32 ≤ length d)%nat → is_Some (old_read n d o r0).
Proof.
  intros Ho. unfold old_read. repeat (match goal with |- context [get16 d ?k ≫= _] => destruct (get16_is_some d k) as [? ->]; [lia|]; cbn [mbind option_bind] end).
  repeat (match goal with |- context [get32 d ?k ≫= _] => destruct (get32_is_some d k) as [? ->]; [lia|]; cbn [mbind option_bind] end).
  unfold get8. repeat (match goal with |- context [d !! ?k ≫= _] => destruct (lookup_lt_is_Some_2 d k) as [? ->]; [lia|]; cbn [mbind option_bind] end).
  destruct (get_zones_some (λ k, conv2 n <$> get16 d k) (Z.to_nat V1_NR_TZONES) (o + 14) 2) as [zs ->]; [|by eexists].
  intros k Hk. change (Z.to_nat V1_NR_TZONES) with 9%nat in Hk. apply fmap_is_Some, get16_is_some. lia.
Qed.

(** ** By version *)
Section disk_inode.
Context (sp : super_block).

Definition ino_per_block : Z := if s_version sp =? V1 then V1_INODES_PER_BLOCK else V2_INODES_PER_BLOCK.
Definition ino_size : Z := if s_version sp =? V1 then V1_INODE_SIZE else V2_INODE_SIZE.
Definition ino_block (n : Z) : Z := (n - 1) / ino_per_block + (s_imap_blocks sp + s_zmap_blocks sp + 2).
Definition ino_off (n : Z) : nat := Z.to_nat (ino_size * ((n - 1) mod ino_per_block)).
Definition ino_read (d : block_data) (o : nat) (ip : inode) : option inode := (if s_version sp =? V1 then old_read else new_read) (s_native sp) d o ip.
Definition ino_write (d : block_data) (o : nat) (ip : inode) : block_data := (if s_version sp =? V1 then old_write else new_write) (s_native sp) d o ip.
Definition reread (r0 ip : inode) : inode := if s_version sp =? V1 then reread1 r0 ip else reread2 r0 ip.

(** The zone numbers of a V1 inode have 16 bits. *)
Definition ino_fits (ip : inode) : Prop := inode_typed ip ∧ ((s_version sp =? V1) = true → Forall (λ z, z < 65536) (take 9 (i_zone ip))).

Lemma ino_off_bound n d : wf_block d → (ino_off n + Z.to_nat ino_size ≤ length d)%nat.
Proof.
  intros [-> _]. unfold ino_off, ino_size, ino_per_block. destruct (_ =? V1); [pose proof (Z.mod_pos_bound (n - 1) V1_INODES_PER_BLOCK ltac:(done)) as H|pose proof (Z.mod_pos_bound (n - 1) V2_INODES_PER_BLOCK ltac:(done)) as H].
  - change V1_INODES_PER_BLOCK with 32 in *. unfold V1_INODE_SIZE, BLOCK_SIZE. lia.
  - change V2_INODES_PER_BLOCK with 16 in *. unfold V2_INODE_SIZE, BLOCK_SIZE. lia.
Qed.

Lemma ino_through n d r0 ip : wf_block d → ino_fits ip → ino_read (ino_write d (ino_off n) ip) (ino_off n) r0 = Some (reread r0 ip).
Proof.
  intros Hd [Ht Hz]. pose proof (ino_off_bound n d Hd) as Ho. unfold ino_read, ino_write, reread, ino_size in *. destruct (_ =? V1); [apply old_through; auto|by apply new_through].
Qed.

Lemma ino_read_some n d r0 : wf_block d → is_Some (ino_read d (ino_off n) r0).
Proof. intros Hd. pose proof (ino_off_bound n d Hd) as Ho. unfold ino_read, ino_size in *. destruct (_ =? V1); [by apply old_read_some|by apply new_read_some]. Qed.

Lemma ino_apart n m : n ≠ m → ino_block n = ino_block m → (ino_off n + Z.to_nat ino_size ≤ ino_off m ∨ ino_off m + Z.to_nat ino_size ≤ ino_off n)%nat.
Proof.
  intros Hne. unfold ino_block, ino_off, ino_size, ino_per_block. destruct (_ =? V1).
  - change V1_INODES_PER_BLOCK with 32. unfold V1_INODE_SIZE. intros E. pose proof (Z.div_mod (n - 1) 32). pose proof (Z.div_mod (m - 1) 32). pose proof (Z.mod_pos_bound (n - 1) 32). pose proof (Z.mod_pos_bound (m - 1) 32). lia.
  - change V2_INODES_PER_BLOCK with 16. unfold V2_INODE_SIZE. intros E. pose proof (Z.div_mod (n - 1) 16). pose proof (Z.div_mod (m - 1) 16). pose proof (Z.mod_pos_bound (n - 1) 16). pose proof (Z.mod_pos_bound (m - 1) 16). lia.
Qed.

Lemma ino_read_other n m d r0 ip : length (i_zone ip) = Z.to_nat V2_NR_TZONES → n ≠ m → ino_block n = ino_block m → ino_read (ino_write d (ino_off n) ip) (ino_off m) r0 = ino_read d (ino_off m) r0.
Proof.
  intros Hl Hne Hb. pose proof (ino_apart n m Hne Hb) as Ho. unfold ino_read, ino_write, ino_size in *.
  destruct (_ =? V1); [eapply old_read_only; [apply old_write_only|]|eapply new_read_only; [by apply new_write_only|]]; change (Z.to_nat V1_INODE_SIZE) with 32%nat in *; change (Z.to_nat V2_INODE_SIZE) with 64%nat in *; lia.
Qed.

Lemma ino_write_wf d o ip : wf_block d → wf_block (ino_write d o ip).
Proof.
  intros Hd. assert (Hsz : ∀ set zs w d o, (∀ d o v, wf_block d → wf_block (set d o v)) → wf_block d → wf_block (set_zones set d zs o w)).
  { intros set zs w. induction zs as [|z zs IH]; intros d0 o0 Hs Hd0; cbn [set_zones]; [done|]. apply IH; auto. }
  unfold ino_write, old_write, new_write. destruct (_ =? V1); apply Hsz; intros; repeat lazymatch goal with |- wf_block (set8 _ _ _) => apply set8_wf | |- wf_block (set16 _ _ _) => apply set16_wf | |- wf_block (set32 _ _ _) => apply set32_wf end; done.
Qed.
End disk_inode.

(** ** [rw_inode] *)
Section rw.
Context {D : Driver} {RD : Reliable D}.
Context (nr dev : Z).
Implicit Types st : istate.

(** The inode [n] of the device has a place in a block of bytes. *)
Record ino_ok (sp : super_block) (a : acache) (n : Z) : Prop := {
  io_num : 1 ≤ n < 2 ^ 16;
  io_per : s_inodes_per_block sp = ino_per_block sp;
  io_maps : 0 ≤ s_imap_blocks sp ∧ 0 ≤ s_zmap_blocks sp;
  io_valid : valid nr dev (ino_block sp n);
  io_wf : wf_block (a_disk a dev (ino_block sp n));
}.

Lemma ino_per_pos sp : 0 < ino_per_block sp.
Proof. unfold ino_per_block. by destruct (_ =? V1). Qed.

(** The block and the offset that the code computes. *)
Lemma ino_addr sp a n : ino_ok sp a n →
  u32 (u32 (n - 1) / s_inodes_per_block sp + u32 (s_imap_blocks sp + s_zmap_blocks sp + 2)) = ino_block sp n ∧ (s_inodes_per_block sp =? 0) = false ∧
  Z.to_nat (if s_version sp =? V1 then V1_INODE_SIZE * (u32 (n - 1) mod V1_INODES_PER_BLOCK) else V2_INODE_SIZE * (u32 (n - 1) mod V2_INODES_PER_BLOCK)) = ino_off sp n.
Proof.
  intros [H1 H2 H3 (_ & _ & H4 & _) _]. pose proof (ino_per_pos sp) as Hp. rewrite (u32_id (n - 1)) by lia. rewrite H2. unfold ino_block in *.
  assert (0 ≤ (n - 1) / ino_per_block sp) by (apply Z.div_pos; lia). rewrite (u32_id (_ + _ + 2)) by lia. split; [apply u32_id; lia|]. split; [apply Z.eqb_neq; lia|].
  unfold ino_off, ino_size, ino_per_block. by destruct (_ =? V1).
Qed.

(** The blocks of inodes lie behind the zone map. *)
Lemma ino_not_map sp a n : ino_ok sp a n → ¬ (map_start sp ZMAP ≤ ino_block sp n < map_start sp ZMAP + map_blocks sp ZMAP).
Proof.
  intros [H1 H2 H3 (_ & _ & H4 & _) _]. pose proof (ino_per_pos sp) as Hp. assert (0 ≤ (n - 1) / ino_per_block sp) by (apply Z.div_pos; lia).
  unfold map_start, map_blocks, ino_block, SUPER_BLOCK in *. cbn [Z.eqb ZMAP IMAP]. rewrite !u32_id by lia. lia.
Qed.

(** A buffer in use gets new bytes, marked as dirty before. *)
Lemma use_restore s a p d b n v : repr nr s a → a_pins a !! p = Some (d, b, n) →
  ∃ s1 s2, st_buf p (λ x, x <| b_dirt := DIRTY |>) s = Ok s1 () ∧ (∃ x, bufs s1 !! p = Some x ∧ b_data x = a_disk a d b) ∧
    (∀ g, g (a_disk a d b) = v → st_buf p (λ x, x <| b_data ::= g |>) s1 = Ok s2 ()) ∧ repr nr s2 (mk_acache (cset (a_disk a) d b v) (a_pins a)).
Proof.
  intros HR Hp. destruct (pin_data nr _ _ _ _ _ _ HR Hp) as (x & Hx & Ed & Edat). assert (Hw : ∃ s2, write_buf p v s = Ok s2 ()) by (eexists; unfold write_buf; by apply st_buf_ok). destruct Hw as [s2 Hw].
  eexists _, s2. split; [by apply st_buf_ok|]. split; [eexists; split; [apply lookup_insert_eq|done]|]. split; [|by eapply use_write].
  intros g Hg. erewrite st_buf_ok by (apply lookup_insert_eq). rewrite <- Hw. unfold write_buf. erewrite st_buf_ok by done. f_equal. unfold upd. cbn. rewrite insert_insert_eq. do 3 f_equal. by rewrite Edat, Hg.
Qed.

Section at_state.
Context st (i : Z) (sp : super_block) (a : acache) (free : gset Z) (Hz : zone_inv nr dev (fsys st) i sp a free).

Lemma get_ino_block n : ino_ok sp a n →
  ∃ (c : cache) p k, get_block dev (ino_block sp n) NORMAL (fs_cache (fsys st)) = Ok c p ∧ (k = 0 ∧ a_pins a !! p = None ∨ 0 < k ∧ a_pins a !! p = Some (dev, ino_block sp n, k)) ∧
    repr nr c (mk_acache (a_disk a) (<[p := (dev, ino_block sp n, k + 1)]> (a_pins a))).
Proof.
  intros Hi. destruct (use_get nr _ a dev (ino_block sp n) (zi_repr _ _ _ _ _ _ _ Hz) (io_valid _ _ _ Hi) (zi_room _ _ _ _ _ _ _ Hz)) as (c & p & k & x & Hr & _ & _ & Hpk & HR).
  exists c, p, k. split; [done|]. split; [by apply (pick_cases _ _ _ _ _ _ _ (zi_repr _ _ _ _ _ _ _ Hz))|done].
Qed.

(** The new contents of the inode table and of the cache. *)
Definition put_both (q : Z) (ip : inode) (c : cache) : istate := (with_cache st c) <| inodes ::= <[q := ip]> |>.

Lemma rw_read_spec q ip : inodes st !! q = Some ip → i_dev ip = dev → ino_ok sp a (i_num ip) →
  ∃ c ip', ino_read sp (a_disk a dev (ino_block sp (i_num ip))) (ino_off sp (i_num ip)) (ip <| i_sp := Some i |>) = Some ip' ∧
    rw_inode q READING st = Ok (put_both q (ip' <| i_dirt := CLEAN |>) c) () ∧ repr nr c a.
Proof.
  intros Hq Hd Hi. destruct (ino_read_some sp (i_num ip) _ (ip <| i_sp := Some i |>) (io_wf _ _ _ Hi)) as [ip' Hip']. destruct (get_super_spec nr dev _ _ _ _ _ Hz) as [Hgs Hld].
  destruct (ino_addr _ _ _ Hi) as (Eb & E0 & Eo). destruct (get_ino_block _ Hi) as (c1 & p & k & Hr1 & Hk & HR1).
  destruct (pin_data nr _ _ _ _ _ _ HR1 (lookup_insert_eq _ _ _)) as (x & Hx & _ & Edat).
  destruct (use_put nr c1 _ (a_pins a) p dev _ k INODE_BLOCK HR1 eq_refl Hk) as (c2 & Hr2 & HR2). exists c2, ip'. split; [done|]. split; [|by destruct a].
  unfold rw_inode. rewrite (bind_ok _ _ _ _ _ (ld_inode_ok _ _ _ Hq)), Hd. rewrite (bind_ok _ _ _ _ _ (in_fs_ok _ _ _ _ Hgs)). replace (st <| fsys := fsys st |>) with st by (by destruct st).
  rewrite (bind_ok _ _ _ _ _ (in_fs_ok _ _ _ _ Hld)). replace (st <| fsys := fsys st |>) with st by (by destruct st).
  rewrite (bind_ok _ _ _ _ _ (st_inode_ok _ _ _ _ Hq)). cbv zeta. rewrite E0, Eb, ret_bind, Eo.
  erewrite bind_ok; [|apply in_buf_ok; exact Hr1]. change (READING =? WRITING) with false. cbn match. rewrite ret_bind.
  rewrite (bind_ok _ _ _ (put_both q ip' c1) ()).
  - erewrite bind_ok; [|apply in_buf_ok; exact Hr2]. erewrite st_inode_ok; [|apply lookup_insert_eq]. f_equal. unfold put_both, with_cache, upd. cbn. by rewrite insert_insert_eq.
  - unfold icopy. erewrite bind_ok; [|apply ld_inode_ok, lookup_insert_eq]. erewrite bind_ok; [|apply in_buf_ok, ld_buf_ok, Hx]. rewrite Edat. change (READING =? READING) with true. cbn match. cbn [a_disk].
    fold (ino_read sp (a_disk a dev (ino_block sp (i_num ip))) (ino_off sp (i_num ip)) (ip <| i_sp := Some i |>)). rewrite Hip'. cbn [deref]. rewrite ret_bind.
    erewrite st_inode_ok; [|apply lookup_insert_eq]. f_equal. unfold put_both, with_cache, upd. cbn. by rewrite insert_insert_eq.
Qed.

(** The times that wait to be updated. *)
Definition touched (now : Z) (ip : inode) : inode :=
  if i_update ip =? 0 then ip
  else ip <| i_atime ::= λ t, if TEST_BIT (i_update ip) ATIME then now else t |> <| i_ctime ::= λ t, if TEST_BIT (i_update ip) CTIME then now else t |>
          <| i_mtime ::= λ t, if TEST_BIT (i_update ip) MTIME then now else t |> <| i_update := 0 |>.

Lemma update_times_ok st1 q ip : inodes st1 !! q = Some ip → inode_super ip st1 = Ok st1 sp → s_rd_only sp = 0 → i_update ip ≠ 0 → clock_status st1 = FS_OK →
  update_times q st1 = Ok (st1 <| inodes ::= <[q := touched (clock_now st1) ip]> |>) ().
Proof.
  intros Hq Hs Hrd Hu Hclk. unfold update_times, clock_time, touched. rewrite (bind_ok _ _ _ _ _ (ld_inode_ok _ _ _ Hq)), (bind_ok _ _ _ _ _ Hs), Hrd, (proj2 (Z.eqb_neq _ _) Hu). cbn [Z.eqb negb].
  rewrite (bind_ok _ _ st1 st1 (clock_now st1)) by (rewrite (bind_ok _ _ _ _ _ (gets_ok _ _)), Hclk; done).
  destruct (TEST_BIT _ ATIME), (TEST_BIT _ CTIME), (TEST_BIT _ MTIME); repeat first [rewrite ret_bind | erewrite bind_ok; [|apply st_inode_ok; first [exact Hq|apply lookup_insert_eq]]];
    (erewrite st_inode_ok; [|first [exact Hq|apply lookup_insert_eq]]); f_equal; unfold upd; cbn; rewrite ?insert_insert_eq; by destruct ip.
Qed.

Lemma rw_write_spec q ip : inodes st !! q = Some ip → i_dev ip = dev → ino_ok sp a (i_num ip) → clock_status st = FS_OK ∨ i_update ip = 0 →
  let ip1 := touched (clock_now st) (ip <| i_sp := Some i |>) in
  let b := ino_block sp (i_num ip) in
  ∃ c, rw_inode q WRITING st = Ok (put_both q (ip1 <| i_dirt := CLEAN |>) c) () ∧
    repr nr c (mk_acache (cset (a_disk a) dev b (ino_write sp (a_disk a dev b) (ino_off sp (i_num ip)) ip1)) (a_pins a)).
Proof.
  intros Hq Hd Hi Hclk ip1 b. destruct (get_super_spec nr dev _ _ _ _ _ Hz) as [Hgs Hld]. pose proof (zi_write _ _ _ _ _ _ _ Hz) as Hrd.
  destruct (ino_addr _ _ _ Hi) as (Eb & E0 & Eo). destruct (get_ino_block _ Hi) as (c1 & p & k & Hr1 & Hk & HR1). fold b in Eb, Hr1, Hk, HR1.
  destruct (use_restore c1 _ p dev b (k + 1) (ino_write sp (a_disk a dev b) (ino_off sp (i_num ip)) ip1) HR1 (lookup_insert_eq _ _ _)) as (c2 & c3 & Hr2 & (x & Hx & Edat) & Hr3 & HR3). cbn [a_disk a_pins] in *.
  destruct (use_put nr c3 _ (a_pins a) p dev _ k INODE_BLOCK HR3 eq_refl Hk) as (c4 & Hr4 & HR4). exists c4. split; [|done].
  unfold rw_inode. rewrite (bind_ok _ _ _ _ _ (ld_inode_ok _ _ _ Hq)), Hd. rewrite (bind_ok _ _ _ _ _ (in_fs_ok _ _ _ _ Hgs)). replace (st <| fsys := fsys st |>) with st by (by destruct st).
  rewrite (bind_ok _ _ _ _ _ (in_fs_ok _ _ _ _ Hld)). replace (st <| fsys := fsys st |>) with st by (by destruct st).
  rewrite (bind_ok _ _ _ _ _ (st_inode_ok _ _ _ _ Hq)). cbv zeta. rewrite E0, Eb, ret_bind, Eo, Hrd.
  erewrite bind_ok; [|apply in_buf_ok; exact Hr1]. change (WRITING =? WRITING) with true. cbn match. cbn [Z.eqb].
  rewrite (bind_ok _ _ _ (put_both q ip1 c2) ()).
  - rewrite (bind_ok _ _ _ (put_both q ip1 c3) ()).
    + erewrite bind_ok; [|apply in_buf_ok; exact Hr4]. erewrite st_inode_ok; [|apply lookup_insert_eq]. f_equal. unfold put_both, with_cache, upd. cbn. by rewrite insert_insert_eq.
    + unfold icopy. erewrite bind_ok; [|apply ld_inode_ok, lookup_insert_eq]. erewrite bind_ok; [|apply in_buf_ok, ld_buf_ok, Hx]. change (WRITING =? READING) with false. cbn match.
      erewrite in_buf_ok; [|apply Hr3; reflexivity]. done.
  - erewrite bind_ok; [|apply ld_inode_ok, lookup_insert_eq].
    rewrite (bind_ok _ _ _ (put_both q ip1 c1) ()); [erewrite in_buf_ok; [|exact Hr2]; done|]. unfold ip1. destruct (i_update (ip <| i_sp := Some i |>) =? 0) eqn:Eu; cbn [negb].
    + unfold touched. rewrite Eu. done.
    + erewrite (update_times_ok _ q (ip <| i_sp := Some i |>)); [|apply lookup_insert_eq| |exact Hrd|by apply Z.eqb_neq|].
      * f_equal. unfold put_both, with_cache, upd. cbn. by rewrite insert_insert_eq.
      * unfold inode_super. change (i_sp (ip <| i_sp := Some i |>)) with (Some i). cbn [notnull]. rewrite ret_bind.
        erewrite in_fs_ok; [|unfold ld_super; rewrite (bind_ok _ _ _ _ _ (gets_ok _ _)); apply deref_ok, (zi_super _ _ _ _ _ _ _ Hz)]. done.
      * destruct Hclk as [Hclk|Hclk]; [exact Hclk|]. apply Z.eqb_neq in Eu. by destruct Eu.
Qed.
End at_state.

Lemma touched_fits sp now ip : ino_fits sp ip → - 2 ^ 31 ≤ now < 2 ^ 31 → ino_fits sp (touched now ip).
Proof.
  intros [[] Hz] Hn. unfold touched. destruct (_ =? 0); [by split|]. split; [|exact Hz]. split; try done; cbn; by destruct (TEST_BIT _ _).
Qed.

Lemma touched_same now ip : i_num (touched now ip) = i_num ip ∧ i_dev (touched now ip) = i_dev ip.
Proof. unfold touched. by destruct (_ =? 0). Qed.

(** C33: An inode written by [rw_inode] is read back by [rw_inode], into whatever
    slot of the table, with its type, owner, size, links and zone numbers and its
    times (V1 keeps one time only), those that were waiting to be updated set to the
    clock, which must answer when there are any; and reading any other inode of the device, of the same block too, gives
    what it gave before.  This holds in both versions and both byte orders of the
    file system, though V1 stores links and group in a byte and zones in 16 bits. *)
Theorem inode_roundtrip st p ip i sp a free : zone_inv nr dev (fsys st) i sp a free → inodes st !! p = Some ip → i_dev ip = dev → ino_ok sp a (i_num ip) →
  ino_fits sp ip → clock_status st = FS_OK ∨ i_update ip = 0 → - 2 ^ 31 ≤ clock_now st < 2 ^ 31 →
  let ip1 := (touched (clock_now st) (ip <| i_sp := Some i |>)) <| i_dirt := CLEAN |> in
  ∃ st1, rw_inode p WRITING st = Ok st1 () ∧ inodes st1 = <[p := ip1]> (inodes st) ∧
    ∀ q iq, inodes st1 !! q = Some iq → i_dev iq = dev →
      (i_num iq = i_num ip → ∃ st2, rw_inode q READING st1 = Ok st2 () ∧
         inodes st2 = <[q := (reread sp iq ip1) <| i_sp := Some i |> <| i_dirt := CLEAN |>]> (inodes st1)) ∧
      (i_num iq ≠ i_num ip → ino_ok sp a (i_num iq) → ∃ st2 st2' iq', rw_inode q READING st = Ok st2 () ∧ rw_inode q READING st1 = Ok st2' () ∧
         inodes st2 !! q = Some iq' ∧ inodes st2' !! q = Some iq').
Proof.
  intros Hz Hp Hd Hi Hfit Hst Hclk ip1. destruct (rw_write_spec st i sp a free Hz p ip Hp Hd Hi Hst) as (c & Hr & HR). cbn zeta in HR. set (ip0 := touched _ _) in *. set (b := ino_block sp (i_num ip)) in *.
  set (a1 := mk_acache _ (a_pins a)) in HR. eexists. split; [exact Hr|]. split; [done|]. set (st1 := put_both _ _ _ _).
  assert (Hfit0 : ino_fits sp ip0) by (apply touched_fits; [destruct Hfit as [[] ?]; split; [by split|done]|done]).
  assert (Hz1 : zone_inv nr dev (fsys st1) i sp a1 free).
  { apply (zone_inv_cache nr dev (fsys st) i sp a free c a1 Hz HR); [eapply roomy_pins; [reflexivity|apply Hz]|]. intros blk Hb. cbn. unfold cset. rewrite decide_False; [done|]. intros [_ ->]. by apply (ino_not_map sp a (i_num ip)). }
  assert (Hok : ∀ n, ino_ok sp a n → ino_ok sp a1 n).
  { intros n [H1 H2 H3 H4 H5]. split; try done. cbn. unfold cset. case_decide; [|done]. apply ino_write_wf, Hi. }
  intros q iq Hq Hdq. split.
  - intros En. assert (Hiq : ino_ok sp a1 (i_num iq)) by (rewrite En; by apply Hok). destruct (rw_read_spec st1 i sp a1 free Hz1 q iq Hq Hdq Hiq) as (c2 & iq' & Hrd & Hr2 & _).
    rewrite En in Hrd. cbn [a_disk a1] in Hrd. unfold cset in Hrd. rewrite decide_True in Hrd by done. rewrite ino_through in Hrd by (done || apply Hi). injection Hrd as <-.
    eexists. split; [exact Hr2|]. unfold put_both, with_cache, upd. cbn. f_equal. unfold ip1, reread. by destruct (_ =? V1).
  - intros En Hiq. assert (Hqp : q ≠ p).
    { intros ->. apply En. change (inodes st1) with (<[p := ip1]> (inodes st)) in Hq. rewrite lookup_insert_eq in Hq. injection Hq as <-. exact (proj1 (touched_same (clock_now st) (ip <| i_sp := Some i |>))). }
    assert (Hq0 : inodes st !! q = Some iq) by (change (inodes st1) with (<[p := ip1]> (inodes st)) in Hq; by rewrite lookup_insert_ne in Hq).
    destruct (rw_read_spec st i sp a free Hz q iq Hq0 Hdq Hiq) as (c2 & iq2 & Hrd2 & Hr2 & _). destruct (rw_read_spec st1 i sp a1 free Hz1 q iq Hq Hdq (Hok _ Hiq)) as (c3 & iq3 & Hrd3 & Hr3 & _).
    assert (iq3 = iq2) as ->.
    { cbn [a_disk a1] in Hrd3. unfold cset in Hrd3. case_decide as E; [|congruence]. destruct E as [_ E]. rewrite ino_read_other in Hrd3; [|apply Hfit0|congruence|done]. rewrite E in Hrd2. fold b in Hrd2. congruence. }
    eexists _, _, _. split; [exact Hr2|]. split; [exact Hr3|]. split; apply lookup_insert_eq.
Qed.
End rw.

(** ** An inode of the small file system *)
Definition full_inode : inode := mk_inode 0x81ED 2 (-3) 7 123456 10 20 30 [11; 12; 13; 14; 15; 16; 17; 18; 0; 0] 769 3 1 V1_NR_DZONES V1_INDIRECTS None DIRTY 0 0 0 MTIME.
Definition blank_inode : inode := mk_inode 0 0 0 0 0 0 0 0 (replicate 10 0) 769 3 1 0 0 None CLEAN 0 0 0 0.
Definition ino_state (c : cache) : istate := mk_istate (small_fs c) {[5 := full_inode; 6 := blank_inode]} 0 0 FS_OK 999.

Lemma inode_roundtrip_witness : ∃ c st1 st2 r, buf_pool file_bss = Ok c () ∧ rw_inode 5 WRITING (ino_state c) = Ok st1 () ∧ rw_inode 6 READING st1 = Ok st2 () ∧
  inodes st2 !! 6 = Some r ∧ i_size r = 123456 ∧ i_uid r = -3 ∧ i_mtime r = 999 ∧ i_zone r = i_zone full_inode.
Proof.
  destruct file_ready as (c & Hr & HR). exists c.
  destruct (inode_roundtrip 64 769 (ino_state c) 5 full_inode 0 small_super file_abs small_free (file_zone_inv c HR)) as (st1 & Hr1 & Hi1 & Hq).
  - reflexivity.
  - reflexivity.
  - change (i_num full_inode) with 3. split; [lia|reflexivity|cbn; lia| |].
    + change (ino_block small_super 3) with 4. split_and!; done || lia.
    + change (ino_block small_super 3) with 4. rewrite file_image_block by lia. exact zeros_wf.
  - split; [split; cbn; try lia; [reflexivity|repeat constructor; lia]|]. intros _. repeat constructor; lia.
  - by left.
  - cbn; lia.
  - destruct (proj1 (Hq 6 blank_inode ltac:(rewrite Hi1; reflexivity) eq_refl) eq_refl) as (st2 & Hr2 & Hi2).
    eexists st1, st2, _. split; [exact Hr|]. split; [exact Hr1|]. split; [exact Hr2|]. split; [rewrite Hi2; apply lookup_insert_eq|]. repeat split; reflexivity.
Defined.
