(* ===== verification/FsTable.v ===== *)
(** * The inode table

    The table is a write-back cache of the inodes of a device: as long as no file is
    deleted, and no inode is a pipe, the slot of an inode shows what was last stored in
    that inode, times apart, whatever sequence of [get_inode], [dup_inode] and
    [put_inode] calls the clients make. *)

From stdpp Require Import base gmap strings pretty numbers fin_maps functions list.
From S2P Require Import Prelude FsCache FsChains FsCoherence FsSpec FsMap FsBitmap FsInode FsBytes FsFile FsIcopy.
Local Open Scope Z_scope.

(** ** What the disk keeps of an inode *)

(** All but the times, which change by themselves, and the tenth zone of V1. *)
Record iview := mk_iview {
  v_mode : Z;
  v_nlinks : Z;
  v_uid : Z;
  v_gid : Z;
  v_size : Z;
  v_zones : list Z;
}.

Section views.
Context (sp : super_block).

Definition nr_tzones : nat := if s_version sp =? V1 then 9 else 10.
Definition view (ip : inode) : iview := mk_iview (i_mode ip) (i_nlinks ip) (i_uid ip) (i_gid ip) (i_size ip) (take nr_tzones (i_zone ip)).

(** Storing new values in the fields of a slot. *)
Definition put_view (w : iview) (ip : inode) : inode :=
  ip <| i_mode := v_mode w |> <| i_nlinks := v_nlinks w |> <| i_uid := v_uid w |> <| i_gid := v_gid w |> <| i_size := v_size w |>
     <| i_zone ::= λ l, v_zones w ++ drop (length (v_zones w)) l |> <| i_dirt := DIRTY |>.

(** Values that fit into the fields, on disk too. *)
Record view_ok (w : iview) : Prop := {
  vo_mode : 0 ≤ v_mode w < 2 ^ 16;
  vo_nlinks : - 2 ^ 7 ≤ v_nlinks w < 2 ^ 7;
  vo_uid : - 2 ^ 15 ≤ v_uid w < 2 ^ 15;
  vo_gid : - 2 ^ 7 ≤ v_gid w < 2 ^ 7;
  vo_size : 0 ≤ v_size w < 2 ^ 32;
  vo_len : length (v_zones w) = nr_tzones;
  vo_zones : Forall (λ z, 0 ≤ z < if s_version sp =? V1 then 65536 else 2 ^ 32) (v_zones w);
}.

Lemma put_view_view w ip : view_ok w → view (put_view w ip) = w.
Proof. intros H. pose proof (vo_len _ H) as Hl. destruct w as [? ? ? ? ? zs]. unfold view. cbn in *. f_equal. rewrite <- Hl. by rewrite take_app_length. Qed.

Lemma put_view_fits w ip : view_ok w → ino_fits sp ip → ino_fits sp (put_view w ip).
Proof.
  intros [H1 H2 H3 H4 H5 H6 H7] [[] Hz]. unfold nr_tzones in H6. split; [split; try done; cbn|cbn; intros E].
  - rewrite length_app, length_drop, it_len. change (Z.to_nat V2_NR_TZONES) with 10%nat. destruct (_ =? V1); lia.
  - apply Forall_app. split; [|by apply Forall_drop]. eapply Forall_impl; [exact H7|]. intros z Hz'. cbn in Hz'. destruct (_ =? V1); lia.
  - rewrite E in *. rewrite <- H6, take_app_length. eapply Forall_impl; [exact H7|]. intros z Hz'. cbn in Hz'. lia.
Qed.
End views.

(** ** What is read *)
Lemma get_zones_all get (P : Z → Prop) n o w zs : (∀ k z, get k = Some z → P z) → get_zones get n o w = Some zs → length zs = n ∧ Forall P zs.
Proof.
  intros HP. revert o zs. induction n as [|n IH]; intros o zs; cbn [get_zones]; [intros [= <-]; by split|].
  destruct (get o) as [z|] eqn:E; [|done]. cbn. destruct (get_zones get n (o + w) w) as [l|] eqn:El; [|done]. cbn. intros [= <-]. destruct (IH _ _ El) as [<- Hl]. split; [done|]. constructor; [by eapply HP|done].
Qed.

Lemma conv2_any n w : 0 ≤ conv2 n w < 65536.
Proof. rewrite conv2_u16. apply conv2_range, u16_range. Qed.
Lemma s8_any v : - 2 ^ 7 ≤ s8 v < 2 ^ 7.
Proof. unfold s8. pose proof (Z.mod_pos_bound (v + 2 ^ 7) (2 ^ 8) ltac:(done)). lia. Qed.
Lemma s16_any v : - 2 ^ 15 ≤ s16 v < 2 ^ 15.
Proof. unfold s16. pose proof (Z.mod_pos_bound (v + 2 ^ 15) (2 ^ 16) ltac:(done)). lia. Qed.

(** Case analysis on the fetches of a read. *)
Ltac fetches := repeat lazymatch goal with |- context [@mbind option _ _ _ _ ?m] => let E := fresh "E" in destruct m eqn:E; cbn [mbind option_bind]; [|done] end.

Section reading.
Context (sp : super_block).

Lemma old_read_facts n d o r1 x1 : old_read n d o r1 = Some x1 → Forall (λ z, 0 ≤ z < 65536) (take 9 (i_zone x1)) ∧
  (length (i_zone r1) = Z.to_nat V2_NR_TZONES → Forall (λ z, 0 ≤ z < 2 ^ 32) (i_zone r1) → inode_typed x1) ∧
  ∀ r2, ∃ x2, old_read n d o r2 = Some x2 ∧ take 9 (i_zone x2) = take 9 (i_zone x1) ∧ i_mode x2 = i_mode x1 ∧ i_nlinks x2 = i_nlinks x1 ∧ i_uid x2 = i_uid x1 ∧ i_gid x2 = i_gid x1 ∧ i_size x2 = i_size x1.
Proof.
  unfold old_read. fetches. intros [= <-]. apply (get_zones_all _ (λ z, 0 ≤ z < 65536)) in E5 as [Hl Hz]; [|intros k y Hy; destruct (get16 d k); [|done]; injection Hy as <-; apply conv2_any].
  change (Z.to_nat V1_NR_TZONES) with 9%nat in *. destruct r1. cbn in Hz |- *. rewrite <- Hl, take_app_length. split; [done|]. split.
  - intros H1 H2. split; cbn; try done; try (apply conv4_range, s32_range); try apply s8_any; try apply s16_any; try apply u32_range; try apply conv2_any.
    + rewrite length_app, length_drop, H1, Hl. done.
    + apply Forall_app. split; [|by apply Forall_drop]. eapply Forall_impl; [exact Hz|]. cbn. lia.
  - intros r2. eexists. split; [reflexivity|]. cbn. by rewrite take_app_length.
Qed.

Lemma new_read_facts n d o r1 x1 : new_read n d o r1 = Some x1 → inode_typed x1 ∧
  ∀ r2, ∃ x2, new_read n d o r2 = Some x2 ∧ i_zone x2 = i_zone x1 ∧ i_mode x2 = i_mode x1 ∧ i_nlinks x2 = i_nlinks x1 ∧ i_uid x2 = i_uid x1 ∧ i_gid x2 = i_gid x1 ∧ i_size x2 = i_size x1.
Proof.
  unfold new_read. fetches. intros [= <-]. apply (get_zones_all _ (λ z, 0 ≤ z < 2 ^ 32)) in E7 as [Hl Hz]; [|intros k y Hy; destruct (get32 d k); [|done]; injection Hy as <-; apply conv_zone_range].
  split; [|intros r2; by eexists]. split; cbn; try done; try (apply conv4_range, s32_range); try apply s8_any; try apply s16_any; try apply u32_range; apply conv2_any.
Qed.

(** The inode read fits, if the slot did. *)
Lemma ino_read_fits d o r x : ino_read sp d o r = Some x → length (i_zone r) = Z.to_nat V2_NR_TZONES → Forall (λ z, 0 ≤ z < 2 ^ 32) (i_zone r) → ino_fits sp x.
Proof.
  unfold ino_read, ino_fits. destruct (_ =? V1); intros Hr Hl Hz.
  - destruct (old_read_facts _ _ _ _ _ Hr) as (H1 & H2 & _). split; [by apply H2|]. intros _. eapply Forall_impl; [exact H1|]. cbn. lia.
  - destruct (new_read_facts _ _ _ _ _ Hr) as [H1 _]. by split.
Qed.

(** Inode [n] of a block shows [v], whatever slot it is read into. *)
Definition shows (d : block_data) (n : Z) (v : iview) : Prop := ∀ r x, ino_read sp d (ino_off sp n) r = Some x → view sp x = v.

Lemma shows_read d n r x : ino_read sp d (ino_off sp n) r = Some x → shows d n (view sp x).
Proof.
  unfold shows, ino_read, view, nr_tzones. destruct (_ =? V1); intros Hr r2 x2 Hr2.
  - destruct (old_read_facts _ _ _ _ _ Hr) as (_ & _ & H). destruct (H r2) as (y & Hy & E1 & E2 & E3 & E4 & E5 & E6). rewrite Hy in Hr2. injection Hr2 as <-. congruence.
  - destruct (new_read_facts _ _ _ _ _ Hr) as [_ H]. destruct (H r2) as (y & Hy & E1 & E2 & E3 & E4 & E5 & E6). rewrite Hy in Hr2. injection Hr2 as <-. congruence.
Qed.

Lemma shows_write d n ip : wf_block d → ino_fits sp ip → shows (ino_write sp d (ino_off sp n) ip) n (view sp ip).
Proof.
  intros Hd Hf r x. rewrite ino_through by done. intros [= <-]. pose proof (it_len _ (proj1 Hf)) as Hl. change (Z.to_nat V2_NR_TZONES) with 10%nat in Hl.
  unfold view, reread, nr_tzones. destruct (_ =? V1); [|done]. cbn. f_equal. rewrite take_app_le by (rewrite length_take; lia). by rewrite take_take.
Qed.

Lemma shows_other d n m ip v : ino_fits sp ip → n ≠ m → ino_block sp n = ino_block sp m → shows d m v → shows (ino_write sp d (ino_off sp n) ip) m v.
Proof. intros Hf Hne Hb Hs r x. rewrite ino_read_other; [apply Hs|apply Hf|done|done]. Qed.
End reading.

(** Reading an inode leaves the fields alone that are not on the disk. *)
Lemma ino_read_frame sp d o r x : ino_read sp d o r = Some x → i_count x = i_count r ∧ i_dev x = i_dev r ∧ i_num x = i_num r ∧ i_pipe x = i_pipe r.
Proof. unfold ino_read, old_read, new_read. destruct (_ =? V1); fetches; intros [= <-]; by destruct r. Qed.

Lemma view_touched sp now ip : view sp (touched now ip) = view sp ip.
Proof. unfold touched. by destruct (_ =? 0). Qed.
Lemma touched_frame now ip : i_count (touched now ip) = i_count ip ∧ i_pipe (touched now ip) = i_pipe ip ∧ i_zone (touched now ip) = i_zone ip.
Proof. unfold touched. by destruct (_ =? 0). Qed.

(** ** The table *)
Section table.
Context {D : Driver} {RD : Reliable D}.
Context (nr dev i : Z) (sp : super_block) (N : Z).
Implicit Types st : istate.

(** What the clients know: what is stored in every inode of the device, and which
    inode is in which slot of the table, with the number of its uses. *)
Abbreviation views := (Z → iview).
Abbreviation uses := (gmap Z (Z * Z)).

(** Inode [n] on disk. *)
Definition on_disk (a : acache) (n : Z) (v : iview) : Prop := shows sp (a_disk a dev (ino_block sp n)) n v.

(** An inode in use has a slot with its contents, which the disk has too unless
    the slot is dirty. *)
Definition slot_ok (a : acache) (V : views) (ip : inode) (t : option (Z * Z)) : Prop :=
  i_pipe ip = NO_PIPE ∧ length (i_zone ip) = Z.to_nat V2_NR_TZONES ∧ Forall (λ z, 0 ≤ z < 2 ^ 32) (i_zone ip) ∧
  match t with
  | None => i_count ip = 0
  | Some (n, c) => 0 < c ∧ i_count ip = c ∧ i_dev ip = dev ∧ i_num ip = n ∧ 1 ≤ n ≤ N ∧ ino_fits sp ip ∧ view sp ip = V n ∧ (i_dirt ip = DIRTY ∨ on_disk a n (V n))
  end.

Record tab_inv st (V : views) (T : uses) (a : acache) (free : gset Z) : Prop := {
  ti_zone : zone_inv nr dev (fsys st) i sp a free;
  ti_ino n : 1 ≤ n ≤ N → ino_ok nr dev sp a n;
  ti_clock : clock_status st = FS_OK ∧ - 2 ^ 31 ≤ clock_now st < 2 ^ 31;
  ti_slot s : 0 ≤ s < NR_INODES → ∃ ip, inodes st !! s = Some ip ∧ slot_ok a V ip (T !! s);
  ti_dom s t : T !! s = Some t → 0 ≤ s < NR_INODES;
  ti_uniq s s' n c c' : T !! s = Some (n, c) → T !! s' = Some (n, c') → s = s';
  ti_rest n : 1 ≤ n ≤ N → (∀ s c, T !! s ≠ Some (n, c)) → on_disk a n (V n);
}.

(** A change that concerns one slot and inode [n] only. *)
Record only_slot (s n : Z) (V V' : views) (T T' : uses) (a a' : acache) : Prop := {
  os_slot : 0 ≤ s < NR_INODES;
  os_uses s' : s' ≠ s → T' !! s' = T !! s';
  os_views m : m ≠ n → V' m = V m;
  os_disk m v : m ≠ n → 1 ≤ m ≤ N → on_disk a m v → on_disk a' m v;
  os_ino m : 1 ≤ m ≤ N → ino_ok nr dev sp a' m;
  os_alone s' c : s' ≠ s → T !! s' ≠ Some (n, c);
  os_before m c : T !! s = Some (m, c) → m = n;
  os_after m c : T' !! s = Some (m, c) → m = n;
  os_rest : (∀ c, T' !! s ≠ Some (n, c)) → 1 ≤ n ≤ N → on_disk a' n (V' n);
}.

Lemma tab_change st st' V V' T T' a a' free s n ip' : tab_inv st V T a free → only_slot s n V V' T T' a a' →
  zone_inv nr dev (fsys st') i sp a' free → (clock_status st', clock_now st') = (clock_status st, clock_now st) → inodes st' = <[s := ip']> (inodes st) → slot_ok a' V' ip' (T' !! s) → tab_inv st' V' T' a' free.
Proof.
  intros [H1 H2 H3 H4 H5 H6 H7] [A1 A2 A3 A4 A5 A6 A7 A8 A9] Hz [= Hk Hc] Hi Hs. split; [done|done|by rewrite Hk, Hc|..].
  - intros s' Hs'. rewrite Hi. destruct (decide (s' = s)) as [->|Hne]; [rewrite lookup_insert_eq; by eexists|]. rewrite lookup_insert_ne, A2 by done. destruct (H4 s' Hs') as (ip & Hip & Hok). exists ip. split; [done|].
    destruct Hok as (B1 & B2 & B3 & B4). split; [done|]. split; [done|]. split; [done|]. destruct (T !! s') as [[m c]|] eqn:E; [|done]. assert (m ≠ n) by (intros ->; by apply (A6 s' c)).
    destruct B4 as (C1 & C2 & C3 & C4 & C5 & C6 & C7 & C8). rewrite A3 by done. do 7 (split; [done|]). destruct C8; [by left|right; auto].
  - intros s' t Ht. destruct (decide (s' = s)) as [->|Hne]; [done|]. rewrite A2 in Ht by done. by eapply H5.
  - intros s1 s2 m c c' E1 E2. destruct (decide (s1 = s)) as [->|N1], (decide (s2 = s)) as [->|N2]; [done|..].
    + apply A8 in E1 as ->. rewrite A2 in E2 by done. by destruct (A6 s2 c' N2 E2).
    + apply A8 in E2 as ->. rewrite A2 in E1 by done. by destruct (A6 s1 c N1 E1).
    + rewrite A2 in E1, E2 by done. by eapply H6.
  - intros m Hm Hno. destruct (decide (m = n)) as [->|Hne]; [apply A9; [by intros c|done]|]. rewrite A3 by done. apply A4; [done|done|]. apply H7; [done|]. intros s' c E.
    destruct (decide (s' = s)) as [->|N']; [by apply Hne, (A7 m c)|]. apply (Hno s' c). by rewrite A2.
Qed.

(** A slot in use changes, and the disk does not. *)
Lemma only_held st V T a free s n c V' T' : tab_inv st V T a free → T !! s = Some (n, c) → (∀ m, m ≠ n → V' m = V m) → (∀ s', s' ≠ s → T' !! s' = T !! s') →
  (∀ m c', T' !! s = Some (m, c') → m = n) → ((∀ c', T' !! s ≠ Some (n, c')) → on_disk a n (V' n)) → only_slot s n V V' T T' a a.
Proof.
  intros Ht Hs HV HT Ha Hr. split; try done; [by eapply ti_dom|by apply Ht| |intros m c'; rewrite Hs; by intros [= -> _]|auto].
  intros s' c' Hne E. apply Hne. by eapply (ti_uniq _ _ _ _ _ Ht).
Qed.

(** ** Looking for an inode *)
Lemma inode_scan_spec st V T a free n m j xp : tab_inv st V T a free → 0 ≤ j → j + Z.of_nat m ≤ NR_INODES →
  (∃ s c, T !! s = Some (n, c) ∧ inode_scan m j dev n xp st = Ok st (inl s)) ∨
  (∀ s c, j ≤ s < j + Z.of_nat m → T !! s ≠ Some (n, c)) ∧ ∃ xo, inode_scan m j dev n xp st = Ok st (inr xo) ∧
    match xo with Some s => xo = xp ∨ T !! s = None ∧ j ≤ s < j + Z.of_nat m | None => xp = None ∧ ∀ s, j ≤ s < j + Z.of_nat m → is_Some (T !! s) end.
Proof.
  intros Ht. revert j xp. induction m as [|m IH]; intros j xp Hj Hm; cbn [inode_scan].
  { right. split; [lia|]. exists xp. split; [done|]. destruct xp; [by left|]. split; [done|lia]. }
  destruct (ti_slot _ _ _ _ _ Ht j ltac:(lia)) as (ip & Hip & _ & _ & _ & Hok). rewrite (bind_ok _ _ _ _ _ (ld_inode_ok _ _ _ Hip)).
  destruct (T !! j) as [[k c]|] eqn:Ej.
  - destruct Hok as (C1 & C2 & C3 & C4 & _). rewrite C2, C3, C4, Z.gtb_ltb, (proj2 (Z.ltb_lt _ _) C1), Z.eqb_refl. cbn [andb]. destruct (Z.eqb_spec k n) as [->|Hne]; [left; eauto|].
    destruct (IH (j + 1) xp ltac:(lia) ltac:(lia)) as [H|(Hno & xo & Hr & Hxo)]; [by left|right]. split; [intros s c' Hs E; destruct (decide (s = j)) as [->|]; [congruence|by apply (Hno s c'); [lia|]]|].
    exists xo. split; [done|]. destruct xo as [s|]; [destruct Hxo as [?|[? ?]]; [by left|right; split; [done|lia]]|]. destruct Hxo as [? Hall]. split; [done|]. intros s Hs. destruct (decide (s = j)) as [->|]; [by rewrite Ej|apply Hall; lia].
  - rewrite Hok. change (0 >? 0) with false. cbn match. destruct (IH (j + 1) (Some j) ltac:(lia) ltac:(lia)) as [H|(Hno & xo & Hr & Hxo)]; [by left|right].
    split; [intros s c' Hs E; destruct (decide (s = j)) as [->|]; [congruence|by apply (Hno s c'); [lia|]]|]. exists xo. split; [done|].
    destruct xo as [s|]; [|by destruct Hxo]. right. destruct Hxo as [[= ->]|[? ?]]; [split; [done|lia]|split; [done|lia]].
Qed.

(** ** The calls *)

(** One more user of a slot. *)
Lemma get_hit st V T a free s n c : tab_inv st V T a free → T !! s = Some (n, c) →
  ∃ st', dup_inode s st = Ok st' () ∧ tab_inv st' V (<[s := (n, c + 1)]> T) a free.
Proof.
  intros Ht Hs. destruct (ti_slot _ _ _ _ _ Ht s (ti_dom _ _ _ _ _ Ht _ _ Hs)) as (ip & Hip & B1 & B2 & B3 & B4). rewrite Hs in B4. destruct B4 as (C1 & C2 & C3 & C4 & C5 & C6 & C7 & C8).
  eexists. split; [by apply st_inode_ok|]. eapply (tab_change _ _ _ V _ _ _ a _ s n); [exact Ht| |apply Ht|done|reflexivity|].
  - eapply only_held; [exact Ht|exact Hs|done|intros; by rewrite lookup_insert_ne|rewrite lookup_insert_eq; by intros ? ? [= -> _]|]. intros Hno. rewrite lookup_insert_eq in Hno. by destruct (Hno (c + 1)).
  - rewrite lookup_insert_eq. split; [done|]. split; [done|]. split; [done|]. cbn. rewrite C2. split; [lia|]. split; [lia|]. do 3 (split; [done|]). split; [|done]. destruct C6 as [[] ?]. by split.
Qed.

(** A free slot is filled from the disk. *)
Lemma get_load st V T a free s n : dev ≠ NO_DEV → tab_inv st V T a free → 1 ≤ n ≤ N → 0 ≤ s < NR_INODES → T !! s = None → (∀ s' c, T !! s' ≠ Some (n, c)) →
  ∃ st', (st_inode s (λ r, r <| i_dev := dev |> <| i_num := u16 n |> <| i_count := 1 |>);;
          (if negb (dev =? NO_DEV) then rw_inode s READING else mret ());;
          st_inode s (λ r, r <| i_update := 0 |>);;
          mret (Some s)) st = Ok st' (Some s) ∧ tab_inv st' V (<[s := (n, 1)]> T) a free.
Proof.
  intros Hdev Ht Hn Hs HT Hno. destruct (ti_slot _ _ _ _ _ Ht s Hs) as (ip & Hip & B1 & B2 & B3 & _). pose proof (ti_ino _ _ _ _ _ Ht n Hn) as Hi.
  pose proof (io_num _ _ _ _ _ Hi) as Hr. rewrite (bind_ok _ _ _ _ _ (st_inode_ok _ _ _ _ Hip)), (proj2 (Z.eqb_neq _ _) Hdev), (u16_id n) by lia. cbn [negb].
  set (ip1 := ip <| i_dev := dev |> <| i_num := n |> <| i_count := 1 |>). set (st1 := st <| inodes ::= _ |>).
  destruct (rw_read_spec nr dev st1 i sp a free (ti_zone _ _ _ _ _ Ht) s ip1 (lookup_insert_eq _ _ _) eq_refl Hi) as (c & x & Hx & Hrd & HR). cbn [i_num ip1] in Hx.
  erewrite bind_ok; [|exact Hrd]. erewrite bind_ok; [|apply st_inode_ok, lookup_insert_eq]. eexists. split; [reflexivity|].
  destruct (ino_read_frame _ _ _ _ _ Hx) as (F1 & F2 & F3 & F4).
  eapply (tab_change _ _ V V T _ a a _ s n); [exact Ht| | |done| |].
  - split; try done; [intros; by rewrite lookup_insert_ne|apply Ht|intros; by rewrite HT in *|rewrite lookup_insert_eq; by intros ? ? [= -> _]|]. intros Hno'. rewrite lookup_insert_eq in Hno'. by destruct (Hno' 1).
  - apply (zone_inv_cache nr dev (fsys st) i sp a free c a (ti_zone _ _ _ _ _ Ht) HR); [apply (zi_room _ _ _ _ _ _ _ (ti_zone _ _ _ _ _ Ht))|done].
  - unfold put_both, with_cache, st1, upd. cbn. by rewrite !insert_insert_eq.
  - rewrite lookup_insert_eq. pose proof (ino_read_fits _ _ _ _ _ Hx B2 B3) as Hfit. pose proof (proj1 Hfit) as [? ? ? ? ? ? ? ? ? ?]. cbn [i_pipe i_count i_dev i_num ip1] in *.
    split; [by etransitivity; [exact F4|]|]. split; [done|]. split; [done|]. split; [lia|]. split; [exact F1|]. split; [exact F2|]. split; [exact F3|]. split; [done|].
    pose proof (ti_rest _ _ _ _ _ Ht n Hn Hno) as Hdisk. split; [split; [by split|apply Hfit]|]. split; [exact (Hdisk _ _ Hx)|by right].
Qed.

Lemma get_inode_spec st V T a free n : dev ≠ NO_DEV → tab_inv st V T a free → 1 ≤ n ≤ N →
  (∃ s c st', T !! s = Some (n, c) ∧ get_inode dev n st = Ok st' (Some s) ∧ tab_inv st' V (<[s := (n, c + 1)]> T) a free) ∨
  (∀ s c, T !! s ≠ Some (n, c)) ∧
  ((∃ s st', 0 ≤ s < NR_INODES ∧ T !! s = None ∧ get_inode dev n st = Ok st' (Some s) ∧ tab_inv st' V (<[s := (n, 1)]> T) a free) ∨
   (∃ st', (∀ s, 0 ≤ s < NR_INODES → is_Some (T !! s)) ∧ get_inode dev n st = Ok st' None ∧ err_code (fsys st') = FS_ENFILE ∧ tab_inv st' V T a free)).
Proof.
  intros Hdev Ht Hn. unfold get_inode. destruct (inode_scan_spec st V T a free n (Z.to_nat NR_INODES) 0 None Ht) as [(s & c & Hs & Hr)|(Hno & xo & Hr & Hxo)]; [done|done|left|right]; rewrite (bind_ok _ _ _ _ _ Hr).
  - destruct (get_hit _ _ _ _ _ _ _ _ Ht Hs) as (st' & Hd & Ht'). exists s, c, st'. rewrite (bind_ok _ _ _ _ _ Hd). done.
  - assert (Hno' : ∀ s c, T !! s ≠ Some (n, c)) by (intros s c E; exact (Hno s c (ti_dom _ _ _ _ _ Ht _ _ E) E)). split; [done|]. destruct xo as [s|]; [left|right].
    + destruct Hxo as [?|[HT Hs]]; [done|]. destruct (get_load st V T a free s n Hdev Ht Hn Hs HT Hno') as (st' & Hr' & Ht'). by exists s, st'.
    + destruct Hxo as [_ Hall]. eexists. split; [exact Hall|]. erewrite bind_ok; [|apply in_fs_ok; reflexivity]. split; [reflexivity|]. split; [done|]. destruct Ht as [[Z1 Z2 Z3 Z4 Z5 Z6 Z7 Z8 Z9 Z10 Z11 Z12] H2 H3 H4 H5 H6 H7]. by split.
Qed.

(** The slot is written back. *)
Lemma write_back st0 st V T a free s n ip : tab_inv st0 V T a free → fsys st = fsys st0 → (clock_status st, clock_now st) = (clock_status st0, clock_now st0) → inodes st = <[s := ip]> (inodes st0) → T !! s = Some (n, 1) → slot_ok a V (ip <| i_count := 1 |>) (Some (n, 1)) → i_count ip = 0 →
  ∃ st' a', rw_inode s WRITING st = Ok st' () ∧ tab_inv st' V (delete s T) a' free.
Proof.
  intros Ht Efs Eck Ein Hs (B1 & B2 & B3 & _ & _ & C3 & C4 & C5 & C6 & C7 & _) Hc. cbn in C3, C4. pose proof (ti_zone _ _ _ _ _ Ht) as Hz. rewrite <- Efs in Hz.
  assert (Hip : inodes st !! s = Some ip) by (rewrite Ein; apply lookup_insert_eq). pose proof (ti_ino _ _ _ _ _ Ht n C5) as Hi.
  rewrite <- C4 in Hi. destruct (rw_write_spec nr dev st i sp a free Hz s ip Hip C3 Hi) as (c & Hr & HR);
    [left; injection Eck as -> _; apply Ht|]. cbn zeta in Hr, HR. rewrite C4 in *. set (ip1 := touched _ _) in *. set (b := ino_block sp n) in *.
  set (a' := mk_acache _ _) in HR. assert (Hfit : ino_fits sp ip1). { apply touched_fits; [|injection Eck as _ ->; apply Ht]. destruct C6 as [[] Hv1]. by split; [split|]. }
  eexists _, a'. split; [exact Hr|]. destruct (touched_frame (clock_now st) (ip <| i_sp := Some i |>)) as (F1 & F2 & F3). fold ip1 in F1, F2, F3.
  assert (Hother : ∀ m v, m ≠ n → 1 ≤ m ≤ N → on_disk a m v → on_disk a' m v).
  { intros m v Hm _ Hv. unfold on_disk, a'. cbn [a_disk]. unfold cset. case_decide as E; [|done]. destruct E as [_ E]. apply shows_other; [done|congruence|by rewrite E|]. rewrite <- E. exact Hv. }
  eapply (tab_change _ _ V V T _ a a' _ s n); [exact Ht| | |done|cbn; by rewrite Ein, insert_insert_eq|].
  - split; [by eapply ti_dom|intros; by rewrite lookup_delete_ne|done|exact Hother| | | |by rewrite lookup_delete_eq|].
    + intros m Hm. destruct (ti_ino _ _ _ _ _ Ht m Hm) as [I1 I2 I3 I4 I5]. split; try done. unfold a'. cbn [a_disk]. unfold cset. case_decide as E; [|done]. apply ino_write_wf, (io_wf _ _ _ _ _ Hi).
    + intros s' c' Hne E. apply Hne. by eapply (ti_uniq _ _ _ _ _ Ht).
    + intros m c'. rewrite Hs. by intros [= -> _].
    + intros _ _. unfold on_disk, a'. cbn [a_disk]. unfold cset. rewrite decide_True by done. rewrite <- C7. change (view sp (ip <| i_count := 1 |>)) with (view sp (ip <| i_sp := Some i |>)).
      rewrite <- (view_touched sp (clock_now st)). apply shows_write; [apply (io_wf _ _ _ _ _ Hi)|done].
  - apply (zone_inv_cache nr dev (fsys st) i sp a free c a' Hz HR); [eapply roomy_pins; [reflexivity|apply Hz]|]. intros blk Hb. unfold a'. cbn [a_disk]. unfold cset. rewrite decide_False; [done|].
    intros [_ ->]. by apply (ino_not_map nr dev sp a n).
  - rewrite lookup_delete_eq. split; [exact (eq_trans F2 B1)|]. change (length (i_zone ip1) = Z.to_nat V2_NR_TZONES ∧ Forall (λ z, 0 ≤ z < 2 ^ 32) (i_zone ip1) ∧ i_count ip1 = 0). rewrite F1, F3. done.
Qed.

Lemma put_inode_spec st V T a free s n c : tab_inv st V T a free → T !! s = Some (n, c) → (c = 1 → Z.land (v_nlinks (V n)) BYTE ≠ 0) →
  ∃ st' a', put_inode (Some s) st = Ok st' () ∧ tab_inv st' V (if decide (c = 1) then delete s T else <[s := (n, c - 1)]> T) a' free.
Proof.
  intros Ht Hs Hl. destruct (ti_slot _ _ _ _ _ Ht s (ti_dom _ _ _ _ _ Ht _ _ Hs)) as (ip & Hip & B1 & B2 & B3 & B4). rewrite Hs in B4. destruct B4 as (C1 & C2 & C3 & C4 & C5 & C6 & C7 & C8).
  unfold put_inode. erewrite bind_ok; [|by apply st_inode_ok]. erewrite bind_ok; [|apply ld_inode_ok, lookup_insert_eq]. set (ip1 := ip <| i_count ::= Z.pred |>). set (st1 := st <| inodes ::= _ |>).
  change (i_count ip1) with (Z.pred (i_count ip)). rewrite C2. assert (Hfit : ∀ k d, ino_fits sp (ip <| i_count := k |> <| i_pipe := d |>)) by (intros; destruct C6 as [[] ?]; by split; [split|]).
  assert (Eip : ip1 = ip <| i_count := c - 1 |>) by (unfold ip1, upd; cbn; rewrite C2; by rewrite <- Z.sub_1_r).
  destruct (Z.eqb_spec (Z.pred c) 0) as [E|E]; cbn [negb].
  - assert (c = 1) as -> by lia. rewrite decide_True by done. assert (Hv : i_nlinks ip = v_nlinks (V n)) by (by rewrite <- C7). change (i_nlinks ip1) with (i_nlinks ip). change (i_pipe ip1) with (i_pipe ip).
    rewrite Hv, (proj2 (Z.eqb_neq _ _) (Hl eq_refl)), B1. change (NO_PIPE =? I_PIPE) with false. cbn match. rewrite ret_bind.
    erewrite bind_ok; [|apply st_inode_ok, lookup_insert_eq]. erewrite bind_ok; [|apply ld_inode_ok, lookup_insert_eq]. set (st2 := st1 <| inodes ::= _ |>). set (ip2 := ip1 <| i_pipe := NO_PIPE |>) in *.
    assert (Ein : inodes st2 = <[s := ip2]> (inodes st)) by (unfold st2, st1, upd; cbn; by rewrite insert_insert_eq). assert (Hc2 : i_count ip2 = 0) by (change (i_count ip1 = 0); by rewrite Eip).
    change (i_dirt ip2) with (i_dirt ip). destruct (Z.eqb_spec (i_dirt ip) DIRTY) as [Ed|Ed].
    + eapply (write_back st); [done|done|done|exact Ein|done| |done]. split; [done|]. split; [done|]. split; [done|]. do 5 (split; [done|]). split; [exact (Hfit 1 NO_PIPE)|]. by split.
    + eexists _, a. split; [reflexivity|]. eapply (tab_change _ _ _ V _ _ _ a _ s n); [exact Ht| |apply Ht|done|exact Ein|].
      * eapply only_held; [exact Ht|exact Hs|done|intros; by rewrite lookup_delete_ne|by rewrite lookup_delete_eq|]. intros _. by destruct C8.
      * rewrite lookup_delete_eq. done.
  - rewrite decide_False by lia. eexists _, a. split; [reflexivity|]. eapply (tab_change _ _ _ V _ _ _ a _ s n); [exact Ht| |apply Ht|done|reflexivity|].
    + eapply only_held; [exact Ht|exact Hs|done|intros; by rewrite lookup_insert_ne|rewrite lookup_insert_eq; by intros ? ? [= -> _]|]. intros Hno. rewrite lookup_insert_eq in Hno. by destruct (Hno (c - 1)).
    + rewrite lookup_insert_eq, Eip. split; [done|]. split; [done|]. split; [done|]. split; [lia|]. do 4 (split; [done|]). split; [exact (Hfit (c - 1) (i_pipe ip))|done].
Qed.

(** New values in a slot that is held. *)
Lemma store_spec st V T a free s n c w : tab_inv st V T a free → T !! s = Some (n, c) → view_ok sp w →
  ∃ st', st_inode s (put_view w) st = Ok st' () ∧ tab_inv st' (λ m, if decide (m = n) then w else V m) T a free.
Proof.
  intros Ht Hs Hw. destruct (ti_slot _ _ _ _ _ Ht s (ti_dom _ _ _ _ _ Ht _ _ Hs)) as (ip & Hip & B1 & B2 & B3 & B4). rewrite Hs in B4. destruct B4 as (C1 & C2 & C3 & C4 & C5 & C6 & C7 & C8).
  pose proof (put_view_fits sp w ip Hw C6) as Hfit. pose proof (proj1 Hfit) as [_ _ _ _ _ _ _ _ Hlen Hzs].
  eexists. split; [by apply st_inode_ok|]. eapply (tab_change _ _ _ _ _ _ _ a _ s n); [exact Ht| |apply Ht|done|reflexivity|].
  - eapply only_held; [exact Ht|exact Hs|intros; by rewrite decide_False|done|rewrite Hs; by intros ? ? [= -> _]|]. intros Hno. by destruct (Hno c).
  - rewrite Hs. split; [done|]. split; [done|]. split; [done|]. split; [done|]. do 4 (split; [done|]). split; [done|]. rewrite decide_True by done. split; [by apply put_view_view|by left].
Qed.

(** ** Sequences of calls *)

(** Get the inode of a number, use a slot once more, give up a use of a slot, look at
    a slot, store into a slot. *)
Inductive top := TGet (n : Z) | TDup (s : Z) | TPut (s : Z) | TLook (s : Z) | TStore (s : Z) (w : iview).
Inductive tres := RSlot (o : option Z) | RView (v : iview) | RDone.

Definition run_top (op : top) : M istate tres :=
  match op with
  | TGet n => o ← get_inode dev n; mret (RSlot o)
  | TDup s => dup_inode s;; mret RDone
  | TPut s => put_inode (Some s);; mret RDone
  | TLook s => ip ← ld_inode s; mret (RView (view sp ip))
  | TStore s w => st_inode s (put_view w);; mret RDone
  end.

Fixpoint tdrive (k : nat) (client : list tres → top) (h : list tres) : M istate (list tres) :=
  match k with O => mret h | S k' => x ← run_top (client h); tdrive k' client (h ++ [x]) end.

(** The table as its clients see it: every inode has one slot at most; a new slot
    is any free one; the table is full when all slots are in use by other inodes. *)
Inductive tstep : top → tres → views * uses → views * uses → Prop :=
  | T_hit n s c V T : T !! s = Some (n, c) → tstep (TGet n) (RSlot (Some s)) (V, T) (V, <[s := (n, c + 1)]> T)
  | T_load n s V T : (∀ s' c, T !! s' ≠ Some (n, c)) → 0 ≤ s < NR_INODES → T !! s = None → tstep (TGet n) (RSlot (Some s)) (V, T) (V, <[s := (n, 1)]> T)
  | T_full n V T : (∀ s' c, T !! s' ≠ Some (n, c)) → (∀ s, 0 ≤ s < NR_INODES → is_Some (T !! s)) → tstep (TGet n) (RSlot None) (V, T) (V, T)
  | T_dup n s c V T : T !! s = Some (n, c) → tstep (TDup s) RDone (V, T) (V, <[s := (n, c + 1)]> T)
  | T_put n s c V T : T !! s = Some (n, c) → tstep (TPut s) RDone (V, T) (V, if decide (c = 1) then delete s T else <[s := (n, c - 1)]> T)
  | T_look n s c V T : T !! s = Some (n, c) → tstep (TLook s) (RView (V n)) (V, T) (V, T)
  | T_store n s c w V T : T !! s = Some (n, c) → tstep (TStore s w) RDone (V, T) (λ m, if decide (m = n) then w else V m, T).

Inductive ttrace (client : list tres → top) : nat → views * uses → list tres → views * uses → list tres → Prop :=
  | TT_done x h : ttrace client 0 x h x h
  | TT_step k x h r x1 x2 h2 : tstep (client h) r x x1 → ttrace client k x1 (h ++ [r]) x2 h2 → ttrace client (S k) x h x2 h2.

(** The calls the theorem is about: numbers of inodes, slots that are held.  The
    last use of an inode without links is not given up: [put_inode] would delete its
    file, free its zones and the inode. *)
Definition tlegal (op : top) (x : views * uses) : Prop :=
  match op with
  | TGet n => 1 ≤ n ≤ N
  | TDup s => is_Some (x.2 !! s)
  | TPut s => ∃ n c, x.2 !! s = Some (n, c) ∧ (c = 1 → Z.land (v_nlinks (x.1 n)) BYTE ≠ 0)
  | TLook s => is_Some (x.2 !! s)
  | TStore s w => is_Some (x.2 !! s) ∧ view_ok sp w
  end.

Lemma top_step st V T a free op : dev ≠ NO_DEV → tab_inv st V T a free → tlegal op (V, T) →
  ∃ st' r V' T' a', run_top op st = Ok st' r ∧ tstep op r (V, T) (V', T') ∧ tab_inv st' V' T' a' free.
Proof.
  intros Hdev Ht. destruct op as [n|s|s|s|s w]; cbn [tlegal run_top fst snd].
  - intros Hn. destruct (get_inode_spec st V T a free n Hdev Ht Hn) as [(s & c & st' & Hs & Hr & Ht')|(Hno & [(s & st' & Hs & HT & Hr & Ht')|(st' & Hall & Hr & _ & Ht')])]; rewrite (bind_ok _ _ _ _ _ Hr);
      (eexists _, _, _, _, a; split; [reflexivity|]; split; [|exact Ht']); [by apply T_hit|by apply T_load|by apply T_full].
  - intros [[n c] Hs]. destruct (get_hit st V T a free s n c Ht Hs) as (st' & Hr & Ht'). rewrite (bind_ok _ _ _ _ _ Hr). eexists _, _, _, _, a. split; [reflexivity|]. split; [by apply T_dup|exact Ht'].
  - intros (n & c & Hs & Hl). destruct (put_inode_spec st V T a free s n c Ht Hs Hl) as (st' & a' & Hr & Ht'). rewrite (bind_ok _ _ _ _ _ Hr). eexists _, _, _, _, a'. split; [reflexivity|]. split; [by apply T_put|exact Ht'].
  - intros [[n c] Hs]. destruct (ti_slot _ _ _ _ _ Ht s (ti_dom _ _ _ _ _ Ht _ _ Hs)) as (ip & Hip & _ & _ & _ & B4). rewrite Hs in B4. destruct B4 as (_ & _ & _ & _ & _ & _ & C7 & _).
    rewrite (bind_ok _ _ _ _ _ (ld_inode_ok _ _ _ Hip)), C7. eexists _, _, V, T, a. split; [reflexivity|]. split; [by eapply T_look|done].
  - intros [[[n c] Hs] Hw]. destruct (store_spec st V T a free s n c w Ht Hs Hw) as (st' & Hr & Ht'). rewrite (bind_ok _ _ _ _ _ Hr). eexists _, _, _, _, a. split; [reflexivity|]. split; [by eapply T_store|exact Ht'].
Qed.

(** C34: The inode table is an invisible write-back cache as long as no file is
    deleted.  For every sequence of [get_inode], [dup_inode] and [put_inode] calls on a
    device and of stores into slots that are held, in which the last use of an inode
    without links is never given up (that deletes the file) and no inode is a pipe,
    and with a clock task that answers: every call returns; an inode is in at most one
    slot, with the number of its uses; a slot shows the type, links, owner, size and
    zones last stored in its inode (not the times), though the inode may have been
    written back and loaded again since, into another slot, in either layout and byte
    order of the disk; and [get_inode] fails only if all slots are in use. *)
Theorem inode_table_refines k client st V T a free h : dev ≠ NO_DEV → tab_inv st V T a free →
  (∀ j x h', (j < k)%nat → ttrace client j (V, T) h x h' → tlegal (client h') x) →
  ∃ st' h' V' T' a', tdrive k client h st = Ok st' h' ∧ ttrace client k (V, T) h (V', T') h' ∧ tab_inv st' V' T' a' free.
Proof.
  intros Hdev. revert st V T a h. induction k as [|k IH]; intros st V T a h Ht Hl.
  { exists st, h, V, T, a. split; [done|]. split; [constructor|done]. }
  destruct (top_step st V T a free (client h) Hdev Ht) as (st1 & r & V1 & T1 & a1 & Hr1 & Hs1 & Ht1); [apply (Hl 0%nat (V, T)); [lia|constructor]|].
  destruct (IH st1 V1 T1 a1 (h ++ [r]) Ht1) as (st2 & h2 & V2 & T2 & a2 & Hr2 & Hs2 & Ht2); [intros j x h' Hj Hx; apply (Hl (S j)); [lia|by eapply TT_step]|].
  exists st2, h2, V2, T2, a2. cbn [tdrive]. rewrite (bind_ok _ _ _ _ _ Hr1). split; [done|]. split; [by eapply TT_step|done].
Qed.
End table.

(** ** The table on a small file system *)
#[export] Instance iview_eq : EqDecision iview.
Proof. solve_decision. Defined.

Definition no_view : iview := mk_iview 0 0 0 0 0 (replicate 9 0).
Definition some_view : iview := mk_iview 0x81ED 1 (-3) 7 123456 [11; 12; 13; 14; 15; 16; 17; 18; 0].
Definition free_slot : inode := mk_inode 0 0 0 0 0 0 0 0 (replicate 10 0) 0 0 0 0 0 None CLEAN 0 0 0 0.
Definition tab_state (c : cache) : istate := mk_istate (small_fs c) (list_to_map ((λ s, (s, free_slot)) <$> seqZ 0 NR_INODES)) 0 0 FS_OK 999.

Lemma small_inodes n : 1 ≤ n ≤ 32 → ino_block small_super n = 4 ∧ ino_ok 64 769 small_super file_abs n ∧ on_disk 769 small_super file_abs n no_view.
Proof.
  intros Hn. assert (Hb : ino_block small_super n = 4).
  { unfold ino_block. change (ino_per_block small_super) with 32. change (s_imap_blocks small_super + s_zmap_blocks small_super + 2) with 4. rewrite Z.div_small; lia. }
  assert (Hd : a_disk file_abs 769 4 = zeros) by (rewrite file_image_block by lia; done). split; [done|]. split.
  - split; rewrite ?Hb, ?Hd; [lia|reflexivity|cbn; lia|split_and!; done || lia|exact zeros_wf].
  - unfold on_disk. rewrite Hb, Hd.
    assert (H : forallb (λ k, bool_decide (view small_super <$> ino_read small_super zeros (ino_off small_super k) free_slot = Some no_view)) (seqZ 1 32) = true) by (vm_compute; reflexivity).
    rewrite forallb_forall in H. specialize (H n). assert (Hin : In n (seqZ 1 32)) by (apply list_elem_of_In, elem_of_seqZ; lia). apply H, bool_decide_eq_true_1 in Hin.
    destruct (ino_read small_super zeros (ino_off small_super n) free_slot) as [x|] eqn:E; [|done]. assert (Hv : view small_super x = no_view) by (exact (inj Some _ _ Hin)). rewrite <- Hv. by eapply shows_read.
Qed.

Lemma tab_ready c : repr 64 c file_abs → tab_inv 64 769 0 small_super 32 (tab_state c) (λ _, no_view) ∅ file_abs small_free.
Proof.
  intros HR. split.
  - exact (file_zone_inv c HR).
  - intros n Hn. by apply small_inodes.
  - cbn. lia.
  - intros s Hs. exists free_slot. rewrite lookup_empty. split; [|by split; [|split; [|split; [repeat constructor; lia|]]]].
    unfold tab_state. cbn [inodes]. apply elem_of_list_to_map_1; [|apply list_elem_of_fmap; exists s; split; [done|apply elem_of_seqZ; lia]].
    rewrite <- list_fmap_compose. cbn. rewrite list_fmap_id. apply NoDup_seqZ.
  - intros s t. by rewrite lookup_empty.
  - intros s s' n c1 c2. by rewrite lookup_empty.
  - intros n Hn _. by apply small_inodes.
Qed.

(** An inode is stored into, given up, and loaded again. *)
Definition tab_client (h : list tres) : top :=
  match h with
  | [RSlot (Some s)] => TStore s some_view
  | [RSlot (Some s); _] => TPut s
  | [_; _; _; RSlot (Some s)] => TLook s
  | _ => TGet 3
  end.

Lemma tab_client_legal j x h : (j < 5)%nat → ttrace tab_client j (λ _, no_view, ∅) [] x h → tlegal small_super 32 (tab_client h) x.
Proof.
  intros Hj Hx. inversion Hx as [|k ? ? r ? ? ? S1 X1]; subst; [cbn; lia|]. clear Hx. cbn in S1.
  inversion S1 as [? ? ? ? ? E|? s ? ? _ Hs E|? ? ? ? Hall| | | |]; subst; [by rewrite lookup_empty in E| |destruct (Hall 0 ltac:(done)) as [? Hy]; by rewrite lookup_empty in Hy].
  inversion X1 as [|k1 ? ? r ? ? ? S2 X2]; subst; [cbn; rewrite lookup_insert_eq; split; [eauto|]|].
  { split; cbn; try lia; try done. repeat constructor; lia. }
  clear X1. cbn in S2. inversion S2 as [| | | | | |? ? ? ? ? ? E2]; subst. rewrite lookup_insert_eq in E2. injection E2 as <- <-.
  inversion X2 as [|k2 ? ? r ? ? ? S3 X3]; subst; [cbn; rewrite lookup_insert_eq; exists 3, 1; split; [done|]; by rewrite decide_True|]. clear X2. cbn in S3.
  inversion S3 as [| | | |? ? ? ? ? E3| |]; subst. rewrite lookup_insert_eq in E3. injection E3 as <- <-. rewrite decide_True in X3 by done.
  inversion X3 as [|k3 ? ? r ? ? ? S4 X4]; subst; [cbn; lia|]. clear X3. cbn in S4. rewrite delete_insert_eq, delete_empty in S4.
  inversion S4 as [? ? ? ? ? E5|? s' ? ? _ Hs' E'|? ? ? ? Hall| | | |]; subst; [by rewrite lookup_empty in E5| |destruct (Hall 0 ltac:(done)) as [? Hy]; by rewrite lookup_empty in Hy].
  inversion X4 as [|k4 ? ? r ? ? ? S5 X5]; subst; [cbn; rewrite lookup_insert_eq; eauto|]. lia.
Qed.

Lemma inode_table_refines_witness : ∃ c st' h, buf_pool file_bss = Ok c () ∧ tdrive 769 small_super 5 tab_client [] (tab_state c) = Ok st' h ∧
  h = [RSlot (Some 63); RDone; RDone; RSlot (Some 63); RView some_view].
Proof.
  destruct file_ready as (c & Hr & HR). exists c.
  destruct (inode_table_refines 64 769 0 small_super 32 5 tab_client (tab_state c) (λ _, no_view) ∅ file_abs small_free [] ltac:(done) (tab_ready c HR))
    as (st' & h' & V' & T' & a' & Hrun & Ht & _); [apply tab_client_legal|].
  assert (Hh : match buf_pool file_bss with Ok c _ => match tdrive 769 small_super 5 tab_client [] (tab_state c) with Ok _ h => h | _ => [] end | _ => [] end
    = [RSlot (Some 63); RDone; RDone; RSlot (Some 63); RView some_view]) by (vm_compute; reflexivity).
  rewrite Hr, Hrun in Hh. exists st', h'. split; [exact Hr|]. split; [exact Hrun|exact Hh].
Defined.
